(* ===== verification/_CoqProject ===== *)
-Q . S2P
Prelude.v
GoStrings.v
GoStrconv.v
GoPath.v
GoFloat.v
GoFmt.v
GoFlag.v
SvcConfig.v
SvcGraph.v
Prog.v
Linux.v
Seccomp.v
Secd.v
Protocol.v
Server.v
Transport.v
Extract.v
Service.v
SvcRun.v
GoNet.v
Cpio.v
Qmp.v
Snapshot.v
MockQmp.v
Os.v
Stored.v
Netd.v
Layers.v
GoCrypto.v
Obsd.v
ObsdMain.v
Manifest.v
Builder.v
Bundle.v
System.v
Bridge.v
VsockdMain.v
CliRpc.v
Cli.v
