(* ===== verification/Prelude.v ===== *)
(** * Karim MicroVM OS: verification library

    Karim is an operating system for microVMs written in Go: a supervisor that runs as
    the first process of the guest, an isolation wrapper, a control plane over VSOCK, an
    observability daemon, and on the host the [karim] command with an image builder and
    a snapshot orchestrator.  This library models that program, component by component,
    and proves what makes each of them correct; the files follow the packages under
    [src/internal] and the programs under [src/cmd].

    ** How the program is modelled

    - A Go function without effects is a Rocq function.  [(T, error)] is [outcome T]
      (this file): a value, an error with its text, or a run-time panic.  Texts of errors
      are kept, because they travel: through replies, logs and comparisons.
    - A function with effects is a [prog E A] ([Prog]): a tree of requests, one per
      system call, library call or message, in the order of the code, with every early
      return and every ignored error.  Each component declares its requests ([sys_ev],
      [svc_ev], [net_ev], ...); a component that calls another embeds its requests
      ([translate]).  A theorem about a program quantifies over what the environment may
      answer: [wp env p Q] over a relation on a state, [safe ans P p Q] and [issues P p]
      for properties of the requests themselves, [exec] with a handler for one concrete
      environment.  [interp] carries the requests of one layer out by programs of the layer
      below, and [wp_interp] is the simulation theorem.
    - Goroutines that share state are step relations: [SvcRun.step] for the supervisor,
      [Transport.step] for the accept loops, [ObsdMain.session_step] for a trace.  A step
      is a critical section, or one system call between two; theorems hold for every
      interleaving, by induction on the reachable states.
    - Integers of the machine are [Z] with their wrap-around written out ([wrap_u],
      [wrap_s]); floats are [spec_float].  Strings and bytes are [string].
    - A Go map is a [gmap]; the order in which a [range] visits it is an argument, and
      theorems hold for every such order.
    - What is not in the repository is a parameter: JSON, tar and gzip are codecs
      (classes such as [JsonCodec], [LayerCodec], [BundleCodec], [QmpCodec]), the constants
      of [golang.org/x/sys/unix] the class [Unix], the tables of Unicode
      [UnicodeTables], the BPF machine of the kernel the class of [Seccomp].  What a
      theorem needs of them it says, and its witness has a concrete instance.

    ** The files

    The language and its library, as far as the program uses them: [GoStrings]
    ([strings], [bufio.ScanLines]), [GoStrconv] (integers, [%q]), [GoPath] ([filepath]),
    [GoFloat], [GoFmt] (floats and durations), [GoFlag] ([flag]), [GoNet] ([net.ParseIP],
    netlink messages), [GoCrypto] (SHA-256), [Linux] (constants), [Os] (requests of files,
    mounts and devices), [Prog].

    The guest.
    - [SvcConfig] ([svcd/config.go]): the TOML reader.  [ParseServiceConfig] is the parser
      of boot, [ParseServiceSpecFromBytes] that of hot loading; [apply_key] is the switch
      both contain.
    - [SvcGraph] ([svcd/graph.go]): [ResolveTopologicalSort].
    - [Seccomp] and [Secd] ([secd/], [cmd/karim-secd]): the compiler of filters with the
      profiles; capabilities; the wrapper from its flags to the [exec].
    - [Service], [SvcRun], [Bridge] ([svcd/supervisor.go], [svcd/cgroup.go],
      [cmd/karim-svcd]): one service object ([ManagedService]) and what happens under its
      lock; the interleavings of starts, stops, monitors and the reaper; the
      operations of the registry, boot and shutdown.
    - [Bundle] ([svcd/bundle.go], [pkgd/oci_spec.go]): container bundles.
    - [Protocol], [Server], [Transport] ([vsockd/]): frames; connections, dispatch and
      addresses; sockets over the descriptors of the process and the accept loops.
    - [VsockdMain] ([cmd/karim-vsockd]): the control plane as a program of its own.
    - [Obsd], [ObsdMain] ([obsd/], [ebpf/runqlat.bpf.c], [ebpf/biolatency.bpf.c],
      [cmd/karim-obsd]): the probes, the manager ([Manager]), the metrics page, the daemon.
    - [Stored], [Netd], [System] ([stored/], [netd/], [system/]): storage, network, entropy,
      clock and freezing.

    The host.
    - [Extract], [Layers] ([pkgd/]): extraction against tar-slip, layer configuration, OCI
      archives, merging.
    - [Cpio], [Manifest], [Builder] ([builder/]): the archive, the manifest, the pipeline.
    - [Qmp], [Snapshot] ([qmp/client.go], [snapshot/orchestrator.go]): the monitor's client
      and the orchestrator, first over calls ([snap_ev]) and then, by [carry_out], down to
      the two networks.
    - [MockQmp] ([testing/mock_qmp_server.go]): the monitor the integration tests run
      against, and what the client makes of it.
    - [CliRpc], [Cli] ([cmd/karim]): the commands that call the guest, and the others with
      [main].

    ** What is proved

    Confinement: services with an enabled profile and no root directory of their own start
    only through the wrapper ([Service]), which execs only after enforcement ([Secd]), with
    filters that decide like list membership ([Seccomp]); the merge of layers changes nothing
    outside its root unless a request is led through a symbolic link ([Layers], over
    [GoPath]); a bundle stays in its directory ([Bundle]).

    The supervisor: restarts are counted and bounded, and there is one process per service
    under every interleaving ([SvcRun]); the start order is a topological order and exists
    exactly without cycles ([SvcGraph]); the outcome of hot loading and of boot on every
    branch ([Bridge]).

    Data that crosses a boundary: frames ([Protocol]), specifications rendered and parsed
    ([SvcConfig]) also those written by [karim run] ([CliRpc]), layer files ([Layers], [Cli]),
    archives against an independent reader ([Cpio]), netlink messages ([Netd]), records of
    the ring buffer ([Obsd]).

    Requests and replies: every request of a connection is answered in order ([Server]); a
    command of the CLI is one request and its exit code the reply's success ([CliRpc]);
    monitor replies are never confused with events ([Qmp]); metrics that fit a frame reach
    the control plane unchanged ([ObsdMain]); histograms count what the probes recorded
    ([Obsd]).

    Reproduction: what a build records is a function of the trees it staged ([Builder]).

    Effects that must balance: descriptors ([Transport]), staging directories ([Builder]),
    the freeze and the stop of a snapshot ([Snapshot]), accept loops after [Close]
    ([Transport]).

    Refinement: unpacking an archive is the extraction of its layers in order ([Layers]);
    the orchestrator over the networks sends the messages of the abstract one
    ([Snapshot]); network configuration asks the kernel for exactly what is configured
    ([Netd]).

    Theorems that describe a fault of the code as it is are stated as such next to the
    component ([migration_loses_policy], [symlink_then_file_escapes], [bundle_tar_escapes], [rolling_update_leaks],
    [registration_failure_steals], [overlapping_requests_lost], ...).
    Where the documentation of the repository promises something else than a theorem says,
    the comment of the theorem names it.

    ** What the environments assume

    A theorem about effects says what the world may do between and inside the requests.
    Where the code ignores an error the environment may give it, and the request may have
    been carried out or not.
    - [Secd.kernel]: credentials and filters belong to a thread of the [process]; before
      every call the goroutine may move to another thread, old or new ([resched]), and
      [exec] leaves the thread that called it.  Confinement is for runs in which it did
      not move ([moved]); [migration_loses_policy] is a run in which it did.
    - [Layers.merge_env]: a file system of directories, files and links ([fsnode]).  A request
      on a path with a link in it may do anything and is noted ([crossed]), and so is a link
      that a layer brings ([linked]).
    - [Snapshot.hypervisor]: every call may fail, and a failed one may have been carried
      out; what was answered with an error is noted ([refused]).  [did] tells by the monitor's
      text whether a command was carried out, since the monitor answers a failed [savevm] with
      a text too.
    - [Stored.guest_root]: every request may fail and is then noted ([failed]).
    - [Builder.build_env]: staging changes the trees as it likes; a walk and [mksquashfs] see
      the tree that is there, and the image is a function of the flags, the last variable
      of the environment and the tree with times clamped to [SOURCE_DATE_EPOCH].  Both builds
      run the same [mksquashfs].
    - [Obsd.obs_env]: other clients add simulated events at any time.  The maps of the probes
      have 10240 entries ([max_entries]) and an update of a full one is dropped; a probe runs
      without interruption by another on the same data.
    - [CliRpc.talk], [ObsdMain.obsd_link]: the other side can be reached and its bytes are
      those of the reader; what it answers, and whether that can be decoded, is open.

    ** Fuel and bounds

    Loops that are not structural have fuel, and what they are called with is enough:
    - [kahn] gets one unit per service: each round takes a service that was not taken
      ([topo_run_total]);
    - [scan_go] gets the length of the text plus one, [quote_go] its length: every round
      consumes a byte;
    - [await_reply] gets one unit more than there are lines left ([await_reply_spec]);
    - [handle] and [forward] get the bytes of the stream: a frame has at least four;
    - [log2u_go] gets 64 rounds, one per bit ([log2u_go_log2]);
    - [parse_archive] and [read_attrs], readers used in statements, get one unit per member;
      [parse_netlink] gets the length of the buffer;
    - [bpf_go] gets what is left of the program: jumps only go forward;
    - the streams of events ([stream_simulated], [stream_kernel], [od_pump]) run as long as
      their peers do: their fuel is a number of rounds, and theorems hold for all of them.

    ** Not modelled

    The probe loaders that [bpf2go] generated ([src/ebpf/*.go]) and the probe
    [execsnoop.bpf.c], of which only the records appear; [src/init], C programs that mount
    file systems and start the supervisor; kernel configuration, scripts and documentation.
    Inside modelled components: log streaming of a service ([streamLogs]), the HTTP server of
    the metrics page and the terminal of the tabwriter are single requests; time passes only
    where a program asks for it, so timeouts are answers of the environment. *)

From stdpp Require Export base list strings gmap pretty numbers sorting.
From Stdlib Require Export ZArith Lia.

Declare Scope go_scope.
Delimit Scope go_scope with go.

(** ** Results of Go functions

    A Go function returning [(T, error)] is modelled by [outcome T]: a value,
    an error with its text ([err.Error()]), or a run-time panic (an index or
    slice expression out of range). *)

Inductive outcome (A : Type) : Type :=
| Ok (a : A)
| Err (e : string)
| Panic.
Arguments Ok {A} a.
Arguments Err {A} e.
Arguments Panic {A}.

#[export] Instance outcome_ret : MRet outcome := λ A a, Ok a.
#[export] Instance outcome_bind : MBind outcome := λ A B f m,
  match m with
  | Ok a => f a
  | Err e => Err e
  | Panic => Panic
  end.

Definition is_ok {A} (o : outcome A) : bool :=
  match o with Ok _ => true | _ => false end.

Definition is_panic {A} (o : outcome A) : bool :=
  match o with Panic => true | _ => false end.

(** [fmt.Errorf("...: %w", err)]: a prefix put before the text of an error. *)
Definition wrap_err {A} (pre : string) (o : outcome A) : outcome A :=
  match o with
  | Err e => Err (pre +:+ e)
  | o => o
  end.

(** A result that cannot panic. *)
Definition of_sum {A} (r : A + string) : outcome A :=
  match r with inl a => Ok a | inr e => Err e end.

Lemma outcome_bind_ok {A B} (m : outcome A) (f : A → outcome B) b :
  m ≫= f = Ok b ↔ ∃ a, m = Ok a ∧ f a = Ok b.
Proof.
  destruct m as [a|e|]; cbn; split.
  - intros H. by exists a.
  - intros (a' & Ha & H). by simplify_eq.
  - done.
  - by intros (? & ? & _).
  - done.
  - by intros (? & ? & _).
Qed.

Lemma wrap_err_ok {A} pre (o : outcome A) a : wrap_err pre o = Ok a ↔ o = Ok a.
Proof. by destruct o. Qed.

(** ** Monadic loops over lists *)

(** A Go [for _, x := range xs { acc, err = f(acc, x); if err ... }]. *)
Fixpoint fold_m {A B} (f : A → B → outcome A) (acc : A) (xs : list B) : outcome A :=
  match xs with
  | [] => Ok acc
  | x :: xs => acc' ← f acc x; fold_m f acc' xs
  end.

(** What every step keeps, the fold keeps. *)
Lemma fold_m_inv {A B} (P : A → Prop) (f : A → B → outcome A) acc xs acc' :
  (∀ a x a', x ∈ xs → P a → f a x = Ok a' → P a') → P acc → fold_m f acc xs = Ok acc' → P acc'.
Proof.
  revert acc. induction xs as [|x xs IH]; intros acc Hf Hacc; cbn; [by intros [= <-]|].
  destruct (f acc x) as [a|e|] eqn:Hx; cbn; [|done..]. apply IH; [|by eapply Hf; [left|..]].
  intros a' y a'' Hy. apply Hf. by right.
Qed.

Fixpoint map_m {A B} (f : A → outcome B) (xs : list A) : outcome (list B) :=
  match xs with
  | [] => Ok []
  | x :: xs => y ← f x; ys ← map_m f xs; Ok (y :: ys)
  end.

Lemma map_m_ok_Forall2 {A B} (f : A → outcome B) xs ys :
  map_m f xs = Ok ys ↔ Forall2 (λ x y, f x = Ok y) xs ys.
Proof.
  revert ys. induction xs as [|x xs IH]; intros ys; cbn.
  - split; [intros; simplify_eq; constructor|by inversion 1].
  - rewrite outcome_bind_ok. split.
    + intros (y & Hy & H). apply outcome_bind_ok in H as (ys' & Hys & H).
      simplify_eq. constructor; [done|]. by apply IH.
    + inversion 1 as [|? y ? ys' Hy Hys]; subst. exists y. split; [done|].
      apply outcome_bind_ok. exists ys'. split; [by apply IH|done].
Qed.

(** ** Machine integers

    Go's [int64]/[int] and [uint32]/[uint8] as integers with their wrap-around
    written out. *)

Definition wrap_u (w : Z) (x : Z) : Z := x `mod` 2 ^ w.
Definition wrap_s (w : Z) (x : Z) : Z :=
  (x + 2 ^ (w - 1)) `mod` 2 ^ w - 2 ^ (w - 1).

Lemma wrap_u_id w x : (0 ≤ x < 2 ^ w)%Z → wrap_u w x = x.
Proof. apply Z.mod_small. Qed.

Lemma wrap_s_id w x :
  (0 < w)%Z → (- 2 ^ (w - 1) ≤ x < 2 ^ (w - 1))%Z → wrap_s w x = x.
Proof.
  intros Hw Hx. unfold wrap_s.
  assert (2 ^ w = 2 * 2 ^ (w - 1))%Z as Hp.
  { rewrite <-Z.pow_succ_r by lia. f_equal. lia. }
  rewrite Z.mod_small; lia.
Qed.

Lemma wrap_s_range w x :
  (0 < w)%Z → (- 2 ^ (w - 1) ≤ wrap_s w x < 2 ^ (w - 1))%Z.
Proof.
  intros Hw. unfold wrap_s.
  assert (2 ^ w = 2 * 2 ^ (w - 1))%Z as Hp.
  { rewrite <-Z.pow_succ_r by lia. f_equal. lia. }
  pose proof (Z.pow_pos_nonneg 2 (w - 1) ltac:(lia) ltac:(lia)).
  pose proof (Z.mod_pos_bound (x + 2 ^ (w - 1)) (2 ^ w) ltac:(lia)). lia.
Qed.

(** Fields that do not overlap add up. *)
Lemma lor_shiftl k a b :
  (0 ≤ k)%Z → (0 ≤ a < 2 ^ k)%Z → Z.lor a (Z.shiftl b k) = (a + 2 ^ k * b)%Z.
Proof.
  intros Hk Ha. rewrite Z.shiftl_mul_pow2, (Z.mul_comm b) by done.
  rewrite <-Z.add_lor_land.
  assert (Z.land a (2 ^ k * b) = 0%Z) as ->; [|lia].
  apply Z.bits_inj'. intros n Hn. rewrite Z.land_spec, Z.bits_0, (Z.mul_comm (2 ^ k)).
  destruct (Z.lt_ge_cases n k).
  - by rewrite Z.mul_pow2_bits_low, andb_false_r.
  - replace a with (a `mod` 2 ^ k)%Z by (by apply Z.mod_small).
    by rewrite Z.mod_pow2_bits_high.
Qed.

Abbreviation MinInt64 := (- 2 ^ 63)%Z.
Abbreviation MaxInt64 := (2 ^ 63 - 1)%Z.
