(* ===== verification/GoStrings.v ===== *)
(** * Go strings

    Go's [string] (an immutable byte sequence) is Rocq's [string], one [ascii]
    per byte.  This file models what the program uses of the packages [strings]
    and [bufio] ([ScanLines]), with the lemmas the components share. *)

From Stdlib Require Import Ascii.
From S2P Require Import Prelude.

(** ** Concatenation and length *)

Lemma str_app_cons a s t : String a s +:+ t = String a (s +:+ t).
Proof. done. Qed.

Lemma str_app_nil_l (s : string) : "" +:+ s = s.
Proof. done. Qed.

(** Simplify concatenations whose left part starts with a known byte. *)
Ltac scbn :=
  rewrite ?str_app_cons, ?str_app_nil_l; cbn; rewrite ?str_app_cons, ?str_app_nil_l.

Lemma str_app_nil_r (s : string) : s +:+ "" = s.
Proof. induction s as [|a s IH]; [done|]. by rewrite str_app_cons, IH. Qed.

Lemma str_app_assoc (s t u : string) : (s +:+ t) +:+ u = s +:+ (t +:+ u).
Proof. induction s as [|a s IH]; [done|]. by rewrite !str_app_cons, IH. Qed.

Lemma str_length_app (s t : string) :
  String.length (s +:+ t) = String.length s + String.length t.
Proof. induction s as [|a s IH]; [done|]. rewrite str_app_cons. cbn. by rewrite IH. Qed.

Lemma str_app_inv_r (s t u : string) : s +:+ u = t +:+ u → s = t.
Proof.
  revert t. induction s as [|a s IH]; intros [|b t] H; [done|..].
  - apply (f_equal String.length) in H. rewrite !str_length_app in H. cbn in H. lia.
  - apply (f_equal String.length) in H. rewrite !str_length_app in H. cbn in H. lia.
  - rewrite !str_app_cons in H. injection H as -> H. f_equal. by apply IH.
Qed.

(** Bytes of a string, as integers. *)
Definition byte_of (a : ascii) : Z := Z.of_N (N_of_ascii a).
Definition of_byte (z : Z) : ascii := ascii_of_N (Z.to_N (z mod 256)).

Lemma byte_of_range a : (0 ≤ byte_of a < 256)%Z.
Proof. unfold byte_of. pose proof (N_ascii_bounded a). lia. Qed.

Lemma byte_of_of_byte z : byte_of (of_byte z) = (z mod 256)%Z.
Proof.
  unfold byte_of, of_byte. pose proof (Z.mod_pos_bound z 256 ltac:(lia)).
  rewrite N_ascii_embedding by lia. lia.
Qed.

Lemma of_byte_byte_of a : of_byte (byte_of a) = a.
Proof.
  unfold of_byte. rewrite Z.mod_small by apply byte_of_range.
  unfold byte_of. by rewrite N2Z.id, ascii_N_embedding.
Qed.

(** [strings.Repeat]; also a zero-filled buffer of a given length. *)
Fixpoint str_repeat (n : nat) (s : string) : string :=
  match n with
  | O => ""
  | S n => s +:+ str_repeat n s
  end.

Lemma str_repeat_length n a :
  String.length (str_repeat n (String a "")) = n.
Proof. induction n as [|n IH]; [done|]. cbn. rewrite str_app_cons. cbn. by f_equal. Qed.

Definition nul : string := String "000" "".
Definition zeros (n : nat) : string := str_repeat n nul.

Lemma zeros_length n : String.length (zeros n) = n.
Proof. apply str_repeat_length. Qed.

(** [s[:n]] and [s[n:]] for [n <= len(s)]. *)
Fixpoint str_take (n : nat) (s : string) : string :=
  match n, s with
  | S n, String a s => String a (str_take n s)
  | _, _ => ""
  end.
Fixpoint str_drop (n : nat) (s : string) : string :=
  match n, s with
  | S n, String _ s => str_drop n s
  | _, _ => s
  end.

Lemma str_take_0 s : str_take 0 s = "".
Proof. by destruct s. Qed.
Lemma str_drop_0 s : str_drop 0 s = s.
Proof. by destruct s. Qed.

Lemma str_take_app s t : str_take (String.length s) (s +:+ t) = s.
Proof. induction s as [|a s IH]; [by destruct t|]. rewrite str_app_cons. cbn. by f_equal. Qed.
Lemma str_drop_app s t : str_drop (String.length s) (s +:+ t) = t.
Proof. induction s as [|a s IH]; [by destruct t|]. done. Qed.
Lemma str_take_len n s t : n = String.length s → str_take n (s +:+ t) = s.
Proof. intros ->. apply str_take_app. Qed.
Lemma str_drop_len n s t : n = String.length s → str_drop n (s +:+ t) = t.
Proof. intros ->. apply str_drop_app. Qed.
Lemma str_take_drop n s : str_take n s +:+ str_drop n s = s.
Proof.
  revert s. induction n as [|n IH]; intros [|a s]; [done..|].
  cbn. rewrite str_app_cons. f_equal. apply IH.
Qed.
Lemma str_length_take n s : String.length (str_take n s) = n `min` String.length s.
Proof. revert s. induction n as [|n IH]; intros [|a s]; cbn; [done..|]. by rewrite IH. Qed.
Lemma str_length_drop n s : String.length (str_drop n s) = String.length s - n.
Proof. revert s. induction n as [|n IH]; intros [|a s]; cbn; [lia..|]. by rewrite IH. Qed.

(** ** Reversal, prefixes and suffixes *)

Lemma str_rev_app_app s t : String.rev_app s t = String.rev s +:+ t.
Proof.
  unfold String.rev. revert t. induction s as [|a s IH]; intros t; [done|].
  cbn. rewrite (IH (String a t)), (IH (String a "")), str_app_assoc. done.
Qed.
Lemma str_rev_cons a s : String.rev (String a s) = String.rev s +:+ String a "".
Proof. unfold String.rev at 1. cbn. by rewrite str_rev_app_app. Qed.
Lemma str_rev_app s t : String.rev (s +:+ t) = String.rev t +:+ String.rev s.
Proof.
  induction s as [|a s IH]; [by rewrite str_app_nil_r|].
  rewrite str_app_cons, !str_rev_cons, IH. apply str_app_assoc.
Qed.
Lemma str_rev_involutive s : String.rev (String.rev s) = s.
Proof. induction s as [|a s IH]; [done|]. by rewrite str_rev_cons, str_rev_app, IH. Qed.
Lemma str_rev_inj s t : String.rev s = String.rev t → s = t.
Proof. intros H. by rewrite <-(str_rev_involutive s), H, str_rev_involutive. Qed.
Lemma str_rev_length s : String.length (String.rev s) = String.length s.
Proof.
  induction s as [|a s IH]; [done|].
  rewrite str_rev_cons, str_length_app, IH. cbn. lia.
Qed.

(** [strip_prefix p s] is what is left of [s] after the prefix [p]. *)
Fixpoint strip_prefix (p s : string) : option string :=
  match p, s with
  | "", _ => Some s
  | String a p, String b s => if Ascii.eqb a b then strip_prefix p s else None
  | String _ _, "" => None
  end.
Definition strip_suffix (x s : string) : option string :=
  String.rev <$> strip_prefix (String.rev x) (String.rev s).

(** [strings.HasPrefix], [HasSuffix], [TrimPrefix], [TrimSuffix]. *)
Definition has_prefix (s p : string) : bool := bool_decide (is_Some (strip_prefix p s)).
Definition has_suffix (s x : string) : bool := bool_decide (is_Some (strip_suffix x s)).
Definition trim_prefix (s p : string) : string := default s (strip_prefix p s).
Definition trim_suffix (s x : string) : string := default s (strip_suffix x s).

Lemma strip_prefix_Some p s t : strip_prefix p s = Some t ↔ s = p +:+ t.
Proof.
  revert s. induction p as [|a p IH]; intros s; cbn.
  - split; [by intros [= ->]|intros ->; done].
  - destruct s as [|b s]; [done|]. destruct (Ascii.eqb_spec a b) as [->|Hne].
    + rewrite IH, str_app_cons. split; [by intros ->|by intros [= ->]].
    + split; [done|]. rewrite str_app_cons. by intros [= ->].
Qed.

Lemma strip_prefix_app p s : strip_prefix p (p +:+ s) = Some s.
Proof. by apply strip_prefix_Some. Qed.

Lemma strip_suffix_Some x s t : strip_suffix x s = Some t ↔ s = t +:+ x.
Proof.
  unfold strip_suffix. rewrite fmap_Some. split.
  - intros (u & Hu & ->). apply strip_prefix_Some in Hu. apply str_rev_inj.
    by rewrite str_rev_app, str_rev_involutive.
  - intros ->. exists (String.rev t). rewrite strip_prefix_Some, str_rev_app.
    by rewrite str_rev_involutive.
Qed.

Lemma has_prefix_true s p : has_prefix s p = true ↔ ∃ t, s = p +:+ t.
Proof.
  unfold has_prefix. rewrite bool_decide_eq_true. unfold is_Some.
  by setoid_rewrite strip_prefix_Some.
Qed.
Lemma has_suffix_true s x : has_suffix s x = true ↔ ∃ t, s = t +:+ x.
Proof.
  unfold has_suffix. rewrite bool_decide_eq_true. unfold is_Some.
  by setoid_rewrite strip_suffix_Some.
Qed.

Lemma has_prefix_app p t : has_prefix (p +:+ t) p = true.
Proof. apply has_prefix_true. by exists t. Qed.
Lemma has_suffix_app t x : has_suffix (t +:+ x) x = true.
Proof. apply has_suffix_true. by exists t. Qed.
Lemma trim_prefix_app p t : trim_prefix (p +:+ t) p = t.
Proof. unfold trim_prefix. by rewrite (proj2 (strip_prefix_Some p _ t)). Qed.
Lemma trim_suffix_app t x : trim_suffix (t +:+ x) x = t.
Proof. unfold trim_suffix. by rewrite (proj2 (strip_suffix_Some x _ t)). Qed.

(** ** Searching: [strings.Index], [Contains] *)

Fixpoint str_index (s sub : string) : option nat :=
  if has_prefix s sub then Some 0
  else match s with
       | "" => None
       | String _ s => S <$> str_index s sub
       end.
Definition str_contains (s sub : string) : bool := bool_decide (is_Some (str_index s sub)).

(** ** Splitting on one byte *)

(** [str_cut c s] splits [s] around the first [c]; [strings.SplitN(s, c, 2)] has
    two parts exactly when it succeeds. *)
Fixpoint str_cut (c : ascii) (s : string) : option (string * string) :=
  match s with
  | "" => None
  | String a s =>
      if Ascii.eqb a c then Some ("", s)
      else '(l, r) ← str_cut c s; Some (String a l, r)
  end.

(** [strings.Split(s, c)]. *)
Fixpoint str_split (c : ascii) (s : string) : list string :=
  match s with
  | "" => [""]
  | String a s =>
      if Ascii.eqb a c then "" :: str_split c s
      else match str_split c s with
           | [] => [String a ""]
           | w :: ws => String a w :: ws
           end
  end.

(** [strings.Join(l, sep)]. *)
Fixpoint str_join (sep : string) (l : list string) : string :=
  match l with
  | [] => ""
  | [s] => s
  | s :: l => s +:+ sep +:+ str_join sep l
  end.

(** [str_free c s]: the byte [c] does not occur in [s]. *)
Fixpoint str_forall (P : ascii → bool) (s : string) : bool :=
  match s with
  | "" => true
  | String a s => P a && str_forall P s
  end.
Abbreviation str_free c s := (str_forall (λ a, negb (Ascii.eqb a c)) s).

Lemma str_forall_app P s t : str_forall P (s +:+ t) = str_forall P s && str_forall P t.
Proof. induction s as [|a s IH]; [done|]. scbn. by rewrite IH, andb_assoc. Qed.
Lemma str_forall_impl (P Q : ascii → bool) s :
  (∀ a, P a = true → Q a = true) → str_forall P s = true → str_forall Q s = true.
Proof.
  intros HPQ. induction s as [|a s IH]; [done|]. cbn.
  rewrite !andb_true_iff. intros [??]. auto.
Qed.
Lemma str_forall_rev P s : str_forall P (String.rev s) = str_forall P s.
Proof.
  induction s as [|a s IH]; [done|].
  rewrite str_rev_cons, str_forall_app, IH. cbn. by rewrite andb_true_r, andb_comm.
Qed.

Lemma str_cut_free c l r : str_free c l = true → str_cut c (l +:+ String c r) = Some (l, r).
Proof.
  induction l as [|a l IH]; intros Hl; scbn; cbn in Hl.
  - by rewrite Ascii.eqb_refl.
  - apply andb_true_iff in Hl as [Ha Hl]. apply negb_true_iff in Ha.
    by rewrite Ha, IH.
Qed.
Lemma str_cut_None c s : str_free c s = true → str_cut c s = None.
Proof.
  induction s as [|a s IH]; intros H; cbn in *; [done|].
  apply andb_true_iff in H as [Ha H]. apply negb_true_iff in Ha. by rewrite Ha, IH.
Qed.

Lemma str_split_nonempty c s : str_split c s ≠ [].
Proof.
  induction s as [|a s IH]; cbn; [done|].
  destruct (Ascii.eqb a c); [done|]. by destruct (str_split c s).
Qed.
Lemma str_split_free c s : str_free c s = true → str_split c s = [s].
Proof.
  induction s as [|a s IH]; intros H; cbn in *; [done|].
  apply andb_true_iff in H as [Ha H]. apply negb_true_iff in Ha.
  by rewrite Ha, IH.
Qed.
Lemma str_split_cons c s t :
  str_free c s = true → str_split c (s +:+ String c t) = s :: str_split c t.
Proof.
  induction s as [|a s IH]; intros H; scbn; cbn in H.
  - by rewrite Ascii.eqb_refl.
  - apply andb_true_iff in H as [Ha H]. apply negb_true_iff in Ha.
    by rewrite Ha, IH.
Qed.
(** Splitting is the inverse of joining, for parts free of the separator. *)
Lemma str_split_join c l :
  l ≠ [] → Forall (λ s, str_free c s = true) l →
  str_split c (str_join (String c "") l) = l.
Proof.
  intros Hne Hall. induction l as [|s l IH]; [done|]. apply Forall_cons in Hall as [Hs Hl].
  destruct l as [|s' l]; [by apply str_split_free|].
  change (str_join (String c "") (s :: s' :: l))
    with (s +:+ String c (str_join (String c "") (s' :: l))).
  rewrite str_split_cons by done. f_equal. by apply IH.
Qed.

(** ** White space

    [unicode.IsSpace] on the UTF-8 encoding of a code point: the one-byte,
    two-byte and three-byte encodings of white space. *)
Definition space1 (a : ascii) : bool :=
  let x := byte_of a in (((9 <=? x) && (x <=? 13)) || (x =? 32))%Z.
Definition space2 (a b : ascii) : bool :=
  let x := byte_of a in let y := byte_of b in
  ((x =? 0xC2) && ((y =? 0x85) || (y =? 0xA0)))%Z.
Definition space3 (a b c : ascii) : bool :=
  let x := byte_of a in let y := byte_of b in let z := byte_of c in
  (((x =? 0xE1) && (y =? 0x9A) && (z =? 0x80)) ||
  ((x =? 0xE2) && (y =? 0x80) &&
     (((0x80 <=? z) && (z <=? 0x8A)) || (z =? 0xA8) || (z =? 0xA9) || (z =? 0xAF))) ||
  ((x =? 0xE2) && (y =? 0x81) && (z =? 0x9F)) ||
  ((x =? 0xE3) && (y =? 0x80) && (z =? 0x80)))%Z.

Section trim.
Context (sp2 : ascii → ascii → bool) (sp3 : ascii → ascii → ascii → bool).
Fixpoint trim_with (s : string) : string :=
  match s with
  | "" => ""
  | String a s1 =>
      if space1 a then trim_with s1
      else match s1 with
           | "" => s
           | String b s2 =>
               if sp2 a b then trim_with s2
               else match s2 with
                    | "" => s
                    | String c s3 => if sp3 a b c then trim_with s3 else s
                    end
           end
  end.
End trim.

(** [strings.Fields]: the maximal runs of bytes that do not encode white space.
    [cur] is the current run, backwards. *)
Definition flush (cur : string) : list string :=
  if decide (cur = "") then [] else [String.rev cur].

Fixpoint fields_go (cur s : string) : list string :=
  match s with
  | "" => flush cur
  | String a s1 =>
      if space1 a then flush cur ++ fields_go "" s1
      else match s1 with
           | "" => flush (String a cur)
           | String b s2 =>
               if space2 a b then flush cur ++ fields_go "" s2
               else match s2 with
                    | "" => fields_go (String a cur) s1
                    | String c s3 =>
                        if space3 a b c then flush cur ++ fields_go "" s3
                        else fields_go (String a cur) s1
                    end
           end
  end.
Definition fields (s : string) : list string := fields_go "" s.

(** [strings.TrimSpace] *)
Definition trim_left : string → string := trim_with space2 space3.
Definition trim_right (s : string) : string :=
  String.rev (trim_with (λ a b, space2 b a) (λ a b c, space3 c b a) (String.rev s)).
Definition trim_space (s : string) : string := trim_right (trim_left s).

(** An ASCII byte that is not white space. *)
Definition ascii_ns (a : ascii) : bool := (byte_of a <? 128)%Z && negb (space1 a).

Lemma trim_with_ns sp2 sp3 a s :
  (∀ b, sp2 a b = false) → (∀ b c, sp3 a b c = false) → space1 a = false →
  trim_with sp2 sp3 (String a s) = String a s.
Proof.
  intros H2 H3 H1. cbn. rewrite H1. destruct s as [|b s]; [done|].
  rewrite H2. destruct s as [|c s]; [done|]. by rewrite H3.
Qed.

Lemma ascii_ns_space1 a : ascii_ns a = true → space1 a = false.
Proof. unfold ascii_ns. rewrite andb_true_iff, negb_true_iff. tauto. Qed.
Lemma ascii_ns_lt a : ascii_ns a = true → (byte_of a < 128)%Z.
Proof. unfold ascii_ns. rewrite andb_true_iff, Z.ltb_lt. tauto. Qed.

(** Break boolean conjunctions in the context. *)
Ltac split_andb :=
  repeat match goal with Hb : andb ?b ?c = true |- _ => destruct (andb_prop b c Hb); clear Hb end.

(** [lia] below the boolean connectives. *)
Ltac bool_lia :=
  repeat first
    [ progress split_andb
    | match goal with Hb : orb _ _ = false |- _ => destruct (orb_false_elim _ _ Hb); clear Hb end
    | match goal with Hb : negb _ = _ |- _ => rewrite ?negb_true_iff, ?negb_false_iff in Hb end ];
  lia.

Lemma space2_ns a b : ascii_ns a = true → space2 a b = false.
Proof. intros H%ascii_ns_lt. unfold space2. lia. Qed.
Lemma space3_ns a b c : ascii_ns a = true → space3 a b c = false.
Proof. intros H%ascii_ns_lt. unfold space3. lia. Qed.

Lemma fields_go_ns cur a s : ascii_ns a = true → fields_go cur (String a s) = fields_go (String a cur) s.
Proof.
  intros H. cbn [fields_go]. rewrite (ascii_ns_space1 _ H). destruct s as [|b s]; [done|].
  rewrite space2_ns by done. destruct s as [|c s]; [done|]. by rewrite space3_ns.
Qed.

Lemma fields_go_word cur w s :
  str_forall ascii_ns w = true → fields_go cur (w +:+ s) = fields_go (String.rev w +:+ cur) s.
Proof.
  revert cur. induction w as [|a w IH]; intros cur Hw; [done|]. apply andb_true_iff in Hw as [Ha Hw].
  rewrite str_app_cons, fields_go_ns, IH, str_rev_cons, str_app_assoc by done. done.
Qed.

Lemma fields_space a s : space1 a = true → fields (String a s) = fields s.
Proof. intros Ha. unfold fields. cbn [fields_go]. by rewrite Ha. Qed.

Lemma fields_blank g s : str_forall space1 g = true → fields (g +:+ s) = fields s.
Proof.
  intros Hg. induction g as [|a g IH]; [done|]. apply andb_true_iff in Hg as [Ha Hg].
  rewrite str_app_cons, fields_space by done. by apply IH.
Qed.

Lemma flush_rev w : w ≠ "" → flush (String.rev w +:+ "") = [w].
Proof.
  intros Hw. unfold flush. rewrite str_app_nil_r, decide_False.
  - by rewrite str_rev_involutive.
  - intros H. apply Hw. rewrite <-(str_rev_involutive w), H. done.
Qed.

Lemma fields_word w a s :
  str_forall ascii_ns w = true → w ≠ "" → space1 a = true →
  fields (w +:+ String a s) = w :: fields s.
Proof.
  intros Hw Hne Ha. unfold fields. rewrite fields_go_word by done. cbn [fields_go]. rewrite Ha.
  by rewrite flush_rev.
Qed.

Lemma fields_last w : str_forall ascii_ns w = true → w ≠ "" → fields w = [w].
Proof.
  intros Hw Hne. rewrite <-(str_app_nil_r w) at 1. unfold fields. rewrite fields_go_word by done.
  by apply flush_rev.
Qed.

Lemma trim_left_ns a s : ascii_ns a = true → trim_left (String a s) = String a s.
Proof.
  intros H. pose proof (ascii_ns_lt a H). apply trim_with_ns; [..|by apply ascii_ns_space1].
  - intros b. unfold space2. lia.
  - intros b c. unfold space3. lia.
Qed.

Lemma trim_right_ns s a :
  ascii_ns a = true → trim_right (s +:+ String a "") = s +:+ String a "".
Proof.
  intros H. pose proof (ascii_ns_lt a H). unfold trim_right.
  rewrite str_rev_app. change (String.rev (String a "")) with (String a "").
  rewrite str_app_cons, str_app_nil_l, trim_with_ns;
    [|intros b; unfold space2; lia|intros b c; unfold space3; lia|by apply ascii_ns_space1].
  by rewrite str_rev_cons, str_rev_involutive.
Qed.

(** Trimming keeps a first byte that is not white space. *)
Lemma trim_back_keeps a n u :
  ascii_ns a = true → (String.length u ≤ n)%nat →
  ∃ v, trim_with (λ a b, space2 b a) (λ a b c, space3 c b a) (u +:+ String a "") = v +:+ String a "".
Proof.
  intros Ha. revert u. induction n as [|n IH]; intros [|b u] Hn; try (cbn in Hn; lia).
  1, 2: exists ""; rewrite str_app_nil_l; cbn [trim_with]; by rewrite ascii_ns_space1.
  cbn in Hn. rewrite str_app_cons. cbn [trim_with]. destruct (space1 b); [apply IH; lia|].
  destruct u as [|c u]; cbn [String.length] in Hn; rewrite ?str_app_nil_l, ?str_app_cons.
  { rewrite space2_ns by done. by exists (String b ""). }
  destruct (space2 c b); [apply IH; lia|].
  destruct u as [|d u]; cbn [String.length] in Hn; rewrite ?str_app_nil_l, ?str_app_cons.
  { rewrite space3_ns by done. by exists (String b (String c "")). }
  destruct (space3 d c b); [apply IH; lia|]. by exists (String b (String c (String d u))).
Qed.

Lemma trim_space_head a s : ascii_ns a = true → ∃ t, trim_space (String a s) = String a t.
Proof.
  intros Ha. unfold trim_space. rewrite trim_left_ns by done. unfold trim_right. rewrite str_rev_cons.
  destruct (trim_back_keeps a (String.length (String.rev s)) (String.rev s) Ha) as [v ->]; [done|].
  rewrite str_rev_app. change (String.rev (String a "")) with (String a "").
  exists (String.rev v). by rewrite str_app_cons, str_app_nil_l.
Qed.

(** A string that starts and ends with an ASCII byte that is not white space. *)
Definition trimmed (s : string) : bool :=
  match s with
  | "" => true
  | String a _ =>
      ascii_ns a && match String.rev s with "" => true | String b _ => ascii_ns b end
  end.

Lemma trim_space_trimmed s : trimmed s = true → trim_space s = s.
Proof.
  unfold trimmed, trim_space. destruct s as [|a s]; [done|].
  rewrite andb_true_iff. intros [Ha Hb]. rewrite trim_left_ns by done.
  destruct (String.rev (String a s)) as [|b r] eqn:Hr.
  - apply (f_equal String.length) in Hr. rewrite str_rev_length in Hr. done.
  - apply (f_equal String.rev) in Hr. rewrite str_rev_involutive, str_rev_cons in Hr.
    rewrite Hr. by apply trim_right_ns.
Qed.

Lemma trim_space_left1 a s : space1 a = true → trim_space (String a s) = trim_space s.
Proof. intros H. unfold trim_space, trim_left. cbn. by rewrite H. Qed.

Lemma trim_right_space1 s a :
  space1 a = true → trim_right (s +:+ String a "") = trim_right s.
Proof.
  intros H. unfold trim_right. rewrite str_rev_app.
  change (String.rev (String a "")) with (String a "").
  rewrite str_app_cons, str_app_nil_l. cbn. by rewrite H.
Qed.

Lemma trimmed_app_ends a s m b t :
  ascii_ns a = true → trimmed (String b t) = true →
  trimmed (String a s +:+ m +:+ String b t) = true.
Proof.
  intros Ha Ht. rewrite str_app_cons. unfold trimmed in *. apply andb_true_iff. split; [done|].
  apply andb_true_iff in Ht as [_ Ht].
  rewrite <-str_app_cons, !str_rev_app.
  destruct (String.rev (String b t)) as [|c r] eqn:Hr; [|by rewrite !str_app_cons].
  apply (f_equal String.length) in Hr. by rewrite str_rev_length in Hr.
Qed.

Lemma trimmed_ends a m b : ascii_ns a = true → ascii_ns b = true →
  trimmed (String a "" +:+ m +:+ String b "") = true.
Proof.
  intros Ha Hb. apply trimmed_app_ends; [done|]. unfold trimmed. by cbn [String.rev]; rewrite Hb.
Qed.

Lemma trim_space_sp_l s : trimmed s = true → trim_space (" " +:+ s) = s.
Proof.
  intros H. rewrite str_app_cons, str_app_nil_l, trim_space_left1 by done.
  by apply trim_space_trimmed.
Qed.

Lemma trim_space_sp_r s : trimmed s = true → trim_space (s +:+ " ") = s.
Proof.
  intros H. destruct s as [|a s]; [done|].
  pose proof (trim_space_trimmed _ H) as Ht. unfold trim_space in *.
  unfold trimmed in H. apply andb_true_iff in H as [Ha _].
  rewrite trim_left_ns in Ht by done.
  rewrite str_app_cons, trim_left_ns, <-str_app_cons by done.
  by rewrite trim_right_space1.
Qed.

Lemma not_prefix_cons a s b : Ascii.eqb a b = false → has_prefix (String a s) (String b "") = false.
Proof.
  intros H. unfold has_prefix. apply bool_decide_eq_false. cbn.
  rewrite Ascii.eqb_sym, H. by intros [? ?].
Qed.

(** ** Case mapping

    [strings.ToLower] and [ToUpper].  ASCII letters are mapped; the only other
    code points mapped to ASCII letters are U+0130 and U+212A (lower case) and
    U+0131 and U+017F (upper case).  The program compares the results with ASCII
    literals only, so the remaining code points are left alone. *)
Definition lower1 (a : ascii) : ascii :=
  let x := byte_of a in if ((65 <=? x) && (x <=? 90))%Z then of_byte (x + 32) else a.
Definition upper1 (a : ascii) : ascii :=
  let x := byte_of a in if ((97 <=? x) && (x <=? 122))%Z then of_byte (x - 32) else a.

Fixpoint to_lower (s : string) : string :=
  match s with
  | "" => ""
  | String a s1 =>
      match s1 with
      | String b s2 =>
          if ((byte_of a =? 0xC4) && (byte_of b =? 0xB0))%Z then String "i" (to_lower s2)
          else match s2 with
               | String c s3 =>
                   if ((byte_of a =? 0xE2) && (byte_of b =? 0x84) && (byte_of c =? 0xAA))%Z
                   then String "k" (to_lower s3)
                   else String (lower1 a) (to_lower s1)
               | "" => String (lower1 a) (to_lower s1)
               end
      | "" => String (lower1 a) ""
      end
  end.

Fixpoint to_upper (s : string) : string :=
  match s with
  | "" => ""
  | String a s1 =>
      match s1 with
      | String b s2 =>
          if ((byte_of a =? 0xC4) && (byte_of b =? 0xB1))%Z then String "I" (to_upper s2)
          else if ((byte_of a =? 0xC5) && (byte_of b =? 0xBF))%Z then String "S" (to_upper s2)
          else String (upper1 a) (to_upper s1)
      | "" => String (upper1 a) ""
      end
  end.

(** Lower case on ASCII letters only. *)
Fixpoint ascii_lower (s : string) : string :=
  match s with
  | "" => ""
  | String a s => String (lower1 a) (ascii_lower s)
  end.

(** [strings.EqualFold] against an upper-case ASCII word without K and S (the two
    letters with non-ASCII case variants). *)
Definition equal_fold (s upper : string) : bool :=
  bool_decide (ascii_lower s = ascii_lower upper).

Definition is_ascii (a : ascii) : bool := (byte_of a <? 128)%Z.

Lemma to_lower_cons a s :
  is_ascii a = true → to_lower (String a s) = String (lower1 a) (to_lower s).
Proof.
  unfold is_ascii. intros H. cbn. destruct s as [|b s2]; [done|].
  replace (byte_of a =? 0xC4)%Z with false by lia. cbn [andb].
  destruct s2 as [|c s3]; [done|].
  by replace (byte_of a =? 0xE2)%Z with false by lia.
Qed.
Lemma to_upper_cons a s :
  is_ascii a = true → to_upper (String a s) = String (upper1 a) (to_upper s).
Proof.
  unfold is_ascii. intros H. cbn. destruct s as [|b s2]; [done|].
  replace (byte_of a =? 0xC4)%Z with false by lia.
  by replace (byte_of a =? 0xC5)%Z with false by lia.
Qed.

(** [strings.TrimRight(s, cutset)] for an ASCII cutset. *)
Fixpoint trim_left_set (P : ascii → bool) (s : string) : string :=
  match s with
  | "" => ""
  | String a s' => if P a then trim_left_set P s' else s
  end.
Definition in_set (cs : string) (a : ascii) : bool :=
  bool_decide (a ∈ String.list_ascii_of_string cs).
Definition trim_right_set (s cs : string) : string :=
  String.rev (trim_left_set (in_set cs) (String.rev s)).

(** ** [bufio.Scanner] with the default split function [ScanLines]

    The tokens are the lines without their line feed, with one trailing carriage
    return dropped; data after the last line feed is a line when it is not empty.
    A line of [MaxScanTokenSize] bytes or more stops the scan with
    [bufio.ErrTooLong]. *)
Definition MaxScanTokenSize : Z := 65536.

Definition drop_cr (s : string) : string := trim_suffix s (String "013" "").

Fixpoint scan_go (fuel : nat) (s : string) : list string * bool :=
  match fuel with
  | O => ([], false)
  | S fuel =>
      match str_cut "010" s with
      | None =>
          if (String.length s =? 0)%nat then ([], false)
          else if (MaxScanTokenSize <=? Z.of_nat (String.length s))%Z then ([], true)
          else ([drop_cr s], false)
      | Some (l, r) =>
          if (MaxScanTokenSize <=? Z.of_nat (String.length l))%Z then ([], true)
          else let '(ls, e) := scan_go fuel r in (drop_cr l :: ls, e)
      end
  end.
(** The lines delivered, and whether the scan ended with [ErrTooLong]. *)
Definition scan_lines (s : string) : list string * bool := scan_go (S (String.length s)) s.

Lemma str_cut_Some c s l r : str_cut c s = Some (l, r) → s = l +:+ String c r.
Proof.
  revert l r. induction s as [|a s IH]; intros l r; cbn; [done|].
  destruct (Ascii.eqb_spec a c) as [->|_].
  - intros [= <- <-]. done.
  - destruct (str_cut c s) as [[l' r']|] eqn:Hc; cbn; [|done].
    intros [= <- <-]. rewrite str_app_cons. f_equal. by apply IH.
Qed.

(** The fuel of [scan_lines] is enough: more fuel changes nothing. *)
Lemma scan_go_fuel n m s :
  String.length s < n → String.length s < m → scan_go n s = scan_go m s.
Proof.
  revert m s. induction n as [|n IH]; intros m s Hn Hm; [lia|].
  destruct m as [|m]; [lia|]. cbn.
  destruct (str_cut "010" s) as [[l r]|] eqn:Hc; [|done].
  apply str_cut_Some in Hc. subst s. rewrite str_length_app in *. cbn in *.
  destruct (MaxScanTokenSize <=? Z.of_nat (String.length l))%Z; [done|].
  by rewrite (IH m) by lia.
Qed.

Lemma scan_lines_nil : scan_lines "" = ([], false).
Proof. done. Qed.

Lemma scan_lines_cons l r :
  str_free "010" l = true → (Z.of_nat (String.length l) < MaxScanTokenSize)%Z →
  scan_lines (l +:+ String "010" r) =
    (drop_cr l :: (scan_lines r).1, (scan_lines r).2).
Proof.
  intros Hl Hlen. unfold scan_lines at 1. cbn [scan_go].
  rewrite str_cut_free by done.
  rewrite (proj2 (Z.leb_gt _ _)) by done.
  rewrite (scan_go_fuel _ (S (String.length r)) r);
    [|rewrite str_length_app; cbn; lia|lia].
  fold (scan_lines r). by destruct (scan_lines r).
Qed.

Lemma drop_cr_free l : str_free "013" l = true → drop_cr l = l.
Proof.
  intros H. unfold drop_cr, trim_suffix.
  destruct (strip_suffix (String "013" "") l) as [t|] eqn:Hs; [|done].
  apply strip_suffix_Some in Hs. subst l. rewrite str_forall_app in H. cbn in H.
  by rewrite andb_false_r in H.
Qed.

(** A document is lines that each end in a line feed. *)
Definition document (ls : list string) : string :=
  foldr (λ l d, l +:+ String "010" d) "" ls.

Definition line_ok (l : string) : bool :=
  str_free "010" l && str_free "013" l && (Z.of_nat (String.length l) <? MaxScanTokenSize)%Z.

Lemma scan_document ls :
  Forall (λ l, line_ok l = true) ls → scan_lines (document ls) = (ls, false).
Proof.
  induction 1 as [|l ls Hl _ IH]; [apply scan_lines_nil|].
  unfold line_ok in Hl. rewrite !andb_true_iff in Hl. destruct Hl as [[Hn Hr] Hlen].
  cbn [document foldr]. fold (document ls).
  rewrite scan_lines_cons, IH by (done || lia). cbn [fst snd]. by rewrite drop_cr_free.
Qed.

(** Neither a line feed nor a carriage return. *)
Definition no_eol (a : ascii) : bool := negb (Ascii.eqb a "010") && negb (Ascii.eqb a "013").

(** What opening and reading a file gives: an error of [os.Open], or its bytes and
    the error, if any, that ended the reading early. *)
Inductive file_read :=
| OpenFails (err : string)
| FileData (data : string) (read_err : option string).

Definition ErrTooLong : string := "bufio.Scanner: token too long".

(** [scanner.Err()] after the loop. *)
Definition scanner_err (too_long : bool) (read_err : option string) : option string :=
  if too_long then Some ErrTooLong else read_err.

(** ** Sorting *)

(** [sort.Strings] *)
Definition str_le (a b : string) : Prop := (a <=? b)%string = true.
#[export] Instance str_le_dec a b : Decision (str_le a b).
Proof. unfold str_le. apply _. Defined.
Definition sort_strings (l : list string) : list string := merge_sort str_le l.

Lemma str_compare_lt_trans a b c :
  String.compare a b = Lt → String.compare b c ≠ Gt → String.compare a c = Lt.
Proof.
  revert b c. induction a as [|x a IH]; intros [|y b] [|z c]; cbn; try done.
  pose proof (N.compare_spec (N_of_ascii x) (N_of_ascii y)) as Hxy.
  pose proof (N.compare_spec (N_of_ascii y) (N_of_ascii z)) as Hyz.
  pose proof (N.compare_spec (N_of_ascii x) (N_of_ascii z)) as Hxz. unfold Ascii.compare in *.
  destruct Hxy as [Hxy|Hxy|Hxy]; try done; destruct Hyz as [Hyz|Hyz|Hyz]; try done;
    destruct Hxz as [Hxz|Hxz|Hxz]; try done; try lia. apply IH.
Qed.

#[export] Instance str_le_trans : Transitive str_le.
Proof.
  intros a b c. unfold str_le, String.leb. intros Hab Hbc.
  destruct (String.compare a b) eqn:H1; [| |done].
  - apply String.compare_eq_iff in H1. by rewrite H1.
  - rewrite (str_compare_lt_trans _ b _ H1); [done|]. intros H2. by rewrite H2 in Hbc.
Qed.
#[export] Instance str_le_total : Total str_le.
Proof. intros a b. apply String.leb_total. Qed.
#[export] Instance str_le_antisymm : AntiSymm (=) str_le.
Proof. intros a b. apply String.leb_antisym. Qed.

Lemma sort_strings_perm l l' : l ≡ₚ l' → sort_strings l = sort_strings l'.
Proof.
  intros Hp. unfold sort_strings. apply (Sorted_unique str_le); [apply (Sorted_merge_sort str_le); apply _..|].
  by rewrite !(merge_sort_Permutation str_le).
Qed.

(** *** Trimming a cutset *)

Lemma trim_left_set_app P s t :
  str_forall P s = true → trim_left_set P (s +:+ t) = trim_left_set P t.
Proof.
  induction s as [|a s IH]; intros H; [done|]. cbn [str_forall] in H.
  apply andb_true_iff in H as [Ha Hs]. rewrite str_app_cons. cbn. rewrite Ha. by apply IH.
Qed.

Lemma trim_right_set_app s t cs :
  str_forall (in_set cs) t = true →
  (∀ a r, String.rev s = String a r → in_set cs a = false) →
  trim_right_set (s +:+ t) cs = s.
Proof.
  intros Ht Hs. unfold trim_right_set. rewrite str_rev_app, trim_left_set_app by by rewrite str_forall_rev.
  destruct (String.rev s) as [|a r] eqn:Hr.
  - apply (f_equal String.rev) in Hr. rewrite str_rev_involutive in Hr. by subst s.
  - cbn [trim_left_set]. rewrite (Hs a r) by done. by rewrite <-Hr, str_rev_involutive.
Qed.
