(* ===== verification/GoStrconv.v ===== *)
(** * Go's [strconv] and the formatting verbs of [fmt]

    Decimal integers ([ParseInt], [ParseUint], [Atoi], [%d]) and quoted strings
    ([Quote], [%q]), as far as the program uses them. *)

From Stdlib Require Import Ascii.
From S2P Require Import Prelude GoStrings.

(** ** Decimal integers *)

Definition digit_val (c : ascii) : option Z :=
  let x := byte_of c in
  if ((48 <=? x) && (x <=? 57))%Z then Some (x - 48)%Z else None.

Inductive num_err := ErrSyntax | ErrRange.

(** The digit loop of [ParseUint]: bytes are checked from the left, each for being
    a digit and then for overflow. *)
Fixpoint parse_digits (maxv acc : Z) (s : string) : Z + num_err :=
  match s with
  | "" => inl acc
  | String c s =>
      match digit_val c with
      | None => inr ErrSyntax
      | Some d =>
          let n := (acc * 10 + d)%Z in
          if (maxv <? n)%Z then inr ErrRange else parse_digits maxv n s
      end
  end.

(** [strconv.ParseUint(s, 10, bits)] *)
Definition parse_uint_val (bits : Z) (s : string) : Z + num_err :=
  match s with
  | "" => inr ErrSyntax
  | _ => parse_digits (2 ^ bits - 1) 0 s
  end.

Definition split_sign (s : string) : bool * string :=
  match s with
  | String "-" s => (true, s)
  | String "+" s => (false, s)
  | _ => (false, s)
  end.

(** [strconv.ParseInt(s, 10, 64)] *)
Definition parse_int_val (s : string) : Z + num_err :=
  let '(neg, u) := split_sign s in
  match parse_uint_val 64 u with
  | inr e => inr e
  | inl un =>
      if (negb neg && (2 ^ 63 <=? un))%Z then inr ErrRange
      else if (neg && (2 ^ 63 <? un))%Z then inr ErrRange
      else inl (if neg then - un else un)%Z
  end.

(** [%d] and [strconv.Itoa], [strconv.FormatInt(_, 10)]. *)
Definition itoa (z : Z) : string := pretty z.

(** *** Round trip *)

Lemma digit_val_pretty_N_char x :
  (x < 10)%N → digit_val (pretty_N_char x) = Some (Z.of_N x).
Proof.
  rewrite <- (N2Nat.id x). generalize (N.to_nat x). clear x.
  do 10 (intros [|n]; [done|revert n]). intros n H. lia.
Qed.

Lemma parse_digits_cons maxv acc c s d :
  digit_val c = Some d → (acc * 10 + d ≤ maxv)%Z →
  parse_digits maxv acc (String c s) = parse_digits maxv (acc * 10 + d) s.
Proof. intros Hd Hle. cbn. rewrite Hd. by rewrite (proj2 (Z.ltb_ge _ _)). Qed.

(** Reading back the digits of [x] from an accumulator. *)
Lemma parse_digits_pretty_go maxv x s :
  (0 ≤ maxv)%Z → (Z.of_N x ≤ maxv)%Z →
  parse_digits maxv 0 (pretty_N_go x s) = parse_digits maxv (Z.of_N x) s.
Proof.
  intros Hm. revert s. induction (N.lt_wf_0 x) as [x _ IH]; intros s Hx.
  destruct (decide (x = 0)%N) as [->|Hne]; [by rewrite pretty_N_go_0|].
  rewrite pretty_N_go_step by lia.
  pose proof (N.div_mod' x 10) as Hdm. pose proof (N.mod_lt x 10 ltac:(lia)) as Hm10.
  assert (x `div` 10 < x)%N as Hlt by (apply N.div_lt; lia).
  set (q := (x `div` 10)%N) in *. set (r := (x `mod` 10)%N) in *. clearbody q r.
  rewrite IH by lia. rewrite (parse_digits_cons _ _ _ _ (Z.of_N r));
    [|by apply digit_val_pretty_N_char|lia].
  f_equal. lia.
Qed.

Lemma parse_uint_pretty_N bits (x : N) :
  (Z.of_N x < 2 ^ bits)%Z → parse_uint_val bits (pretty x) = inl (Z.of_N x).
Proof.
  intros Hx. unfold pretty, pretty_N. destruct (decide (x = 0)%N) as [->|Hne].
  - unfold parse_uint_val. rewrite (parse_digits_cons _ _ _ _ 0) by (done || lia). done.
  - assert (pretty_N_go x "" ≠ "") as Hs.
    { intros He. pose proof (parse_digits_pretty_go (Z.of_N x) x "" ltac:(lia) ltac:(lia)) as H.
      rewrite He in H. cbn [parse_digits] in H. injection H as H. lia. }
    unfold parse_uint_val. destruct (pretty_N_go x "") as [|a s] eqn:He; [done|].
    rewrite <-He, parse_digits_pretty_go by lia. done.
Qed.

Definition is_digit (c : ascii) : bool := bool_decide (is_Some (digit_val c)).

Lemma pretty_N_go_digits x s :
  str_forall is_digit s = true → str_forall is_digit (pretty_N_go x s) = true.
Proof.
  revert s. induction (N.lt_wf_0 x) as [x _ IH]; intros s Hs.
  destruct (decide (x = 0)%N) as [->|Hne]; [by rewrite pretty_N_go_0|].
  rewrite pretty_N_go_step by lia. apply IH; [apply N.div_lt; lia|].
  cbn. rewrite Hs, andb_true_r. apply bool_decide_eq_true.
  rewrite digit_val_pretty_N_char by (apply N.mod_lt; lia). by eexists.
Qed.
Lemma pretty_N_digits (x : N) : str_forall is_digit (pretty x) = true.
Proof.
  unfold pretty, pretty_N. destruct (decide (x = 0)%N); [done|]. by apply pretty_N_go_digits.
Qed.
Lemma pretty_N_nonempty (x : N) : pretty x ≠ "".
Proof.
  intros H. pose proof (Z.pow_gt_lin_r 2 (Z.of_N x + 1) ltac:(lia) ltac:(lia)).
  pose proof (parse_uint_pretty_N (Z.of_N x + 1) x ltac:(lia)) as Hp. by rewrite H in Hp.
Qed.

Lemma split_sign_digits s : str_forall is_digit s = true → split_sign s = (false, s).
Proof.
  destruct s as [|a s]; [done|]. cbn. rewrite andb_true_iff. intros [Ha _].
  unfold split_sign. by destruct a as [[] [] [] [] [] [] [] []].
Qed.

Lemma itoa_nonneg z : (0 ≤ z)%Z → itoa z = pretty (Z.to_N z).
Proof. intros Hz. by destruct z as [|p|p]; [done|done|lia]. Qed.
Lemma itoa_neg p : itoa (Z.neg p) = String "-" (pretty (N.pos p)).
Proof. done. Qed.

Lemma is_digit_ascii a : is_digit a = true → is_ascii a = true ∧ ascii_ns a = true.
Proof.
  unfold is_digit, digit_val, is_ascii, ascii_ns, space1. intros H.
  apply bool_decide_eq_true in H. case_match eqn:Hd; [|by destruct H].
  split; [bool_lia|]. apply andb_true_iff. split; [bool_lia|].
  apply negb_true_iff. bool_lia.
Qed.

Lemma digits_trimmed s : str_forall is_digit s = true → trimmed s = true.
Proof.
  intros H. destruct s as [|a s]; [done|]. unfold trimmed.
  pose proof H as Hr. rewrite <-str_forall_rev in Hr.
  cbn [str_forall] in H. apply andb_true_iff in H as [Ha _].
  apply andb_true_iff. split; [by apply is_digit_ascii|].
  destruct (String.rev (String a s)) as [|b r]; [done|].
  cbn [str_forall] in Hr. apply andb_true_iff in Hr as [Hb _]. by apply is_digit_ascii.
Qed.

Lemma digits_forall (P : ascii → bool) s :
  (∀ a, is_digit a = true → P a = true) → str_forall is_digit s = true → str_forall P s = true.
Proof. intros HP. by apply str_forall_impl. Qed.

Lemma itoa_digits z : (0 ≤ z)%Z → str_forall is_digit (itoa z) = true ∧ itoa z ≠ "".
Proof.
  intros Hz. rewrite itoa_nonneg by done. split; [apply pretty_N_digits|apply pretty_N_nonempty].
Qed.

Lemma digit_not_in_set cs a :
  str_forall (λ b, negb (is_digit b)) cs = true → is_digit a = true → in_set cs a = false.
Proof.
  intros Hcs Ha. unfold in_set. apply bool_decide_eq_false. intros Hin.
  induction cs as [|b cs IH]; cbn in *; [by apply not_elem_of_nil in Hin|].
  apply andb_true_iff in Hcs as [Hb Hcs]. apply elem_of_cons in Hin as [<-|Hin]; [|by auto].
  by rewrite Ha in Hb.
Qed.

Lemma digit_not a b : is_digit a = true → is_digit b = false → Ascii.eqb a b = false.
Proof. intros Ha Hb. destruct (Ascii.eqb_spec a b) as [->|_]; [by rewrite Ha in Hb|done]. Qed.

(** [ParseInt] reads back what [%d] prints. *)
Lemma parse_int_itoa z :
  (- 2 ^ 63 ≤ z < 2 ^ 63)%Z → parse_int_val (itoa z) = inl z.
Proof.
  intros Hz. unfold parse_int_val. destruct (Z.leb_spec 0 z) as [Hp|Hn].
  - rewrite itoa_nonneg, split_sign_digits by (done || apply pretty_N_digits).
    rewrite parse_uint_pretty_N by lia. rewrite Z2N.id by lia. cbn [negb andb].
    by rewrite (proj2 (Z.leb_gt _ _)) by lia.
  - destruct z as [|p|p]; [lia..|]. rewrite itoa_neg. cbn [split_sign].
    rewrite parse_uint_pretty_N by lia. cbn [negb andb].
    by rewrite (proj2 (Z.ltb_ge _ _)) by lia.
Qed.

Lemma parse_uint_itoa bits z :
  (0 ≤ z < 2 ^ bits)%Z → parse_uint_val bits (itoa z) = inl z.
Proof.
  intros Hz. rewrite itoa_nonneg by lia. rewrite parse_uint_pretty_N by lia.
  by rewrite Z2N.id by lia.
Qed.

(** The value read is always in range. *)
Lemma parse_digits_range maxv acc s n :
  (0 ≤ acc ≤ maxv)%Z → parse_digits maxv acc s = inl n → (0 ≤ n ≤ maxv)%Z.
Proof.
  revert acc. induction s as [|c s IH]; intros acc Hacc; cbn; [by intros [= <-]|].
  destruct (digit_val c) as [d|] eqn:Hd; [|done].
  destruct (Z.ltb_spec maxv (acc * 10 + d)); [done|]. apply IH.
  unfold digit_val in Hd. case_match; simplify_eq. bool_lia.
Qed.

Lemma parse_uint_range bits s n :
  (0 ≤ bits)%Z → parse_uint_val bits s = inl n → (0 ≤ n < 2 ^ bits)%Z.
Proof.
  intros Hb. unfold parse_uint_val. destruct s; [done|]. intros H.
  apply parse_digits_range in H; [lia|].
  pose proof (Z.pow_pos_nonneg 2 bits). lia.
Qed.

Lemma parse_int_range s n :
  parse_int_val s = inl n → (- 2 ^ 63 ≤ n < 2 ^ 63)%Z.
Proof.
  unfold parse_int_val. destruct (split_sign s) as [neg u].
  destruct (parse_uint_val 64 u) as [un|] eqn:Hu; [|done].
  apply parse_uint_range in Hu; [|lia].
  destruct neg; cbn [negb andb]; case_match; intros; simplify_eq; lia.
Qed.

(** ** UTF-8 decoding ([utf8.DecodeRuneInString]) *)

Section utf8.
Local Open Scope Z_scope.
Definition cont (c : ascii) : bool := (0x80 <=? byte_of c) && (byte_of c <=? 0xBF).
Definition in_range (c : ascii) (lo hi : Z) : bool :=
  (lo <=? byte_of c) && (byte_of c <=? hi).
Definition bits6 (c : ascii) : Z := Z.land (byte_of c) 0x3F.

(** The code point at the head of [s], its bytes and the rest of [s]; [None] for
    an invalid or truncated encoding (Go: [RuneError] with width 1). *)
Definition decode_rune (a : ascii) (s : string) : option (Z * string * string) :=
  let x := byte_of a in
  if x <? 0x80 then Some (x, String a "", s)
  else match s with
  | "" => None
  | String b s2 =>
      if in_range a 0xC2 0xDF then
        if cont b
        then Some (Z.lor (Z.shiftl (Z.land x 0x1F) 6) (bits6 b), String a (String b ""), s2)
        else None
      else match s2 with
      | "" => None
      | String c s3 =>
          if in_range a 0xE0 0xEF then
            if in_range b (if x =? 0xE0 then 0xA0 else 0x80) (if x =? 0xED then 0x9F else 0xBF)
               && cont c
            then Some (Z.lor (Z.shiftl (Z.land x 0x0F) 12) (Z.lor (Z.shiftl (bits6 b) 6) (bits6 c)),
                       String a (String b (String c "")), s3)
            else None
          else match s3 with
          | "" => None
          | String d s4 =>
              if in_range a 0xF0 0xF4 &&
                 in_range b (if x =? 0xF0 then 0x90 else 0x80) (if x =? 0xF4 then 0x8F else 0xBF)
                 && cont c && cont d
              then Some (Z.lor (Z.shiftl (Z.land x 0x07) 18)
                           (Z.lor (Z.shiftl (bits6 b) 12) (Z.lor (Z.shiftl (bits6 c) 6) (bits6 d))),
                         String a (String b (String c (String d ""))), s4)
              else None
          end
      end
  end.
End utf8.

(** ** Quoting: [strconv.Quote] and [%q] *)

(** Go's generated table of printable code points ([strconv/isprint.go]), for the
    code points from U+0080 on.  Those below are given by [quote_rune]. *)
Class UnicodeTables := { is_print : Z → bool }.
(** A table of printable code points: none beyond ASCII. *)
Definition no_tables : UnicodeTables := {| is_print := λ _, false |}.

Definition hex_digit (upper : bool) (d : Z) : ascii :=
  of_byte (if (d <? 10)%Z then 48 + d else if upper then 55 + d else 87 + d)%Z.

(** [n] hexadecimal digits of [x], most significant first. *)
Fixpoint hex_n (upper : bool) (n : nat) (x : Z) : string :=
  match n with
  | O => ""
  | S n => String (hex_digit upper (Z.land (Z.shiftr x (4 * Z.of_nat n)) 15)) (hex_n upper n x)
  end.

Section quote.
Context {UT : UnicodeTables}.

(** [appendEscapedRune] for the double quote, the code point [r] whose
    encoding is [enc]. *)
Definition quote_rune (r : Z) (enc : string) : string :=
  (if (r =? 34) || (r =? 92) then String "\" enc
   else if (if r <? 128 then (32 <=? r) && (r <? 127) else is_print r) then enc
   else if r =? 7 then "\a" else if r =? 8 then "\b" else if r =? 12 then "\f"
   else if r =? 10 then "\n" else if r =? 13 then "\r" else if r =? 9 then "\t"
   else if r =? 11 then "\v"
   else if (r <? 32) || (r =? 127) then "\x" +:+ hex_n false 2 r
   else if r <? 65536 then "\u" +:+ hex_n false 4 r
   else "\U" +:+ hex_n false 8 r)%Z.

Fixpoint quote_go (fuel : nat) (s : string) : string :=
  match fuel, s with
  | S fuel, String a s' =>
      match decode_rune a s' with
      | Some (r, enc, rest) => quote_rune r enc +:+ quote_go fuel rest
      | None => "\x" +:+ hex_n false 2 (byte_of a) +:+ quote_go fuel s'
      end
  | _, _ => ""
  end.

(** Every step of the loop consumes a byte, so [len(s)] steps are enough. *)
Definition dq : string := String "034" "".
Definition quote (s : string) : string := dq +:+ quote_go (String.length s) s +:+ dq.

(** A byte that [%q] copies unchanged. *)
Definition plain (a : ascii) : bool :=
  ((32 <=? byte_of a) && (byte_of a <? 127) && negb (byte_of a =? 34)
   && negb (byte_of a =? 92))%Z.

Lemma quote_rune_plain a : plain a = true → quote_rune (byte_of a) (String a "") = String a "".
Proof.
  unfold plain. rewrite !andb_true_iff, !negb_true_iff. intros [[[? ?] H34] H92].
  unfold quote_rune. rewrite H34, H92. cbn [orb].
  replace (byte_of a <? 128)%Z with true by lia.
  by replace ((32 <=? byte_of a) && (byte_of a <? 127))%Z with true by lia.
Qed.

Lemma quote_go_plain s : str_forall plain s = true → quote_go (String.length s) s = s.
Proof.
  induction s as [|a s IH]; [done|]. cbn [str_forall String.length quote_go].
  rewrite andb_true_iff. intros [Ha Hs]. unfold decode_rune.
  replace (byte_of a <? 0x80)%Z with true by (unfold plain in Ha; bool_lia).
  by rewrite quote_rune_plain, str_app_cons, str_app_nil_l, IH.
Qed.

Lemma quote_plain s : str_forall plain s = true → quote s = dq +:+ s +:+ dq.
Proof. intros H. unfold quote. by rewrite quote_go_plain. Qed.

Lemma plain_no_eol s : str_forall plain s = true → str_forall no_eol s = true.
Proof.
  apply str_forall_impl. intros a Ha. unfold no_eol.
  destruct (Ascii.eqb_spec a "010") as [->|_]; [done|].
  by destruct (Ascii.eqb_spec a "013") as [->|_].
Qed.

(** [%q] never prints a line break. *)
Lemma no_eol_byte a : no_eol a = negb ((byte_of a =? 10) || (byte_of a =? 13))%Z.
Proof.
  unfold no_eol. destruct (Ascii.eqb_spec a "010") as [->|H1]; [done|].
  destruct (Ascii.eqb_spec a "013") as [->|H2]; [done|]. cbn.
  destruct (Z.eqb_spec (byte_of a) 10) as [E|_]; [destruct H1; by rewrite <-(of_byte_byte_of a), E|].
  destruct (Z.eqb_spec (byte_of a) 13) as [E|_]; [destruct H2; by rewrite <-(of_byte_byte_of a), E|]. done.
Qed.

Lemma hex_n_no_eol u n x : str_forall no_eol (hex_n u n x) = true.
Proof.
  induction n as [|n IH]; [done|]. cbn [hex_n str_forall]. rewrite IH, andb_true_r.
  set (d := Z.land (Z.shiftr x (4 * Z.of_nat n)) 15).
  assert (0 ≤ d < 16)%Z as Hd by (unfold d; rewrite (Z.land_ones _ 4) by lia; apply Z.mod_pos_bound; lia).
  clearbody d. rewrite no_eol_byte. unfold hex_digit. rewrite byte_of_of_byte.
  rewrite Z.mod_small by (destruct (Z.ltb_spec d 10), u; lia).
  destruct (Z.ltb_spec d 10), u; apply negb_true_iff, orb_false_iff; split; lia.
Qed.

Lemma decode_rune_bytes a s r enc rest :
  decode_rune a s = Some (r, enc, rest) →
  (r = byte_of a ∧ enc = String a "" ∧ (r < 128)%Z) ∨ str_forall no_eol enc = true.
Proof.
  assert (∀ b, (128 ≤ byte_of b)%Z → no_eol b = true) as Hhigh.
  { intros b Hb. rewrite no_eol_byte. apply negb_true_iff, orb_false_iff. split; lia. }
  assert (∀ b lo hi, (128 ≤ lo)%Z → in_range b lo hi = true → no_eol b = true) as Hrange.
  { intros b lo hi Hlo Hb. apply Hhigh. unfold in_range in Hb. lia. }
  assert (∀ b, cont b = true → no_eol b = true) as Hcont.
  { intros b Hb. apply Hhigh. unfold cont in Hb. lia. }
  unfold decode_rune. destruct (Z.ltb_spec (byte_of a) 0x80); [intros [= <- <- <-]; left; split_and!; [done..|lia]|].
  intros Hd. right. revert Hd. destruct s as [|b s]; [done|]. destruct (in_range a 0xC2 0xDF)%Z eqn:Ha.
  { destruct (cont b) eqn:Hb; [|done]. intros [= <- <- <-]. cbn. by rewrite (Hrange a 0xC2 0xDF)%Z, Hcont. }
  clear Ha. destruct s as [|c s]; [done|]. destruct (in_range a 0xE0 0xEF)%Z eqn:Ha.
  { destruct (in_range b _ _) eqn:Hb; [|done]. destruct (cont c) eqn:Hc; [|done]. intros [= <- <- <-].
    apply Hrange in Hb; [|destruct (_ =? _)%Z; lia]. cbn. by rewrite (Hrange a 0xE0 0xEF)%Z, Hb, Hcont. }
  clear Ha. destruct s as [|d s]; [done|]. destruct (in_range a 0xF0 0xF4)%Z eqn:Ha; [|done].
  destruct (in_range b _ _) eqn:Hb; [|done]. destruct (cont c) eqn:Hc; [|done]. destruct (cont d) eqn:Hd; [|done].
  intros [= <- <- <-]. apply Hrange in Hb; [|destruct (_ =? _)%Z; lia].
  cbn. by rewrite (Hrange a 0xF0 0xF4)%Z, Hb, !Hcont.
Qed.

Lemma quote_rune_no_eol r enc a :
  (r = byte_of a ∧ enc = String a "" ∧ (r < 128)%Z) ∨ str_forall no_eol enc = true →
  str_forall no_eol (quote_rune r enc) = true.
Proof.
  intros Henc. unfold quote_rune.
  assert ((r =? 34) || (r =? 92) || ((32 <=? r) && (r <? 127)) = true ∨ (128 ≤ r)%Z → str_forall no_eol enc = true)%Z as H.
  { destruct Henc as [(-> & -> & Hlt)|]; [|done]. intros Hr. cbn. rewrite andb_true_r, no_eol_byte.
    apply negb_true_iff, orb_false_iff. split; lia. }
  destruct ((r =? 34) || (r =? 92))%Z eqn:E1; [cbn; apply H; left; by rewrite orb_true_l|].
  destruct (if (r <? 128)%Z then _ else _) eqn:E2.
  { apply H. destruct (Z.ltb_spec r 128); [left; by rewrite E2|by right]. }
  repeat (destruct (r =? _)%Z; [done|]).
  destruct ((r <? 32) || _)%Z; [rewrite str_forall_app, hex_n_no_eol; done|].
  destruct (r <? 65536)%Z; rewrite str_forall_app, hex_n_no_eol; done.
Qed.

Lemma quote_go_no_eol n s : str_forall no_eol (quote_go n s) = true.
Proof.
  revert s. induction n as [|n IH]; intros [|a s]; try done. cbn [quote_go].
  destruct (decode_rune a s) as [[[r enc] rest]|] eqn:Hd.
  - rewrite str_forall_app, IH, (quote_rune_no_eol r enc a); [done|]. by eapply decode_rune_bytes.
  - by rewrite !str_forall_app, IH, hex_n_no_eol.
Qed.

(** ** Errors of [strconv] *)

Definition num_err_text (e : num_err) : string :=
  match e with ErrSyntax => "invalid syntax" | ErrRange => "value out of range" end.
Definition num_error (fn s : string) (e : num_err) : string :=
  "strconv." +:+ fn +:+ ": parsing " +:+ quote s +:+ ": " +:+ num_err_text e.

Definition ParseInt (s : string) : outcome Z :=
  match parse_int_val s with
  | inl z => Ok z
  | inr e => Err (num_error "ParseInt" s e)
  end.
Definition ParseUint32 (s : string) : outcome Z :=
  match parse_uint_val 32 s with
  | inl z => Ok z
  | inr e => Err (num_error "ParseUint" s e)
  end.
Definition Atoi (s : string) : outcome Z :=
  match parse_int_val s with
  | inl z => Ok z
  | inr e => Err (num_error "Atoi" s e)
  end.
End quote.
