(* ===== verification/GoPath.v ===== *)
(** * Go's [path/filepath] on Linux

    [Clean], [Join], [Dir], [Base], [Ext], [IsAbs] and the lexical facts about
    them that confinement arguments need. *)

From Stdlib Require Import Ascii.
From S2P Require Import Prelude GoStrings.

Definition slash : string := "/".

(** ** Definitions *)

(** One element of [Clean]'s loop: the stack holds the elements kept so far, the
    last one first. *)
Definition clean_step (rooted : bool) (st : list string) (c : string) : list string :=
  if decide (c = "") then st
  else if decide (c = ".") then st
  else if decide (c = "..") then
    match st with
    | [] => if rooted then [] else [".."]
    | t :: st' => if decide (t = "..") then ".." :: st else st'
    end
  else c :: st.

Definition clean_comps (rooted : bool) (cs : list string) : list string :=
  reverse (foldl (clean_step rooted) [] cs).

Definition is_abs (p : string) : bool := has_prefix p slash.

Definition Clean (p : string) : string :=
  if decide (p = "") then "."
  else
    let body := str_join slash (clean_comps (is_abs p) (str_split "/" p)) in
    if is_abs p then slash +:+ body
    else if decide (body = "") then "." else body.

(** [filepath.Join]: leading empty elements are ignored. *)
Fixpoint Join (elems : list string) : string :=
  match elems with
  | [] => ""
  | "" :: elems => Join elems
  | _ => Clean (str_join slash elems)
  end.

Definition Dir (p : string) : string :=
  Clean (str_join slash (removelast (str_split "/" p) ++ [""])).

Definition is_slash (a : ascii) : bool := Ascii.eqb a "/".

Definition Base (p : string) : string :=
  if decide (p = "") then "."
  else
    let q := String.rev (trim_left_set is_slash (String.rev p)) in
    if decide (q = "") then slash else List.last (str_split "/" q) "".

(** [filepath.Ext]: from the last dot of the last element. *)
Definition Ext (p : string) : string :=
  let r := String.rev (List.last (str_split "/" p) "") in
  match str_cut "." r with
  | Some (e, _) => "." +:+ String.rev e
  | None => ""
  end.

(** [strings.TrimSuffix(base, filepath.Ext(base))] for [base := filepath.Base(path)] *)
Definition stem (path : string) : string := trim_suffix (Base path) (Ext (Base path)).

(** ** Normal path elements *)

Definition norm_comp (c : string) : Prop :=
  c ≠ "" ∧ c ≠ "." ∧ c ≠ ".." ∧ str_free "/" c = true.
#[export] Instance norm_comp_dec c : Decision (norm_comp c).
Proof. unfold norm_comp. apply _. Defined.

(** The absolute path with the elements [cs]. *)
Definition abs_path (cs : list string) : string := slash +:+ str_join slash cs.

Lemma str_split_free_all c s : Forall (λ w, str_free c w = true) (str_split c s).
Proof.
  induction s as [|a s IH]; cbn; [by repeat constructor|].
  destruct (Ascii.eqb a c) eqn:Ha; [by constructor|].
  destruct (str_split c s) as [|w ws]; [repeat constructor; cbn; by rewrite Ha|].
  apply Forall_cons in IH as [Hw Hws]. constructor; [cbn; by rewrite Ha|done].
Qed.

(** ** The loop of [Clean] *)

(** The elements kept: [".."]s, then normal elements. *)
Definition stack_ok (rooted : bool) (st : list string) : Prop :=
  ∃ n cs, st = reverse (replicate n ".." ++ cs) ∧ Forall norm_comp cs ∧
          (rooted = true → n = 0).

Lemma stack_ok_step rooted st c :
  str_free "/" c = true → stack_ok rooted st → stack_ok rooted (clean_step rooted st c).
Proof.
  intros Hc (n & cs & -> & Hcs & Hn). unfold clean_step.
  repeat case_decide; subst; [by exists n, cs|by exists n, cs|..].
  - destruct cs as [|d cs _] using rev_ind.
    + rewrite app_nil_r. destruct n as [|n].
      * cbn. destruct rooted; [by exists 0, []|]. exists 1, []. by split_and!.
      * replace (reverse (replicate (S n) "..")) with (".." :: reverse (replicate n "..")).
        2:{ by rewrite replicate_S_end, reverse_snoc. }
        rewrite decide_True by done. exists (S (S n)), [].
        split_and!; [|done|intros Hr; specialize (Hn Hr); done].
        rewrite app_nil_r. rewrite replicate_S_end, reverse_snoc. f_equal.
        by rewrite replicate_S_end, reverse_snoc.
    + apply Forall_app in Hcs as [Hcs Hd]. apply Forall_singleton in Hd as (_ & _ & Hd & _).
      rewrite app_assoc, reverse_snoc. rewrite decide_False by done. by exists n, cs.
  - exists n, (cs ++ [c]). rewrite app_assoc, reverse_snoc. split_and!; [done|..|done].
    apply Forall_app. split; [done|]. by repeat constructor.
Qed.

Lemma stack_ok_foldl rooted cs st :
  Forall (λ c, str_free "/" c = true) cs → stack_ok rooted st →
  stack_ok rooted (foldl (clean_step rooted) st cs).
Proof.
  intros Hcs. revert st. induction Hcs as [|c cs Hc _ IH]; intros st Hst; [done|].
  cbn. by apply IH, stack_ok_step.
Qed.

Lemma clean_comps_shape rooted cs :
  Forall (λ c, str_free "/" c = true) cs →
  ∃ n ds, clean_comps rooted cs = replicate n ".." ++ ds ∧ Forall norm_comp ds ∧
          (rooted = true → n = 0).
Proof.
  intros Hcs. destruct (stack_ok_foldl rooted cs [] Hcs) as (n & ds & Heq & Hds & Hn).
  { by exists 0, []. }
  exists n, ds. split_and!; [|done|done]. unfold clean_comps.
  by rewrite Heq, reverse_involutive.
Qed.

(** Normal elements are pushed one by one. *)
Lemma clean_step_norm rooted st c : norm_comp c → clean_step rooted st c = c :: st.
Proof. intros (? & ? & ? & _). unfold clean_step. by repeat case_decide. Qed.
Lemma foldl_clean_norm rooted cs st :
  Forall norm_comp cs → foldl (clean_step rooted) st cs = reverse cs ++ st.
Proof.
  intros H. revert st. induction H as [|c cs Hc _ IH]; intros st; [done|].
  cbn [foldl]. rewrite clean_step_norm, IH by done. by rewrite reverse_cons, <-app_assoc.
Qed.

(** ** [Clean] of absolute and relative paths *)

Lemma is_abs_abs_path cs : is_abs (abs_path cs) = true.
Proof. apply has_prefix_app. Qed.

Lemma Clean_abs p :
  is_abs p = true → ∃ cs, Forall norm_comp cs ∧ Clean p = abs_path cs.
Proof.
  intros Hp. unfold Clean. rewrite Hp.
  destruct (decide (p = "")) as [->|_]; [done|].
  destruct (clean_comps_shape true (str_split "/" p)) as (n & cs & -> & Hcs & Hn);
    [apply str_split_free_all|].
  rewrite (Hn eq_refl). by exists cs.
Qed.

Lemma str_join_nonempty cs : Forall norm_comp cs → cs ≠ [] → str_join slash cs ≠ "".
Proof.
  intros Hcs Hne. destruct Hcs as [|c cs (Hc & _) _]; [done|].
  destruct c as [|a c]; [done|]. by destruct cs.
Qed.

Lemma Forall_norm_free cs : Forall norm_comp cs → Forall (λ c, str_free "/" c = true) cs.
Proof. intros H. eapply Forall_impl; [exact H|]. by intros c (_ & _ & _ & ?). Qed.

Lemma str_split_abs cs :
  Forall norm_comp cs →
  str_split "/" (abs_path cs) = if decide (cs = []) then [""; ""] else "" :: cs.
Proof.
  intros Hcs. unfold abs_path, slash. rewrite str_app_cons, str_app_nil_l. cbn.
  case_decide as Hd; [by subst|]. f_equal. apply str_split_join; [done|].
  by apply Forall_norm_free.
Qed.

Lemma Clean_of_comps p cs :
  p ≠ "" → is_abs p = true → foldl (clean_step true) [] (str_split "/" p) = reverse cs →
  Clean p = abs_path cs.
Proof.
  intros Hp Ha Hf. unfold Clean. rewrite decide_False, Ha by done.
  unfold clean_comps. by rewrite Hf, reverse_involutive.
Qed.

(** [Clean] is the identity on clean absolute paths, and appending clean relative
    elements appends the elements. *)
Lemma Clean_abs_path cs : Forall norm_comp cs → Clean (abs_path cs) = abs_path cs.
Proof.
  intros Hcs. apply Clean_of_comps; [done|apply is_abs_abs_path|].
  rewrite str_split_abs by done. case_decide as Hd; [by subst|].
  cbn [foldl]. change (clean_step true [] "") with (@nil string).
  rewrite foldl_clean_norm by done. by rewrite app_nil_r.
Qed.

Lemma str_join_app xs ys :
  xs ≠ [] → ys ≠ [] →
  str_join slash (xs ++ ys) = str_join slash xs +:+ slash +:+ str_join slash ys.
Proof.
  intros Hx Hy. induction xs as [|x xs IH]; [done|].
  destruct xs as [|x' xs].
  - destruct ys; [done|]. done.
  - change (str_join slash ((x :: x' :: xs) ++ ys))
      with (x +:+ slash +:+ str_join slash ((x' :: xs) ++ ys)).
    rewrite IH by done.
    change (str_join slash (x :: x' :: xs)) with (x +:+ slash +:+ str_join slash (x' :: xs)).
    by rewrite !str_app_assoc.
Qed.

Lemma Clean_abs_append ds p :
  Forall norm_comp ds →
  foldl (clean_step true) [] (str_split "/" (abs_path ds +:+ slash +:+ p)) =
  foldl (clean_step true) (reverse ds) (str_split "/" p).
Proof.
  intros Hds. destruct ds as [|d ds].
  - done.
  - unfold abs_path. rewrite (str_app_assoc slash).
    change (str_split "/" (slash +:+ ?x)) with ("" :: str_split "/" x). cbn [foldl].
    change (clean_step true [] "") with (@nil string).
    assert (∀ xs, Forall norm_comp xs → xs ≠ [] → ∀ st,
      foldl (clean_step true) st (str_split "/" (str_join slash xs +:+ slash +:+ p)) =
      foldl (clean_step true) (reverse xs ++ st) (str_split "/" p)) as Hgo.
    { clear. intros xs Hxs. induction Hxs as [|x xs Hx Hxs IH]; [done|]. intros _ st.
      destruct xs as [|x' xs].
      - change (str_join slash [x]) with x. change (x +:+ slash +:+ p) with (x +:+ String "/" p).
        rewrite str_split_cons by apply Hx. cbn [foldl]. by rewrite clean_step_norm.
      - change (str_join slash (x :: x' :: xs)) with (x +:+ slash +:+ str_join slash (x' :: xs)).
        rewrite !str_app_assoc. change (slash +:+ ?y) with (String "/" y) at 1.
        rewrite str_split_cons by apply Hx. cbn [foldl]. rewrite clean_step_norm by done.
        rewrite IH by done. by rewrite (reverse_cons (x' :: xs)), <-app_assoc. }
    rewrite Hgo by done. by rewrite app_nil_r.
Qed.

(** [filepath.Join(dest, rel)] for a clean absolute [dest] and a clean relative
    path that does not climb: the elements of [rel] follow those of [dest]. *)
Lemma Join_abs_rel ds cs :
  Forall norm_comp ds → Forall norm_comp cs → cs ≠ [] →
  Join [abs_path ds; str_join slash cs] = abs_path (ds ++ cs).
Proof.
  intros Hds Hcs Hne. change (Join [abs_path ds; str_join slash cs])
    with (Clean (abs_path ds +:+ slash +:+ str_join slash cs)).
  apply Clean_of_comps; [done|done|].
  rewrite Clean_abs_append by done.
  rewrite str_split_join by (done || by apply Forall_norm_free).
  rewrite foldl_clean_norm by done. by rewrite reverse_app.
Qed.

(** A clean relative path: the dot, or elements that may climb first. *)
Lemma Clean_rel p :
  is_abs p = false →
  Clean p = "." ∨
  ∃ n cs, Clean p = str_join slash (replicate n ".." ++ cs) ∧ Forall norm_comp cs ∧
          replicate n ".." ++ cs ≠ [].
Proof.
  intros Hp. unfold Clean. rewrite Hp. case_decide; [by left|].
  case_decide as Hb; [by left|]. right.
  destruct (clean_comps_shape false (str_split "/" p)) as (n & cs & Heq & Hcs & _);
    [apply str_split_free_all|].
  exists n, cs. rewrite Heq. split_and!; [done..|]. intros Hnil. apply Hb.
  by rewrite Heq, Hnil.
Qed.

Lemma Clean_is_abs p : is_abs (Clean p) = is_abs p.
Proof.
  destruct (is_abs p) eqn:Hp.
  - destruct (Clean_abs p Hp) as (cs & _ & ->). apply is_abs_abs_path.
  - destruct (Clean_rel p Hp) as [->|(n & cs & -> & Hcs & Hne)]; [done|].
    destruct n as [|n].
    + cbn in *. destruct Hcs as [|c cs (Hc & _ & _ & Hf) _]; [done|].
      destruct c as [|a c]; [done|]. cbn in Hf. apply andb_true_iff in Hf as [Ha _].
      apply negb_true_iff in Ha. unfold is_abs, has_prefix.
      apply bool_decide_eq_false. intros [t Ht].
      assert (∃ t', str_join slash (String a c :: cs) = String a t') as [t' Ht'].
      { destruct cs; [by eexists|]. cbn. rewrite str_app_cons. by eexists. }
      rewrite Ht' in Ht. apply strip_prefix_Some in Ht. unfold slash in Ht.
      rewrite str_app_cons in Ht. by injection Ht as -> _.
    + cbn. by destruct (replicate n ".." ++ cs).
Qed.

(** ** [filepath.Rel] and [filepath.Abs] *)

Definition comps (p : string) : list string := filter (λ c, c ≠ "") (str_split "/" p).

(** Drop the longest common prefix. *)
Fixpoint strip_common (b t : list string) : list string * list string :=
  match b, t with
  | x :: b', y :: t' => if decide (x = y) then strip_common b' t' else (b, t)
  | _, _ => (b, t)
  end.

Definition Rel (basepath targpath : string) : outcome string :=
  let err := Err ("Rel: can't make " +:+ targpath +:+ " relative to " +:+ basepath) in
  let base := Clean basepath in
  let targ := Clean targpath in
  if decide (targ = base) then Ok "."
  else
    let base := if decide (base = ".") then "" else base in
    if negb (Bool.eqb (is_abs base) (is_abs targ)) then err
    else
      let '(rb, rt) := strip_common (comps base) (comps targ) in
      if decide (head rb = Some "..") then err
      else Ok (str_join slash ((λ _, "..") <$> rb) +:+
               (if decide (rb = []) then "" else if decide (rt = []) then "" else slash) +:+
               str_join slash rt).

(** [filepath.Abs], the working directory being [cwd]. *)
Definition Abs (cwd : outcome string) (p : string) : outcome string :=
  if is_abs p then Ok (Clean p) else d ← cwd; Ok (Join [d; p]).

Lemma comps_abs_path cs : Forall norm_comp cs → comps (abs_path cs) = cs.
Proof.
  intros Hcs. unfold comps. rewrite str_split_abs by done. case_decide as Hd; [by subst|].
  rewrite filter_cons, decide_False by (intros H; by apply H).
  clear Hd. induction Hcs as [|c cs Hc Hcs IH]; [done|].
  rewrite filter_cons, decide_True by apply Hc. by rewrite IH.
Qed.

Lemma strip_common_app ds cs : strip_common ds (ds ++ cs) = ([], cs).
Proof. induction ds as [|d ds IH]; [by destruct cs|]. cbn. by rewrite decide_True. Qed.

Lemma abs_path_inj cs ds :
  Forall norm_comp cs → Forall norm_comp ds → abs_path cs = abs_path ds → cs = ds.
Proof. intros Hc Hd H. by rewrite <-(comps_abs_path cs), <-(comps_abs_path ds), H. Qed.

Lemma Rel_below ds cs :
  Forall norm_comp ds → Forall norm_comp cs → cs ≠ [] →
  Rel (abs_path ds) (abs_path (ds ++ cs)) = Ok (str_join slash cs).
Proof.
  intros Hds Hcs Hne. assert (Forall norm_comp (ds ++ cs)) as Hall by by apply Forall_app.
  unfold Rel. rewrite !Clean_abs_path by done.
  rewrite decide_False.
  2: { intros H. apply abs_path_inj in H; [|done..].
       rewrite <-(app_nil_r ds) in H at 2. apply app_inv_head in H. done. }
  rewrite (decide_False (P := abs_path ds = ".")) by done.
  rewrite !is_abs_abs_path, !comps_abs_path by done. cbn [Bool.eqb negb].
  rewrite strip_common_app. cbn. done.
Qed.

(** ** Paths below a directory *)

Lemma str_split_append ds p :
  Forall norm_comp ds → ds ≠ [] →
  str_split "/" (abs_path ds +:+ slash +:+ p) = "" :: ds ++ str_split "/" p.
Proof.
  intros Hds Hne. unfold abs_path. rewrite (str_app_assoc slash).
  change (str_split "/" (slash +:+ ?x)) with ("" :: str_split "/" x). f_equal.
  induction Hds as [|d ds Hd Hds IH]; [done|]. destruct ds as [|d' ds].
  - change (str_join slash [d] +:+ slash +:+ p) with (d +:+ String "/" p).
    by rewrite str_split_cons by apply Hd.
  - change (str_join slash (d :: d' :: ds)) with (d +:+ slash +:+ str_join slash (d' :: ds)).
    rewrite !str_app_assoc. change (slash +:+ ?y) with (String "/" y) at 1.
    rewrite str_split_cons by apply Hd. cbn [app]. f_equal. by apply IH.
Qed.

Lemma Join_abs_dot ds : Forall norm_comp ds → Join [abs_path ds; "."] = abs_path ds.
Proof.
  intros Hds. change (Join [abs_path ds; "."]) with (Clean (abs_path ds +:+ slash +:+ ".")).
  apply Clean_of_comps; [done|done|]. by rewrite Clean_abs_append.
Qed.

(** The string tests for "below" agree with elements. *)
Lemma below_prefix ds cs :
  Forall norm_comp ds → Forall norm_comp cs → ds ≠ [] → cs ≠ [] →
  has_prefix (abs_path (ds ++ cs)) (abs_path ds +:+ slash) = true.
Proof.
  intros _ _ Hd Hc. apply has_prefix_true. exists (str_join slash cs).
  unfold abs_path. rewrite str_join_app by done. by rewrite !str_app_assoc.
Qed.

Lemma prefix_below ds es :
  Forall norm_comp ds → Forall norm_comp es → ds ≠ [] →
  has_prefix (abs_path es) (abs_path ds +:+ slash) = true → ∃ cs, es = ds ++ cs ∧ cs ≠ [].
Proof.
  intros Hds Hes Hne. rewrite has_prefix_true. intros [t Ht]. rewrite str_app_assoc in Ht.
  apply (f_equal (str_split "/")) in Ht. rewrite str_split_append, str_split_abs in Ht by done.
  case_decide as He.
  - subst es. injection Ht as Ht. destruct ds as [|d ds]; [done|].
    injection Ht as <- Ht. apply Forall_cons in Hds as [(Hd & _) _]. done.
  - injection Ht as ->. eexists. split; [done|]. apply str_split_nonempty.
Qed.

Lemma is_abs_prefix_slash cs : cs ≠ [] → Forall norm_comp cs → is_abs (str_join slash cs) = false.
Proof.
  intros Hne Hcs. destruct Hcs as [|c cs (Hc & _ & _ & Hf) _]; [done|].
  destruct c as [|a c]; [done|]. cbn in Hf. apply andb_true_iff in Hf as [Ha _].
  apply negb_true_iff in Ha.
  assert (∃ t', str_join slash (String a c :: cs) = String a t') as [t' ->].
  { destruct cs; [by eexists|]. cbn. rewrite str_app_cons. by eexists. }
  by apply not_prefix_cons.
Qed.

Lemma Dir_abs_snoc cs c : Forall norm_comp (cs ++ [c]) → Dir (abs_path (cs ++ [c])) = abs_path cs.
Proof.
  intros Hall. pose proof Hall as [Hcs Hc]%Forall_app. unfold Dir.
  rewrite str_split_abs, decide_False by (done || by destruct cs).
  change ("" :: cs ++ [c]) with (("" :: cs) ++ [c]). rewrite removelast_last.
  destruct (decide (cs = [])) as [->|Hne]; [done|].
  assert (str_join slash (("" :: cs) ++ [""]) = abs_path cs +:+ slash +:+ "") as ->.
  { change (("" :: cs) ++ [""]) with ([""] ++ (cs ++ [""])).
    rewrite str_join_app by (done || by destruct cs). rewrite str_join_app by done.
    unfold abs_path. cbn [str_join]. by rewrite str_app_nil_l, str_app_assoc. }
  apply Clean_of_comps; [done|done|]. rewrite Clean_abs_append by done. done.
Qed.

(** [filepath.Join(dest, link)] for an absolute [link]. *)
Lemma Join_abs_abs ds cs :
  Forall norm_comp ds → Forall norm_comp cs →
  Join [abs_path ds; abs_path cs] = abs_path (ds ++ cs).
Proof.
  intros Hds Hcs. change (Join [abs_path ds; abs_path cs])
    with (Clean (abs_path ds +:+ slash +:+ abs_path cs)).
  apply Clean_of_comps; [done|done|]. rewrite Clean_abs_append, str_split_abs by done.
  case_decide as Hc; [by subst; rewrite app_nil_r|].
  cbn [foldl]. change (clean_step true (reverse ds) "") with (reverse ds).
  rewrite foldl_clean_norm by done. by rewrite reverse_app.
Qed.

(** A relative path that never climbs out is walked above any stack. *)
Lemma clean_climbed st ps : last st = Some ".." → last (foldl (clean_step false) st ps) = Some "..".
Proof.
  revert st. induction ps as [|c ps IH]; intros st Hst; [done|]. cbn [foldl]. apply IH. unfold clean_step.
  destruct st as [|t st]; [done|]. repeat case_decide; try done.
  - by destruct st; simplify_eq/=.
Qed.

Lemma clean_lift st0 st ps :
  Forall (λ c, c ≠ "..") st → last (foldl (clean_step false) st ps) ≠ Some ".." →
  foldl (clean_step true) (st ++ st0) ps = foldl (clean_step false) st ps ++ st0.
Proof.
  revert st. induction ps as [|c ps IH]; intros st Hst Hl; [done|]. cbn [foldl] in *.
  assert (clean_step false st c = [".."] ∨
    Forall (λ c, c ≠ "..") (clean_step false st c) ∧ clean_step true (st ++ st0) c = clean_step false st c ++ st0)
    as [Hc|[Hf Hc]].
  { unfold clean_step. repeat case_decide; subst; try (right; by split_and!).
    - destruct Hst as [|t st Ht Hst]; [by left|]. right. cbn [app]. by rewrite !decide_False.
    - right. split; [by constructor|done]. }
  - rewrite Hc in Hl. by rewrite clean_climbed in Hl.
  - rewrite Hc. by apply IH.
Qed.

Lemma Join_abs_inside ds p :
  Forall norm_comp ds → p ≠ "" → head (clean_comps false (str_split "/" p)) ≠ Some ".." →
  Forall norm_comp (clean_comps false (str_split "/" p)) →
  Join [abs_path ds; p] = abs_path (ds ++ clean_comps false (str_split "/" p)).
Proof.
  intros Hds Hp Hh Hcs. change (Join [abs_path ds; p]) with (Clean (abs_path ds +:+ slash +:+ p)).
  apply Clean_of_comps; [done|done|]. rewrite Clean_abs_append by done.
  unfold clean_comps in *. rewrite head_reverse in Hh.
  rewrite <-(app_nil_l (reverse ds)), clean_lift by done. by rewrite reverse_app, reverse_involutive.
Qed.

Lemma trim_left_set_id P a s : P a = false → trim_left_set P (String a s) = String a s.
Proof. intros H. cbn. by rewrite H. Qed.

(** The base name of a path whose last element is normal. *)
Lemma Base_norm c : norm_comp c → Base c = c.
Proof.
  intros (Hc & _ & _ & Hf). unfold Base. rewrite decide_False by done.
  assert (String.rev (trim_left_set is_slash (String.rev c)) = c) as ->.
  { destruct (String.rev c) as [|a r] eqn:Hr.
    - apply (f_equal String.rev) in Hr. by rewrite str_rev_involutive in Hr.
    - rewrite trim_left_set_id.
      + by rewrite <-Hr, str_rev_involutive.
      + rewrite <-str_forall_rev, Hr in Hf. cbn in Hf. apply andb_true_iff in Hf as [Ha _].
        by apply negb_true_iff in Ha. }
  rewrite decide_False by done. by rewrite str_split_free.
Qed.

Lemma Base_abs_snoc ss c : Forall norm_comp (ss ++ [c]) → Base (abs_path (ss ++ [c])) = c.
Proof.
  intros Hall. pose proof Hall as [_ Hc]%Forall_app. apply Forall_singleton in Hc as (Hc & _ & _ & Hf).
  assert (∃ u, abs_path (ss ++ [c]) = u +:+ c) as [u Hu].
  { unfold abs_path. destruct (decide (ss = [])) as [->|Hss]; [by exists slash|].
    rewrite str_join_app by done. exists (slash +:+ str_join slash ss +:+ slash). by rewrite !str_app_assoc. }
  unfold Base. rewrite decide_False by done.
  assert (String.rev (trim_left_set is_slash (String.rev (abs_path (ss ++ [c])))) = abs_path (ss ++ [c])) as ->.
  { rewrite Hu, str_rev_app. destruct (String.rev c) as [|a r] eqn:Hr.
    - apply (f_equal String.rev) in Hr. by rewrite str_rev_involutive in Hr.
    - rewrite str_app_cons, trim_left_set_id.
      + by rewrite <-str_app_cons, <-Hr, <-str_rev_app, str_rev_involutive.
      + rewrite <-str_forall_rev, Hr in Hf. cbn in Hf. apply andb_true_iff in Hf as [Ha _].
        by apply negb_true_iff in Ha. }
  rewrite decide_False by done. rewrite str_split_abs by done. rewrite decide_False by by destruct ss.
  change ("" :: ss ++ [c]) with (("" :: ss) ++ [c]). apply List.last_last.
Qed.

(** ** Climbing *)

Lemma clean_step_up st : Forall norm_comp st → clean_step true st ".." = tail st.
Proof.
  intros Hst. unfold clean_step. rewrite !decide_False, decide_True by done.
  destruct Hst as [|c st (_ & _ & Hc & _) _]; [done|]. by rewrite decide_False.
Qed.

(** A relative path that starts with enough [..] leaves the directory altogether. *)
Lemma Clean_climb ds k cs :
  Forall norm_comp ds → Forall norm_comp cs → replicate k ".." ++ cs ≠ [] → length ds ≤ k →
  Clean (abs_path ds +:+ slash +:+ str_join slash (replicate k ".." ++ cs)) = abs_path cs.
Proof.
  intros Hds Hcs Hne Hk. apply Clean_of_comps; [done|done|]. rewrite Clean_abs_append by done.
  rewrite str_split_join; [|done|].
  - rewrite foldl_app. assert (∀ st : list string, Forall norm_comp st → length st ≤ k →
      foldl (clean_step true) st (replicate k "..") = []) as Hpop.
    { clear. induction k as [|k IH]; intros st Hst Hl; [by destruct st; [|cbn in Hl; lia]|].
      cbn [replicate foldl]. rewrite clean_step_up by done.
      apply IH; destruct Hst; cbn in *; [done|done|lia|lia]. }
    rewrite Hpop; [|by apply Forall_reverse|by rewrite length_reverse].
    rewrite foldl_clean_norm by done. by rewrite app_nil_r.
  - apply Forall_app. split; [by apply Forall_replicate|by apply Forall_norm_free].
Qed.

Lemma Join_climb ds k cs :
  Forall norm_comp ds → Forall norm_comp cs → replicate k ".." ++ cs ≠ [] → length ds ≤ k →
  Join [abs_path ds; str_join slash (replicate k ".." ++ cs)] = abs_path cs.
Proof. intros. by apply Clean_climb. Qed.
