(* ===== verification/GoFloat.v ===== *)
(** * Go's [float64] and [strconv.ParseFloat]

    IEEE 754 binary64 numbers are the standard library's [spec_float]; its
    operations round to nearest, ties to even, as Go's do. *)

From Stdlib Require Import Ascii.
From Stdlib Require Import SpecFloat.
From S2P Require Import Prelude GoStrings GoStrconv.

Local Open Scope Z_scope.

Abbreviation float64 := spec_float.
Definition f64_prec : Z := 53.
Definition f64_emax : Z := 1024.

Definition f64_round (m e : Z) (neg0 : bool) : float64 :=
  binary_normalize f64_prec f64_emax m e neg0.
Definition f64_of_Z (z : Z) : float64 := f64_round z 0 false.
Definition f64_mul : float64 → float64 → float64 := SFmul f64_prec f64_emax.
Definition f64_div : float64 → float64 → float64 := SFdiv f64_prec f64_emax.
Definition f64_gtb (x y : float64) : bool := SFltb y x.

(** The conversion [int(x)] on amd64: truncation, and the indefinite integer
    [-2^63] for a value that is not representable. *)
Definition f64_trunc (x : float64) : option Z :=
  match x with
  | S754_zero _ => Some 0
  | S754_finite s m e =>
      let a := if 0 <=? e then Z.pos m * 2 ^ e else Z.pos m / 2 ^ (- e) in
      Some (if s then - a else a)
  | _ => None
  end.
Definition f64_to_int (x : float64) : Z :=
  match f64_trunc x with
  | Some z => if (MinInt64 <=? z) && (z <=? MaxInt64) then z else MinInt64
  | None => MinInt64
  end.

Definition is_inf (x : float64) : bool :=
  match x with S754_infinity _ => true | _ => false end.

(** The float nearest to [m * 10^e]: for a negative exponent the quotient is taken
    with at least 64 significant bits and a sticky bit, so that it rounds once. *)
Definition dec_to_f64 (neg : bool) (m e : Z) : float64 :=
  let sg := fun z : Z => if neg then - z else z in
  if m =? 0 then S754_zero neg
  else if 0 <=? e then f64_round (sg (m * 10 ^ e)) 0 neg
  else
    let d := 10 ^ (- e) in
    let s := Z.max 0 (Z.log2 d - Z.log2 m + 64) in
    let q := (m * 2 ^ s) / d in
    let r := (m * 2 ^ s) mod d in
    f64_round (sg (2 * q + (if r =? 0 then 0 else 1))) (- s - 1) neg.

Definition hex_to_f64 (neg : bool) (m e : Z) : float64 :=
  if m =? 0 then S754_zero neg else f64_round (if neg then - m else m) e neg.

(** ** Syntax: [readFloat] *)

Definition lower_byte (c : ascii) : Z := Z.lor (byte_of c) 32.
Definition base_digit (hex : bool) (c : ascii) : option Z :=
  match digit_val c with
  | Some d => Some d
  | None =>
      if hex && (97 <=? lower_byte c) && (lower_byte c <=? 102)
      then Some (lower_byte c - 87) else None
  end.

(** State of the mantissa loop. *)
Record mant := { mval : Z; mfrac : Z; msawdot : bool; msawdigits : bool; munder : bool }.

Fixpoint read_mant (hex : bool) (st : mant) (s : string) : mant * string :=
  match s with
  | "" => (st, s)
  | String c s' =>
      if Ascii.eqb c "_" then
        read_mant hex {| mval := mval st; mfrac := mfrac st; msawdot := msawdot st;
                         msawdigits := msawdigits st; munder := true |} s'
      else if Ascii.eqb c "." then
        if msawdot st then (st, s)
        else read_mant hex {| mval := mval st; mfrac := mfrac st; msawdot := true;
                              msawdigits := msawdigits st; munder := munder st |} s'
      else match base_digit hex c with
           | Some d =>
               read_mant hex
                 {| mval := mval st * (if hex then 16 else 10) + d;
                    mfrac := if msawdot st then mfrac st + 1 else mfrac st;
                    msawdot := msawdot st; msawdigits := true; munder := munder st |} s'
           | None => (st, s)
           end
  end.

Fixpoint read_exp (e : Z) (under : bool) (s : string) : Z * bool * string :=
  match s with
  | "" => (e, under, s)
  | String c s' =>
      if Ascii.eqb c "_" then read_exp e true s'
      else match digit_val c with
           | Some d => read_exp (if e <? 10000 then e * 10 + d else e) under s'
           | None => (e, under, s)
           end
  end.

(** [underscoreOK]: underscores separate digits. *)
Inductive saw := SawStart | SawDigit | SawUnder | SawOther.
Fixpoint under_go (hex : bool) (st : saw) (s : string) : bool :=
  match s with
  | "" => match st with SawUnder => false | _ => true end
  | String c s =>
      match base_digit hex c with
      | Some _ => under_go hex SawDigit s
      | None =>
          if Ascii.eqb c "_" then
            match st with SawDigit => under_go hex SawUnder s | _ => false end
          else match st with SawUnder => false | _ => under_go hex SawOther s end
      end
  end.
Definition underscore_ok (s : string) : bool :=
  match snd (split_sign s) with
  | String "0" (String c s') =>
      let l := lower_byte c in
      if (l =? 98) || (l =? 111) || (l =? 120) then under_go (l =? 120) SawDigit s'
      else under_go false SawStart (snd (split_sign s))
  | u => under_go false SawStart u
  end.

(** [special]: infinities and not-a-number, ignoring case. *)
Definition parse_special (s : string) : option float64 :=
  let '(neg, u) := split_sign s in
  let signed := negb (String.eqb u s) in
  let l := ascii_lower u in
  if String.eqb l "inf" || String.eqb l "infinity" then Some (S754_infinity neg)
  else if String.eqb l "nan" && negb signed then Some S754_nan
  else None.

(** The value denoted by the whole string [s], if it is well formed. *)
Definition read_float (s : string) : option float64 :=
  let '(neg, u) := split_sign s in
  let '(hex, u1) :=
    match u with
    | String "0" (String c (String _ _ as r)) =>
        if lower_byte c =? 120 then (true, r) else (false, u)
    | _ => (false, u)
    end in
  let '(m, rest) := read_mant hex {| mval := 0; mfrac := 0; msawdot := false;
                                     msawdigits := false; munder := false |} u1 in
  if negb (msawdigits m) then None
  else
    let scaled := fun (e : Z) (under : bool) =>
      if under && negb (underscore_ok s) then None
      else Some (if hex then hex_to_f64 neg (mval m) (e - 4 * mfrac m)
                 else dec_to_f64 neg (mval m) (e - mfrac m)) in
    match rest with
    | "" => if hex then None else scaled 0 (munder m)
    | String c r =>
        if negb (lower_byte c =? (if hex then 112 else 101)) then None
        else
          let '(esign, r1) := split_sign r in
          match r1 with
          | String d _ =>
              match digit_val d with
              | None => None
              | Some _ =>
                  let '(e, under, rest') := read_exp 0 (munder m) r1 in
                  match rest' with
                  | "" => scaled (if esign then - e else e) under
                  | _ => None
                  end
              end
          | "" => None
          end
    end.

Definition ParseFloat `{UnicodeTables} (s : string) : outcome float64 :=
  match parse_special s with
  | Some f => Ok f
  | None =>
      match read_float s with
      | None => Err (num_error "ParseFloat" s ErrSyntax)
      | Some f => if is_inf f then Err (num_error "ParseFloat" s ErrRange) else Ok f
      end
  end.

Example read_float_25_5 : read_float "25.5" = Some (f64_div (f64_of_Z 51) (f64_of_Z 2)).
Proof. vm_compute. reflexivity. Qed.
Example read_float_tenth :
  read_float "0.1" = Some (S754_finite false 7205759403792794 (-56)).
Proof. vm_compute. reflexivity. Qed.
Example read_float_hex : read_float "0x1p-2" = Some (f64_div (f64_of_Z 1) (f64_of_Z 4)).
Proof. vm_compute. reflexivity. Qed.
Example read_float_huge : option_map is_inf (read_float "1e400") = Some true.
Proof. vm_compute. reflexivity. Qed.
