(* ===== verification/GoFmt.v ===== *)
(** * Printing

    What the command line prints with [fmt] beyond integers and strings: floats with a
    fixed number of decimals and durations. *)

From Stdlib Require Import Ascii SpecFloat.
From S2P Require Import Prelude GoStrings GoStrconv GoFloat.

(** Left-pad with zeros to [w] digits. *)
Definition zero_pad (w : nat) (s : string) : string := str_repeat (w - String.length s) "0" +:+ s.

(** [utf8.RuneCountInString]: a byte that starts no encoding counts as one. *)
Fixpoint rune_count_go (fuel : nat) (s : string) : nat :=
  match fuel, s with
  | S fuel, String a s' =>
      S (rune_count_go fuel match decode_rune a s' with Some (_, _, rest) => rest | None => s' end)
  | _, _ => 0
  end.
Definition rune_count (s : string) : nat := rune_count_go (String.length s) s.

(** [%-ns] *)
Definition pad_right (n : nat) (s : string) : string := s +:+ str_repeat (n - rune_count s) " ".

Example pad_right_ex : pad_right 4 <$> ["ab"; "é"; "abcde"] = ["ab  "; "é   "; "abcde"].
Proof. by vm_compute. Qed.

(** The quotient rounded to nearest, ties to even. *)
Definition div_round (n d : Z) : Z :=
  let q := (n / d)%Z in
  let r := (n mod d)%Z in
  if (2 * r <? d)%Z then q else if (d <? 2 * r)%Z then (q + 1)%Z
  else if Z.even q then q else (q + 1)%Z.

(** [%.nf] *)
Definition f64_fixed (n : nat) (x : float64) : string :=
  let digits (neg : bool) (scaled : Z) :=
    let p := (10 ^ Z.of_nat n)%Z in
    (if neg then "-" else "") +:+ itoa (scaled / p) +:+
    (if decide (n = 0) then "" else "." +:+ zero_pad n (itoa (scaled mod p))) in
  match x with
  | S754_zero s => digits s 0%Z
  | S754_infinity s => if s then "-Inf" else "+Inf"
  | S754_nan => "NaN"
  | S754_finite s m e =>
      let a := (Z.pos m * 10 ^ Z.of_nat n)%Z in
      digits s (if (0 <=? e)%Z then a * 2 ^ e else div_round a (2 ^ (- e)))%Z
  end.

Example f64_fixed_ex :
  f64_fixed 2 <$> [f64_of_Z 1234; f64_div (f64_of_Z 1) (f64_of_Z 3); f64_div (f64_of_Z 5) (f64_of_Z (-8));
                   f64_div (f64_of_Z 2567) (f64_of_Z 1000)] = ["1234.00"; "0.33"; "-0.62"; "2.57"].
Proof. by vm_compute. Qed.

(** ** Durations *)

(** The trailing zeros of a fraction are not printed. *)
Fixpoint drop_zeros (s : string) : string :=
  match s with String "0" s => drop_zeros s | _ => s end.

Definition fmt_frac (v : Z) (prec : nat) : string * Z :=
  let p := (10 ^ Z.of_nat prec)%Z in
  let frac := String.rev (drop_zeros (String.rev (zero_pad prec (itoa (v mod p))))) in
  ((if decide (frac = "") then "" else "." +:+ frac), (v / p)%Z).

(** [time.Duration.String] on a number of nanoseconds. *)
Definition show_duration (d : Z) : string :=
  let u := Z.abs d in
  let sign := if (d <? 0)%Z then "-" else "" in
  let small prec unit := let '(frac, v) := fmt_frac u prec in itoa v +:+ frac +:+ unit in
  sign +:+
  if (u =? 0)%Z then "0s"
  else if (u <? 1000)%Z then itoa u +:+ "ns"
  else if (u <? 1000000)%Z then small 3 "µs"
  else if (u <? 1000000000)%Z then small 6 "ms"
  else
    let '(frac, secs) := fmt_frac u 9 in
    let mins := (secs / 60)%Z in
    let hours := (mins / 60)%Z in
    (if (0 <? hours)%Z then itoa hours +:+ "h" else "") +:+
    (if (0 <? mins)%Z then itoa (mins mod 60) +:+ "m" else "") +:+
    itoa (secs mod 60) +:+ frac +:+ "s".

Example show_duration_ex :
  show_duration <$> [0; 999; 1500; 2000000; 1530000000; 3723000000001; -60000000000]%Z =
    ["0s"; "999ns"; "1.5µs"; "2ms"; "1.53s"; "1h2m3.000000001s"; "-1m0s"].
Proof. by vm_compute. Qed.
