(* ===== verification/GoFlag.v ===== *)
(** * Go's [flag] package

    [FlagSet.Parse] over a set of flags described by two functions: whether a name
    is a boolean flag, and how a value is stored.  [None] stands for an error, after
    which [flag.Parse] prints the usage and exits. *)

From Stdlib Require Import Ascii.
From S2P Require Import Prelude GoStrings GoStrconv GoFloat.

(** [strconv.ParseBool] *)
Definition parse_bool (s : string) : option bool :=
  if decide (s ∈ ["1"; "t"; "T"; "true"; "TRUE"; "True"]) then Some true
  else if decide (s ∈ ["0"; "f"; "F"; "false"; "FALSE"; "False"]) then Some false
  else None.

(** ** Numbers

    Integer flags are read by [ParseUint] and [ParseInt] with base 0: a prefix chooses the
    base, and underscores may separate digits. *)

Definition digit_of_base (base : Z) (c : ascii) : option Z :=
  match base_digit true c with
  | Some d => if (d <? base)%Z then Some d else None
  | None => None
  end.

Fixpoint digits_of_base (base acc : Z) (s : string) : option Z :=
  match s with
  | "" => Some acc
  | String c s =>
      if Ascii.eqb c "_" then digits_of_base base acc s
      else match digit_of_base base c with
           | Some d => digits_of_base base (acc * base + d)%Z s
           | None => None
           end
  end.

Definition base_prefix (s : string) : Z * string :=
  match s with
  | String "0" (String c (String _ _ as digits)) =>
      let l := lower_byte c in
      if (l =? 98)%Z then (2%Z, digits) else if (l =? 111)%Z then (8%Z, digits)
      else if (l =? 120)%Z then (16%Z, digits) else (8%Z, String c digits)
  | String "0" s => (8%Z, s)
  | _ => (10%Z, s)
  end.

(** [strconv.ParseUint(s, 0, 64)] *)
Definition parse_uint0 (s : string) : option Z :=
  match s with
  | "" => None
  | _ =>
      let '(base, digits) := base_prefix s in
      match digits_of_base base 0 digits with
      | Some n => if (n <? 2 ^ 64)%Z && underscore_ok s then Some n else None
      | None => None
      end
  end.

(** [strconv.ParseInt(s, 0, 64)] *)
Definition parse_int0 (s : string) : option Z :=
  let '(neg, u) := split_sign s in
  match parse_uint0 u with
  | Some n =>
      if neg then (if (n <=? 2 ^ 63)%Z then Some (- n)%Z else None)
      else if (n <? 2 ^ 63)%Z then Some n else None
  | None => None
  end.

Example parse_int0_bases :
  parse_int0 <$> ["9100"; "0x1F"; "-0b11"; "010"; "1_000"; "0"; "1__0"; "9223372036854775808"; ""] =
    [Some 9100; Some 31; Some (-3); Some 8; Some 1000; Some 0; None; None; None]%Z.
Proof. by vm_compute. Qed.

(** What [parseOne] makes of its first argument. *)
Inductive flag_arg :=
| Positional                                  (* flags end before it *)
| Terminator                                  (* flags end after it *)
| Bad
| Flag (name : string) (value : option string).

Definition classify (s : string) : flag_arg :=
  match s with
  | String "-" (String "-" "") => Terminator
  | String "-" (String "-" name) | String "-" ((String _ _) as name) =>
      match name with
      | "" => Bad
      | String a _ =>
          if decide (a = "-"%char ∨ a = "="%char) then Bad
          else match str_cut "=" name with
               | Some (name, value) => Flag name (Some value)
               | None => Flag name None
               end
      end
  | _ => Positional
  end.

Section parse.
Context {F : Type} (is_bool : string → option bool) (set : string → string → F → option F).

(** [Parse]: the flags stored, and the arguments that remain. *)
Fixpoint parse_flags (args : list string) (f : F) : option (F * list string) :=
  match args with
  | [] => Some (f, [])
  | s :: args' =>
      match classify s with
      | Positional => Some (f, args)
      | Terminator => Some (f, args')
      | Bad => None
      | Flag name value =>
          match is_bool name, value with
          | None, _ => None
          | Some true, v => f' ← set name (default "true" v) f; parse_flags args' f'
          | Some false, Some v => f' ← set name v f; parse_flags args' f'
          | Some false, None =>
              match args' with
              | [] => None
              | v :: args'' => f' ← set name v f; parse_flags args'' f'
              end
          end
      end
  end.

(** The exit code when there is an error: that of asking for help is 0. *)
Fixpoint parse_exit (args : list string) (f : F) : Z :=
  match args with
  | [] => 2
  | s :: args' =>
      match classify s with
      | Flag name value =>
          match is_bool name, value with
          | None, _ => if decide (name = "help" ∨ name = "h") then 0%Z else 2%Z
          | Some true, v => match set name (default "true" v) f with Some f' => parse_exit args' f' | None => 2%Z end
          | Some false, Some v => match set name v f with Some f' => parse_exit args' f' | None => 2%Z end
          | Some false, None =>
              match args' with
              | [] => 2%Z
              | v :: args'' => match set name v f with Some f' => parse_exit args'' f' | None => 2%Z end
              end
          end
      | _ => 2%Z
      end
  end.

(** ** Equations *)

Lemma parse_terminator args f : parse_flags ("--" :: args) f = Some (f, args).
Proof. done. Qed.

(** [-name value]: the value is whatever follows. *)
Lemma parse_separate s name v args f :
  classify s = Flag name None → is_bool name = Some false →
  parse_flags (s :: v :: args) f = (f' ← set name v f; parse_flags args f').
Proof. intros Hc Hb. cbn [parse_flags]. by rewrite Hc, Hb. Qed.

(** [-name=value] *)
Lemma parse_joined s name v args f :
  classify s = Flag name (Some v) → is_bool name ≠ None →
  parse_flags (s :: args) f = (f' ← set name v f; parse_flags args f').
Proof. intros Hc Hb. cbn [parse_flags]. rewrite Hc. by destruct (is_bool name) as [[]|]. Qed.
End parse.
