(* ===== verification/SvcConfig.v ===== *)
(** * Service configuration files ([internal/svcd/config.go])

    The line-based TOML reader of the supervisor: [ParseServiceConfig] for a file,
    [ParseServiceSpecFromBytes] for a payload received from the host, and
    [LoadServiceDir] for the directory read at boot.  A nil slice and an empty
    one are not told apart. *)

From Stdlib Require Import Ascii.
From Stdlib Require Import SpecFloat.
From S2P Require Import Prelude GoStrings GoStrconv GoPath GoFloat.

(** ** Data *)

Record ServiceSpec := {
  Name : string;
  Exec : string;
  Args : list string;
  Env : list string;
  Directory : string;
  RootDir : string;
  After : list string;
  MemoryLimit : Z;
  CPUQuota : float64;
  Restart : string;
  MaxRestarts : Z;
  SeccompProfile : string;
  CapabilitiesAdd : list string;
  CapabilitiesDrop : list string;
  NoNewPrivs : bool
}.

Definition default_spec : ServiceSpec := {|
  Name := ""; Exec := ""; Args := []; Env := []; Directory := ""; RootDir := "";
  After := []; MemoryLimit := 0; CPUQuota := S754_zero false;
  Restart := "on-failure"; MaxRestarts := 0; SeccompProfile := "app-default";
  CapabilitiesAdd := []; CapabilitiesDrop := []; NoNewPrivs := true
|}.

(** Field updates [spec.F = v]. *)
Section setters.
Context (s : ServiceSpec).
Definition set_Name v := {| Name := v; Exec := Exec s; Args := Args s; Env := Env s;
    Directory := Directory s; RootDir := RootDir s; After := After s;
    MemoryLimit := MemoryLimit s; CPUQuota := CPUQuota s; Restart := Restart s;
    MaxRestarts := MaxRestarts s; SeccompProfile := SeccompProfile s;
    CapabilitiesAdd := CapabilitiesAdd s; CapabilitiesDrop := CapabilitiesDrop s;
    NoNewPrivs := NoNewPrivs s |}.
Definition set_Exec v := {| Name := Name s; Exec := v; Args := Args s; Env := Env s;
    Directory := Directory s; RootDir := RootDir s; After := After s;
    MemoryLimit := MemoryLimit s; CPUQuota := CPUQuota s; Restart := Restart s;
    MaxRestarts := MaxRestarts s; SeccompProfile := SeccompProfile s;
    CapabilitiesAdd := CapabilitiesAdd s; CapabilitiesDrop := CapabilitiesDrop s;
    NoNewPrivs := NoNewPrivs s |}.
Definition set_Args v := {| Name := Name s; Exec := Exec s; Args := v; Env := Env s;
    Directory := Directory s; RootDir := RootDir s; After := After s;
    MemoryLimit := MemoryLimit s; CPUQuota := CPUQuota s; Restart := Restart s;
    MaxRestarts := MaxRestarts s; SeccompProfile := SeccompProfile s;
    CapabilitiesAdd := CapabilitiesAdd s; CapabilitiesDrop := CapabilitiesDrop s;
    NoNewPrivs := NoNewPrivs s |}.
Definition set_Env v := {| Name := Name s; Exec := Exec s; Args := Args s; Env := v;
    Directory := Directory s; RootDir := RootDir s; After := After s;
    MemoryLimit := MemoryLimit s; CPUQuota := CPUQuota s; Restart := Restart s;
    MaxRestarts := MaxRestarts s; SeccompProfile := SeccompProfile s;
    CapabilitiesAdd := CapabilitiesAdd s; CapabilitiesDrop := CapabilitiesDrop s;
    NoNewPrivs := NoNewPrivs s |}.
Definition set_Directory v := {| Name := Name s; Exec := Exec s; Args := Args s;
    Env := Env s; Directory := v; RootDir := RootDir s; After := After s;
    MemoryLimit := MemoryLimit s; CPUQuota := CPUQuota s; Restart := Restart s;
    MaxRestarts := MaxRestarts s; SeccompProfile := SeccompProfile s;
    CapabilitiesAdd := CapabilitiesAdd s; CapabilitiesDrop := CapabilitiesDrop s;
    NoNewPrivs := NoNewPrivs s |}.
Definition set_RootDir v := {| Name := Name s; Exec := Exec s; Args := Args s;
    Env := Env s; Directory := Directory s; RootDir := v; After := After s;
    MemoryLimit := MemoryLimit s; CPUQuota := CPUQuota s; Restart := Restart s;
    MaxRestarts := MaxRestarts s; SeccompProfile := SeccompProfile s;
    CapabilitiesAdd := CapabilitiesAdd s; CapabilitiesDrop := CapabilitiesDrop s;
    NoNewPrivs := NoNewPrivs s |}.
Definition set_After v := {| Name := Name s; Exec := Exec s; Args := Args s;
    Env := Env s; Directory := Directory s; RootDir := RootDir s; After := v;
    MemoryLimit := MemoryLimit s; CPUQuota := CPUQuota s; Restart := Restart s;
    MaxRestarts := MaxRestarts s; SeccompProfile := SeccompProfile s;
    CapabilitiesAdd := CapabilitiesAdd s; CapabilitiesDrop := CapabilitiesDrop s;
    NoNewPrivs := NoNewPrivs s |}.
Definition set_MemoryLimit v := {| Name := Name s; Exec := Exec s; Args := Args s;
    Env := Env s; Directory := Directory s; RootDir := RootDir s; After := After s;
    MemoryLimit := v; CPUQuota := CPUQuota s; Restart := Restart s;
    MaxRestarts := MaxRestarts s; SeccompProfile := SeccompProfile s;
    CapabilitiesAdd := CapabilitiesAdd s; CapabilitiesDrop := CapabilitiesDrop s;
    NoNewPrivs := NoNewPrivs s |}.
Definition set_CPUQuota v := {| Name := Name s; Exec := Exec s; Args := Args s;
    Env := Env s; Directory := Directory s; RootDir := RootDir s; After := After s;
    MemoryLimit := MemoryLimit s; CPUQuota := v; Restart := Restart s;
    MaxRestarts := MaxRestarts s; SeccompProfile := SeccompProfile s;
    CapabilitiesAdd := CapabilitiesAdd s; CapabilitiesDrop := CapabilitiesDrop s;
    NoNewPrivs := NoNewPrivs s |}.
Definition set_Restart v := {| Name := Name s; Exec := Exec s; Args := Args s;
    Env := Env s; Directory := Directory s; RootDir := RootDir s; After := After s;
    MemoryLimit := MemoryLimit s; CPUQuota := CPUQuota s; Restart := v;
    MaxRestarts := MaxRestarts s; SeccompProfile := SeccompProfile s;
    CapabilitiesAdd := CapabilitiesAdd s; CapabilitiesDrop := CapabilitiesDrop s;
    NoNewPrivs := NoNewPrivs s |}.
Definition set_MaxRestarts v := {| Name := Name s; Exec := Exec s; Args := Args s;
    Env := Env s; Directory := Directory s; RootDir := RootDir s; After := After s;
    MemoryLimit := MemoryLimit s; CPUQuota := CPUQuota s; Restart := Restart s;
    MaxRestarts := v; SeccompProfile := SeccompProfile s;
    CapabilitiesAdd := CapabilitiesAdd s; CapabilitiesDrop := CapabilitiesDrop s;
    NoNewPrivs := NoNewPrivs s |}.
Definition set_SeccompProfile v := {| Name := Name s; Exec := Exec s; Args := Args s;
    Env := Env s; Directory := Directory s; RootDir := RootDir s; After := After s;
    MemoryLimit := MemoryLimit s; CPUQuota := CPUQuota s; Restart := Restart s;
    MaxRestarts := MaxRestarts s; SeccompProfile := v;
    CapabilitiesAdd := CapabilitiesAdd s; CapabilitiesDrop := CapabilitiesDrop s;
    NoNewPrivs := NoNewPrivs s |}.
Definition set_CapabilitiesAdd v := {| Name := Name s; Exec := Exec s; Args := Args s;
    Env := Env s; Directory := Directory s; RootDir := RootDir s; After := After s;
    MemoryLimit := MemoryLimit s; CPUQuota := CPUQuota s; Restart := Restart s;
    MaxRestarts := MaxRestarts s; SeccompProfile := SeccompProfile s;
    CapabilitiesAdd := v; CapabilitiesDrop := CapabilitiesDrop s;
    NoNewPrivs := NoNewPrivs s |}.
Definition set_CapabilitiesDrop v := {| Name := Name s; Exec := Exec s; Args := Args s;
    Env := Env s; Directory := Directory s; RootDir := RootDir s; After := After s;
    MemoryLimit := MemoryLimit s; CPUQuota := CPUQuota s; Restart := Restart s;
    MaxRestarts := MaxRestarts s; SeccompProfile := SeccompProfile s;
    CapabilitiesAdd := CapabilitiesAdd s; CapabilitiesDrop := v;
    NoNewPrivs := NoNewPrivs s |}.
Definition set_NoNewPrivs v := {| Name := Name s; Exec := Exec s; Args := Args s;
    Env := Env s; Directory := Directory s; RootDir := RootDir s; After := After s;
    MemoryLimit := MemoryLimit s; CPUQuota := CPUQuota s; Restart := Restart s;
    MaxRestarts := MaxRestarts s; SeccompProfile := SeccompProfile s;
    CapabilitiesAdd := CapabilitiesAdd s; CapabilitiesDrop := CapabilitiesDrop s;
    NoNewPrivs := v |}.
End setters.

(** ** Values *)

(** The slice expression [s[1 : len(s)-1]]: a run-time panic below two bytes. *)
Definition inner (s : string) : outcome string :=
  if (String.length s <? 2)%nat then Panic
  else Ok (str_take (String.length s - 2) (str_drop 1 s)).

Definition sq : string := "'".

Definition unquote (s0 : string) : outcome string :=
  let s := trim_space s0 in
  if (has_prefix s dq && has_suffix s dq) || (has_prefix s sq && has_suffix s sq)
  then inner s else Ok s.

(** The loop state of [parseArray]; [quoteChar] is meaningful inside quotes. *)
Record arr_state := {
  a_result : list string;
  a_current : string;
  a_quote : option ascii;
  a_escaped : bool
}.

Definition arr_item (st : arr_state) : outcome (list string) :=
  item ← unquote (trim_space (a_current st));
  Ok (if decide (item = "") then a_result st else a_result st ++ [item]).

Definition is_quote (ch : ascii) : bool := Ascii.eqb ch "034" || Ascii.eqb ch "'".

Definition arr_step (st : arr_state) (ch : ascii) : outcome arr_state :=
  let cur := a_current st +:+ String ch "" in
  let put q e := Ok {| a_result := a_result st; a_current := cur; a_quote := q; a_escaped := e |} in
  if a_escaped st then put (a_quote st) false
  else if Ascii.eqb ch "\" && bool_decide (is_Some (a_quote st)) then put (a_quote st) true
  else if is_quote ch then
    match a_quote st with
    | None => put (Some ch) false
    | Some q => put (if Ascii.eqb ch q then None else Some q) false
    end
  else if Ascii.eqb ch "," && bool_decide (a_quote st = None) then
    res ← arr_item st;
    Ok {| a_result := res; a_current := ""; a_quote := None; a_escaped := false |}
  else put (a_quote st) false.

Fixpoint arr_loop (st : arr_state) (s : string) : outcome arr_state :=
  match s with
  | "" => Ok st
  | String ch s => st' ← arr_step st ch; arr_loop st' s
  end.

Definition arr_init : arr_state :=
  {| a_result := []; a_current := ""; a_quote := None; a_escaped := false |}.

Definition parseArray (s0 : string) : outcome (list string) :=
  let s := trim_space s0 in
  if negb (has_prefix s "[") || negb (has_suffix s "]") then Ok []
  else
    body ← inner s;
    let content := trim_space body in
    if decide (content = "") then Ok []
    else
      st ← arr_loop arr_init content;
      if (0 <? String.length (a_current st))%nat then arr_item st else Ok (a_result st).

Section with_tables.
Context {UT : UnicodeTables}.

Definition mem_unit (s : string) : Z * string :=
  let upper := to_upper s in
  if has_suffix upper "G" || has_suffix upper "GB" then (1024 * 1024 * 1024, trim_right_set upper "GB")%Z
  else if has_suffix upper "M" || has_suffix upper "MB" then (1024 * 1024, trim_right_set upper "MB")%Z
  else if has_suffix upper "K" || has_suffix upper "KB" then (1024, trim_right_set upper "KB")%Z
  else (1%Z, s).

Definition parseMemoryLimit (s0 : string) : outcome Z :=
  let s := trim_space s0 in
  if decide (s = "") then Ok 0%Z
  else
    let '(multiplier, num) := mem_unit s in
    val ← ParseInt (trim_space num);
    Ok (wrap_s 64 (val * multiplier)).

Definition parseCPUQuota (s0 : string) : outcome float64 :=
  let s := trim_space s0 in
  if decide (s = "") then Ok (S754_zero false)
  else ParseFloat (trim_space (trim_suffix s "%")).

Definition parseBool (s0 : string) : outcome bool :=
  u ← unquote (trim_space s0);
  let s := to_lower u in
  Ok (bool_decide (s = "true") || bool_decide (s = "1") || bool_decide (s = "yes")).

(** ** Lines *)

(** The quote scan over [line[:idx]]: [in_q] is the quote character while inside
    quotes, [prev] the previous byte. *)
Fixpoint quote_scan (in_q : option ascii) (prev : option ascii) (s : string) : option ascii :=
  match s with
  | "" => in_q
  | String c s =>
      let in_q' :=
        if is_quote c && negb (bool_decide (prev = Some "\"%char)) then
          match in_q with
          | None => Some c
          | Some q => if Ascii.eqb c q then None else Some q
          end
        else in_q in
      quote_scan in_q' (Some c) s
  end.

(** Strip an inline comment that starts outside quotes. *)
Definition strip_comment (line : string) : string :=
  match str_cut "#" line with
  | None => line
  | Some (before, _) =>
      match quote_scan None None before with
      | None => trim_space before
      | Some _ => line
      end
  end.

(** [fmt.Errorf("line %d: invalid <what> %q: %w", lineNum, val, err)] *)
Definition bad_value {A} (lineNum : Z) (what val : string) : outcome A → outcome A :=
  wrap_err ("line " +:+ itoa lineNum +:+ ": invalid " +:+ what +:+ " " +:+ quote val +:+ ": ").

(** The [switch strings.ToLower(key)] of both parsers. *)
Definition apply_key (lineNum : Z) (spec : ServiceSpec) (key val : string) : outcome ServiceSpec :=
  let k := to_lower key in
  if decide (k = "name") then v ← unquote val; Ok (set_Name spec v)
  else if decide (k = "exec") then v ← unquote val; Ok (set_Exec spec v)
  else if decide (k = "args") then v ← parseArray val; Ok (set_Args spec v)
  else if decide (k = "env" ∨ k = "environment") then
    v ← parseArray val; Ok (set_Env spec (Env spec ++ v))
  else if decide (k = "directory") then v ← unquote val; Ok (set_Directory spec v)
  else if decide (k = "root_dir" ∨ k = "rootdir" ∨ k = "chroot") then
    v ← unquote val; Ok (set_RootDir spec v)
  else if decide (k = "after") then v ← parseArray val; Ok (set_After spec v)
  else if decide (k = "memory_limit") then
    u ← unquote val;
    bytes ← bad_value lineNum "memory_limit" val (parseMemoryLimit u);
    Ok (set_MemoryLimit spec bytes)
  else if decide (k = "cpu_quota") then
    u ← unquote val;
    quota ← bad_value lineNum "cpu_quota" val (parseCPUQuota u);
    Ok (set_CPUQuota spec quota)
  else if decide (k = "restart") then v ← unquote val; Ok (set_Restart spec v)
  else if decide (k = "max_restarts") then
    u ← unquote val;
    match Atoi (trim_space u) with
    | Ok n => Ok (set_MaxRestarts spec n)
    | _ => Ok spec
    end
  else if decide (k = "seccomp_profile") then v ← unquote val; Ok (set_SeccompProfile spec v)
  else if decide (k = "capabilities_add" ∨ k = "capabilities.add") then
    v ← parseArray val; Ok (set_CapabilitiesAdd spec v)
  else if decide (k = "capabilities_drop" ∨ k = "capabilities.drop") then
    v ← parseArray val; Ok (set_CapabilitiesDrop spec v)
  else if decide (k = "no_new_privs") then v ← parseBool val; Ok (set_NoNewPrivs spec v)
  else Ok spec.

(** The loop state: [spec], [currentSection], [lineNum]. *)
Record parse_state := { p_spec : ServiceSpec; p_section : string; p_line : Z }.

Definition parse_init : parse_state :=
  {| p_spec := default_spec; p_section := ""; p_line := 0 |}.

(** One iteration of [for scanner.Scan()]. *)
Definition parse_line (st : parse_state) (text : string) : outcome parse_state :=
  let n := (p_line st + 1)%Z in
  let next spec sec := {| p_spec := spec; p_section := sec; p_line := n |} in
  let skip := Ok (next (p_spec st) (p_section st)) in
  let line := trim_space text in
  if decide (line = "") then skip
  else if has_prefix line "#" then skip
  else
    let line := strip_comment line in
    if decide (line = "") then skip
    else if has_prefix line "[" && has_suffix line "]" then
      sec ← inner line;
      Ok (next (p_spec st) (to_lower (trim_space sec)))
    else
      match str_cut "=" line with
      | None => skip
      | Some (l, r) =>
          let key := trim_space l in
          let val := trim_space r in
          if decide (p_section st = "env" ∨ p_section st = "environment") then
            v ← unquote val;
            Ok (next (set_Env (p_spec st) (Env (p_spec st) ++ [key +:+ "=" +:+ v])) (p_section st))
          else
            spec ← apply_key n (p_spec st) key val;
            Ok (next spec (p_section st))
      end.

(** ** The two parsers *)

Definition ParseServiceConfig (path : string) (file : file_read) : outcome ServiceSpec :=
  match file with
  | OpenFails e => Err ("failed to open config file " +:+ path +:+ ": " +:+ e)
  | FileData data rerr =>
      let '(lines, too_long) := scan_lines data in
      st ← fold_m parse_line parse_init lines;
      match scanner_err too_long rerr with
      | Some e => Err ("error reading config file " +:+ path +:+ ": " +:+ e)
      | None =>
          let spec := p_spec st in
          let named := if decide (Name spec = "") then set_Name spec (stem path) else spec in
          if decide (Exec spec = "") then
            if (p_line st =? 0)%Z then Err ("service file " +:+ path +:+ " is empty")
            else Err ("service " +:+ Name named +:+ " missing mandatory 'exec' binary path")
          else Ok named
      end
  end.

Definition ParseServiceSpecFromBytes (data : string) : outcome ServiceSpec :=
  let '(lines, too_long) := scan_lines data in
  st ← fold_m parse_line parse_init lines;
  match scanner_err too_long None with
  | Some e => Err ("error scanning TOML config bytes: " +:+ e)
  | None =>
      let spec := p_spec st in
      if decide (Exec spec = "") then Err "service config missing mandatory 'exec' binary path"
      else if decide (Name spec = "") then Err "service config missing mandatory 'name' field"
      else Ok spec
  end.

(** ** The boot directory *)

Record dir_entry := { de_name : string; de_is_dir : bool; de_file : file_read }.

Inductive dir_read :=
| DirNotExist
| DirFails (err : string)
| DirEntries (entries : list dir_entry).

Definition load_entry (dir : string) (services : list ServiceSpec) (e : dir_entry)
    : outcome (list ServiceSpec) :=
  if de_is_dir e || negb (has_suffix (de_name e) ".toml") then Ok services
  else
    let path := Join [dir; de_name e] in
    match ParseServiceConfig path (de_file e) with
    | Ok spec => Ok (services ++ [spec])
    | Err err =>
        if str_contains err "is empty" then Ok services
        else Err ("error parsing " +:+ path +:+ ": " +:+ err)
    | Panic => Panic
    end.

Definition LoadServiceDir (dir : string) (d : dir_read) : outcome (list ServiceSpec) :=
  match d with
  | DirNotExist => Ok []
  | DirFails e => Err ("failed to read service dir " +:+ dir +:+ ": " +:+ e)
  | DirEntries entries => fold_m (load_entry dir) [] entries
  end.

End with_tables.

(** * Properties *)

(** ** Helper lemmas on values *)

Lemma inner_ok a b s :
  inner (String a "" +:+ s +:+ String b "") = Ok s.
Proof.
  unfold inner. rewrite str_app_cons, str_app_nil_l. cbn [String.length].
  rewrite str_length_app. cbn [String.length str_drop].
  replace (S (String.length s + 1) <? 2)%nat with false by (symmetry; apply Nat.ltb_ge; lia).
  replace (S (String.length s + 1) - 2) with (String.length s) by lia.
  by rewrite str_take_app.
Qed.

Lemma inner_panic s : inner s = Panic ↔ String.length s < 2.
Proof. unfold inner. destruct (Nat.ltb_spec (String.length s) 2); split; (done || lia). Qed.

(** A string with both ends equal to the one-byte string [c], or that byte alone. *)
Lemma one_byte_ends s a :
  has_prefix s (String a "") = true → String.length s < 2 → s = String a "".
Proof.
  rewrite has_prefix_true. intros [t ->]. rewrite str_app_cons, str_app_nil_l.
  cbn. intros H. destruct t; [done|]. cbn in H. lia.
Qed.

Lemma unquote_quoted s : trimmed (dq +:+ s +:+ dq) = true → unquote (dq +:+ s +:+ dq) = Ok s.
Proof.
  intros H. unfold unquote. rewrite trim_space_trimmed by done.
  rewrite has_prefix_app. rewrite <-str_app_assoc, has_suffix_app, str_app_assoc.
  apply inner_ok.
Qed.

Lemma trimmed_dq s : trimmed (dq +:+ s +:+ dq) = true.
Proof.
  unfold dq at 1. rewrite str_app_cons, str_app_nil_l. unfold trimmed.
  rewrite str_rev_cons, str_rev_app. change (String.rev dq) with (String "034" "").
  by rewrite !str_app_cons.
Qed.

(** ** Helper lemmas on arrays *)

Lemma arr_loop_app st s t : arr_loop st (s +:+ t) = st' ← arr_loop st s; arr_loop st' t.
Proof.
  revert st. induction s as [|a s IH]; intros st; [done|].
  rewrite str_app_cons. cbn [arr_loop]. destruct (arr_step st a); [apply IH|done..].
Qed.

Definition arr_in (res : list string) (cur : string) (q : option ascii) : arr_state :=
  {| a_result := res; a_current := cur; a_quote := q; a_escaped := false |}.

Lemma plain_not_dq a : plain a = true → Ascii.eqb a "034" = false ∧ Ascii.eqb a "\" = false.
Proof.
  unfold plain. intros H.
  destruct (Ascii.eqb_spec a "034") as [->|_]; [done|].
  by destruct (Ascii.eqb_spec a "\") as [->|_].
Qed.

Lemma arr_loop_plain res cur s :
  str_forall plain s = true →
  arr_loop (arr_in res cur (Some "034"%char)) s = Ok (arr_in res (cur +:+ s) (Some "034"%char)).
Proof.
  revert cur. induction s as [|a s IH]; intros cur; [by rewrite str_app_nil_r|].
  cbn [str_forall]. rewrite andb_true_iff. intros [Ha Hs].
  destruct (plain_not_dq a Ha) as [Hd Hb]. cbn [arr_loop].
  assert (arr_step (arr_in res cur (Some "034"%char)) a =
          Ok (arr_in res (cur +:+ String a "") (Some "034"%char))) as ->.
  { unfold arr_step, arr_in, is_quote. cbn [a_escaped a_quote a_result a_current].
    rewrite Hb, Hd. cbn. by destruct (Ascii.eqb a "'"), (Ascii.eqb a ","). }
  cbn. rewrite IH by done. by rewrite str_app_assoc.
Qed.

Definition quoted (s : string) : string := dq +:+ s +:+ dq.

Lemma arr_loop_quoted res cur s :
  str_forall plain s = true →
  arr_loop (arr_in res cur None) (quoted s) = Ok (arr_in res (cur +:+ quoted s) None).
Proof.
  intros Hs. unfold quoted. rewrite arr_loop_app.
  change (arr_loop (arr_in res cur None) dq) with (Ok (arr_in res (cur +:+ dq) (Some "034"%char))).
  cbn. rewrite arr_loop_app, arr_loop_plain by done. cbn.
  change (Ok (arr_in res (((cur +:+ dq) +:+ s) +:+ dq) None) = Ok (arr_in res (cur +:+ dq +:+ s +:+ dq) None)).
  by rewrite !str_app_assoc.
Qed.

(** White space before a quoted item is dropped. *)
Lemma arr_item_quoted res sp s :
  s ≠ "" → sp = "" ∨ sp = " " → arr_item (arr_in res (sp +:+ quoted s) None) = Ok (res ++ [s]).
Proof.
  intros Hne Hsp. unfold arr_item, arr_in. cbn [a_current a_result].
  assert (trim_space (sp +:+ quoted s) = quoted s) as ->.
  { destruct Hsp as [-> | ->].
    - apply trim_space_trimmed, trimmed_dq.
    - rewrite str_app_cons, str_app_nil_l, trim_space_left1 by done.
      apply trim_space_trimmed, trimmed_dq. }
  unfold quoted. rewrite unquote_quoted by apply trimmed_dq. cbn. by rewrite decide_False.
Qed.

Lemma arr_step_comma res cur :
  arr_step (arr_in res cur None) "," =
    (r ← arr_item (arr_in res cur None); Ok (arr_in r "" None)).
Proof. done. Qed.

Definition item_ok (s : string) : bool := str_forall plain s && negb (bool_decide (s = "")).

Lemma arr_loop_items items res sp :
  items ≠ [] → Forall (λ s, item_ok s = true) items → sp = "" ∨ sp = " " →
  ∃ st, arr_loop (arr_in res sp None) (str_join ", " (quoted <$> items)) = Ok st ∧
        a_current st ≠ "" ∧ arr_item st = Ok (res ++ items).
Proof.
  intros Hne Hall. revert res sp. induction Hall as [|s items Hs Hall IH]; [done|].
  intros res sp Hsp. unfold item_ok in Hs.
  rewrite andb_true_iff, negb_true_iff, bool_decide_eq_false in Hs. destruct Hs as [Hs Hs0].
  destruct items as [|s' items].
  - exists (arr_in res (sp +:+ quoted s) None). split_and!.
    + by apply arr_loop_quoted.
    + destruct Hsp as [-> | ->]; done.
    + by apply arr_item_quoted.
  - change (str_join ", " (quoted <$> s :: s' :: items))
      with (quoted s +:+ ", " +:+ str_join ", " (quoted <$> s' :: items)).
    rewrite arr_loop_app, arr_loop_quoted by done. cbn [mbind outcome_bind].
    rewrite arr_loop_app.
    assert (arr_loop (arr_in res (sp +:+ quoted s) None) ", " = Ok (arr_in (res ++ [s]) " " None)) as ->.
    { cbn [arr_loop]. rewrite arr_step_comma, arr_item_quoted by done. done. }
    cbn [mbind outcome_bind].
    destruct (IH ltac:(done) (res ++ [s]) " ") as (st & Hst & Hc & Hi); [by right|].
    exists st. split_and!; [done..|]. by rewrite Hi, <-app_assoc.
Qed.

(** ** Helper lemmas on memory sizes *)

Lemma upper1_digit a : is_digit a = true → upper1 a = a.
Proof.
  unfold is_digit, digit_val, upper1. intros H. case_match eqn:Hu; [|done].
  apply bool_decide_eq_true in H. case_match eqn:Hd; [bool_lia|]. by destruct H.
Qed.
Lemma to_upper_digits s t :
  str_forall is_digit s = true → to_upper (s +:+ t) = s +:+ to_upper t.
Proof.
  induction s as [|a s IH]; intros H; [done|]. cbn [str_forall] in H.
  apply andb_true_iff in H as [Ha Hs]. rewrite !str_app_cons, to_upper_cons by (by apply is_digit_ascii).
  by rewrite upper1_digit, IH.
Qed.

(** The size suffixes and their values. *)
Definition mem_suffixes : list (string * Z) :=
  [("", 1); ("K", 1024); ("KB", 1024); ("k", 1024); ("kb", 1024); ("Kb", 1024); ("kB", 1024);
   ("M", 1024 * 1024); ("MB", 1024 * 1024); ("m", 1024 * 1024); ("mb", 1024 * 1024);
   ("Mb", 1024 * 1024); ("mB", 1024 * 1024);
   ("G", 1024 * 1024 * 1024); ("GB", 1024 * 1024 * 1024); ("g", 1024 * 1024 * 1024);
   ("gb", 1024 * 1024 * 1024); ("Gb", 1024 * 1024 * 1024); ("gB", 1024 * 1024 * 1024)]%Z.

Lemma strip_prefix_stop p t d r :
  str_forall (λ b, negb (is_digit b)) p = true → is_digit d = true →
  is_Some (strip_prefix p (t +:+ String d r)) ↔ is_Some (strip_prefix p t).
Proof.
  intros Hp Hd. revert t. induction p as [|c p IH]; intros t; cbn in *.
  - split; by eexists.
  - apply andb_true_iff in Hp as [Hc Hp]. destruct t as [|b t].
    + rewrite str_app_nil_l. destruct (Ascii.eqb_spec c d) as [->|_]; [by rewrite Hd in Hc|].
      split; by intros [? ?].
    + rewrite str_app_cons. destruct (Ascii.eqb c b); [by apply IH|]. split; by intros [? ?].
Qed.

Lemma digits_rev_head s :
  str_forall is_digit s = true → s ≠ "" → ∃ d r, String.rev s = String d r ∧ is_digit d = true.
Proof.
  intros Hs Hne. rewrite <-str_forall_rev in Hs. destruct (String.rev s) as [|d r] eqn:Hr.
  - apply (f_equal String.rev) in Hr. by rewrite str_rev_involutive in Hr.
  - exists d, r. split; [done|]. cbn in Hs. by apply andb_true_iff in Hs as [? _].
Qed.

(** Digits before a suffix do not matter for a test on letters. *)
Lemma has_suffix_digits s t x :
  str_forall is_digit s = true → s ≠ "" → str_forall (λ b, negb (is_digit b)) x = true →
  has_suffix (s +:+ t) x = has_suffix t x.
Proof.
  intros Hs Hs0 Hx. destruct (digits_rev_head s Hs Hs0) as (d & r & Hr & Hd).
  unfold has_suffix, strip_suffix. apply bool_decide_ext.
  rewrite !fmap_is_Some, str_rev_app, Hr. apply strip_prefix_stop; [|done].
  by rewrite str_forall_rev.
Qed.

(** Evaluate the suffix tests on literals. *)
Ltac eval_suffix :=
  repeat match goal with
  | |- context [has_suffix ?a ?b] =>
      let v := eval vm_compute in (has_suffix a b) in change (has_suffix a b) with v
  end; cbn [orb].

Lemma mem_unit_digits s suf u :
  str_forall is_digit s = true → s ≠ "" → (suf, u) ∈ mem_suffixes →
  ∃ sp, mem_unit (s +:+ suf) = (u, sp) ∧ trim_space sp = s.
Proof.
  intros Hs Hs0 Hin. exists s. split; [|by apply trim_space_trimmed, digits_trimmed].
  unfold mem_unit. rewrite to_upper_digits by done.
  rewrite !has_suffix_digits by done.
  assert (∀ cs t, str_forall (λ b, negb (is_digit b)) cs = true →
    str_forall (in_set cs) t = true → trim_right_set (s +:+ t) cs = s) as Htrim.
  { intros cs t Hcs Ht. apply trim_right_set_app; [done|]. intros a r Hr.
    destruct (digits_rev_head s Hs Hs0) as (d & r' & Hr' & Hd).
    rewrite Hr in Hr'. injection Hr' as -> _. by apply digit_not_in_set. }
  unfold mem_suffixes in Hin.
  repeat (apply elem_of_cons in Hin as [Hin|Hin];
    [injection Hin as -> ->; eval_suffix; first [by rewrite str_app_nil_r | by rewrite Htrim]|]).
  by apply not_elem_of_nil in Hin.
Qed.

Lemma digit_suffix_trimmed s suf u :
  str_forall is_digit s = true → s ≠ "" → (suf, u) ∈ mem_suffixes →
  trimmed (s +:+ suf) = true.
Proof.
  intros Hs Hs0 Hin. destruct s as [|a s]; [done|].
  pose proof Hs as Ha. cbn [str_forall] in Ha. apply andb_true_iff in Ha as [Ha _].
  rewrite str_app_cons. unfold trimmed. apply andb_true_iff. split; [by apply is_digit_ascii|].
  rewrite <-str_app_cons, str_rev_app. destruct (digits_rev_head _ Hs Hs0) as (d & r & -> & Hd).
  unfold mem_suffixes in Hin.
  repeat (apply elem_of_cons in Hin as [Hin|Hin];
    [injection Hin as -> _; first [by apply is_digit_ascii | done]|]).
  by apply not_elem_of_nil in Hin.
Qed.

(** ** Helper lemmas on lines *)

(** Every [#] of [s] is inside quotes, scanning from the quote state [q] after
    the byte [p]: decided by the first one, as [strip_comment] does. *)
Definition hash_safe (q p : option ascii) (s : string) : bool :=
  match str_cut "#" s with
  | None => true
  | Some (before, _) => bool_decide (is_Some (quote_scan q p before))
  end.

Lemma strip_comment_safe s : hash_safe None None s = true → strip_comment s = s.
Proof.
  unfold hash_safe, strip_comment. destruct (str_cut "#" s) as [[b r]|]; [|done].
  intros H%bool_decide_eq_true. by destruct (quote_scan None None b); [|destruct H].
Qed.

Lemma hash_safe_cons q p a s :
  Ascii.eqb a "#" = false →
  hash_safe q p (String a s) = hash_safe (quote_scan q p (String a "")) (Some a) s.
Proof.
  intros Ha. unfold hash_safe. cbn [str_cut]. rewrite Ha.
  by destruct (str_cut "#" s) as [[b r]|].
Qed.

(** Bytes that are neither quotes nor a number sign leave the state alone. *)
Definition dull (a : ascii) : bool := negb (is_quote a) && negb (Ascii.eqb a "#").

Lemma hash_safe_dull q p a s :
  dull a = true → hash_safe q p (String a s) = hash_safe q (Some a) s.
Proof.
  unfold dull. rewrite andb_true_iff, !negb_true_iff. intros [Hq Ha].
  rewrite hash_safe_cons by done. cbn. by rewrite Hq.
Qed.

Lemma hash_safe_dull_app s t p :
  str_forall dull s = true → s ≠ "" →
  (∀ a, dull a = true → hash_safe None (Some a) t = true) → hash_safe None p (s +:+ t) = true.
Proof.
  intros Hs Hne Ht. destruct s as [|a s]; [done|]. cbn [str_forall] in Hs.
  apply andb_true_iff in Hs as [Ha Hs]. rewrite str_app_cons, hash_safe_dull by done.
  clear Hne. revert a Ha. induction s as [|b s IH]; intros a Ha.
  - rewrite str_app_nil_l. by apply Ht.
  - cbn [str_forall] in Hs. apply andb_true_iff in Hs as [Hb Hs].
    rewrite str_app_cons, hash_safe_dull by done. by apply IH.
Qed.

Lemma hash_safe_plain s p t :
  str_forall plain s = true → p ≠ Some "\"%char →
  (∀ p', p' ≠ Some "\"%char → hash_safe (Some "034"%char) p' t = true) →
  hash_safe (Some "034"%char) p (s +:+ t) = true.
Proof.
  intros Hs Hp Ht. revert p Hp. induction s as [|a s IH]; intros p Hp; [by apply Ht|].
  cbn [str_forall] in Hs. apply andb_true_iff in Hs as [Ha Hs].
  destruct (plain_not_dq a Ha) as [Hd Hb]. rewrite str_app_cons.
  destruct (Ascii.eqb_spec a "#") as [->|Hh]; [done|].
  rewrite hash_safe_cons by by apply Ascii.eqb_neq. cbn [quote_scan]. rewrite Hd.
  assert ((if is_quote a && negb (bool_decide (p = Some "\"%char))
           then Some "034"%char else Some "034"%char) = Some "034"%char) as ->
    by by destruct (is_quote a && _).
  apply IH; [done|]. intros [= ->]. by rewrite Ascii.eqb_refl in Hb.
Qed.

Lemma hash_safe_quoted s p t :
  str_forall plain s = true → p ≠ Some "\"%char →
  hash_safe None (Some "034"%char) t = true → hash_safe None p (quoted s +:+ t) = true.
Proof.
  intros Hs Hp Ht. unfold quoted. rewrite !str_app_assoc.
  unfold dq at 1. rewrite str_app_cons, str_app_nil_l, hash_safe_cons by done.
  cbn [quote_scan]. rewrite bool_decide_false by done. cbn [is_quote andb negb].
  change (is_quote "034" && true) with true.
  apply hash_safe_plain; [done..|]. intros p' Hp'. unfold dq.
  rewrite str_app_cons, str_app_nil_l, hash_safe_cons by done.
  cbn [quote_scan]. rewrite bool_decide_false by done. done.
Qed.

(** [key = value] lines. *)
Definition kv_line (e : string * string) : string := e.1 +:+ " = " +:+ e.2.

Definition key_char (a : ascii) : bool :=
  ascii_ns a && dull a && negb (Ascii.eqb a "=") && negb (Ascii.eqb a "[").

Definition key_ok (k : string) : bool := str_forall key_char k && negb (bool_decide (k = "")).

Definition value_ok (v : string) : bool :=
  trimmed v && negb (bool_decide (v = "")) && hash_safe None (Some " "%char) v.

Lemma key_char_ns a : key_char a = true → ascii_ns a = true.
Proof. unfold key_char. rewrite !andb_true_iff. by intros [[[? _] _] _]. Qed.

Lemma key_char_inv a :
  key_char a = true → dull a = true ∧ Ascii.eqb a "=" = false ∧ Ascii.eqb a "[" = false.
Proof. unfold key_char. rewrite !andb_true_iff, !negb_true_iff. by intros [[[_ ?] ?] ?]. Qed.

Lemma key_trimmed k : key_ok k = true → trimmed k = true.
Proof.
  unfold key_ok. rewrite andb_true_iff. intros [Hk _].
  destruct k as [|a k]; [done|]. unfold trimmed.
  pose proof Hk as Hr. rewrite <-str_forall_rev in Hr.
  cbn [str_forall] in Hk. apply andb_true_iff in Hk as [Ha _].
  apply andb_true_iff. split; [by apply key_char_ns|].
  destruct (String.rev (String a k)) as [|b r]; [done|].
  cbn [str_forall] in Hr. apply andb_true_iff in Hr as [Hb _]. by apply key_char_ns.
Qed.

Section lines.
Context {UT : UnicodeTables}.

(** A well-formed [key = value] line runs the [switch]. *)
Lemma parse_kv st k v :
  key_ok k = true → value_ok v = true → p_section st = "" →
  parse_line st (kv_line (k, v)) =
    (spec ← apply_key (p_line st + 1) (p_spec st) k v;
     Ok {| p_spec := spec; p_section := ""; p_line := p_line st + 1 |}).
Proof.
  intros Hk Hv Hsec. unfold value_ok in Hv. rewrite !andb_true_iff, negb_true_iff in Hv.
  destruct Hv as [[Hv Hv0] Hhash]. apply bool_decide_eq_false in Hv0.
  pose proof (key_trimmed k Hk) as Hkt.
  unfold key_ok in Hk. rewrite andb_true_iff, negb_true_iff in Hk.
  destruct Hk as [Hk Hk0]. apply bool_decide_eq_false in Hk0.
  unfold parse_line, kv_line. cbn [fst snd].
  assert (trim_space (k +:+ " = " +:+ v) = k +:+ " = " +:+ v) as ->.
  { apply trim_space_trimmed. destruct k as [|a k]; [done|]. destruct v as [|b v]; [done|].
    apply trimmed_app_ends; [|done]. unfold trimmed in Hkt. by apply andb_true_iff in Hkt as [? _]. }
  assert (strip_comment (k +:+ " = " +:+ v) = k +:+ " = " +:+ v) as ->.
  { apply strip_comment_safe, hash_safe_dull_app; [|done|].
    - eapply str_forall_impl; [|exact Hk]. intros a Ha. by apply key_char_inv.
    - intros a Ha. rewrite !str_app_cons, str_app_nil_l. by rewrite !hash_safe_dull. }
  rewrite (decide_False (P := (k +:+ " = " +:+ v) = "")) by (by destruct k).
  assert (has_prefix (k +:+ " = " +:+ v) "#" = false ∧ has_prefix (k +:+ " = " +:+ v) "[" = false)
    as [-> ->].
  { destruct k as [|a k]; [done|]. cbn [str_forall] in Hk.
    apply andb_true_iff in Hk as [Ha _]. apply key_char_inv in Ha as (Hd & _ & Hb).
    unfold dull in Hd. apply andb_true_iff in Hd as [_ Hd%negb_true_iff].
    rewrite str_app_cons. split; by apply not_prefix_cons. }
  cbn [andb].
  assert (str_cut "=" (k +:+ " = " +:+ v) = Some (k +:+ " ", " " +:+ v)) as ->.
  { replace (k +:+ " = " +:+ v) with ((k +:+ " ") +:+ String "=" (" " +:+ v))
      by (by rewrite str_app_assoc, !str_app_cons, !str_app_nil_l).
    apply str_cut_free. rewrite str_forall_app. cbn. rewrite andb_true_r.
    eapply str_forall_impl; [|exact Hk]. intros a Ha. apply key_char_inv in Ha as (_ & Ha & _).
    by rewrite Ha. }
  rewrite trim_space_sp_l, trim_space_sp_r by done.
  rewrite Hsec, decide_False by (by destruct k). done.
Qed.

(** A document of well-formed lines folds the [switch] over its entries. *)
Definition apply_entry (acc : ServiceSpec * Z) (e : string * string) : outcome (ServiceSpec * Z) :=
  spec ← apply_key (acc.2 + 1) acc.1 e.1 e.2; Ok (spec, (acc.2 + 1)%Z).

Definition entry_ok (e : string * string) : bool :=
  key_ok e.1 && value_ok e.2 && line_ok (kv_line e).

Lemma parse_entries es spec n :
  Forall (λ e, entry_ok e = true) es →
  fold_m parse_line {| p_spec := spec; p_section := ""; p_line := n |} (kv_line <$> es) =
    (r ← fold_m apply_entry (spec, n) es;
     Ok {| p_spec := r.1; p_section := ""; p_line := r.2 |}).
Proof.
  intros Hes. revert spec n. induction Hes as [|[k v] es He _ IH]; intros spec n; [done|].
  unfold entry_ok in He. rewrite !andb_true_iff in He. destruct He as [[Hk Hv] _].
  rewrite fmap_cons. cbn [fold_m]. rewrite parse_kv by done.
  unfold apply_entry at 2. cbn [fst snd p_line p_spec].
  destruct (apply_key (n + 1) spec k v) as [s'|e|]; [|done..].
  cbn [mbind outcome_bind]. apply IH.
Qed.

Lemma entries_lines_ok es :
  Forall (λ e, entry_ok e = true) es → Forall (λ l, line_ok l = true) (kv_line <$> es).
Proof.
  intros Hes. apply Forall_fmap. eapply Forall_impl; [exact Hes|]. intros e He.
  unfold entry_ok in He. cbn. by apply andb_true_iff in He as [_ ?].
Qed.

End lines.

(** ** A canonical text for a service *)

Definition render_array (items : list string) : string :=
  "[" +:+ str_join ", " (quoted <$> items) +:+ "]".

Definition render_entries (s : ServiceSpec) : list (string * string) :=
  [("name", quoted (Name s)); ("exec", quoted (Exec s)); ("args", render_array (Args s));
   ("env", render_array (Env s)); ("directory", quoted (Directory s));
   ("root_dir", quoted (RootDir s)); ("after", render_array (After s));
   ("memory_limit", itoa (MemoryLimit s)); ("restart", quoted (Restart s));
   ("max_restarts", itoa (MaxRestarts s)); ("seccomp_profile", quoted (SeccompProfile s));
   ("capabilities_add", render_array (CapabilitiesAdd s));
   ("capabilities_drop", render_array (CapabilitiesDrop s));
   ("no_new_privs", if NoNewPrivs s then "true" else "false")].

Definition render (s : ServiceSpec) : string := document (kv_line <$> render_entries s).

Definition text_ok (s : string) : bool := str_forall plain s.
Definition items_ok (l : list string) : bool := forallb item_ok l.
Definition int_ok (z : Z) : bool := ((0 <=? z) && (z <=? MaxInt64))%Z.

(** The services the canonical text can carry: plain strings, non-empty list items,
    a name and a program, no CPU quota, and no line beyond the scanner's buffer. *)
Definition spec_ok (s : ServiceSpec) : bool :=
  forallb text_ok [Name s; Exec s; Directory s; RootDir s; Restart s; SeccompProfile s]
  && forallb items_ok [Args s; Env s; After s; CapabilitiesAdd s; CapabilitiesDrop s]
  && int_ok (MemoryLimit s) && int_ok (MaxRestarts s)
  && negb (bool_decide (Name s = "")) && negb (bool_decide (Exec s = ""))
  && (match CPUQuota s with S754_zero false => true | _ => false end)
  && forallb (λ e, Z.of_nat (String.length (kv_line e)) <? MaxScanTokenSize)%Z (render_entries s).

Lemma item_ok_plain s : item_ok s = true → str_forall plain s = true.
Proof. unfold item_ok. rewrite andb_true_iff. by intros [? _]. Qed.

Lemma str_forall_join (P : ascii → bool) sep l :
  str_forall P sep = true → Forall (λ s, str_forall P s = true) l →
  str_forall P (str_join sep l) = true.
Proof.
  intros Hsep. induction 1 as [|s l Hs Hl IH]; [done|].
  destruct l as [|s' l]; [done|].
  change (str_join sep (s :: s' :: l)) with (s +:+ sep +:+ str_join sep (s' :: l)).
  by rewrite !str_forall_app, Hs, Hsep, IH.
Qed.

Lemma quoted_no_eol s : str_forall plain s = true → str_forall no_eol (quoted s) = true.
Proof. intros H. unfold quoted. rewrite !str_forall_app. by rewrite (plain_no_eol s). Qed.

Lemma items_ok_Forall l : items_ok l = true → Forall (λ s, item_ok s = true) l.
Proof.
  unfold items_ok. induction l as [|s l IH]; cbn; [constructor|].
  rewrite andb_true_iff. intros [? ?]. constructor; auto.
Qed.

Lemma items_no_eol l : items_ok l = true → str_forall no_eol (render_array l) = true.
Proof.
  intros H%items_ok_Forall. unfold render_array. rewrite !str_forall_app.
  rewrite str_forall_join; [done..|]. apply Forall_fmap.
  eapply Forall_impl; [exact H|]. intros s Hs. cbn. by apply quoted_no_eol, item_ok_plain.
Qed.

Lemma no_eol_line_ok k v :
  str_forall no_eol k = true → str_forall no_eol v = true →
  (Z.of_nat (String.length (kv_line (k, v))) <? MaxScanTokenSize)%Z = true →
  line_ok (kv_line (k, v)) = true.
Proof.
  intros Hk Hv Hlen. unfold line_ok. rewrite Hlen, andb_true_r.
  assert (str_forall no_eol (kv_line (k, v)) = true) as H.
  { unfold kv_line. cbn [fst snd]. rewrite !str_forall_app. by rewrite Hk, Hv. }
  apply andb_true_iff. split; (eapply str_forall_impl; [|exact H]); intros a Ha;
    unfold no_eol in Ha; by apply andb_true_iff in Ha as [? ?].
Qed.

(** Rendered values are values of well-formed lines. *)
Lemma value_ok_quoted s : str_forall plain s = true → value_ok (quoted s) = true.
Proof.
  intros H. unfold value_ok. fold (quoted s).
  pose proof (hash_safe_quoted s (Some " "%char) "" H ltac:(done) ltac:(done)) as Hh.
  rewrite str_app_nil_r in Hh. rewrite Hh. unfold quoted at 1. by rewrite trimmed_dq.
Qed.

Lemma hash_safe_items l p t :
  Forall (λ s, item_ok s = true) l → p ≠ Some "\"%char →
  (∀ p', p' ≠ Some "\"%char → hash_safe None p' t = true) →
  hash_safe None p (str_join ", " (quoted <$> l) +:+ t) = true.
Proof.
  intros Hl Hp Ht. revert p Hp. induction Hl as [|s l Hs Hl IH]; intros p Hp; [by apply Ht|].
  apply item_ok_plain in Hs. destruct l as [|s' l].
  - apply hash_safe_quoted; [done..|]. by apply Ht.
  - change (str_join ", " (quoted <$> s :: s' :: l))
      with (quoted s +:+ ", " +:+ str_join ", " (quoted <$> s' :: l)).
    rewrite str_app_assoc. apply hash_safe_quoted; [done..|].
    rewrite !str_app_cons, str_app_nil_l, !hash_safe_dull by done. by apply IH.
Qed.

Lemma value_ok_array l : items_ok l = true → value_ok (render_array l) = true.
Proof.
  intros H%items_ok_Forall.
  assert (hash_safe None (Some " "%char) (render_array l) = true) as Hh.
  { unfold render_array. rewrite str_app_cons, str_app_nil_l, hash_safe_dull by done.
    apply hash_safe_items; [done..|]. intros p' _. by rewrite hash_safe_dull. }
  unfold value_ok. rewrite Hh. unfold render_array at 1. by rewrite trimmed_ends.
Qed.

Lemma value_ok_itoa z : (0 ≤ z)%Z → value_ok (itoa z) = true.
Proof.
  intros Hz. destruct (itoa_digits z Hz) as [Hd Hne]. unfold value_ok.
  rewrite digits_trimmed, bool_decide_false by done. unfold hash_safe.
  rewrite str_cut_None; [done|]. eapply digits_forall; [|exact Hd].
  intros a Ha. by rewrite (digit_not a "#").
Qed.

Lemma itoa_no_eol z : (0 ≤ z)%Z → str_forall no_eol (itoa z) = true.
Proof.
  intros Hz. destruct (itoa_digits z Hz) as [Hd _]. eapply digits_forall; [|exact Hd].
  intros a Ha. unfold no_eol. by rewrite (digit_not a "010"), (digit_not a "013").
Qed.

Lemma unquote_digits z : (0 ≤ z)%Z → unquote (itoa z) = Ok (itoa z).
Proof.
  intros Hz. destruct (itoa_digits z Hz) as [Hd Hne]. unfold unquote.
  rewrite trim_space_trimmed by by apply digits_trimmed.
  destruct (itoa z) as [|a s]; [done|]. cbn [str_forall] in Hd.
  apply andb_true_iff in Hd as [Ha _]. unfold dq, sq.
  by rewrite !not_prefix_cons by by apply digit_not.
Qed.

Lemma join_quoted_ends s l : ∃ m, str_join ", " (quoted <$> s :: l) = dq +:+ m +:+ dq.
Proof.
  revert s. induction l as [|s' l IH]; intros s; [by exists s|].
  destruct (IH s') as [m Hm].
  change (str_join ", " (quoted <$> s :: s' :: l))
    with (quoted s +:+ ", " +:+ str_join ", " (quoted <$> s' :: l)).
  rewrite Hm. exists (s +:+ dq +:+ ", " +:+ dq +:+ m). unfold quoted.
  by rewrite !str_app_assoc.
Qed.

Lemma parseArray_quoted l :
  Forall (λ s, item_ok s = true) l → parseArray (render_array l) = Ok l.
Proof.
  intros Hl. unfold parseArray, render_array.
  rewrite trim_space_trimmed by by apply trimmed_ends.
  rewrite has_prefix_app. rewrite <-str_app_assoc, has_suffix_app, str_app_assoc. cbn [negb orb].
  change ("[" +:+ str_join ", " (quoted <$> l) +:+ "]")
    with (String "[" "" +:+ str_join ", " (quoted <$> l) +:+ String "]" "").
  rewrite inner_ok. cbn [mbind outcome_bind].
  destruct l as [|s l]; [done|].
  destruct (join_quoted_ends s l) as [m Hm].
  rewrite trim_space_trimmed, decide_False by (rewrite Hm; apply trimmed_dq || done).
  destruct (arr_loop_items (s :: l) [] "") as (st & Hst & Hcur & Hitem); [done|done|by left|].
  change arr_init with (arr_in [] "" None). rewrite Hst. cbn [mbind outcome_bind].
  rewrite (proj2 (Nat.ltb_lt _ _)); [done|]. destruct (a_current st); [done|]. cbn. lia.
Qed.

Section parse_values.
Context {UT : UnicodeTables}.

Lemma parseMemoryLimit_digits s suf u :
  str_forall is_digit s = true → s ≠ "" → (suf, u) ∈ mem_suffixes →
  parseMemoryLimit (s +:+ suf) = (val ← ParseInt s; Ok (wrap_s 64 (val * u))).
Proof.
  intros Hs Hs0 Hin. unfold parseMemoryLimit.
  rewrite trim_space_trimmed by (by eapply digit_suffix_trimmed).
  rewrite decide_False by (by destruct s).
  destruct (mem_unit_digits s suf u Hs Hs0 Hin) as (sp & -> & Hsp). by rewrite Hsp.
Qed.

Lemma ParseInt_itoa z : (MinInt64 ≤ z ≤ MaxInt64)%Z → ParseInt (itoa z) = Ok z.
Proof. intros Hz. unfold ParseInt. by rewrite parse_int_itoa by lia. Qed.

Lemma Atoi_itoa z : (MinInt64 ≤ z ≤ MaxInt64)%Z → Atoi (itoa z) = Ok z.
Proof. intros Hz. unfold Atoi. by rewrite parse_int_itoa by lia. Qed.

End parse_values.

(** ** The [switch] on each key *)

Section keys.
Context {UT : UnicodeTables} (n : Z) (s : ServiceSpec) (v : string).
Lemma key_name : apply_key n s "name" v = (x ← unquote v; Ok (set_Name s x)).
Proof. done. Qed.
Lemma key_exec : apply_key n s "exec" v = (x ← unquote v; Ok (set_Exec s x)).
Proof. done. Qed.
Lemma key_args : apply_key n s "args" v = (x ← parseArray v; Ok (set_Args s x)).
Proof. done. Qed.
Lemma key_env : apply_key n s "env" v = (x ← parseArray v; Ok (set_Env s (Env s ++ x))).
Proof. done. Qed.
Lemma key_directory : apply_key n s "directory" v = (x ← unquote v; Ok (set_Directory s x)).
Proof. done. Qed.
Lemma key_root_dir : apply_key n s "root_dir" v = (x ← unquote v; Ok (set_RootDir s x)).
Proof. done. Qed.
Lemma key_after : apply_key n s "after" v = (x ← parseArray v; Ok (set_After s x)).
Proof. done. Qed.
Lemma key_memory_limit : apply_key n s "memory_limit" v =
  (u ← unquote v; b ← bad_value n "memory_limit" v (parseMemoryLimit u); Ok (set_MemoryLimit s b)).
Proof. done. Qed.
Lemma key_restart : apply_key n s "restart" v = (x ← unquote v; Ok (set_Restart s x)).
Proof. done. Qed.
Lemma key_max_restarts : apply_key n s "max_restarts" v =
  (u ← unquote v; match Atoi (trim_space u) with Ok m => Ok (set_MaxRestarts s m) | _ => Ok s end).
Proof. done. Qed.
Lemma key_seccomp_profile :
  apply_key n s "seccomp_profile" v = (x ← unquote v; Ok (set_SeccompProfile s x)).
Proof. done. Qed.
Lemma key_capabilities_add :
  apply_key n s "capabilities_add" v = (x ← parseArray v; Ok (set_CapabilitiesAdd s x)).
Proof. done. Qed.
Lemma key_capabilities_drop :
  apply_key n s "capabilities_drop" v = (x ← parseArray v; Ok (set_CapabilitiesDrop s x)).
Proof. done. Qed.
Lemma key_no_new_privs :
  apply_key n s "no_new_privs" v = (x ← parseBool v; Ok (set_NoNewPrivs s x)).
Proof. done. Qed.
End keys.

Create Rewrite HintDb svc_keys.
#[export] Hint Rewrite @key_name @key_exec @key_args @key_env @key_directory @key_root_dir
  @key_after @key_memory_limit @key_restart @key_max_restarts @key_seccomp_profile
  @key_capabilities_add @key_capabilities_drop @key_no_new_privs : svc_keys.

Section render.
Context {UT : UnicodeTables}.

Lemma unquote_plain s : unquote (quoted s) = Ok s.
Proof. apply unquote_quoted, trimmed_dq. Qed.

Lemma parseMemoryLimit_itoa z :
  (0 ≤ z ≤ MaxInt64)%Z → parseMemoryLimit (itoa z) = Ok z.
Proof.
  intros Hz. destruct (itoa_digits z) as [Hd Hne]; [lia|].
  pose proof (parseMemoryLimit_digits (itoa z) "" 1 Hd Hne ltac:(by left)) as H.
  rewrite str_app_nil_r in H. rewrite H, ParseInt_itoa by lia. cbn [mbind outcome_bind].
  by rewrite Z.mul_1_r, wrap_s_id by lia.
Qed.

Lemma spec_ok_inv s : spec_ok s = true →
  Forall (λ t, str_forall plain t = true)
    [Name s; Exec s; Directory s; RootDir s; Restart s; SeccompProfile s] ∧
  Forall (λ l, items_ok l = true)
    [Args s; Env s; After s; CapabilitiesAdd s; CapabilitiesDrop s] ∧
  (0 ≤ MemoryLimit s ≤ MaxInt64)%Z ∧ (0 ≤ MaxRestarts s ≤ MaxInt64)%Z ∧
  Name s ≠ "" ∧ Exec s ≠ "" ∧ CPUQuota s = S754_zero false ∧
  ∀ e, e ∈ render_entries s → (Z.of_nat (String.length (kv_line e)) <? MaxScanTokenSize)%Z = true.
Proof.
  unfold spec_ok. intros H. cbn [forallb] in H. unfold text_ok, int_ok in H.
  split_andb. split_and!; try lia.
  - by repeat constructor.
  - by repeat constructor.
  - by eapply bool_decide_eq_false, negb_true_iff.
  - by eapply bool_decide_eq_false, negb_true_iff.
  - by destruct (CPUQuota s) as [[]| | |].
  - intros e He%list_elem_of_In.
    match goal with Hf : forallb _ _ = true |- _ => rewrite forallb_forall in Hf; by apply Hf end.
Qed.

Lemma render_entries_ok s :
  spec_ok s = true → Forall (λ e, entry_ok e = true) (render_entries s).
Proof.
  intros H. apply spec_ok_inv in H as (Ht & Hi & Hm & Hr & _ & _ & _ & Hlen).
  decompose_Forall_hyps.
  assert (∀ e, In e (render_entries s) → str_forall no_eol e.1 = true ∧ key_ok e.1 = true ∧
            str_forall no_eol e.2 = true ∧ value_ok e.2 = true) as Hall.
  { intros e He. unfold render_entries in He. cbn [In] in He.
    repeat (destruct He as [<-|He];
      [split_and!; cbn [fst snd];
       try done; (by apply quoted_no_eol) || (by apply value_ok_quoted)
         || (by apply items_no_eol) || (by apply value_ok_array)
         || (apply itoa_no_eol; lia) || (apply value_ok_itoa; lia)
         || (by destruct (NoNewPrivs s))|]).
    destruct He. }
  apply Forall_forall. intros e He. apply list_elem_of_In in He.
  destruct (Hall e He) as (? & Hk & ? & Hv). unfold entry_ok. rewrite Hk, Hv.
  destruct e as [k v]. apply no_eol_line_ok; [done..|]. by apply Hlen, list_elem_of_In.
Qed.

Lemma trim_space_itoa z : (0 ≤ z)%Z → trim_space (itoa z) = itoa z.
Proof. intros Hz. by apply trim_space_trimmed, digits_trimmed, itoa_digits. Qed.

Lemma parseBool_literal (b : bool) : parseBool (if b then "true" else "false") = Ok b.
Proof. by destruct b. Qed.

Lemma bad_value_ok {A} n what v (a : A) : bad_value n what v (Ok a) = Ok a.
Proof. done. Qed.

Lemma apply_entry_eq s n k v :
  apply_entry (s, n) (k, v) = (s' ← apply_key (n + 1) s k v; Ok (s', (n + 1)%Z)).
Proof. done. Qed.

(** One entry of a rendered service. *)
Ltac entry_step :=
  cbn [fold_m]; rewrite apply_entry_eq; autorewrite with svc_keys;
  rewrite ?unquote_plain, ?unquote_digits, ?parseArray_quoted, ?parseBool_literal
    by (lia || by apply items_ok_Forall);
  cbn [mbind outcome_bind];
  rewrite ?trim_space_itoa, ?Atoi_itoa, ?parseMemoryLimit_itoa by lia;
  rewrite ?bad_value_ok; cbn [mbind outcome_bind].

Lemma fold_render_entries s :
  spec_ok s = true → fold_m apply_entry (default_spec, 0%Z) (render_entries s) = Ok (s, 14%Z).
Proof.
  intros H. apply spec_ok_inv in H as (_ & Hi & Hm & Hr & _ & _ & Hq & _).
  apply Forall_cons in Hi as [H1 Hi]. apply Forall_cons in Hi as [H2 Hi].
  apply Forall_cons in Hi as [H3 Hi]. apply Forall_cons in Hi as [H4 Hi].
  apply Forall_cons in Hi as [H5 _].
  destruct s as [nm ex ar en di ro af me cp re ma se ca cd nn].
  cbn [Name Exec Args Env Directory RootDir After MemoryLimit CPUQuota Restart MaxRestarts
       SeccompProfile CapabilitiesAdd CapabilitiesDrop] in *. subst cp.
  unfold render_entries.
  cbn [Name Exec Args Env Directory RootDir After MemoryLimit CPUQuota Restart MaxRestarts
       SeccompProfile CapabilitiesAdd CapabilitiesDrop NoNewPrivs].
  do 14 entry_step. done.
Qed.

End render.

(** * Theorems *)

Section theorems.
Context {UT : UnicodeTables}.

(** C6: the reader inverts the canonical text: every service whose strings are
    printable ASCII without double quotes and backslashes, written as a file of
    [key = value] lines, is read back field by field, from a file at boot as from a
    payload of the host.  Values may hold [#], [=], brackets and commas. *)
Theorem parse_render s :
  spec_ok s = true →
  ParseServiceSpecFromBytes (render s) = Ok s ∧
  ∀ path, ParseServiceConfig path (FileData (render s) None) = Ok s.
Proof.
  intros H. pose proof (render_entries_ok s H) as Hes.
  assert (scan_lines (render s) = (kv_line <$> render_entries s, false)) as Hscan
    by by apply scan_document, entries_lines_ok.
  assert (fold_m parse_line parse_init (kv_line <$> render_entries s) =
            Ok {| p_spec := s; p_section := ""; p_line := 14 |}) as Hfold.
  { unfold parse_init. rewrite parse_entries, fold_render_entries by done. done. }
  apply spec_ok_inv in H as (_ & _ & _ & _ & Hname & Hexec & _).
  split; [unfold ParseServiceSpecFromBytes|intros path; unfold ParseServiceConfig];
    rewrite Hscan, Hfold; cbn [mbind outcome_bind scanner_err p_spec];
    by rewrite !decide_False.
Qed.

(** [unquote] is a partial function: it panics exactly on a string that is,
    but for white space, one quote character, where it slices [s[1:0]]. *)
Theorem unquote_panics s :
  unquote s = Panic ↔ trim_space s = dq ∨ trim_space s = sq.
Proof.
  unfold unquote. split.
  - case_match eqn:Hq; [|done]. intros Hp%inner_panic.
    apply orb_true_iff in Hq as [Hq|Hq]; apply andb_true_iff in Hq as [Hq _].
    + left. by apply one_byte_ends.
    + right. by apply one_byte_ends.
  - by intros [-> | ->].
Qed.

(** The keys whose value goes through [unquote]. *)
Definition unquoted_keys : list string :=
  ["name"; "exec"; "directory"; "root_dir"; "rootdir"; "chroot"; "memory_limit"; "cpu_quota";
   "restart"; "max_restarts"; "seccomp_profile"; "no_new_privs"].

(** A service text whose first line gives one of these keys a lone double
    quote makes both readers panic, whatever follows: there is no error to
    report and the supervisor process dies. *)
Theorem lone_quote_crashes key rest path :
  key ∈ unquoted_keys →
  let data := key +:+ " = " +:+ dq +:+ String "010" rest in
  ParseServiceSpecFromBytes data = Panic ∧ ParseServiceConfig path (FileData data None) = Panic.
Proof.
  intros Hkey data.
  assert (scan_lines data = ((kv_line (key, dq)) :: (scan_lines rest).1, (scan_lines rest).2)) as Hs.
  { unfold data. rewrite <-(str_app_assoc " = "), <-str_app_assoc.
    unfold unquoted_keys in Hkey.
    rewrite scan_lines_cons; [f_equal; f_equal; unfold kv_line; cbn [fst snd]| |];
      repeat (apply elem_of_cons in Hkey as [->|Hkey]; [done|]);
      by apply not_elem_of_nil in Hkey. }
  assert (fold_m parse_line parse_init (kv_line (key, dq) :: (scan_lines rest).1) = Panic) as Hf.
  { cbn [fold_m]. unfold unquoted_keys in Hkey.
    repeat (apply elem_of_cons in Hkey as [->|Hkey]; [done|]). by apply not_elem_of_nil in Hkey. }
  unfold ParseServiceSpecFromBytes, ParseServiceConfig. by rewrite Hs, Hf.
Qed.

(** [parseArray] reads back a list of quoted items separated by a comma and a
    space: the items, in order, whatever commas and brackets they hold. *)
Theorem parseArray_render items :
  Forall (λ s, item_ok s = true) items →
  parseArray ("[" +:+ str_join ", " (quoted <$> items) +:+ "]") = Ok items.
Proof. apply parseArray_quoted. Qed.

Lemma parseMemoryLimit_suffix n suf unit :
  (0 ≤ n ≤ MaxInt64)%Z → (suf, unit) ∈ mem_suffixes →
  parseMemoryLimit (itoa n +:+ suf) = Ok (wrap_s 64 (n * unit)).
Proof.
  intros Hn Hin. destruct (itoa_digits n ltac:(lia)) as [Hd Hne].
  rewrite (parseMemoryLimit_digits _ _ unit) by done. by rewrite ParseInt_itoa by lia.
Qed.

(** A memory limit of [n] with a size suffix is [n] times the unit, computed in
    64-bit two's complement: exact while the product is below 2^63, silently
    wrapped above. *)
Theorem parseMemoryLimit_value n suf unit :
  (0 ≤ n ≤ MaxInt64)%Z → (suf, unit) ∈ mem_suffixes →
  parseMemoryLimit (itoa n +:+ suf) = Ok (wrap_s 64 (n * unit)) ∧
  ((n * unit ≤ MaxInt64)%Z → parseMemoryLimit (itoa n +:+ suf) = Ok (n * unit)%Z).
Proof.
  intros Hn Hin. rewrite (parseMemoryLimit_suffix n suf unit) by done. split; [done|].
  assert (0 < unit)%Z as Hu.
  { unfold mem_suffixes in Hin.
    repeat (apply elem_of_cons in Hin as [[= _ ->]|Hin]; [lia|]). by apply not_elem_of_nil in Hin. }
  intros Hov. rewrite wrap_s_id; [done|lia|].
  split; [|lia]. transitivity 0%Z; [lia|]. apply Z.mul_nonneg_nonneg; lia.
Qed.

(** The entries [LoadServiceDir] reads, and what it takes from each. *)
Definition service_file (e : dir_entry) : Prop :=
  de_is_dir e = false ∧ has_suffix (de_name e) ".toml" = true.

#[export] Instance service_file_dec e : Decision (service_file e).
Proof. unfold service_file. apply _. Defined.

Definition parse_entry (dir : string) (e : dir_entry) : outcome ServiceSpec :=
  ParseServiceConfig (Join [dir; de_name e]) (de_file e).

Definition loads (dir : string) (e : dir_entry) : Prop :=
  match parse_entry dir e with
  | Ok _ => True
  | Err err => str_contains err "is empty" = true
  | Panic => False
  end.

Definition entry_spec (dir : string) (e : dir_entry) : option ServiceSpec :=
  match parse_entry dir e with Ok s => Some s | _ => None end.

Lemma load_entry_ok dir acc e acc' :
  load_entry dir acc e = Ok acc' ↔
    Forall (loads dir) (filter service_file [e]) ∧
    acc' = acc ++ omap (entry_spec dir) (filter service_file [e]).
Proof.
  unfold load_entry. rewrite filter_cons, filter_nil.
  destruct (decide (service_file e)) as [Hf|Hf]; unfold service_file in Hf.
  - rewrite Forall_singleton. unfold loads. cbn. unfold entry_spec, parse_entry.
    destruct Hf as [-> ->]. cbn.
    destruct (ParseServiceConfig _ _) as [s|err|]; [naive_solver| |naive_solver].
    rewrite app_nil_r. destruct (str_contains err "is empty"); naive_solver.
  - assert (de_is_dir e || negb (has_suffix (de_name e) ".toml") = true) as ->.
    { destruct (de_is_dir e), (has_suffix (de_name e) ".toml"); naive_solver. }
    cbn. rewrite app_nil_r, Forall_nil. naive_solver.
Qed.

(** Loading the boot directory is all or nothing: it returns a list exactly when
    every [.toml] file parses or fails with a text that contains [is empty], and the
    list is then the parsed services in directory order.  One other invalid file
    leaves no service at all. *)
Theorem LoadServiceDir_all_or_nothing dir es specs :
  LoadServiceDir dir (DirEntries es) = Ok specs ↔
    Forall (loads dir) (filter service_file es) ∧
    specs = omap (entry_spec dir) (filter service_file es).
Proof.
  unfold LoadServiceDir. change specs with ([] ++ specs) at 1.
  assert (∀ acc r, fold_m (load_entry dir) acc es = Ok r ↔
    Forall (loads dir) (filter service_file es) ∧
    r = acc ++ omap (entry_spec dir) (filter service_file es)) as Hgen; [|apply Hgen].
  induction es as [|e es IH]; intros acc r.
  - cbn. rewrite app_nil_r. split; [by intros [= <-]|]. by intros [_ ->].
  - cbn [fold_m]. rewrite outcome_bind_ok.
    setoid_rewrite load_entry_ok. setoid_rewrite IH.
    change (e :: es) with ([e] ++ es). rewrite filter_app, omap_app, Forall_app.
    split.
    + intros (a & [H1 ->] & H2 & ->). by rewrite app_assoc.
    + intros [[H1 H2] ->]. eexists. split; [by split|]. by rewrite app_assoc.
Qed.

(** Boot and hot reload agree: a payload accepted over the socket is accepted
    with the same result as a file of any path, and a file is accepted beyond
    that only when the payload lacks a name, which the file takes from its own
    base name. *)
Theorem boot_reload_agree data path spec :
  (ParseServiceSpecFromBytes data = Ok spec →
     ParseServiceConfig path (FileData data None) = Ok spec) ∧
  (ParseServiceConfig path (FileData data None) = Ok spec →
     ParseServiceSpecFromBytes data = Ok spec ∨
     ParseServiceSpecFromBytes data = Err "service config missing mandatory 'name' field" ∧
     Name spec = stem path).
Proof.
  unfold ParseServiceConfig, ParseServiceSpecFromBytes.
  destruct (scan_lines data) as [ls e]. destruct (fold_m _ _ _) as [st|err|]; cbn; [|naive_solver..].
  destruct e; cbn; [naive_solver|].
  destruct (decide (Exec (p_spec st) = "")) as [_|_].
  { destruct (p_line st =? 0)%Z; naive_solver. }
  destruct (decide (Name (p_spec st) = "")) as [Hn|_]; [|naive_solver].
  split; [done|]. intros [= <-]. by right.
Qed.

(** ** Types

    What a specification is, whatever the text it was read from: the integers fit the
    [int64] and [int] they are kept in. *)
Definition int64 (z : Z) : Prop := (- 2 ^ 63 ≤ z < 2 ^ 63)%Z.

Record spec_typed (s : ServiceSpec) : Prop := {
  typed_memory : int64 (MemoryLimit s);
  typed_restarts : int64 (MaxRestarts s)
}.

Lemma parse_digits_nonneg maxv acc s n : (0 ≤ acc)%Z → parse_digits maxv acc s = inl n → (0 ≤ n)%Z.
Proof.
  revert acc. induction s as [|a s IH]; intros acc Hacc; cbn [parse_digits]; [by intros [= <-]|].
  unfold digit_val. destruct ((48 <=? byte_of a) && (byte_of a <=? 57))%Z eqn:Ha; [|done].
  case_match; [done|]. apply IH. lia.
Qed.

Lemma parse_int_val_int64 s z : parse_int_val s = inl z → int64 z.
Proof.
  unfold parse_int_val, int64. destruct (split_sign s) as [neg u].
  destruct (parse_uint_val 64 u) as [un|] eqn:Hu; [|done].
  assert (0 ≤ un)%Z by (destruct u; [done|by eapply parse_digits_nonneg; [|exact Hu]]).
  destruct neg; cbn [negb andb]; repeat case_match; intros [= <-]; lia.
Qed.

Lemma parseMemoryLimit_int64 s z : parseMemoryLimit s = Ok z → int64 z.
Proof.
  unfold parseMemoryLimit. case_decide; [by intros [= <-]|]. destruct (mem_unit _) as [m num].
  destruct (ParseInt _); cbn; [|done..]. intros [= <-]. by apply (wrap_s_range 64).
Qed.

Lemma Atoi_int64 s z : Atoi s = Ok z → int64 z.
Proof. unfold Atoi. destruct (parse_int_val s) as [v|] eqn:Hv; [|done]. intros [= <-]. by eapply parse_int_val_int64. Qed.

Lemma apply_key_typed n spec key val spec' :
  spec_typed spec → apply_key n spec key val = Ok spec' → spec_typed spec'.
Proof.
  intros [Hm Hr]. unfold apply_key.
  repeat case_decide; rewrite ?outcome_bind_ok; try (by intros (v & _ & [= <-])); try (by intros [= <-]).
  - intros (u & _ & (b & Hb & [= <-])%outcome_bind_ok). split; [|done]. cbn.
    eapply parseMemoryLimit_int64. by apply wrap_err_ok in Hb.
  - intros (u & _ & (b & Hb & [= <-])%outcome_bind_ok). by split.
  - intros (u & _ & Hu). destruct (Atoi (trim_space u)) as [k|e|] eqn:Hk; simplify_eq; split; try done. by eapply Atoi_int64.
Qed.

Lemma parse_line_typed st text st' :
  spec_typed (p_spec st) → parse_line st text = Ok st' → spec_typed (p_spec st').
Proof.
  intros Hs. unfold parse_line. repeat case_match; rewrite ?outcome_bind_ok; try (by intros [= <-]).
  - by intros (sec & _ & [= <-]).
  - intros (v & _ & [= <-]). by destruct Hs.
  - intros (spec & Hk & [= <-]). by eapply apply_key_typed.
Qed.

Lemma parse_lines_typed ls st : fold_m parse_line parse_init ls = Ok st → spec_typed (p_spec st).
Proof. apply (fold_m_inv (λ st, spec_typed (p_spec st))); [intros st0 l st1 _; apply parse_line_typed|by split]. Qed.

Lemma ParseServiceConfig_typed path file spec :
  ParseServiceConfig path file = Ok spec →
  spec_typed spec ∧ Exec spec ≠ "" ∧ (Name spec ≠ "" ∨ Name spec = stem path).
Proof.
  unfold ParseServiceConfig. destruct file as [e|data rerr]; [done|].
  destruct (scan_lines data) as [ls long]. intros (st & Hst%parse_lines_typed & H)%outcome_bind_ok.
  destruct (scanner_err long rerr); [done|]. destruct (decide (Exec (p_spec st) = "")) as [|He]; [by destruct (p_line st =? 0)%Z|].
  injection H as <-. destruct Hst as [Hm Hr].
  destruct (decide (Name (p_spec st) = "")) as [Hn|Hn]; split_and!; first [by split|by left|by right|exact He].
Qed.

(** A service of the directory has a name of its own or that of its file. *)
Definition named_in (dir : string) (d : dir_read) (spec : ServiceSpec) : Prop :=
  Name spec ≠ "" ∨ ∃ entries e, d = DirEntries entries ∧ e ∈ entries ∧ de_is_dir e = false ∧
                     Name spec = stem (Join [dir; de_name e]).

Lemma load_entry_typed dir entries services e services' :
  let ok spec := spec_typed spec ∧ Exec spec ≠ "" ∧ named_in dir (DirEntries entries) spec in
  e ∈ entries → Forall ok services → load_entry dir services e = Ok services' → Forall ok services'.
Proof.
  intros ok He Hs. unfold load_entry. destruct (de_is_dir e) eqn:Hd; cbn [orb]; [by intros [= <-]|].
  destruct (negb _); [by intros [= <-]|].
  destruct (ParseServiceConfig _ _) as [spec|err|] eqn:Hp; [|destruct (str_contains err _); [by intros [= <-]|done]|done].
  intros [= <-]. apply Forall_app. split; [done|]. apply Forall_singleton.
  apply ParseServiceConfig_typed in Hp as (Ht & Hx & Hn). split_and!; [done..|].
  destruct Hn as [Hn|Hn]; [by left|right]. by exists entries, e.
Qed.

(** C38: every specification the readers produce is well-formed, whatever bytes they are
    given: its integers fit their types, it names a program, and it has a name - its own,
    or at boot the stem of its file, so a name is only missing for a file called [.toml]. *)
Theorem parsed_well_formed :
  (∀ data spec, ParseServiceSpecFromBytes data = Ok spec → spec_typed spec ∧ Exec spec ≠ "" ∧ Name spec ≠ "") ∧
  ∀ dir d specs, LoadServiceDir dir d = Ok specs →
    Forall (λ spec, spec_typed spec ∧ Exec spec ≠ "" ∧ named_in dir d spec) specs.
Proof.
  split.
  - intros data spec. unfold ParseServiceSpecFromBytes. destruct (scan_lines data) as [ls long].
    intros (st & Hst%parse_lines_typed & H)%outcome_bind_ok. destruct (scanner_err long None); [done|].
    repeat case_decide; by simplify_eq.
  - intros dir [|e|entries] specs; cbn [LoadServiceDir]; [by intros [= <-]|done|].
    apply fold_m_inv; [|done]. intros services e services'. apply load_entry_typed.
Qed.
End theorems.

(** ** Witnesses *)


Definition sample_spec : ServiceSpec := {|
  Name := "web"; Exec := "/bin/httpd"; Args := ["-p"; "80,[81]"; "#x"]; Env := ["A=b # c"];
  Directory := "/srv"; RootDir := ""; After := ["net"; "log"]; MemoryLimit := 67108864;
  CPUQuota := S754_zero false; Restart := "always"; MaxRestarts := 5;
  SeccompProfile := "net-service"; CapabilitiesAdd := ["CAP_NET_BIND_SERVICE"];
  CapabilitiesDrop := []; NoNewPrivs := false |}.

Lemma parse_render_witness :
  spec_ok sample_spec = true ∧
  (@ParseServiceSpecFromBytes no_tables (render sample_spec) = Ok sample_spec ∧
   ∀ path, @ParseServiceConfig no_tables path (FileData (render sample_spec) None) = Ok sample_spec).
Proof. split; [by vm_compute|]. apply (@parse_render no_tables). by vm_compute. Defined.

Lemma lone_quote_crashes_witness :
  "exec" ∈ unquoted_keys ∧
  let data := "exec" +:+ " = " +:+ dq +:+ String "010" "name = web" in
  @ParseServiceSpecFromBytes no_tables data = Panic ∧
  @ParseServiceConfig no_tables "/etc/karim/services/web.toml" (FileData data None) = Panic.
Proof.
  split; [by right; left|].
  apply (@lone_quote_crashes no_tables "exec" "name = web"). by right; left.
Defined.

Lemma parseArray_render_witness :
  Forall (λ s, item_ok s = true) ["a,b"; "]"] ∧
  parseArray ("[" +:+ str_join ", " (quoted <$> ["a,b"; "]"]) +:+ "]") = Ok ["a,b"; "]"].
Proof. split; [by repeat constructor|]. apply parseArray_render. by repeat constructor. Defined.

(** [memory_limit = 17179869184G] asks for 16 EiB and sets no limit at all. *)
Lemma parseMemoryLimit_value_witness :
  @parseMemoryLimit no_tables (itoa 17179869184 +:+ "G") = Ok 0%Z ∧
  @parseMemoryLimit no_tables (itoa 64 +:+ "MB") = Ok 67108864%Z.
Proof.
  split.
  - apply (proj1 (@parseMemoryLimit_value no_tables 17179869184 "G" (1024 * 1024 * 1024)
      ltac:(lia) ltac:(apply list_elem_of_In; vm_compute; tauto))).
  - apply (proj2 (@parseMemoryLimit_value no_tables 64 "MB" (1024 * 1024)
      ltac:(lia) ltac:(apply list_elem_of_In; vm_compute; tauto))). lia.
Defined.

Lemma boot_reload_agree_witness :
  @ParseServiceConfig no_tables "/etc/karim/services/web.toml"
    (FileData (render sample_spec) None) = Ok sample_spec ∧
  ∀ spec', @ParseServiceConfig no_tables "/x/db.toml" (FileData "exec = /bin/db" None) = Ok spec' →
    Name spec' = "db".
Proof.
  split.
  - apply (proj1 (@boot_reload_agree no_tables _ _ _)). by vm_compute.
  - intros spec' H. destruct (proj2 (@boot_reload_agree no_tables _ _ _) H) as [H'|[_ H']].
    + by vm_compute in H'.
    + by rewrite H'.
Defined.

(** A file without a name, in itself and in its path. *)
Definition nameless_dir : dir_read :=
  DirEntries [{| de_name := ".toml"; de_is_dir := false; de_file := FileData "exec = /bin/db" None |}].

Lemma parsed_well_formed_witness :
  spec_typed sample_spec ∧
  Forall (named_in "/etc/karim/services" nameless_dir) [set_Exec default_spec "/bin/db"].
Proof.
  destruct (@parsed_well_formed no_tables) as [Hbytes Hdir]. split.
  - destruct (Hbytes (render sample_spec) sample_spec) as [H _]; [by vm_compute|exact H].
  - assert (@LoadServiceDir no_tables "/etc/karim/services" nameless_dir = Ok [set_Exec default_spec "/bin/db"]) as H
      by by vm_compute.
    apply (Forall_impl _ _ _ (Hdir _ _ _ H)). by intros spec (_ & _ & Hn).
Defined.
