(* ===== verification/SvcGraph.v ===== *)
(** * Start order of the services ([internal/svcd/graph.go])

    [DependencyGraph] and its topological sort.  A Go map is a [gmap]; the order in
    which a [range] over a map visits the keys is not specified by the language, so
    each such loop takes the order as an argument, a permutation of the keys. *)

From S2P Require Import Prelude GoStrings GoStrconv SvcConfig.

(** ** Data *)

Record DependencyGraph := { services : gmap string ServiceSpec }.

Definition NewDependencyGraph (specs : list ServiceSpec) : DependencyGraph :=
  {| services := foldl (λ m spec, <[Name spec := spec]> m) ∅ specs |}.

(** The keys of the services map. *)
Definition names (g : DependencyGraph) : list string := (map_to_list (services g)).*1.

Definition ErrCyclicDependency : string := "cyclic service dependency detected".

(** ** The sort *)

(** [m[k]] of a Go map of integers and of slices: the zero value when absent. *)
Definition deg_at (m : gmap string Z) (k : string) : Z := default 0%Z (m !! k).
Definition adj_at (m : gmap string (list string)) (k : string) : list string := default [] (m !! k).

(** [for name, spec := range g.services { for _, dep := range spec.After { ... } }] *)
Definition edge_step (g : DependencyGraph) (name : string)
    (st : gmap string Z * gmap string (list string)) (dep : string) :=
  if decide (is_Some (services g !! dep)) then
    (<[name := (deg_at st.1 name + 1)%Z]> st.1, <[dep := adj_at st.2 dep ++ [name]]> st.2)
  else st.

Definition edges_of (g : DependencyGraph) (st : gmap string Z * gmap string (list string))
    (name : string) :=
  match services g !! name with
  | Some spec => foldl (edge_step g name) st (After spec)
  | None => st
  end.

(** The two loops before Kahn's algorithm, over the orders [o1] and [o2]. *)
Definition build_edges (g : DependencyGraph) (o1 o2 : list string) :=
  foldl (edges_of g)
    (foldl (λ m name, <[name := 0%Z]> m) ∅ o1, foldl (λ m name, <[name := []]> m) ∅ o1) o2.

(** The inner loop over [adj[curr]]: the in-degrees and the queue. *)
Definition release (st : gmap string Z * list string) (neighbor : string) :=
  let d := (deg_at st.1 neighbor - 1)%Z in
  (<[neighbor := d]> st.1, if (d =? 0)%Z then st.2 ++ [neighbor] else st.2).

(** [for len(queue) > 0]; [None] when the fuel runs out. *)
Fixpoint kahn (g : DependencyGraph) (adj : gmap string (list string)) (fuel : nat)
    (inDegree : gmap string Z) (queue : list string) (ordered : list ServiceSpec)
    : option (list ServiceSpec) :=
  match queue with
  | [] => Some ordered
  | curr :: queue =>
      match fuel with
      | O => None
      | S fuel =>
          let ordered' :=
            match services g !! curr with
            | Some spec => ordered ++ [spec]
            | None => ordered
            end in
          let st := foldl release (inDegree, queue) (adj_at adj curr) in
          kahn g adj fuel st.1 st.2 ordered'
      end
  end.

(** The whole function, [o1], [o2], [o3] being the orders of the three [range]
    loops; one step of fuel per service. *)
Definition topo_run (g : DependencyGraph) (o1 o2 o3 : list string) : option (list ServiceSpec) :=
  let '(inDegree, adj) := build_edges g o1 o2 in
  let queue := filter (λ name, deg_at inDegree name = 0%Z) o3 in
  kahn g adj (size (services g)) inDegree queue [].

Definition ResolveTopologicalSort (g : DependencyGraph) (o1 o2 o3 : list string)
    : option (outcome (list ServiceSpec)) :=
  (λ ordered,
    if decide (length ordered = size (services g)) then Ok ordered
    else Err (ErrCyclicDependency +:+ ": resolved " +:+ itoa (Z.of_nat (length ordered)) +:+
              " of " +:+ itoa (Z.of_nat (size (services g))) +:+ " services"))
  <$> topo_run g o1 o2 o3.

(** * Properties *)

(** The known dependencies of a service, with repetitions. *)
Definition deps (g : DependencyGraph) (name : string) : list string :=
  match services g !! name with
  | Some spec => filter (λ d, is_Some (services g !! d)) (After spec)
  | None => []
  end.

(** Number of occurrences. *)
Definition cnt (x : string) (l : list string) : nat := length (filter (λ y, y = x) l).

Lemma cnt_app x l k : cnt x (l ++ k) = cnt x l + cnt x k.
Proof. unfold cnt. by rewrite filter_app, length_app. Qed.
Lemma cnt_cons x y l : cnt x (y :: l) = (if decide (y = x) then 1 else 0) + cnt x l.
Proof. unfold cnt. rewrite filter_cons. by destruct (decide (y = x)). Qed.
Lemma cnt_pos x l : 0 < cnt x l ↔ x ∈ l.
Proof.
  induction l as [|y l IH]; [cbn; split; [lia|by intros ?%not_elem_of_nil]|].
  rewrite cnt_cons, elem_of_cons. destruct (decide (y = x)) as [->|Hne]; [naive_solver lia|].
  rewrite <-IH. split; [lia|]. intros [->|?]; [done|lia].
Qed.

Lemma deg_at_insert m k v x : deg_at (<[k:=v]> m) x = if decide (k = x) then v else deg_at m x.
Proof.
  unfold deg_at. destruct (decide (k = x)) as [->|?]; [by rewrite lookup_insert_eq|].
  by rewrite lookup_insert_ne.
Qed.
Lemma adj_at_insert m k v x : adj_at (<[k:=v]> m) x = if decide (k = x) then v else adj_at m x.
Proof.
  unfold adj_at. destruct (decide (k = x)) as [->|?]; [by rewrite lookup_insert_eq|].
  by rewrite lookup_insert_ne.
Qed.

(** ** The edges *)

Lemma edge_fold g name after st x y :
  let l := filter (λ d, is_Some (services g !! d)) after in
  let st' := foldl (edge_step g name) st after in
  deg_at st'.1 x = (deg_at st.1 x + (if decide (x = name) then Z.of_nat (length l) else 0))%Z ∧
  cnt x (adj_at st'.2 y) = cnt x (adj_at st.2 y) + (if decide (x = name) then cnt y l else 0).
Proof.
  cbv zeta. revert st. induction after as [|d after IH]; intros st.
  - cbn. destruct (decide (x = name)); cbn; lia.
  - cbn [foldl]. destruct (IH (edge_step g name st d)) as [-> ->]. unfold edge_step.
    rewrite filter_cons. destruct (decide (is_Some (services g !! d))); [|done].
    cbn [fst snd]. rewrite deg_at_insert, adj_at_insert.
    split.
    + destruct (decide (x = name)) as [->|Hne]; cbn [length];
        [rewrite decide_True by done; lia|rewrite decide_False by done; lia].
    + rewrite cnt_cons.
      destruct (decide (d = y)) as [->|Hdy]; [rewrite cnt_app, cnt_cons; cbn|].
      * destruct (decide (name = x)), (decide (x = name)); subst; try done; cbn; lia.
      * destruct (decide (x = name)); lia.
Qed.

Lemma edges_fold g o st x y :
  NoDup o →
  let st' := foldl (edges_of g) st o in
  deg_at st'.1 x =
    (deg_at st.1 x + (if decide (x ∈ o) then Z.of_nat (length (deps g x)) else 0))%Z ∧
  cnt x (adj_at st'.2 y) = cnt x (adj_at st.2 y) + (if decide (x ∈ o) then cnt y (deps g x) else 0).
Proof.
  intros Hnd. revert st. induction Hnd as [|n o Hn Hnd IH]; intros st; cbn.
  - rewrite decide_False, decide_False by apply not_elem_of_nil. lia.
  - destruct (IH (edges_of g st n)) as [-> ->].
    assert (deg_at (edges_of g st n).1 x =
              (deg_at st.1 x + (if decide (x = n) then Z.of_nat (length (deps g n)) else 0))%Z ∧
            cnt x (adj_at (edges_of g st n).2 y) =
              cnt x (adj_at st.2 y) + (if decide (x = n) then cnt y (deps g n) else 0)) as [-> ->].
    { unfold edges_of, deps. destruct (services g !! n) as [spec|].
      - apply edge_fold.
      - cbn. destruct (decide (x = n)); cbn; lia. }
    destruct (decide (x = n)) as [->|Hne].
    + rewrite !(decide_False (P := n ∈ o)), !(decide_True (P := n ∈ n :: o)) by (done || by left). lia.
    + destruct (decide (x ∈ o)).
      * rewrite !(decide_True (P := x ∈ n :: o)) by by right. lia.
      * rewrite !(decide_False (P := x ∈ n :: o)) by (by rewrite elem_of_cons; intros [?|?]). lia.
Qed.

Lemma zeros_fold o (m : gmap string Z) x :
  deg_at m x = 0%Z → deg_at (foldl (λ m name, <[name := 0%Z]> m) m o) x = 0%Z.
Proof.
  revert m. induction o as [|n o IH]; intros m Hm; [done|]. cbn. apply IH.
  rewrite deg_at_insert. by destruct (decide (n = x)).
Qed.
Lemma nils_fold o (m : gmap string (list string)) x :
  adj_at m x = [] → adj_at (foldl (λ m name, <[name := []]> m) m o) x = [].
Proof.
  revert m. induction o as [|n o IH]; intros m Hm; [done|]. cbn. apply IH.
  rewrite adj_at_insert. by destruct (decide (n = x)).
Qed.

Lemma elem_of_names g x : x ∈ names g ↔ is_Some (services g !! x).
Proof.
  unfold names. rewrite list_elem_of_fmap. split.
  - intros ([k s] & -> & H%elem_of_map_to_list). by eexists.
  - intros [s H]. exists (x, s). split; [done|]. by apply elem_of_map_to_list.
Qed.
Lemma names_length g : length (names g) = size (services g).
Proof. unfold names. by rewrite length_fmap, length_map_to_list. Qed.
Lemma names_NoDup g : NoDup (names g).
Proof. apply NoDup_fst_map_to_list. Qed.

(** After the two loops: in-degrees count known dependencies, and [x] occurs in the
    list of [y] as often as [y] among the dependencies of [x]. *)
Lemma build_edges_spec g o1 o2 :
  o2 ≡ₚ names g →
  let st := build_edges g o1 o2 in
  (∀ x, deg_at st.1 x = Z.of_nat (length (deps g x))) ∧
  (∀ x y, cnt x (adj_at st.2 y) = cnt y (deps g x)).
Proof.
  intros Ho st.
  assert (NoDup o2) as Hnd by (rewrite Ho; apply names_NoDup).
  assert (∀ x, x ∉ o2 → deps g x = []) as Hout.
  { intros x Hx. unfold deps. destruct (services g !! x) eqn:Hl; [|done].
    destruct Hx. rewrite Ho. apply elem_of_names. by eexists. }
  split; intros x; [|intros y]; unfold st, build_edges.
  - destruct (edges_fold g o2 (foldl (λ m name, <[name := 0%Z]> m) ∅ o1,
      foldl (λ m name, <[name := []]> m) ∅ o1) x x Hnd) as [-> _]. cbn [fst].
    rewrite zeros_fold by done. destruct (decide (x ∈ o2)); [lia|]. by rewrite Hout.
  - destruct (edges_fold g o2 (foldl (λ m name, <[name := 0%Z]> m) ∅ o1,
      foldl (λ m name, <[name := []]> m) ∅ o1) x y Hnd) as [_ ->]. cbn [snd].
    rewrite nils_fold by done. destruct (decide (x ∈ o2)); [done|]. by rewrite Hout.
Qed.

(** ** Kahn's algorithm *)

(** The inner loop subtracts one per occurrence and queues, once each, the names
    whose in-degree it brings to zero. *)
Lemma release_fold l deg q :
  (∀ x, (Z.of_nat (cnt x l) ≤ deg_at deg x)%Z) →
  let st' := foldl release (deg, q) l in
  (∀ x, deg_at st'.1 x = (deg_at deg x - Z.of_nat (cnt x l))%Z) ∧
  ∃ new, st'.2 = q ++ new ∧ NoDup new ∧
    ∀ x, x ∈ new ↔ 0 < cnt x l ∧ deg_at deg x = Z.of_nat (cnt x l).
Proof.
  cbv zeta. revert deg q. induction l as [|n l IH]; intros deg q Hle.
  - split; [intros x; cbn; lia|]. exists []. rewrite app_nil_r. split_and!; [done|constructor|].
    intros x. cbn. split; [by intros ?%not_elem_of_nil|lia].
  - cbn [foldl].
    set (deg1 := <[n := (deg_at deg n - 1)%Z]> deg).
    set (q1 := if (deg_at deg n - 1 =? 0)%Z then q ++ [n] else q).
    change (release (deg, q) n) with (deg1, q1).
    assert (∀ x, deg_at deg1 x = deg_at deg x - (if decide (n = x) then 1 else 0))%Z as Hdeg1.
    { intros x. unfold deg1. rewrite deg_at_insert. destruct (decide (n = x)) as [->|]; lia. }
    assert (∀ x, Z.of_nat (cnt x (n :: l)) = (if decide (n = x) then 1 else 0) + Z.of_nat (cnt x l))%Z
      as Hcnt by (intros x; rewrite cnt_cons; destruct (decide (n = x)); lia).
    destruct (IH deg1 q1) as [Hd (new & Hq & Hnd & Hnew)].
    { intros x. specialize (Hle x). rewrite Hdeg1. rewrite Hcnt in Hle. lia. }
    split; [intros x; rewrite Hd, Hdeg1, Hcnt; lia|].
    assert (∀ x, x ∈ new ↔ 0 < cnt x l ∧ deg_at deg x = Z.of_nat (cnt x (n :: l))) as Hnew'.
    { intros x. rewrite Hnew, Hdeg1, Hcnt. naive_solver lia. }
    assert (cnt n (n :: l) = S (cnt n l)) as Hn by by rewrite cnt_cons, decide_True.
    rewrite Hq. unfold q1. clear Hq. destruct (Z.eqb_spec (deg_at deg n - 1) 0) as [Hz|Hz].
    + exists (n :: new). rewrite <-app_assoc. split_and!; [done| |].
      * constructor; [|done]. rewrite Hnew'. intros [? ?]. specialize (Hle n). lia.
      * intros x. rewrite elem_of_cons, Hnew', cnt_cons. specialize (Hle n).
        destruct (decide (n = x)) as [->|?]; [|naive_solver lia]. split; [intros _|naive_solver].
        rewrite Hn in Hle. split; lia.
    + exists new. split_and!; [done..|]. intros x. rewrite Hnew', cnt_cons.
      destruct (decide (n = x)) as [->|?]; [|naive_solver lia]. specialize (Hle x). naive_solver lia.
Qed.

(** Dependencies of [x] not yet in the order [P]. *)
Definition pending (g : DependencyGraph) (P : list string) (x : string) : list string :=
  filter (λ d, d ∉ P) (deps g x).

(** Every service of [P] comes after its dependencies. *)
Definition respects (g : DependencyGraph) (P : list string) : Prop :=
  ∀ l1 x l2, P = l1 ++ x :: l2 → ∀ d, d ∈ deps g x → d ∈ l1.

(** The loop invariant: [P] was taken from the queue, [Q] is in it. *)
Record kahn_inv (g : DependencyGraph) (P : list string) (deg : gmap string Z)
    (Q : list string) (ordered : list ServiceSpec) : Prop := {
  ki_nodup : NoDup (P ++ Q);
  ki_known : ∀ x, x ∈ P ++ Q → is_Some (services g !! x);
  ki_deg : ∀ x, deg_at deg x = Z.of_nat (length (pending g P x));
  ki_zero : ∀ x, is_Some (services g !! x) → x ∈ P ++ Q ↔ deg_at deg x = 0%Z;
  ki_respects : respects g P;
  ki_ordered : ordered = omap (λ x, services g !! x) P
}.

Lemma pending_snoc g P c x :
  c ∉ P → length (pending g P x) = length (pending g (P ++ [c]) x) + cnt c (deps g x).
Proof.
  intros Hc. unfold pending, cnt. induction (deps g x) as [|d l IH]; [done|].
  rewrite !filter_cons. destruct (decide (d ∉ P)) as [HP|HP].
  - destruct (decide (d = c)) as [->|Hdc].
    + rewrite (decide_False (P := c ∉ P ++ [c])) by (intros H; apply H; set_solver). cbn. lia.
    + rewrite (decide_True (P := d ∉ P ++ [c])) by set_solver. cbn. lia.
  - rewrite (decide_False (P := d ∉ P ++ [c])) by set_solver.
    rewrite (decide_False (P := d = c)) by naive_solver. lia.
Qed.

Lemma pending_nil g P x : length (pending g P x) = 0 ↔ ∀ d, d ∈ deps g x → d ∈ P.
Proof.
  unfold pending. rewrite length_zero_iff_nil. split.
  - intros H d Hd. destruct (decide (d ∈ P)) as [|Hn]; [done|].
    assert (d ∈ filter (λ d, d ∉ P) (deps g x)) as Hin by by apply list_elem_of_filter.
    rewrite H in Hin. by apply not_elem_of_nil in Hin.
  - intros H. destruct (filter _ _) as [|d l] eqn:Hf; [done|].
    assert (d ∈ filter (λ d, d ∉ P) (deps g x)) as Hin by (rewrite Hf; by left).
    apply list_elem_of_filter in Hin as [Hn Hd]. by destruct Hn; apply H.
Qed.

Lemma deps_known g x d : d ∈ deps g x → is_Some (services g !! x) ∧ is_Some (services g !! d).
Proof.
  unfold deps. destruct (services g !! x) as [spec|]; [|by intros ?%not_elem_of_nil].
  rewrite list_elem_of_filter. naive_solver.
Qed.

Lemma respects_snoc g P c :
  respects g P → (∀ d, d ∈ deps g c → d ∈ P) → respects g (P ++ [c]).
Proof.
  intros HP Hc l1 x l2 Heq d Hd. destruct l2 as [|y l2 _] using rev_ind.
  - apply app_inj_tail in Heq as [<- <-]. by apply Hc.
  - rewrite app_comm_cons, app_assoc in Heq. apply app_inj_tail in Heq as [-> _]. by eapply HP.
Qed.

(** One iteration of the outer loop preserves the invariant. *)
Lemma kahn_step g adj P deg c Q ordered spec :
  (∀ x y, cnt x (adj_at adj y) = cnt y (deps g x)) →
  kahn_inv g P deg (c :: Q) ordered → services g !! c = Some spec →
  let st := foldl release (deg, Q) (adj_at adj c) in
  kahn_inv g (P ++ [c]) st.1 st.2 (ordered ++ [spec]).
Proof.
  cbv zeta. intros Hadj [Hnd Hkn Hdeg Hzero Hresp Hord] Hc.
  assert (c ∉ P) as HcP.
  { apply NoDup_app in Hnd as (_ & Hd & _). intros Hin. apply (Hd c Hin). by left. }
  assert (∀ x, deg_at deg x = Z.of_nat (length (pending g (P ++ [c]) x)) + Z.of_nat (cnt x (adj_at adj c)))%Z
    as Hsplit by (intros x; rewrite Hdeg, Hadj, (pending_snoc g P c) by done; lia).
  destruct (release_fold (adj_at adj c) deg Q) as [Hd (new & Hq & Hndn & Hnew)].
  { intros x. rewrite Hsplit. lia. }
  rewrite Hq. assert (∀ x, x ∈ new → x ∉ P ++ c :: Q ∧ is_Some (services g !! x)) as Hfresh.
  { intros x Hx%Hnew. destruct Hx as [Hpos Heq].
    assert (is_Some (services g !! x)) as Hsx.
    { rewrite Hadj in Hpos. apply cnt_pos, deps_known in Hpos as [? _]. done. }
    split; [|done]. intros Hin%Hzero; [lia|done]. }
  assert (∀ x, x ∈ (P ++ [c]) ++ Q ++ new ↔ x ∈ P ++ c :: Q ∨ x ∈ new) as Hmem by set_solver.
  constructor.
  - replace ((P ++ [c]) ++ Q ++ new) with ((P ++ c :: Q) ++ new)
      by (rewrite <-!app_assoc; done).
    apply NoDup_app. split_and!; [done| |done]. intros x Hx Hn. by destruct (Hfresh x Hn).
  - intros x [Hx|Hx]%Hmem; [by apply Hkn|]. by apply Hfresh.
  - intros x. rewrite Hd, Hsplit. lia.
  - intros x Hx. rewrite Hmem, Hd. rewrite (Hzero x Hx), Hnew, Hsplit. split; [intros [?|?]; lia|].
    intros ?. destruct (decide (cnt x (adj_at adj c) = 0)); [left|right]; lia.
  - apply respects_snoc; [done|]. apply pending_nil.
    assert (deg_at deg c = 0%Z) as Hz by (apply Hzero; [by eexists|set_solver]).
    rewrite Hdeg in Hz. lia.
  - rewrite Hord, omap_app. cbn. by rewrite Hc.
Qed.

(** With one step of fuel per service not yet taken, the loop ends. *)
Lemma kahn_total g adj fuel P deg Q ordered :
  (∀ x y, cnt x (adj_at adj y) = cnt y (deps g x)) →
  kahn_inv g P deg Q ordered → size (services g) ≤ length P + fuel →
  ∃ P' deg' ordered', kahn g adj fuel deg Q ordered = Some ordered' ∧
    kahn_inv g P' deg' [] ordered'.
Proof.
  intros Hadj. revert P deg Q ordered.
  induction fuel as [|fuel IH]; intros P deg [|c Q] ordered Hinv Hfuel;
    try (by exists P, deg, ordered); pose proof (ki_known _ _ _ _ _ Hinv) as Hkn;
    (assert (is_Some (services g !! c)) as [spec Hc] by (apply Hkn; set_solver)).
  - exfalso. assert (length (P ++ c :: Q) ≤ length (names g)) as Hle.
    { apply submseteq_length, NoDup_submseteq; [apply Hinv|]. intros x Hx. by apply elem_of_names, Hkn. }
    rewrite length_app, names_length in Hle. cbn in Hle. lia.
  - cbn [kahn]. rewrite Hc. eapply IH; [by apply kahn_step|].
    rewrite length_app. cbn. lia.
Qed.

(** The sort never runs out of fuel, and ends in a state of the invariant with an
    empty queue. *)
Lemma topo_run_total g o1 o2 o3 :
  o2 ≡ₚ names g → o3 ≡ₚ names g →
  ∃ P deg ordered, topo_run g o1 o2 o3 = Some ordered ∧ kahn_inv g P deg [] ordered.
Proof.
  intros Ho2 Ho3. unfold topo_run.
  destruct (build_edges_spec g o1 o2 Ho2) as [Hdeg Hadj].
  destruct (build_edges g o1 o2) as [deg adj]. cbn in Hdeg, Hadj.
  destruct (kahn_total g adj (size (services g)) [] deg
    (filter (λ name, deg_at deg name = 0%Z) o3) []) as (P' & deg' & ordered' & ? & ?).
  - done.
  - assert (∀ x, x ∈ o3 ↔ is_Some (services g !! x)) as Hin
      by (intros x; by rewrite Ho3, elem_of_names).
    constructor; cbn [app].
    + apply NoDup_filter. rewrite Ho3. apply names_NoDup.
    + intros x [_ ?%Hin]%list_elem_of_filter. done.
    + intros x. rewrite Hdeg. unfold pending. f_equal.
      induction (deps g x) as [|d l IH]; [done|].
      rewrite filter_cons, decide_True by apply not_elem_of_nil. cbn. by rewrite IH.
    + intros x Hx. rewrite list_elem_of_filter, Hin. naive_solver.
    + intros [|??] ?? ?; done.
    + done.
  - cbn. lia.
  - by exists P', deg', ordered'.
Qed.

Lemma omap_known g (P : list string) :
  (∀ k s, services g !! k = Some s → Name s = k) →
  (∀ x, x ∈ P → is_Some (services g !! x)) → Name <$> omap (λ x, services g !! x) P = P.
Proof.
  intros Hname. induction P as [|x P IH]; intros Hk; [done|]. cbn.
  destruct (Hk x) as [s Hs]; [by left|]. rewrite Hs. cbn. rewrite (Hname x s Hs).
  f_equal. apply IH. intros y Hy. apply Hk. by right.
Qed.

Lemma NewDependencyGraph_name specs k s :
  services (NewDependencyGraph specs) !! k = Some s → Name s = k.
Proof.
  unfold NewDependencyGraph. cbn.
  assert (∀ m : gmap string ServiceSpec, (∀ k s, m !! k = Some s → Name s = k) →
    ∀ k s, foldl (λ m spec, <[Name spec:=spec]> m) m specs !! k = Some s → Name s = k) as Hgen;
    [|by apply Hgen].
  clear. induction specs as [|a specs IH]; intros m Hm k s; [apply Hm|].
  cbn. apply IH. intros k' s'. rewrite lookup_insert_Some. intros [[<- <-]|[_ ?]]; [done|by apply Hm].
Qed.

(** The invariant at the end, read on the list of services. *)
Lemma kahn_inv_names g P deg ordered :
  (∀ k s, services g !! k = Some s → Name s = k) →
  kahn_inv g P deg [] ordered → Name <$> ordered = P ∧ length ordered = length P.
Proof.
  intros Hname [Hnd Hkn _ _ _ Hord]. rewrite app_nil_r in *.
  assert (Name <$> ordered = P) as HP by (rewrite Hord; by apply omap_known).
  split; [done|]. by rewrite <-HP, length_fmap.
Qed.

Lemma full_perm g P :
  NoDup P → (∀ x, x ∈ P → is_Some (services g !! x)) → length P = size (services g) → P ≡ₚ names g.
Proof.
  intros Hnd Hkn Hlen. apply submseteq_length_Permutation.
  - apply NoDup_submseteq; [done|]. intros x Hx. by apply elem_of_names, Hkn.
  - rewrite names_length. lia.
Qed.

(** An order of all services ranks them by position. *)
Lemma kahn_rank g P deg l :
  kahn_inv g P deg [] l → length P = size (services g) →
  ∃ rank : string → nat, ∀ x d, d ∈ deps g x → rank d < rank x.
Proof.
  intros [Hnd Hkn _ _ Hresp _] Hlen. rewrite app_nil_r in *.
  set (rank x := default 0 (fst <$> list_find (λ y, y = x) P)).
  assert (∀ l1 x l2, P = l1 ++ x :: l2 → rank x = length l1) as Hrank.
  { intros l1 x l2 HPeq. unfold rank.
    rewrite (proj2 (list_find_Some (λ y, y = x) P (length l1) x)); [done|].
    rewrite HPeq. split_and!; [by rewrite list_lookup_middle|done|].
    intros j y Hj Hlt ->. rewrite lookup_app_l in Hj by done.
    rewrite HPeq in Hnd. apply NoDup_app in Hnd as (_ & Hd & _).
    apply (Hd x); [by eapply list_elem_of_lookup_2|by left]. }
  assert (∀ x, is_Some (services g !! x) → x ∈ P) as Hall.
  { intros x Hx. rewrite (full_perm g P) by done. by apply elem_of_names. }
  exists rank. intros x d Hd. destruct (deps_known g x d Hd) as [Hx _].
  destruct (list_elem_of_split P x (Hall x Hx)) as (l1 & l2 & Heq).
  assert (d ∈ l1) as (l3 & l4 & ->)%list_elem_of_split by by eapply Hresp.
  rewrite (Hrank _ _ _ Heq). rewrite <-app_assoc in Heq. cbn in Heq.
  rewrite (Hrank _ _ _ Heq). rewrite length_app. cbn. lia.
Qed.

(** With a rank, no service is left behind: one of least rank would have no
    pending dependency and be in the order. *)
Lemma kahn_complete g P deg l (rank : string → nat) :
  kahn_inv g P deg [] l → (∀ x d, d ∈ deps g x → rank d < rank x) →
  length P = size (services g).
Proof.
  intros [Hnd Hkn Hdeg Hzero _ _] Hrank. rewrite app_nil_r in *.
  assert (∀ n x, rank x < n → is_Some (services g !! x) → x ∈ P) as Hall.
  { induction n as [|n IH]; intros x Hx Hs; [lia|]. apply Hzero; [done|].
    rewrite Hdeg. cut (length (pending g P x) = 0); [lia|]. apply pending_nil.
    intros d Hd. apply IH; [specialize (Hrank x d Hd); lia|]. by apply (deps_known g x). }
  rewrite <-names_length. apply Nat.le_antisymm; apply submseteq_length, NoDup_submseteq.
  - done.
  - intros x Hx. by apply elem_of_names, Hkn.
  - apply names_NoDup.
  - intros x Hx%elem_of_names. by apply (Hall (S (rank x)) x (Nat.lt_succ_diag_r _)).
Qed.

(** * Theorems *)

(** Duplicates are settled by position: the graph holds under a name the last
    specification that carries it, and nothing else. *)
Theorem NewDependencyGraph_last specs n s :
  services (NewDependencyGraph specs) !! n = Some s ↔
    ∃ l1 l2, specs = l1 ++ s :: l2 ∧ Name s = n ∧ Forall (λ s', Name s' ≠ n) l2.
Proof.
  unfold NewDependencyGraph. cbn. induction specs as [|a specs IH] using rev_ind.
  - cbn. split; [done|]. by intros ([|??] & ? & ? & _).
  - rewrite foldl_app. cbn. rewrite lookup_insert_Some, IH. split.
    + intros [[Hn <-]|[Hne (l1 & l2 & -> & Hs & Hl2)]].
      * exists specs, []. by split_and!.
      * exists l1, (l2 ++ [a]). rewrite <-app_assoc. split_and!; [done..|].
        apply Forall_app. split; [done|]. by repeat constructor.
    + intros (l1 & l2 & Heq & Hs & Hl2). destruct l2 as [|b l2 _] using rev_ind.
      * apply app_inj_tail in Heq as [-> ->]. by left.
      * rewrite app_comm_cons, app_assoc in Heq. apply app_inj_tail in Heq as [-> ->].
        apply Forall_app in Hl2 as [? Hb]. apply Forall_cons in Hb as [Hb _]. right. split; [done|].
        by exists l1, l2.
Qed.

(** The two outcomes of the sort. *)
Lemma sort_result specs o1 o2 o3 :
  let g := NewDependencyGraph specs in
  o2 ≡ₚ names g → o3 ≡ₚ names g →
  (∃ ordered, ResolveTopologicalSort g o1 o2 o3 = Some (Ok ordered) ∧
    (Name <$> ordered) ≡ₚ names g ∧ (∀ s, s ∈ ordered → services g !! Name s = Some s) ∧
    ∀ l1 s l2, ordered = l1 ++ s :: l2 → ∀ d, d ∈ After s → d ∈ names g → d ∈ (Name <$> l1)) ∨
  ∃ e, ResolveTopologicalSort g o1 o2 o3 = Some (Err e).
Proof.
  intros g Ho2 Ho3. pose proof (NewDependencyGraph_name specs) as Hname. fold g in Hname.
  clearbody g. destruct (topo_run_total g o1 o2 o3 Ho2 Ho3) as (P & deg & l & Hrun & Hinv).
  unfold ResolveTopologicalSort. rewrite Hrun. cbn.
  destruct (kahn_inv_names g P deg l Hname Hinv) as [HP Hlen].
  destruct (decide (length l = size (services g))) as [Hsz|_]; [left|right; by eexists].
  exists l. destruct Hinv as [Hnd Hkn _ _ Hresp Hord]. rewrite app_nil_r in *.
  assert (∀ s, s ∈ l → services g !! Name s = Some s) as Hself.
  { intros s Hs. rewrite Hord in Hs. apply list_elem_of_omap in Hs as (x & _ & Hx).
    by rewrite (Hname _ _ Hx). }
  split_and!; [done|rewrite HP; apply full_perm; [done..|by rewrite <-Hlen]|done|].
  intros l1 s l2 -> d Hd Hg. rewrite fmap_app, fmap_cons in HP.
  apply (Hresp _ (Name s) (Name <$> l2) (eq_sym HP)).
  unfold deps. rewrite Hself by set_solver. rewrite list_elem_of_filter. split; [|done]. by apply elem_of_names.
Qed.

(** C7: whatever the iteration orders of the maps, the sort returns, and an order it
    accepts lists every service exactly once and each after all its known
    dependencies. *)
Theorem ResolveTopologicalSort_order specs o1 o2 o3 :
  let g := NewDependencyGraph specs in
  o2 ≡ₚ names g → o3 ≡ₚ names g →
  ∃ r, ResolveTopologicalSort g o1 o2 o3 = Some r ∧
  ∀ ordered, r = Ok ordered →
    (Name <$> ordered) ≡ₚ names g ∧
    ∀ l1 s l2, ordered = l1 ++ s :: l2 →
      ∀ d, d ∈ After s → d ∈ names g → d ∈ (Name <$> l1).
Proof.
  intros g Ho2 Ho3. destruct (sort_result specs o1 o2 o3 Ho2 Ho3) as [(l & Hl & HP & _ & Hord)|[e He]].
  - exists (Ok l). split; [done|]. intros ordered [= <-]. by split.
  - by exists (Err e).
Qed.

(** C8: the sort succeeds exactly when the known dependencies are acyclic, that is
    have a rank that grows along every edge; otherwise it returns the cyclic
    dependency error and no service is ordered.  So the iteration orders never
    decide success. *)
Theorem ResolveTopologicalSort_acyclic specs o1 o2 o3 :
  let g := NewDependencyGraph specs in
  o2 ≡ₚ names g → o3 ≡ₚ names g →
  ((∃ ordered, ResolveTopologicalSort g o1 o2 o3 = Some (Ok ordered)) ↔
     ∃ rank : string → nat, ∀ x d, d ∈ deps g x → rank d < rank x) ∧
  ((¬ ∃ rank : string → nat, ∀ x d, d ∈ deps g x → rank d < rank x) →
     ∃ e, ResolveTopologicalSort g o1 o2 o3 = Some (Err (ErrCyclicDependency +:+ e))).
Proof.
  intros g Ho2 Ho3. pose proof (NewDependencyGraph_name specs) as Hname. fold g in Hname.
  clearbody g. destruct (topo_run_total g o1 o2 o3 Ho2 Ho3) as (P & deg & l & Hrun & Hinv).
  unfold ResolveTopologicalSort. rewrite Hrun. cbn.
  destruct (kahn_inv_names g P deg l Hname Hinv) as [HP Hlen].
  assert (length l = size (services g) ↔
    ∃ rank : string → nat, ∀ x d, d ∈ deps g x → rank d < rank x) as Hiff.
  { rewrite Hlen. clear HP Hrun. split.
    - apply (kahn_rank g P deg l Hinv).
    - intros [rank Hrank]. apply (kahn_complete g P deg l rank Hinv Hrank). }
  destruct (decide (length l = size (services g))) as [Hsz|Hsz].
  - split; [split; [intros _; by apply Hiff|by eexists]|]. intros Hn. destruct Hn. by apply Hiff.
  - split; [split|].
    + by intros (x & [=]).
    + intros Hr. by destruct Hsz; apply Hiff.
    + intros _. eexists. reflexivity.
Qed.

(** ** Witnesses *)

Definition svc (name : string) (after : list string) : ServiceSpec :=
  set_After (set_Exec (set_Name default_spec name) "/bin/true") after.

(** [web] starts after [net] and [log], [log] after [net]; [gone] is unknown. *)
Definition sample_specs : list ServiceSpec :=
  [svc "web" ["net"; "log"; "gone"]; svc "log" ["net"]; svc "net" []].

Lemma ResolveTopologicalSort_order_witness :
  let g := NewDependencyGraph sample_specs in
  ResolveTopologicalSort g (names g) (names g) (names g) =
    Some (Ok [svc "net" []; svc "log" ["net"]; svc "web" ["net"; "log"; "gone"]]) ∧
  ∃ r, ResolveTopologicalSort g (names g) (names g) (names g) = Some r ∧
  ∀ ordered, r = Ok ordered →
    (Name <$> ordered) ≡ₚ names g ∧
    ∀ l1 s l2, ordered = l1 ++ s :: l2 →
      ∀ d, d ∈ After s → d ∈ names g → d ∈ (Name <$> l1).
Proof.
  split; [vm_compute; reflexivity|].
  apply (ResolveTopologicalSort_order sample_specs); reflexivity.
Defined.

(** Two services that wait for each other: nothing starts. *)
Lemma ResolveTopologicalSort_acyclic_witness :
  let g := NewDependencyGraph [svc "a" ["b"]; svc "b" ["a"]; svc "c" []] in
  ∃ e, ResolveTopologicalSort g (names g) (names g) (names g) =
    Some (Err (ErrCyclicDependency +:+ e)).
Proof.
  apply (ResolveTopologicalSort_acyclic [svc "a" ["b"]; svc "b" ["a"]; svc "c" []]);
    [reflexivity..|].
  intros [rank H].
  assert (rank "b" < rank "a") by (apply (H "a" "b"), list_elem_of_In; vm_compute; tauto).
  assert (rank "a" < rank "b") by (apply (H "b" "a"), list_elem_of_In; vm_compute; tauto).
  lia.
Defined.
