(* ===== verification/Prog.v ===== *)
(** * Effectful code

    A Go function that talks to the operating system or to another process is a
    tree of requests: [Vis e k] issues the request [e] and goes on with its answer.
    Each component declares its own requests.  What the environment may answer is a
    relation over a state of the component's choice, so theorems quantify over every
    answer the relation allows; a concrete handler runs a program for a witness. *)

From S2P Require Import Prelude.

Inductive prog (E : Type → Type) (A : Type) : Type :=
| Ret (a : A)
| Vis {X : Type} (e : E X) (k : X → prog E A).
Arguments Ret {E A} a.
Arguments Vis {E A X} e k.

Fixpoint prog_bind {E A B} (f : A → prog E B) (p : prog E A) : prog E B :=
  match p with
  | Ret a => f a
  | Vis e k => Vis e (λ x, prog_bind f (k x))
  end.

#[export] Instance prog_ret {E} : MRet (prog E) := λ A a, Ret a.
#[export] Instance prog_mbind {E} : MBind (prog E) := λ A B f p, prog_bind f p.

(** Issue one request. *)
Definition ask {E X} (e : E X) : prog E X := Vis e Ret.

(** ** Sequencing with errors

    [x ←! m; k]: on [nil] error go on with the value, otherwise return. *)
Definition ebind {E A B} (m : prog E (outcome A)) (f : A → prog E (outcome B))
    : prog E (outcome B) :=
  prog_bind (λ o, match o with Ok a => f a | Err e => Ret (Err e) | Panic => Ret Panic end) m.

Notation "x ←! m ; k" := (ebind m (λ x, k))
  (at level 20, m at level 100, k at level 200, right associativity) : stdpp_scope.
Notation "' x ←! m ; k" := (ebind m (λ x : _, k))
  (at level 20, x pattern, m at level 100, k at level 200, right associativity) : stdpp_scope.

Definition throw {E A} (e : string) : prog E (outcome A) := Ret (Err e).
Definition done_ {E} : prog E (outcome unit) := Ret (Ok tt).

(** [fmt.Errorf(pre + "%w", err)] on the result of a call. *)
Definition wrapping {E A} (pre : string) (m : prog E (outcome A)) : prog E (outcome A) :=
  prog_bind (λ o, Ret (wrap_err pre o)) m.

(** [for _, x := range xs { if err := f(x); err != nil { return err } }] *)
Fixpoint each {E A} (f : A → prog E (outcome unit)) (xs : list A) : prog E (outcome unit) :=
  match xs with
  | [] => done_
  | x :: xs => _ ←! f x; each f xs
  end.

(** ** Reasoning *)

Section wp.
Context {E : Type → Type} {S : Type}.

(** What the environment may answer to a request in a state, and the state after. *)
Definition env_rel := ∀ X, E X → S → X → S → Prop.

(** Every run ends in [Q]. *)
Fixpoint wp {A} (env : env_rel) (p : prog E A) (Q : A → S → Prop) (s : S) : Prop :=
  match p with
  | Ret a => Q a s
  | Vis e k => ∀ x s', env _ e s x s' → wp env (k x) Q s'
  end.

(** Some run ends in [a] and [s']. *)
Fixpoint runs {A} (env : env_rel) (p : prog E A) (s : S) (a : A) (s' : S) : Prop :=
  match p with
  | Ret a' => a' = a ∧ s' = s
  | Vis e k => ∃ x s1, env _ e s x s1 ∧ runs env (k x) s1 a s'
  end.

Lemma wp_runs {A} env (p : prog E A) Q s :
  wp env p Q s ↔ ∀ a s', runs env p s a s' → Q a s'.
Proof.
  revert s. induction p as [a|X e k IH]; intros s; cbn.
  - split; [by intros H ? ? [-> ->]|]. intros H. by apply H.
  - split.
    + intros H a s' (x & s1 & Henv & Hr). specialize (H x s1 Henv).
      rewrite IH in H. by apply H.
    + intros H x s' Henv. apply IH. intros a s'' Hr. apply H. by exists x, s'.
Qed.

Lemma wp_mono {A} env (p : prog E A) (Q Q' : A → S → Prop) s :
  (∀ a s, Q a s → Q' a s) → wp env p Q s → wp env p Q' s.
Proof. rewrite !wp_runs. intros HQ H a s' Hr. by apply HQ, H. Qed.

Lemma wp_always {A} env (p : prog E A) (Q : A → S → Prop) s : (∀ a s, Q a s) → wp env p Q s.
Proof. intros HQ. apply wp_runs. intros a s' _. apply HQ. Qed.

Lemma wp_and {A} env (p : prog E A) (Q Q' : A → S → Prop) s :
  wp env p Q s → wp env p Q' s → wp env p (λ a s', Q a s' ∧ Q' a s') s.
Proof. rewrite !wp_runs. intros HQ HQ' a s' Hr. by split; [apply HQ|apply HQ']. Qed.

(** An environment with fewer answers. *)
Lemma wp_narrow {A} (env env' : env_rel) (p : prog E A) Q s :
  (∀ X e s x s', env' X e s x s' → env X e s x s') → wp env p Q s → wp env' p Q s.
Proof.
  intros Henv. revert s. induction p as [a|X e k IH]; intros s Hp; cbn; [done|].
  intros x s' Hx. by apply IH, Hp, Henv.
Qed.

Lemma wp_bind {A B} env (p : prog E A) (f : A → prog E B) Q s :
  wp env (prog_bind f p) Q s ↔ wp env p (λ a s', wp env (f a) Q s') s.
Proof.
  revert s. induction p as [a|X e k IH]; intros s; cbn; [done|].
  split; intros H x s' Henv; apply IH, H, Henv.
Qed.

Lemma runs_bind {A B} env (p : prog E A) (f : A → prog E B) s a s1 b s2 :
  runs env p s a s1 → runs env (f a) s1 b s2 → runs env (prog_bind f p) s b s2.
Proof.
  revert s. induction p as [a'|X e k IH]; intros s; cbn; [by intros [-> ->]|].
  intros (x & s' & Henv & Hr) Hf. exists x, s'. split; [done|by apply IH].
Qed.

Lemma wp_vis {A X} env (e : E X) (k : X → prog E A) Q s :
  (∀ x s', env _ e s x s' → wp env (k x) Q s') → wp env (Vis e k) Q s.
Proof. done. Qed.

Lemma wp_ebind {A B} env (p : prog E (outcome A)) (f : A → prog E (outcome B)) Q s :
  wp env (ebind p f) Q s ↔
  wp env p (λ o s', match o with
                    | Ok a => wp env (f a) Q s'
                    | Err e => Q (Err e) s'
                    | Panic => Q Panic s'
                    end) s.
Proof.
  unfold ebind. rewrite wp_bind. split; apply wp_mono; by intros [] s'.
Qed.

Lemma wp_wrapping {A} env pre (p : prog E (outcome A)) Q s :
  wp env (wrapping pre p) Q s ↔ wp env p (λ o s', Q (wrap_err pre o) s') s.
Proof. unfold wrapping. by rewrite wp_bind. Qed.

(** A loop keeps an invariant that each iteration keeps. *)
Lemma wp_each {A} env (f : A → prog E (outcome unit)) (I : S → Prop) xs s :
  (∀ x s, x ∈ xs → I s → wp env (f x) (λ _ s', I s') s) →
  I s → wp env (each f xs) (λ _ s', I s') s.
Proof.
  revert s. induction xs as [|x xs IH]; intros s Hf HI; [done|].
  cbn [each]. apply wp_ebind. eapply wp_mono; [|apply Hf; [by left|done]].
  intros [[]|e|] s' Hs'; [|done..]. apply IH; [|done]. intros y s'' Hy. apply Hf. by right.
Qed.

(** ** Requests

    [safe ans P p Q]: while the environment answers within [ans], every request of
    [p] satisfies [P] and the result satisfies [Q]. *)
Definition answer_rel := ∀ X, E X → X → Prop.

Fixpoint safe {A} (ans : answer_rel) (P : ∀ X, E X → Prop) (p : prog E A) (Q : A → Prop) : Prop :=
  match p with
  | Ret a => Q a
  | Vis e k => P _ e ∧ ∀ x, ans _ e x → safe ans P (k x) Q
  end.

Lemma safe_mono {A} ans (P P' : ∀ X, E X → Prop) (p : prog E A) (Q Q' : A → Prop) :
  (∀ X e, P X e → P' X e) → (∀ a, Q a → Q' a) → safe ans P p Q → safe ans P' p Q'.
Proof.
  intros HP HQ. induction p as [a|X e k IH]; [apply HQ|]. intros [He Hk]. split; [by apply HP|].
  intros x Hx. by apply IH, Hk.
Qed.

Lemma safe_bind {A B} ans P (p : prog E A) (f : A → prog E B) Q :
  safe ans P (prog_bind f p) Q ↔ safe ans P p (λ a, safe ans P (f a) Q).
Proof.
  induction p as [a|X e k IH]; cbn; [done|].
  split; intros [He Hk]; (split; [done|]); intros x Hx; by apply IH, Hk.
Qed.

Lemma safe_ebind {A B} ans P (p : prog E (outcome A)) (f : A → prog E (outcome B)) Q :
  safe ans P p (λ o, match o with
                     | Ok a => safe ans P (f a) Q
                     | Err e => Q (Err e)
                     | Panic => Q Panic
                     end) →
  safe ans P (ebind p f) Q.
Proof. intros H. apply safe_bind. eapply safe_mono; [..|exact H]; [done|]. by intros []. Qed.

Lemma safe_wrapping {A} ans P pre (p : prog E (outcome A)) Q :
  safe ans P p (λ o, Q (wrap_err pre o)) → safe ans P (wrapping pre p) Q.
Proof. intros H. by apply safe_bind. Qed.

Lemma safe_each {A} ans P (f : A → prog E (outcome unit)) xs :
  (∀ x, x ∈ xs → safe ans P (f x) (λ _, True)) → safe ans P (each f xs) (λ _, True).
Proof.
  intros Hf. induction xs as [|x xs IH]; [done|]. cbn [each]. apply safe_ebind.
  eapply safe_mono; [done| |apply Hf; by left]. intros [[]|e|] _; [|done..].
  apply IH. intros y Hy. apply Hf. by right.
Qed.

(** Safe requests whose effects keep an invariant keep it to the end. *)
Lemma wp_safe {A} (env : env_rel) ans P (I : S → Prop) (p : prog E A) Q s :
  safe ans P p Q →
  (∀ X (e : E X) s x s', P X e → I s → env _ e s x s' → ans _ e x ∧ I s') →
  I s → wp env p (λ a s', Q a ∧ I s') s.
Proof.
  intros Hp Hstep. revert s. induction p as [a|X e k IH]; intros s Hs; cbn; [done|].
  destruct Hp as [He Hk]. intros x s' Henv.
  destruct (Hstep X e s x s' He Hs Henv) as [Hans Hs']. by apply IH; [apply Hk|].
Qed.

(** Every request on every run satisfies [P]. *)
Definition any_answer : answer_rel := λ _ _ _, True.
Definition issues {A} P (p : prog E A) : Prop := safe any_answer P p (λ _, True).

Lemma issues_safe {A} ans P (p : prog E A) (Q : A → Prop) :
  issues P p → (∀ a, Q a) → safe ans P p Q.
Proof.
  unfold issues. intros Hp HQ. induction p as [a|X e k IH]; [apply HQ|]. destruct Hp as [He Hk].
  split; [done|]. intros x _. by apply IH, Hk.
Qed.
Lemma issues_vis {A X} P (e : E X) (k : X → prog E A) :
  P X e → (∀ x, issues P (k x)) → issues P (Vis e k).
Proof. intros He Hk. split; [done|]. intros x _. apply Hk. Qed.
Lemma issues_bind {A B} P (p : prog E A) (f : A → prog E B) :
  issues P p → (∀ a, issues P (f a)) → issues P (prog_bind f p).
Proof.
  intros Hp Hf. apply safe_bind. eapply safe_mono; [..|exact Hp]; [done|]. intros a _. apply Hf.
Qed.
Lemma issues_mono {A} (P P' : ∀ X, E X → Prop) (p : prog E A) :
  (∀ X e, P X e → P' X e) → issues P p → issues P' p.
Proof. intros HP. by apply safe_mono. Qed.
Lemma issues_ebind {A B} P (p : prog E (outcome A)) (f : A → prog E (outcome B)) :
  issues P p → (∀ a, issues P (f a)) → issues P (ebind p f).
Proof. intros Hp Hf. apply issues_bind; [done|]. by intros []. Qed.
Lemma issues_wrapping {A} P pre (p : prog E (outcome A)) : issues P p → issues P (wrapping pre p).
Proof. intros Hp. by apply issues_bind. Qed.

Lemma issues_each {A} P (f : A → prog E (outcome unit)) xs : (∀ x, issues P (f x)) → issues P (each f xs).
Proof. intros Hf. induction xs as [|x xs IH]; [done|]. cbn [each]. apply issues_ebind; [apply Hf|by intros _]. Qed.

Lemma wp_issues {A} (env : env_rel) P (I : S → Prop) (p : prog E A) s :
  issues P p → (∀ X (e : E X) s x s', P X e → I s → env _ e s x s' → I s') →
  I s → wp env p (λ _ s', I s') s.
Proof.
  intros Hp Hstep Hs. apply (wp_mono env p (λ _ s', True ∧ I s')); [by intros ? ? [_ ?]|].
  apply (wp_safe env any_answer P I p (λ _, True)); [exact Hp| |done].
  intros X e s1 x s2 HP HI Henv. split; [done|]. by eapply Hstep.
Qed.

(** ** Running *)

Definition handler := ∀ X, E X → S → X * S.

Fixpoint exec {A} (h : handler) (p : prog E A) (s : S) : A * S :=
  match p with
  | Ret a => (a, s)
  | Vis e k => let '(x, s') := h _ e s in exec h (k x) s'
  end.

Lemma exec_runs {A} env h (p : prog E A) s :
  (∀ X (e : E X) s, env _ e s (h _ e s).1 (h _ e s).2) →
  runs env p s (exec h p s).1 (exec h p s).2.
Proof.
  intros Hh. revert s. induction p as [a|X e k IH]; intros s; cbn; [done|].
  specialize (Hh X e s). destruct (h X e s) as [x s1]. exists x, s1. by split; [|apply IH].
Qed.

Lemma exec_bind {A B} h (p : prog E A) (f : A → prog E B) s :
  exec h (prog_bind f p) s = exec h (f (exec h p s).1) (exec h p s).2.
Proof.
  revert s. induction p as [a|X e k IH]; intros s; cbn; [done|].
  destruct (h X e s) as [x s1]. apply IH.
Qed.
End wp.
Arguments env_rel E S : clear implicits.
Arguments handler E S : clear implicits.
Arguments answer_rel E : clear implicits.

(** ** Implementing requests

    The requests of one layer carried out by programs of the layer below, which thread
    a state of their own. *)
Section interp.
Context {E F : Type → Type} {T : Type} (impl : ∀ X, E X → T → prog F (X * T)).

Fixpoint interp {A} (p : prog E A) (t : T) : prog F (A * T) :=
  match p with
  | Ret a => Ret (a, t)
  | Vis e k => prog_bind (λ xt, interp (k xt.1) xt.2) (impl _ e t)
  end.

(** A layer simulates another: if each request is implemented so that every run below
    is a step above, related states stay related and every run of the implemented
    program is a run of the program. *)
Lemma wp_interp {S1 S2} (R : S1 → T → S2 → Prop) (env1 : env_rel E S1) (env2 : env_rel F S2) :
  (∀ X (e : E X) s1 t s2, R s1 t s2 →
     wp env2 (impl X e t) (λ xt s2', ∃ s1', env1 X e s1 xt.1 s1' ∧ R s1' xt.2 s2') s2) →
  ∀ A (p : prog E A) Q s1 t s2, R s1 t s2 → wp env1 p Q s1 →
  wp env2 (interp p t) (λ at_ s2', ∃ s1', Q at_.1 s1' ∧ R s1' at_.2 s2') s2.
Proof.
  intros Hsim A p. induction p as [a|X e k IH]; intros Q s1 t s2 HR Hp; cbn.
  - by exists s1.
  - apply wp_bind. eapply wp_mono; [|by apply Hsim]. cbn. intros [x t'] s2' (s1' & Henv & HR').
    eapply IH; [exact HR'|]. by apply Hp.
Qed.
End interp.

(** ** Renaming requests *)
Section translate.
Context {E F : Type → Type} (f : ∀ X, E X → F X).

Fixpoint translate {A} (p : prog E A) : prog F A :=
  match p with
  | Ret a => Ret a
  | Vis e k => Vis (f _ e) (λ x, translate (k x))
  end.

(** An environment that answers the renamed requests as another answers the originals. *)
Lemma wp_translate {A S} (env1 : env_rel E S) (env2 : env_rel F S) (p : prog E A) Q s :
  (∀ X (e : E X) s x s', env2 X (f X e) s x s' ↔ env1 X e s x s') →
  wp env2 (translate p) Q s ↔ wp env1 p Q s.
Proof.
  intros Henv. revert s. induction p as [a|X e k IH]; intros s; cbn; [done|].
  split; intros H x s' Hx; apply IH, H, Henv, Hx.
Qed.

Lemma safe_translate {A} (ans : answer_rel F) (P : ∀ X, F X → Prop) (p : prog E A) Q :
  safe (λ X e, ans X (f X e)) (λ X e, P X (f X e)) p Q → safe ans P (translate p) Q.
Proof. induction p as [a|X e k IH]; [done|]. intros [He Hk]. split; [done|]. intros x Hx. by apply IH, Hk. Qed.

(** A renamed program issues what the renaming gives. *)
Lemma issues_translate (P : ∀ X, F X → Prop) {A} (p : prog E A) :
  (∀ X e, P X (f X e)) → issues P (translate p).
Proof. intros Hf. induction p as [a|X e k IH]; [done|]. split; [apply Hf|]. intros x _. apply IH. Qed.

Lemma exec_translate {A S} (h : handler F S) (p : prog E A) s :
  exec h (translate p) s = exec (λ X e, h X (f X e)) p s.
Proof.
  revert s. induction p as [a|X e k IH]; intros s; cbn; [done|]. destruct (h X (f X e) s). apply IH.
Qed.
End translate.

Lemma exec_interp {E F : Type → Type} {T S A} (impl : ∀ X, E X → T → prog F (X * T)) (h : handler F S)
    (p : prog E A) t s :
  exec h (interp impl p t) s =
    let '(a, (t, s)) :=
      exec (λ X e ts, let '((x, t), s) := exec h (impl X e ts.1) ts.2 in (x, (t, s))) p (t, s) in
    ((a, t), s).
Proof.
  revert t s. induction p as [a|X e k IH]; intros t s; cbn; [done|]. rewrite exec_bind.
  destruct (exec h (impl X e t) s) as [[x t'] s']. cbn. apply IH.
Qed.

(** ** Automation

    Walk through a program, request by request. *)
Ltac issues_tac :=
  repeat lazymatch goal with
  | |- ∀ _, _ => intro
  | |- issues _ (Ret _) => done
  | |- issues _ (throw _) => done
  | |- issues _ done_ => done
  | |- issues _ (Vis _ _) => apply issues_vis; [done|]
  | |- issues _ (ebind _ _) => apply issues_ebind
  | |- issues _ (wrapping _ _) => apply issues_wrapping
  | |- issues _ (prog_bind _ _) => apply issues_bind
  | |- issues _ (each _ _) => apply issues_each
  | |- issues _ (translate _ _) => apply issues_translate; intros ? e; first [done|by destruct e]
  | |- issues _ (match ?x with _ => _ end) => destruct x
  | |- issues _ (let _ := _ in _) => cbv zeta
  end.
