(* ===== verification/Linux.v ===== *)
(** * Kernel constants

    The numbers of [golang.org/x/sys/unix], which is not part of the repository, are
    a parameter: [unix] gives the value of a constant by its Go name.  [x86_64] is
    the table of Linux on amd64, used by the witnesses. *)

From S2P Require Import Prelude.

Class Unix := { unix : string → Z }.

Definition x86_64_table : list (string * Z) :=
  [("SYS_READ", 0); ("SYS_WRITE", 1); ("SYS_OPEN", 2); ("SYS_CLOSE", 3); ("SYS_STAT", 4);
   ("SYS_FSTAT", 5); ("SYS_LSTAT", 6); ("SYS_POLL", 7); ("SYS_LSEEK", 8); ("SYS_MMAP", 9);
   ("SYS_MPROTECT", 10); ("SYS_MUNMAP", 11); ("SYS_BRK", 12); ("SYS_RT_SIGACTION", 13);
   ("SYS_RT_SIGPROCMASK", 14); ("SYS_RT_SIGRETURN", 15); ("SYS_IOCTL", 16); ("SYS_PREAD64", 17);
   ("SYS_PWRITE64", 18); ("SYS_READV", 19); ("SYS_WRITEV", 20); ("SYS_ACCESS", 21);
   ("SYS_PIPE", 22); ("SYS_SELECT", 23); ("SYS_SCHED_YIELD", 24); ("SYS_MADVISE", 28);
   ("SYS_DUP", 32); ("SYS_DUP2", 33); ("SYS_GETPID", 39); ("SYS_PAUSE", 34); ("SYS_NANOSLEEP", 35);
   ("SYS_GETITIMER", 36); ("SYS_ALARM", 37); ("SYS_SETITIMER", 38); ("SYS_GETPPID", 110);
   ("SYS_GETPGRP", 111); ("SYS_SETSID", 112); ("SYS_GETUID", 102); ("SYS_GETEUID", 107);
   ("SYS_GETGID", 104); ("SYS_GETEGID", 108); ("SYS_ARCH_PRCTL", 158); ("SYS_GETTID", 186);
   ("SYS_FUTEX", 202); ("SYS_SCHED_GETAFFINITY", 204); ("SYS_EXIT", 60); ("SYS_EXIT_GROUP", 231);
   ("SYS_EPOLL_CREATE", 213); ("SYS_EPOLL_CREATE1", 291); ("SYS_EPOLL_CTL", 233);
   ("SYS_EPOLL_WAIT", 232); ("SYS_EPOLL_PWAIT", 281); ("SYS_EVENTFD", 284); ("SYS_EVENTFD2", 290);
   ("SYS_TIMERFD_CREATE", 283); ("SYS_TIMERFD_SETTIME", 286); ("SYS_TIMERFD_GETTIME", 287);
   ("SYS_CLOCK_GETTIME", 228); ("SYS_CLOCK_GETRES", 229); ("SYS_CLOCK_NANOSLEEP", 230);
   ("SYS_FCNTL", 72); ("SYS_GETCWD", 79); ("SYS_CHDIR", 80); ("SYS_FCHDIR", 81); ("SYS_MKDIR", 83);
   ("SYS_RMDIR", 84); ("SYS_UNLINK", 87); ("SYS_READLINK", 89); ("SYS_OPENAT", 257);
   ("SYS_MKDIRAT", 258); ("SYS_UNLINKAT", 263); ("SYS_READLINKAT", 267); ("SYS_NEWFSTATAT", 262);
   ("SYS_PIPE2", 293); ("SYS_DUP3", 292); ("SYS_PRCTL", 157); ("SYS_SYSINFO", 99);
   ("SYS_UNAME", 63); ("SYS_TGKILL", 234); ("SYS_EXECVE", 59); ("SYS_EXECVEAT", 322);
   ("SYS_WAIT4", 61); ("SYS_CLONE", 56); ("SYS_CLONE3", 435); ("SYS_FORK", 57); ("SYS_VFORK", 58);
   ("SYS_SIGALTSTACK", 131); ("SYS_SET_ROBUST_LIST", 273); ("SYS_GET_ROBUST_LIST", 274);
   ("SYS_SET_TID_ADDRESS", 218); ("SYS_SET_THREAD_AREA", 205); ("SYS_GETTIMEOFDAY", 96);
   ("SYS_RSEQ", 334); ("SYS_PRLIMIT64", 302); ("SYS_GETRANDOM", 318); ("SYS_SOCKET", 41);
   ("SYS_CONNECT", 42); ("SYS_ACCEPT", 43); ("SYS_SENDTO", 44); ("SYS_RECVFROM", 45);
   ("SYS_SENDMSG", 46); ("SYS_RECVMSG", 47); ("SYS_SHUTDOWN", 48); ("SYS_BIND", 49);
   ("SYS_LISTEN", 50); ("SYS_GETSOCKNAME", 51); ("SYS_GETPEERNAME", 52); ("SYS_SOCKETPAIR", 53);
   ("SYS_SETSOCKOPT", 54); ("SYS_GETSOCKOPT", 55); ("SYS_ACCEPT4", 288); ("SYS_REBOOT", 169);
   ("SYS_KEXEC_LOAD", 246); ("SYS_INIT_MODULE", 175); ("SYS_DELETE_MODULE", 176);
   ("SYS_SWAPON", 167); ("SYS_SWAPOFF", 168); ("SYS_PIVOT_ROOT", 155); ("SYS_PTRACE", 101);
   ("CAP_CHOWN", 0); ("CAP_DAC_OVERRIDE", 1); ("CAP_DAC_READ_SEARCH", 2); ("CAP_FOWNER", 3);
   ("CAP_FSETID", 4); ("CAP_KILL", 5); ("CAP_SETGID", 6); ("CAP_SETUID", 7); ("CAP_SETPCAP", 8);
   ("CAP_LINUX_IMMUTABLE", 9); ("CAP_NET_BIND_SERVICE", 10); ("CAP_NET_BROADCAST", 11);
   ("CAP_NET_ADMIN", 12); ("CAP_NET_RAW", 13); ("CAP_IPC_LOCK", 14); ("CAP_IPC_OWNER", 15);
   ("CAP_SYS_MODULE", 16); ("CAP_SYS_RAWIO", 17); ("CAP_SYS_CHROOT", 18); ("CAP_SYS_PTRACE", 19);
   ("CAP_SYS_PACCT", 20); ("CAP_SYS_ADMIN", 21); ("CAP_SYS_BOOT", 22); ("CAP_SYS_NICE", 23);
   ("CAP_SYS_RESOURCE", 24); ("CAP_SYS_TIME", 25); ("CAP_SYS_TTY_CONFIG", 26); ("CAP_MKNOD", 27);
   ("CAP_LEASE", 28); ("CAP_AUDIT_WRITE", 29); ("CAP_AUDIT_CONTROL", 30); ("CAP_SETFCAP", 31);
   ("CAP_MAC_OVERRIDE", 32); ("CAP_MAC_ADMIN", 33); ("CAP_SYSLOG", 34); ("CAP_WAKE_ALARM", 35);
   ("CAP_BLOCK_SUSPEND", 36); ("CAP_AUDIT_READ", 37); ("CAP_PERFMON", 38); ("CAP_BPF", 39);
   ("CAP_CHECKPOINT_RESTORE", 40); ("BPF_LD", 0); ("BPF_W", 0); ("BPF_ABS", 32); ("BPF_JMP", 5);
   ("BPF_JEQ", 16); ("BPF_K", 0); ("BPF_RET", 6); ("AUDIT_ARCH_X86_64", 3221225534);
   ("SECCOMP_RET_ALLOW", 2147418112); ("SECCOMP_RET_KILL_PROCESS", 2147483648);
   ("SECCOMP_RET_TRAP", 196608); ("SECCOMP_RET_ERRNO", 327680);
   ("LINUX_CAPABILITY_VERSION_3", 537396514); ("PR_CAPBSET_DROP", 24); ("PR_SET_NO_NEW_PRIVS", 38);
   ("PR_SET_SECCOMP", 22); ("SECCOMP_MODE_FILTER", 2); ("RTM_NEWLINK", 16); ("RTM_NEWADDR", 20);
   ("RTM_NEWROUTE", 24); ("NLM_F_REQUEST", 1); ("NLM_F_ACK", 4); ("NLM_F_CREATE", 1024);
   ("NLM_F_REPLACE", 256); ("AF_UNSPEC", 0); ("AF_INET", 2); ("AF_NETLINK", 16); ("IFF_UP", 1);
   ("RT_SCOPE_UNIVERSE", 0); ("IFA_ADDRESS", 1); ("IFA_LOCAL", 2); ("RT_TABLE_MAIN", 254);
   ("RTPROT_BOOT", 3); ("RTN_UNICAST", 1); ("RTA_OIF", 4); ("RTA_GATEWAY", 5); ("NLMSG_ERROR", 2);
   ("AF_VSOCK", 40); ("SOCK_STREAM", 1); ("VMADDR_CID_ANY", 4294967295);
   ("SOCK_RAW", 3); ("SOCK_NONBLOCK", 2048); ("SOCK_CLOEXEC", 524288); ("NETLINK_ROUTE", 0)]%Z.

Definition x86_64_map : gmap string Z := list_to_map x86_64_table.
Definition x86_64 : Unix := {| unix := λ n, default 0%Z (x86_64_map !! n) |}.
