(* ===== verification/Seccomp.v ===== *)
(** * Seccomp filters ([internal/secd/seccomp.go])

    The compiler from lists of system calls to classic BPF programs, the named
    profiles, and what the kernel decides on the compiled programs.  The BPF machine
    of the kernel is a class with the documented meaning of the three instructions
    the compiler uses. *)

From S2P Require Import Prelude GoStrings GoStrconv Linux.

(** ** Tables *)

(** The name of a system call and of its constant in [unix]. *)
Definition syscall_table : list (string * string) :=
  [("read", "SYS_READ"); ("write", "SYS_WRITE"); ("open", "SYS_OPEN"); ("close", "SYS_CLOSE");
   ("stat", "SYS_STAT"); ("fstat", "SYS_FSTAT"); ("lstat", "SYS_LSTAT"); ("poll", "SYS_POLL");
   ("lseek", "SYS_LSEEK"); ("mmap", "SYS_MMAP"); ("mprotect", "SYS_MPROTECT");
   ("munmap", "SYS_MUNMAP"); ("brk", "SYS_BRK"); ("rt_sigaction", "SYS_RT_SIGACTION");
   ("rt_sigprocmask", "SYS_RT_SIGPROCMASK"); ("rt_sigreturn", "SYS_RT_SIGRETURN");
   ("ioctl", "SYS_IOCTL"); ("pread64", "SYS_PREAD64"); ("pwrite64", "SYS_PWRITE64");
   ("readv", "SYS_READV"); ("writev", "SYS_WRITEV"); ("access", "SYS_ACCESS");
   ("pipe", "SYS_PIPE"); ("select", "SYS_SELECT"); ("sched_yield", "SYS_SCHED_YIELD");
   ("madvise", "SYS_MADVISE"); ("dup", "SYS_DUP"); ("dup2", "SYS_DUP2"); ("getpid", "SYS_GETPID");
   ("pause", "SYS_PAUSE"); ("nanosleep", "SYS_NANOSLEEP"); ("getitimer", "SYS_GETITIMER");
   ("alarm", "SYS_ALARM"); ("setitimer", "SYS_SETITIMER"); ("getppid", "SYS_GETPPID");
   ("getpgrp", "SYS_GETPGRP"); ("setsid", "SYS_SETSID"); ("getuid", "SYS_GETUID");
   ("geteuid", "SYS_GETEUID"); ("getgid", "SYS_GETGID"); ("getegid", "SYS_GETEGID");
   ("arch_prctl", "SYS_ARCH_PRCTL"); ("gettid", "SYS_GETTID"); ("futex", "SYS_FUTEX");
   ("sched_getaffinity", "SYS_SCHED_GETAFFINITY"); ("exit", "SYS_EXIT");
   ("exit_group", "SYS_EXIT_GROUP"); ("epoll_create", "SYS_EPOLL_CREATE");
   ("epoll_create1", "SYS_EPOLL_CREATE1"); ("epoll_ctl", "SYS_EPOLL_CTL");
   ("epoll_wait", "SYS_EPOLL_WAIT"); ("epoll_pwait", "SYS_EPOLL_PWAIT");
   ("eventfd", "SYS_EVENTFD"); ("eventfd2", "SYS_EVENTFD2");
   ("timerfd_create", "SYS_TIMERFD_CREATE"); ("timerfd_settime", "SYS_TIMERFD_SETTIME");
   ("timerfd_gettime", "SYS_TIMERFD_GETTIME"); ("clock_gettime", "SYS_CLOCK_GETTIME");
   ("clock_getres", "SYS_CLOCK_GETRES"); ("clock_nanosleep", "SYS_CLOCK_NANOSLEEP");
   ("fcntl", "SYS_FCNTL"); ("getcwd", "SYS_GETCWD"); ("chdir", "SYS_CHDIR");
   ("fchdir", "SYS_FCHDIR"); ("mkdir", "SYS_MKDIR"); ("rmdir", "SYS_RMDIR");
   ("unlink", "SYS_UNLINK"); ("readlink", "SYS_READLINK"); ("openat", "SYS_OPENAT");
   ("mkdirat", "SYS_MKDIRAT"); ("unlinkat", "SYS_UNLINKAT"); ("readlinkat", "SYS_READLINKAT");
   ("newfstatat", "SYS_NEWFSTATAT"); ("pipe2", "SYS_PIPE2"); ("dup3", "SYS_DUP3");
   ("prctl", "SYS_PRCTL"); ("sysinfo", "SYS_SYSINFO"); ("uname", "SYS_UNAME");
   ("tgkill", "SYS_TGKILL"); ("execve", "SYS_EXECVE"); ("execveat", "SYS_EXECVEAT");
   ("wait4", "SYS_WAIT4"); ("clone", "SYS_CLONE"); ("clone3", "SYS_CLONE3"); ("fork", "SYS_FORK");
   ("vfork", "SYS_VFORK"); ("sigaltstack", "SYS_SIGALTSTACK");
   ("set_robust_list", "SYS_SET_ROBUST_LIST"); ("get_robust_list", "SYS_GET_ROBUST_LIST");
   ("set_tid_address", "SYS_SET_TID_ADDRESS"); ("set_thread_area", "SYS_SET_THREAD_AREA");
   ("gettimeofday", "SYS_GETTIMEOFDAY"); ("rseq", "SYS_RSEQ"); ("prlimit64", "SYS_PRLIMIT64");
   ("getrandom", "SYS_GETRANDOM"); ("socket", "SYS_SOCKET"); ("connect", "SYS_CONNECT");
   ("accept", "SYS_ACCEPT"); ("sendto", "SYS_SENDTO"); ("recvfrom", "SYS_RECVFROM");
   ("sendmsg", "SYS_SENDMSG"); ("recvmsg", "SYS_RECVMSG"); ("shutdown", "SYS_SHUTDOWN");
   ("bind", "SYS_BIND"); ("listen", "SYS_LISTEN"); ("getsockname", "SYS_GETSOCKNAME");
   ("getpeername", "SYS_GETPEERNAME"); ("socketpair", "SYS_SOCKETPAIR");
   ("setsockopt", "SYS_SETSOCKOPT"); ("getsockopt", "SYS_GETSOCKOPT"); ("accept4", "SYS_ACCEPT4");
   ("reboot", "SYS_REBOOT"); ("kexec_load", "SYS_KEXEC_LOAD"); ("init_module", "SYS_INIT_MODULE");
   ("delete_module", "SYS_DELETE_MODULE"); ("swapon", "SYS_SWAPON"); ("swapoff", "SYS_SWAPOFF");
   ("pivot_root", "SYS_PIVOT_ROOT"); ("ptrace", "SYS_PTRACE")].

(** The [allowedNames] of each profile. *)
Definition strict_names : list string :=
  ["read"; "write"; "close"; "fstat"; "mmap"; "mprotect"; "munmap"; "brk"; "rt_sigaction";
   "rt_sigprocmask"; "rt_sigreturn"; "exit"; "exit_group"; "futex"; "arch_prctl"; "getrandom";
   "nanosleep"; "set_tid_address"; "set_thread_area"; "gettimeofday"].

Definition app_default_names : list string :=
  ["read"; "write"; "open"; "close"; "stat"; "fstat"; "lstat"; "poll"; "lseek"; "mmap"; "mprotect";
   "munmap"; "brk"; "rt_sigaction"; "rt_sigprocmask"; "rt_sigreturn"; "ioctl"; "pread64";
   "pwrite64"; "readv"; "writev"; "access"; "pipe"; "select"; "sched_yield"; "madvise"; "dup";
   "dup2"; "getpid"; "pause"; "nanosleep"; "getppid"; "getpgrp"; "setsid"; "getuid"; "geteuid";
   "getgid"; "getegid"; "arch_prctl"; "gettid"; "futex"; "sched_getaffinity"; "exit"; "exit_group";
   "epoll_create"; "epoll_create1"; "epoll_ctl"; "epoll_wait"; "epoll_pwait"; "eventfd";
   "eventfd2"; "timerfd_create"; "timerfd_settime"; "timerfd_gettime"; "clock_gettime";
   "clock_getres"; "clock_nanosleep"; "fcntl"; "getcwd"; "chdir"; "fchdir"; "mkdir"; "rmdir";
   "unlink"; "readlink"; "openat"; "mkdirat"; "unlinkat"; "readlinkat"; "newfstatat"; "pipe2";
   "dup3"; "prctl"; "sysinfo"; "uname"; "tgkill"; "execve"; "execveat"; "wait4"; "clone"; "clone3";
   "fork"; "vfork"; "sigaltstack"; "set_robust_list"; "get_robust_list"; "rseq"; "prlimit64";
   "getrandom"; "set_tid_address"; "set_thread_area"; "gettimeofday"; "socket"; "connect";
   "accept"; "sendto"; "recvfrom"; "sendmsg"; "recvmsg"; "shutdown"; "bind"; "listen";
   "getsockname"; "getpeername"; "socketpair"; "setsockopt"; "getsockopt"; "accept4"].

Definition net_service_names : list string :=
  ["read"; "write"; "open"; "close"; "stat"; "fstat"; "lstat"; "poll"; "lseek"; "mmap"; "mprotect";
   "munmap"; "brk"; "rt_sigaction"; "rt_sigprocmask"; "rt_sigreturn"; "ioctl"; "pread64";
   "pwrite64"; "readv"; "writev"; "access"; "pipe"; "select"; "sched_yield"; "madvise"; "dup";
   "dup2"; "getpid"; "pause"; "nanosleep"; "getppid"; "getpgrp"; "setsid"; "getuid"; "geteuid";
   "getgid"; "getegid"; "arch_prctl"; "gettid"; "futex"; "sched_getaffinity"; "exit"; "exit_group";
   "epoll_create"; "epoll_create1"; "epoll_ctl"; "epoll_wait"; "epoll_pwait"; "eventfd";
   "eventfd2"; "timerfd_create"; "timerfd_settime"; "timerfd_gettime"; "clock_gettime";
   "clock_getres"; "clock_nanosleep"; "fcntl"; "getcwd"; "chdir"; "fchdir"; "mkdir"; "rmdir";
   "unlink"; "readlink"; "openat"; "mkdirat"; "unlinkat"; "readlinkat"; "newfstatat"; "pipe2";
   "dup3"; "prctl"; "sysinfo"; "uname"; "tgkill"; "execve"; "execveat"; "wait4"; "clone"; "clone3";
   "fork"; "vfork"; "sigaltstack"; "set_robust_list"; "get_robust_list"; "rseq"; "prlimit64";
   "getrandom"; "set_tid_address"; "set_thread_area"; "gettimeofday"; "socket"; "connect";
   "accept"; "sendto"; "recvfrom"; "sendmsg"; "recvmsg"; "shutdown"; "bind"; "listen";
   "getsockname"; "getpeername"; "socketpair"; "setsockopt"; "getsockopt"; "accept4"].

Record SockFilter := { Code : Z; Jt : Z; Jf : Z; K : Z }.

Section filters.
Context {U : Unix} {UT : UnicodeTables}.

Definition SyscallMap : gmap string Z := unix <$> (list_to_map syscall_table : gmap string string).

Definition bpfLdW : Z := Z.lor (Z.lor (unix "BPF_LD") (unix "BPF_W")) (unix "BPF_ABS").
Definition bpfJmpEq : Z := Z.lor (Z.lor (unix "BPF_JMP") (unix "BPF_JEQ")) (unix "BPF_K").
Definition bpfRetK : Z := Z.lor (unix "BPF_RET") (unix "BPF_K").

(** [SeccompAction] *)
Definition ActionAllow : Z := unix "SECCOMP_RET_ALLOW".
Definition ActionKillProcess : Z := unix "SECCOMP_RET_KILL_PROCESS".
Definition ActionTrap : Z := unix "SECCOMP_RET_TRAP".
Definition ActionErrno : Z := Z.lor (unix "SECCOMP_RET_ERRNO") 1.

Definition ld (k : Z) : SockFilter := {| Code := bpfLdW; Jt := 0; Jf := 0; K := k |}.
Definition jeq (jt k : Z) : SockFilter := {| Code := bpfJmpEq; Jt := jt; Jf := 0; K := k |}.
Definition ret (k : Z) : SockFilter := {| Code := bpfRetK; Jt := 0; Jf := 0; K := k |}.

(** The first four instructions of both compilers. *)
Definition arch_check : list SockFilter :=
  [ld 4; jeq 1 (unix "AUDIT_ARCH_X86_64"); ret ActionKillProcess; ld 0].

(** [for i, sysNum := range syscalls], from index [i]; [uint8(n - i)] wraps. *)
Fixpoint jump_checks (n i : Z) (syscalls : list Z) : list SockFilter :=
  match syscalls with
  | [] => []
  | sysNum :: syscalls => jeq (wrap_u 8 (n - i)) sysNum :: jump_checks n (i + 1) syscalls
  end.

Definition CompileWhitelistFilter (allowedSyscalls : list Z) (defaultAction : Z) : list SockFilter :=
  arch_check ++ jump_checks (Z.of_nat (length allowedSyscalls)) 0 allowedSyscalls ++
  [ret defaultAction; ret ActionAllow].

Definition CompileBlacklistFilter (deniedSyscalls : list Z) (deniedAction : Z) : list SockFilter :=
  arch_check ++ jump_checks (Z.of_nat (length deniedSyscalls)) 0 deniedSyscalls ++
  [ret ActionAllow; ret deniedAction].

(** The loop of [compileFromNames]: [nums] and [seen]. *)
Definition compile_name (st : list Z * gset Z) (n : string) : list Z * gset Z :=
  match SyscallMap !! to_lower (trim_space n) with
  | Some sysNum =>
      if decide (sysNum ∈ st.2) then st else (st.1 ++ [sysNum], {[sysNum]} ∪ st.2)
  | None => st
  end.

Definition compileFromNames (names : list string) (defaultAction : Z) : outcome (list SockFilter) :=
  Ok (CompileWhitelistFilter (foldl compile_name ([], ∅) names).1 defaultAction).

Definition GetProfileFilter (profileName : string) (defaultAction : Z) : outcome (list SockFilter) :=
  let name := to_lower (trim_space profileName) in
  if decide (name = "unrestricted" ∨ name = "disabled" ∨ name = "none" ∨ name = "") then
    Ok [ret ActionAllow]
  else if decide (name = "strict") then compileFromNames strict_names defaultAction
  else if decide (name = "app-default") then compileFromNames app_default_names defaultAction
  else if decide (name = "net-service") then compileFromNames net_service_names defaultAction
  else Err ("unknown seccomp profile: " +:+ quote profileName).

End filters.

(** ** The kernel's BPF machine

    [bpf_run prog pc acc data] is the action of the filter [prog] resumed at
    instruction [pc] with accumulator [acc], [data] giving the 32-bit words of
    [struct seccomp_data] by offset. *)
Class BpfMachine `{U : Unix} := {
  bpf_run : list SockFilter → nat → Z → (Z → Z) → Z;
  bpf_run_ld prog pc acc data k :
    prog !! pc = Some (ld k) → bpf_run prog pc acc data = bpf_run prog (S pc) (data k) data;
  bpf_run_jeq prog pc acc data jt k :
    prog !! pc = Some (jeq jt k) →
    bpf_run prog pc acc data =
      bpf_run prog (S pc + if decide (acc = k) then Z.to_nat jt else 0) acc data;
  bpf_run_ret prog pc acc data k :
    prog !! pc = Some (ret k) → bpf_run prog pc acc data = k
}.

(** The words of [struct seccomp_data] the filters read: the number and the
    architecture. *)
Definition seccomp_data (arch nr : Z) (offset : Z) : Z := if decide (offset = 4%Z) then arch else nr.

(** What the kernel does with system call [nr] under a filter. *)
Definition verdict `{BpfMachine} (prog : list SockFilter) (arch nr : Z) : Z :=
  bpf_run prog 0 0 (seccomp_data arch nr).

(** * Properties *)

Section machine.
Context {U : Unix} {M : BpfMachine} {UT : UnicodeTables}.

Lemma jump_checks_length n i l : length (jump_checks n i l) = length l.
Proof. revert i. induction l as [|x l IH]; intros i; cbn; [done|]. by rewrite IH. Qed.

(** The comparisons from some index on, at most 255 of them, reach the last
    instruction exactly on a listed number. *)
Lemma checks_run pre l n i dflt hit data nr :
  (n - i = Z.of_nat (length l))%Z → length l ≤ 255 →
  bpf_run (pre ++ jump_checks n i l ++ [ret dflt; ret hit]) (length pre) nr data =
    if decide (nr ∈ l) then hit else dflt.
Proof.
  revert pre i. induction l as [|x l IH]; intros pre i Hn Hlen.
  - rewrite decide_False by apply not_elem_of_nil. apply bpf_run_ret.
    cbn [jump_checks app]. by rewrite list_lookup_middle.
  - cbn [jump_checks length] in *.
    assert (wrap_u 8 (n - i) = Z.of_nat (S (length l))) as ->
      by (rewrite Hn; apply wrap_u_id; lia).
    erewrite bpf_run_jeq by (cbn [app]; by rewrite list_lookup_middle).
    destruct (decide (nr = x)) as [->|Hne].
    + rewrite decide_True by by left. rewrite Nat2Z.id. apply bpf_run_ret.
      rewrite lookup_app_r by lia.
      replace (S (length pre) + S (length l) - length pre) with (S (length l + 1)) by lia.
      cbn [app]. rewrite <-lookup_tail. cbn [tail]. rewrite lookup_app_r by (rewrite jump_checks_length; lia).
      rewrite jump_checks_length. by replace (length l + 1 - length l) with 1 by lia.
    + cbn [app]. rewrite cons_middle, app_assoc.
      replace (S (length pre) + 0) with (length (pre ++ [jeq (Z.of_nat (S (length l))) x]))
        by (rewrite length_app; cbn; lia).
      rewrite IH by lia. apply decide_ext. rewrite elem_of_cons. naive_solver.
Qed.

(** The architecture check, then the rest of the program on the call number. *)
Lemma arch_check_run rest arch nr :
  verdict (arch_check ++ rest) arch nr =
    if decide (arch = unix "AUDIT_ARCH_X86_64")
    then bpf_run (arch_check ++ rest) 4 nr (seccomp_data arch nr)
    else ActionKillProcess.
Proof.
  unfold verdict. erewrite bpf_run_ld by reflexivity. erewrite bpf_run_jeq by reflexivity.
  change (seccomp_data arch nr 4) with arch.
  destruct (decide (arch = unix "AUDIT_ARCH_X86_64")).
  - erewrite bpf_run_ld by reflexivity.
    by change (seccomp_data arch nr 0) with nr.
  - by erewrite bpf_run_ret by reflexivity.
Qed.

Lemma compiled_run l dflt hit arch nr :
  length l ≤ 255 →
  verdict (arch_check ++ jump_checks (Z.of_nat (length l)) 0 l ++ [ret dflt; ret hit]) arch nr =
    if decide (arch = unix "AUDIT_ARCH_X86_64")
    then if decide (nr ∈ l) then hit else dflt
    else ActionKillProcess.
Proof.
  intros Hl. rewrite arch_check_run. case_decide; [|done].
  change 4 with (length arch_check). apply checks_run; lia.
Qed.

(** ** Names *)

(** The loop of [compileFromNames] for any lookup function. *)
Definition dedupe (f : string → option Z) (st : list Z * gset Z) (n : string) : list Z * gset Z :=
  match f n with
  | Some x => if decide (x ∈ st.2) then st else (st.1 ++ [x], {[x]} ∪ st.2)
  | None => st
  end.

Lemma dedupe_spec f names nums seen :
  (∀ x, x ∈ seen ↔ x ∈ nums) →
  let st := foldl (dedupe f) (nums, seen) names in
  (∀ x, x ∈ st.1 ↔ x ∈ nums ∨ ∃ n, n ∈ names ∧ f n = Some x) ∧
  length st.1 ≤ length nums + length names.
Proof.
  cbv zeta. revert nums seen. induction names as [|n names IH]; intros nums seen Hseen.
  - split; [set_solver|cbn; lia].
  - cbn [foldl length]. unfold dedupe at 2 4. cbn [fst snd].
    destruct (f n) as [num|] eqn:Hn; [destruct (decide (num ∈ seen)) as [Hin|Hin]|].
    + destruct (IH nums seen Hseen) as [Hx ?]. split; [|lia]. intros x. rewrite Hx.
      apply Hseen in Hin. set_solver.
    + destruct (IH (nums ++ [num]) ({[num]} ∪ seen)) as [Hx Hl]; [set_solver|].
      rewrite length_app in Hl. cbn in Hl. split; [|lia]. intros x. rewrite Hx. set_solver.
    + destruct (IH nums seen Hseen) as [Hx ?]. split; [|lia]. intros x. rewrite Hx. set_solver.
Qed.

(** The numbers a list of names stands for. *)
Definition name_numbers (names : list string) : list Z :=
  omap (λ n, SyscallMap !! to_lower (trim_space n)) names.

Lemma compileFromNames_run names dflt arch nr :
  length names ≤ 255 →
  ∃ prog, compileFromNames names dflt = Ok prog ∧
    verdict prog arch nr =
      if decide (arch = unix "AUDIT_ARCH_X86_64")
      then if decide (nr ∈ name_numbers names) then ActionAllow else dflt
      else ActionKillProcess.
Proof.
  intros Hlen. eexists. split; [done|]. unfold CompileWhitelistFilter, name_numbers.
  change compile_name with (dedupe (λ n, SyscallMap !! to_lower (trim_space n))).
  generalize (λ n, SyscallMap !! to_lower (trim_space n)). intros f.
  destruct (dedupe_spec f names [] ∅) as [Hx Hl]; [set_solver|].
  rewrite compiled_run by (cbn in Hl; lia).
  case_decide; [|done]. apply decide_ext. rewrite Hx, list_elem_of_omap. set_solver.
Qed.

(** The confined profiles and the names they allow. *)
Definition profiles : list (string * list string) :=
  [("strict", strict_names); ("app-default", app_default_names); ("net-service", net_service_names)].

Lemma profile_run profile names action arch nr :
  (to_lower (trim_space profile), names) ∈ profiles →
  ∃ prog, GetProfileFilter profile action = Ok prog ∧
    verdict prog arch nr =
      if decide (arch = unix "AUDIT_ARCH_X86_64")
      then if decide (nr ∈ name_numbers names) then ActionAllow else action
      else ActionKillProcess.
Proof.
  intros Hin. unfold GetProfileFilter.
  assert (length names ≤ 255) as Hlen.
  { repeat (apply elem_of_cons in Hin as [[= _ ->]|Hin]; [apply Nat.leb_le; reflexivity|]).
    by apply not_elem_of_nil in Hin. }
  repeat (apply elem_of_cons in Hin as [[= -> ->]|Hin]; [by apply compileFromNames_run|]).
  by apply not_elem_of_nil in Hin.
Qed.

(** The numbers of the table are distinct. *)
Definition syscalls_distinct : Prop := NoDup (unix <$> syscall_table.*2).

(** Two names of the table with one number are one name. *)
Lemma SyscallMap_inj a b x :
  syscalls_distinct → SyscallMap !! a = Some x → SyscallMap !! b = Some x → a = b.
Proof.
  unfold syscalls_distinct, SyscallMap. intros Hnd. rewrite !lookup_fmap, !fmap_Some.
  intros (ca & Ha & ->) (cb & Hb & Hab).
  assert (NoDup syscall_table.*1) as Hk by (apply (proj1 (bool_decide_eq_true _)); vm_compute; reflexivity).
  apply elem_of_list_to_map in Ha, Hb; [|done..].
  apply list_elem_of_lookup in Ha as [i Hi], Hb as [j Hj].
  assert (i = j) as <-.
  { eapply (NoDup_lookup (unix <$> syscall_table.*2) i j (unix ca)); [done|..];
      rewrite !list_lookup_fmap, ?Hi, ?Hj; cbn; congruence. }
  rewrite Hi in Hj. by injection Hj.
Qed.

Definition admin_names : list string :=
  ["reboot"; "kexec_load"; "init_module"; "delete_module"; "swapon"; "swapoff"; "pivot_root"; "ptrace"].

(** A call of the table that a list of names leaves out is not among its numbers. *)
Lemma not_named names n x :
  syscalls_distinct → SyscallMap !! n = Some x →
  n ∉ ((λ n, to_lower (trim_space n)) <$> names) → x ∉ name_numbers names.
Proof.
  intros Hd Hn Hout (m & Hm & Hx)%list_elem_of_omap. apply Hout.
  rewrite (SyscallMap_inj n (to_lower (trim_space m)) x) by done.
  eapply (list_elem_of_fmap_2 (λ n, to_lower (trim_space n))); exact Hm.
Qed.

(** The calls each confined profile must not let through. *)
Definition denied_by : list (string * list string) :=
  [("strict", "execve" :: "execveat" :: admin_names); ("app-default", admin_names);
   ("net-service", admin_names)].

(** What a profile must deny is not in its list. *)
Lemma denied_not_allowed p denied n :
  (p, denied) ∈ denied_by → n ∈ denied →
  ∃ names, (p, names) ∈ profiles ∧ n ∉ ((λ n, to_lower (trim_space n)) <$> names).
Proof.
  intros Hp Hn.
  assert (∃ names, (p, names) ∈ profiles ∧
    Forall (λ n, n ∉ ((λ n, to_lower (trim_space n)) <$> names)) denied) as (names & Hin & Hall).
  { unfold denied_by in Hp. apply elem_of_cons in Hp as [[= -> ->]|Hp].
    { exists strict_names. split; [by left|]. apply (proj1 (bool_decide_eq_true _)); by vm_compute. }
    apply elem_of_cons in Hp as [[= -> ->]|Hp].
    { exists app_default_names. split; [by right; left|].
      apply (proj1 (bool_decide_eq_true _)); by vm_compute. }
    apply list_elem_of_singleton in Hp as [= -> ->].
    exists net_service_names. split; [by right; right; left|].
    apply (proj1 (bool_decide_eq_true _)); by vm_compute. }
  exists names. split; [done|]. rewrite Forall_forall in Hall. by apply Hall.
Qed.

(** ** Theorems *)

(** C10: up to 255 system calls, the kernel's decision under the compiled allow list
    is exactly the list: another architecture is killed, a listed call is allowed,
    any other call gets the default action; and dually for the deny list. *)
Theorem compiled_filters_exact syscalls action arch nr :
  length syscalls ≤ 255 →
  verdict (CompileWhitelistFilter syscalls action) arch nr =
    (if decide (arch = unix "AUDIT_ARCH_X86_64")
     then if decide (nr ∈ syscalls) then ActionAllow else action
     else ActionKillProcess) ∧
  verdict (CompileBlacklistFilter syscalls action) arch nr =
    (if decide (arch = unix "AUDIT_ARCH_X86_64")
     then if decide (nr ∈ syscalls) then action else ActionAllow
     else ActionKillProcess).
Proof. intros Hlen. split; by apply compiled_run. Qed.

(** The bound is tight: with 256 calls the eight-bit jump offset of the first
    comparison wraps to zero, and the first call of the list gets the default
    action although it is listed (and escapes a deny list). *)
Theorem jump_offset_wraps first rest action :
  length rest = 255 → first ∉ rest →
  verdict (CompileWhitelistFilter (first :: rest) action) (unix "AUDIT_ARCH_X86_64") first = action ∧
  verdict (CompileBlacklistFilter (first :: rest) action) (unix "AUDIT_ARCH_X86_64") first
    = ActionAllow.
Proof.
  intros Hlen Hin.
  assert (∀ dflt hit, verdict (arch_check ++ jump_checks (Z.of_nat (length (first :: rest))) 0
      (first :: rest) ++ [ret dflt; ret hit]) (unix "AUDIT_ARCH_X86_64") first = dflt) as Hgen;
    [|by split; apply Hgen].
  intros dflt hit. rewrite arch_check_run, decide_True by done.
  cbn [jump_checks length]. rewrite Hlen. change (Z.of_nat 256) with 256%Z.
  change (wrap_u 8 (256 - 0)) with 0%Z.
  erewrite bpf_run_jeq by reflexivity. rewrite decide_True by done.
  change (4 + 1 + Z.to_nat 0) with 5. cbn [app]. rewrite cons_middle, app_assoc.
  change (S 4 + Z.to_nat 0) with (length (arch_check ++ [jeq 0 first])).
  rewrite checks_run by (rewrite ?Hlen; lia). by rewrite decide_False.
Qed.

(** A confined profile, in any spelling that lower-cases and trims to its name,
    compiles to a filter that allows exactly the calls its list names and gives
    every other call, or any call of another architecture, the default action or
    the kill action. *)
Theorem profile_exact profile names action arch nr :
  (to_lower (trim_space profile), names) ∈ profiles →
  ∃ prog, GetProfileFilter profile action = Ok prog ∧
    verdict prog arch nr =
      if decide (arch = unix "AUDIT_ARCH_X86_64")
      then if decide (nr ∈ name_numbers names) then ActionAllow else action
      else ActionKillProcess.
Proof. apply profile_run. Qed.

(** No confined profile lets the administrative calls through (reboot, kexec,
    modules, swap, [pivot_root], [ptrace]), and [strict] refuses [execve] and
    [execveat] as well: each gets the default action. *)
Theorem profiles_deny profile denied n nr action :
  syscalls_distinct → (to_lower (trim_space profile), denied) ∈ denied_by →
  n ∈ denied → SyscallMap !! n = Some nr →
  ∃ prog, GetProfileFilter profile action = Ok prog ∧
    verdict prog (unix "AUDIT_ARCH_X86_64") nr = action.
Proof.
  intros Hd Hp Hn Hnr.
  assert (∃ names, (to_lower (trim_space profile), names) ∈ profiles ∧
    n ∉ ((λ n, to_lower (trim_space n)) <$> names)) as (names & Hin & Hout).
  { apply (denied_not_allowed _ denied); done. }
  destruct (profile_run profile names action (unix "AUDIT_ARCH_X86_64") nr Hin) as (prog & Hok & Hv).
  exists prog. split; [done|]. rewrite Hv, decide_True, decide_False by (done || by eapply not_named).
  done.
Qed.
End machine.

(** ** A concrete machine

    The three instructions on amd64, for the witnesses.  Jumps only go forward, so
    the instructions after [pc] bound the steps. *)
Section concrete.
Context (cret cld cjeq : Z).

Fixpoint bpf_go (fuel : nat) (prog : list SockFilter) (pc : nat) (acc : Z) (data : Z → Z) : Z :=
  match fuel, prog !! pc with
  | S fuel, Some i =>
      if decide (Code i = cret) then K i
      else if decide (Code i = cld) then bpf_go fuel prog (S pc) (data (K i)) data
      else if decide (Code i = cjeq) then
        bpf_go fuel prog (S pc + Z.to_nat (if decide (acc = K i) then Jt i else Jf i)) acc data
      else 0%Z
  | _, _ => 0%Z
  end.

Lemma bpf_go_fuel n m prog pc acc data :
  length prog - pc ≤ n → length prog - pc ≤ m → bpf_go n prog pc acc data = bpf_go m prog pc acc data.
Proof.
  revert m pc acc. induction n as [|n IH]; intros m pc acc Hn Hm.
  - destruct m as [|m]; [done|]. cbn. by rewrite (lookup_ge_None_2 prog pc) by lia.
  - cbn [bpf_go]. destruct (prog !! pc) as [i|] eqn:Hi.
    + apply lookup_lt_Some in Hi as Hlt. destruct m as [|m]; [lia|]. cbn [bpf_go]. rewrite Hi.
      repeat (case_decide; [first [done|apply IH; lia]|]). done.
    + destruct m as [|m]; [done|]. cbn [bpf_go]. by rewrite Hi.
Qed.

Lemma bpf_go_step prog pc acc data i :
  prog !! pc = Some i →
  bpf_go (length prog - pc) prog pc acc data =
    if decide (Code i = cret) then K i
    else if decide (Code i = cld) then
      bpf_go (length prog - S pc) prog (S pc) (data (K i)) data
    else if decide (Code i = cjeq) then
      let pc' := S pc + Z.to_nat (if decide (acc = K i) then Jt i else Jf i) in
      bpf_go (length prog - pc') prog pc' acc data
    else 0%Z.
Proof.
  intros Hi. apply lookup_lt_Some in Hi as Hlt.
  replace (length prog - pc) with (S (length prog - S pc)) by lia. cbn [bpf_go]. rewrite Hi.
  case_decide; [done|]. case_decide; [done|]. case_decide; [|done].
  apply bpf_go_fuel; lia.
Qed.

End concrete.

Lemma opcodes_distinct :
  @bpfLdW x86_64 ≠ @bpfRetK x86_64 ∧ @bpfJmpEq x86_64 ≠ @bpfRetK x86_64 ∧
  @bpfJmpEq x86_64 ≠ @bpfLdW x86_64.
Proof. split_and!; vm_compute; discriminate. Qed.

#[refine] Definition linux_bpf : @BpfMachine x86_64 :=
  {| bpf_run prog pc acc data := bpf_go (@bpfRetK x86_64) (@bpfLdW x86_64) (@bpfJmpEq x86_64)
       (length prog - pc) prog pc acc data |}.
Proof.
  - intros prog pc acc data k Hi. rewrite (bpf_go_step _ _ _ _ _ _ _ _ Hi). cbn [Code K ld].
    destruct opcodes_distinct as (? & ? & ?). rewrite decide_False, decide_True; done.
  - intros prog pc acc data jt k Hi. rewrite (bpf_go_step _ _ _ _ _ _ _ _ Hi).
    cbn [Code K Jt Jf jeq]. destruct opcodes_distinct as (? & ? & ?).
    rewrite decide_False, decide_False, decide_True by done. by destruct (decide (acc = k)).
  - intros prog pc acc data k Hi. rewrite (bpf_go_step _ _ _ _ _ _ _ _ Hi). cbn [Code K ret].
    by rewrite decide_True.
Defined.

(** ** Witnesses *)

Definition kill : Z := @ActionKillProcess x86_64.

Lemma compiled_filters_exact_witness :
  let v := @verdict x86_64 linux_bpf (@CompileWhitelistFilter x86_64 [0; 1; 60]%Z kill) 3221225534%Z in
  v 1%Z = @ActionAllow x86_64 ∧ v 59%Z = kill.
Proof.
  assert (3 ≤ 255) as Hlen by lia. split.
  - rewrite (proj1 (@compiled_filters_exact x86_64 linux_bpf [0; 1; 60]%Z kill 3221225534%Z 1%Z Hlen)).
    vm_compute. reflexivity.
  - rewrite (proj1 (@compiled_filters_exact x86_64 linux_bpf [0; 1; 60]%Z kill 3221225534%Z 59%Z Hlen)).
    vm_compute. reflexivity.
Defined.

(** Calls 0 to 255: call 0 is killed although it is listed. *)
Lemma jump_offset_wraps_witness :
  @verdict x86_64 linux_bpf
    (@CompileWhitelistFilter x86_64 (0%Z :: (Z.of_nat <$> seq 1 255)) kill) 3221225534%Z 0%Z = kill.
Proof.
  refine (proj1 (@jump_offset_wraps x86_64 linux_bpf 0%Z (Z.of_nat <$> seq 1 255) kill _ _)).
  - by rewrite length_fmap, length_seq.
  - intros (x & Hx & Hin)%list_elem_of_fmap. apply elem_of_seq in Hin. lia.
Defined.

Lemma profile_exact_witness :
  ∃ prog, @GetProfileFilter x86_64 no_tables " App-Default" kill = Ok prog ∧
    @verdict x86_64 linux_bpf prog 3221225534%Z 41%Z = @ActionAllow x86_64.
Proof.
  destruct (@profile_exact x86_64 linux_bpf no_tables " App-Default" app_default_names kill 3221225534%Z 41%Z)
    as (prog & Hp & Hv).
  { right. left. }
  exists prog. split; [exact Hp|]. rewrite Hv. vm_compute. reflexivity.
Defined.

Lemma profiles_deny_witness :
  ∃ prog, @GetProfileFilter x86_64 no_tables "strict" kill = Ok prog ∧
    @verdict x86_64 linux_bpf prog (@unix x86_64 "AUDIT_ARCH_X86_64") 59%Z = kill.
Proof.
  apply (@profiles_deny x86_64 linux_bpf no_tables "strict" ("execve" :: "execveat" :: admin_names)
    "execve").
  - apply (proj1 (bool_decide_eq_true _)). vm_compute. reflexivity.
  - left.
  - left.
  - vm_compute. reflexivity.
Defined.
