(* ===== verification/Secd.v ===== *)
(** * Capabilities and the isolation wrapper

    [internal/secd/capabilities.go], [internal/secd/secd.go], [ApplySeccompFilter] of
    [internal/secd/seccomp.go] and [cmd/karim-secd/main.go]: the steps the wrapper
    takes between its command line and the [exec] of the service, as a program of
    system calls over the security state of the threads of its process. *)

From Stdlib Require Import Ascii.
From S2P Require Import Prelude GoStrings GoStrconv GoPath Prog Linux Seccomp.

(** ** Capabilities *)

Definition cap_table : list (string * string) :=
  [("CAP_CHOWN", "CAP_CHOWN"); ("CAP_DAC_OVERRIDE", "CAP_DAC_OVERRIDE");
   ("CAP_DAC_READ_SEARCH", "CAP_DAC_READ_SEARCH"); ("CAP_FOWNER", "CAP_FOWNER");
   ("CAP_FSETID", "CAP_FSETID"); ("CAP_KILL", "CAP_KILL"); ("CAP_SETGID", "CAP_SETGID");
   ("CAP_SETUID", "CAP_SETUID"); ("CAP_SETPCAP", "CAP_SETPCAP");
   ("CAP_LINUX_IMMUTABLE", "CAP_LINUX_IMMUTABLE");
   ("CAP_NET_BIND_SERVICE", "CAP_NET_BIND_SERVICE"); ("CAP_NET_BROADCAST", "CAP_NET_BROADCAST");
   ("CAP_NET_ADMIN", "CAP_NET_ADMIN"); ("CAP_NET_RAW", "CAP_NET_RAW");
   ("CAP_IPC_LOCK", "CAP_IPC_LOCK"); ("CAP_IPC_OWNER", "CAP_IPC_OWNER");
   ("CAP_SYS_MODULE", "CAP_SYS_MODULE"); ("CAP_SYS_RAWIO", "CAP_SYS_RAWIO");
   ("CAP_SYS_CHROOT", "CAP_SYS_CHROOT"); ("CAP_SYS_PTRACE", "CAP_SYS_PTRACE");
   ("CAP_SYS_PACCT", "CAP_SYS_PACCT"); ("CAP_SYS_ADMIN", "CAP_SYS_ADMIN");
   ("CAP_SYS_BOOT", "CAP_SYS_BOOT"); ("CAP_SYS_NICE", "CAP_SYS_NICE");
   ("CAP_SYS_RESOURCE", "CAP_SYS_RESOURCE"); ("CAP_SYS_TIME", "CAP_SYS_TIME");
   ("CAP_SYS_TTY_CONFIG", "CAP_SYS_TTY_CONFIG"); ("CAP_MKNOD", "CAP_MKNOD");
   ("CAP_LEASE", "CAP_LEASE"); ("CAP_AUDIT_WRITE", "CAP_AUDIT_WRITE");
   ("CAP_AUDIT_CONTROL", "CAP_AUDIT_CONTROL"); ("CAP_SETFCAP", "CAP_SETFCAP");
   ("CAP_MAC_OVERRIDE", "CAP_MAC_OVERRIDE"); ("CAP_MAC_ADMIN", "CAP_MAC_ADMIN");
   ("CAP_SYSLOG", "CAP_SYSLOG"); ("CAP_WAKE_ALARM", "CAP_WAKE_ALARM");
   ("CAP_BLOCK_SUSPEND", "CAP_BLOCK_SUSPEND"); ("CAP_AUDIT_READ", "CAP_AUDIT_READ");
   ("CAP_PERFMON", "CAP_PERFMON"); ("CAP_BPF", "CAP_BPF");
   ("CAP_CHECKPOINT_RESTORE", "CAP_CHECKPOINT_RESTORE")].

Record CapUserData := { Effective : Z; Permitted : Z; Inheritable : Z }.

(** The system calls of the wrapper; the answer is the error, if any. *)
Inductive sys_call : Type :=
| Unshare (flags : Z)
| Mount (source target fstype : string) (flags : Z)
| MkdirAll (path : string) (mode : Z)
| Pivot (new_root put_old : string)
| Chdir (path : string)
| Unmount (path : string) (flags : Z)
| Remove (path : string)
| Prctl (op arg : Z)
| PrctlSeccomp (mode len : Z) (filter : list SockFilter)
| Capset (version : Z) (low high : CapUserData)
| NotifySIGSYS
| Execve (path : string) (args : list string).

Inductive sys_ev : Type → Type :=
| Call (c : sys_call) : sys_ev (option string).

Definition call (c : sys_call) : prog sys_ev (outcome unit) :=
  Vis (Call c) (λ r, Ret match r with Some err => Err err | None => Ok tt end).

(** [_ = f()] *)
Definition ignore {A} (m : prog sys_ev (outcome A)) : prog sys_ev (outcome unit) :=
  prog_bind (λ _, done_) m.

Section secd.
Context {U : Unix} {UT : UnicodeTables}.

Definition capNameToNum : gmap string Z := unix <$> (list_to_map cap_table : gmap string string).

Definition ParseCapability (name : string) : outcome Z :=
  let upper := to_upper (trim_space name) in
  let upper := if has_prefix upper "CAP_" then upper else "CAP_" +:+ upper in
  match capNameToNum !! upper with
  | Some capNum => Ok capNum
  | None => Err ("unknown capability: " +:+ quote name)
  end.

(** [strings.EqualFold(strings.TrimSpace(capStr), word)] *)
Definition is_word (word capStr : string) : bool := equal_fold (trim_space capStr) word.

(** One iteration of the mask loop: [effLow] and [effHigh]; [permLow] and [permHigh]
    are assigned the same values. *)
Definition cap_bit (st : Z * Z) (capStr : string) : outcome (Z * Z) :=
  if is_word "NONE" capStr then Ok st
  else
    capNum ← ParseCapability capStr;
    Ok (if (capNum <? 32)%Z then (Z.lor st.1 (wrap_u 32 (Z.shiftl 1 capNum)), st.2)
        else (st.1, Z.lor st.2 (wrap_u 32 (Z.shiftl 1 (capNum - 32))))).

Definition DropCapabilities (keepCaps : list string) : prog sys_ev (outcome unit) :=
  if existsb (is_word "ALL") keepCaps then done_
  else
    '(low, high) ←! Ret (fold_m cap_bit (0%Z, 0%Z) keepCaps);
    wrapping "capset failed: "
      (call (Capset (unix "LINUX_CAPABILITY_VERSION_3")
        {| Effective := low; Permitted := low; Inheritable := 0 |}
        {| Effective := high; Permitted := high; Inheritable := 0 |})).

Definition DropAllCapabilities : prog sys_ev (outcome unit) := DropCapabilities ["NONE"].

(** The loop over [keepCaps]: [None] on [ALL], else the set of kept numbers. *)
Fixpoint keep_map (m : gset Z) (keepCaps : list string) : option (gset Z) :=
  match keepCaps with
  | [] => Some m
  | capStr :: keepCaps =>
      if is_word "ALL" capStr then None
      else if is_word "NONE" capStr then keep_map m keepCaps
      else keep_map match ParseCapability capStr with Ok c => {[c]} ∪ m | _ => m end keepCaps
  end.

Definition DropCapabilityBoundingSet (keepCaps : list string) : prog sys_ev (outcome unit) :=
  match keep_map ∅ keepCaps with
  | None => done_
  | Some keepMap =>
      each (λ c, if decide (c ∈ keepMap) then done_
                 else ignore (call (Prctl (unix "PR_CAPBSET_DROP") c)))
           (Z.of_nat <$> seq 0 64)
  end.

(** ** Filters and the root *)

Definition ApplySeccompFilter (filter : list SockFilter) : prog sys_ev (outcome unit) :=
  if decide (filter = []) then done_
  else
    _ ←! wrapping "failed setting PR_SET_NO_NEW_PRIVS: " (call (Prctl (unix "PR_SET_NO_NEW_PRIVS") 1));
    wrapping "failed setting SECCOMP_MODE_FILTER: "
      (call (PrctlSeccomp (unix "SECCOMP_MODE_FILTER") (wrap_u 16 (Z.of_nat (length filter))) filter)).

Definition PivotRoot (newRoot : string) : prog sys_ev (outcome unit) :=
  if decide (newRoot = "") then done_
  else
    _ ←! wrapping "secd: failed unsharing mount namespace: " (call (Unshare (unix "CLONE_NEWNS")));
    _ ←! wrapping "secd: failed setting MS_PRIVATE on /: "
           (call (Mount "" "/" "" (Z.lor (unix "MS_REC") (unix "MS_PRIVATE"))));
    _ ←! wrapping ("secd: bind mount failed on newRoot " +:+ newRoot +:+ ": ")
           (call (Mount newRoot newRoot "" (Z.lor (unix "MS_BIND") (unix "MS_REC"))));
    let putOld := Join [newRoot; ".oldroot"] in
    _ ←! wrapping ("secd: failed creating .oldroot in " +:+ newRoot +:+ ": ") (call (MkdirAll putOld 0x1C0));
    _ ←! wrapping ("secd: pivot_root(" +:+ newRoot +:+ ", " +:+ putOld +:+ ") failed: ")
           (call (Pivot newRoot putOld));
    _ ←! wrapping "secd: chdir(/) after pivot_root failed: " (call (Chdir "/"));
    _ ←! ignore (call (MkdirAll "/proc" 0x1ED));
    _ ←! ignore (call (Mount "proc" "/proc" "proc" 0));
    _ ←! ignore (call (MkdirAll "/sys" 0x1ED));
    _ ←! ignore (call (Mount "sysfs" "/sys" "sysfs" 0));
    _ ←! ignore (call (MkdirAll "/dev" 0x1ED));
    _ ←! ignore (call (Mount "devtmpfs" "/dev" "devtmpfs" 0));
    _ ←! ignore (call (Unmount "/.oldroot" (unix "MNT_DETACH")));
    ignore (call (Remove "/.oldroot")).

(** ** The policy *)

Record SecurityPolicy := {
  SeccompProfile : string;
  CapsAdd : list string;
  CapsDrop : list string;
  NoNewPrivs : bool;
  Rootfs : string;
  MountNS : bool
}.

Definition DefaultSecurityPolicy : SecurityPolicy := {|
  SeccompProfile := "app-default"; CapsAdd := []; CapsDrop := ["ALL"]; NoNewPrivs := true;
  Rootfs := ""; MountNS := false
|}.

Definition EnforceSecurityPolicy (policy : option SecurityPolicy) : prog sys_ev (outcome unit) :=
  match policy with
  | None => done_
  | Some policy =>
      _ ←! (if decide (Rootfs policy = "") then done_
            else wrapping "secd: pivot_root isolation failed: " (PivotRoot (Rootfs policy)));
      _ ←! (if NoNewPrivs policy
            then wrapping "secd: failed setting PR_SET_NO_NEW_PRIVS: "
                   (call (Prctl (unix "PR_SET_NO_NEW_PRIVS") 1))
            else done_);
      _ ←! (if decide (CapsDrop policy = [] ∧ CapsAdd policy = []) then done_
            else
              _ ←! ignore (DropCapabilityBoundingSet (CapsAdd policy));
              ignore (DropCapabilities (CapsAdd policy)));
      if decide (SeccompProfile policy = "" ∨ SeccompProfile policy = "unrestricted") then done_
      else
        Vis (Call NotifySIGSYS) (λ _,
          filter ←! wrapping ("secd: invalid seccomp profile " +:+ quote (SeccompProfile policy) +:+ ": ")
                      (Ret (GetProfileFilter (SeccompProfile policy) ActionKillProcess));
          wrapping ("secd: failed applying seccomp filter " +:+ quote (SeccompProfile policy) +:+ ": ")
            (ApplySeccompFilter filter))
  end.

(** ** The command *)

(** The values of the flags, and the positional arguments. *)
Record secd_flags := {
  profileFlag : string;
  capsAddFlag : string;
  capsDropFlag : string;
  noNewPrivsFlag : bool;
  execFlag : string;
  rootfsFlag : string;
  mountNSFlag : bool;
  posArgs : list string
}.

(** How the process goes on: replaced by the target, or an exit status. *)
Inductive secd_end := Replaced | Exit (status : Z).

Definition flag_list (s : string) : list string := if decide (s = "") then [] else str_split ","%char s.

Definition secd_policy (f : secd_flags) : SecurityPolicy := {|
  SeccompProfile := profileFlag f;
  CapsAdd := flag_list (capsAddFlag f);
  CapsDrop := flag_list (capsDropFlag f);
  NoNewPrivs := noNewPrivsFlag f;
  Rootfs := rootfsFlag f;
  MountNS := mountNSFlag f || negb (bool_decide (rootfsFlag f = ""))
|}.

(** The program and the arguments to run. *)
Definition secd_target (f : secd_flags) : string * list string :=
  if decide (execFlag f = "") then
    match posArgs f with
    | [] => ("", [])
    | a :: _ => (a, posArgs f)
    end
  else (execFlag f, execFlag f :: posArgs f).

Definition secd_main (f : secd_flags) : prog sys_ev secd_end :=
  let '(targetExec, targetArgs) := secd_target f in
  if decide (targetExec = "") then Ret (Exit 1)
  else
    prog_bind (λ r,
      match r with
      | Ok _ => Vis (Call (Execve targetExec targetArgs)) (λ err,
          Ret match err with None => Replaced | Some _ => Exit 1 end)
      | Err _ => Ret (Exit 1)
      | Panic => Ret (Exit 2)
      end) (EnforceSecurityPolicy (Some (secd_policy f))).

End secd.

(** ** The kernel

    [PR_SET_NO_NEW_PRIVS], [PR_CAPBSET_DROP], [capset] and [PR_SET_SECCOMP] act on the
    calling thread, and a program executed inherits the state of the thread that calls
    [execve].  This is the security state of one thread, with the program it executed,
    and what each call may answer: an error that changes nothing, or success with its
    documented effect.  A filter decides on [execve] itself: the call succeeds only if
    every filter of the thread allows it. *)
Record proc := {
  p_nnp : bool;
  p_bound : gset Z;
  p_caps : option (CapUserData * CapUserData);
  p_filters : list (list SockFilter);
  p_exec : option (string * list string)
}.

Section kernel.
Context {U : Unix} {M : BpfMachine} {UT : UnicodeTables}.

Definition with_nnp (s : proc) : proc :=
  {| p_nnp := true; p_bound := p_bound s; p_caps := p_caps s; p_filters := p_filters s; p_exec := p_exec s |}.
Definition without_bound (c : Z) (s : proc) : proc :=
  {| p_nnp := p_nnp s; p_bound := p_bound s ∖ {[c]}; p_caps := p_caps s; p_filters := p_filters s;
     p_exec := p_exec s |}.
Definition with_caps (low high : CapUserData) (s : proc) : proc :=
  {| p_nnp := p_nnp s; p_bound := p_bound s; p_caps := Some (low, high); p_filters := p_filters s;
     p_exec := p_exec s |}.
Definition with_filter (prog : list SockFilter) (s : proc) : proc :=
  {| p_nnp := p_nnp s; p_bound := p_bound s; p_caps := p_caps s; p_filters := prog :: p_filters s;
     p_exec := p_exec s |}.
Definition with_exec (path : string) (args : list string) (s : proc) : proc :=
  {| p_nnp := p_nnp s; p_bound := p_bound s; p_caps := p_caps s; p_filters := p_filters s;
     p_exec := Some (path, args) |}.

(** The thread after a call of it that succeeds. *)
Definition success (e : sys_call) (s : proc) : proc :=
  match e with
  | Prctl op arg =>
      if decide (op = unix "PR_SET_NO_NEW_PRIVS" ∧ arg = 1%Z) then with_nnp s
      else if decide (op = unix "PR_CAPBSET_DROP") then without_bound arg s
      else s
  | PrctlSeccomp mode len filter =>
      if decide (mode = unix "SECCOMP_MODE_FILTER") then with_filter (take (Z.to_nat len) filter) s else s
  | Capset _ low high => with_caps low high s
  | Execve path args => with_exec path args s
  | _ => s
  end.

Definition may_succeed (e : sys_call) (s : proc) : Prop :=
  match e with
  | Execve _ _ =>
      Forall (λ prog, verdict prog (unix "AUDIT_ARCH_X86_64") (unix "SYS_EXECVE") = ActionAllow)
        (p_filters s)
  | _ => True
  end.

(** All calls made by the same thread. *)
Definition solo : env_rel sys_ev proc := λ X e s x s',
  match e in sys_ev Y return Y → Prop with
  | Call c => λ r,
      match r with
      | Some _ => s' = s
      | None => may_succeed c s ∧ s' = success c s
      end
  end x.

(** ** Threads

    A Go program has several threads, and the goroutine of [main], which nothing locks
    to one, may go on with any of them after a call.  New threads are clones and start
    with the state of the thread that made them.  [moved] records whether the goroutine
    has changed its thread. *)
Record process := { threads : gmap nat proc; running : nat; moved : bool }.

(** What the scheduler of the runtime may do between two calls. *)
Inductive resched : process → process → Prop :=
| resched_stay s : resched s s
| resched_clone s t th u s' : threads s !! t = Some th → threads s !! u = None →
    resched {| threads := <[u := th]> (threads s); running := running s; moved := moved s |} s' → resched s s'
| resched_move s t s' : is_Some (threads s !! t) →
    resched {| threads := threads s; running := t; moved := true |} s' → resched s s'.

(** The process after a call of the running thread [th]: [execve] leaves only the
    thread that called it. *)
Definition returned (c : sys_call) (r : option string) (th : proc) (s : process) : process :=
  match r, c with
  | Some _, _ => s
  | None, Execve _ _ => {| threads := {[running s := success c th]}; running := running s; moved := moved s |}
  | None, _ => {| threads := <[running s := success c th]> (threads s); running := running s; moved := moved s |}
  end.

Definition kernel : env_rel sys_ev process := λ X e s x s',
  match e in sys_ev Y return Y → Prop with
  | Call c => λ r, ∃ s1 th, resched s s1 ∧ threads s1 !! running s1 = Some th ∧
      (r = None → may_succeed c th) ∧ s' = returned c r th s1
  end x.

(** A handler that lets every call succeed. *)
Definition obliging : handler sys_ev proc := λ X e s,
  match e in sys_ev Y return Y * proc with
  | Call c => (None, success c s)
  end.

Lemma wp_call c Q s :
  wp solo (call c) Q s ↔
    (may_succeed c s → Q (Ok tt) (success c s)) ∧ ∀ err, Q (Err err) s.
Proof.
  cbn. split.
  - intros H. split; [intros Hm; by apply (H None)|]. intros err. by apply (H (Some err)).
  - intros [H1 H2] [err|] s'; [by intros ->|]. intros [Hm ->]. by apply H1.
Qed.

Lemma wp_ignore {A} (m : prog sys_ev (outcome A)) Q s :
  wp solo (ignore m) Q s ↔ wp solo m (λ _ s', Q (Ok tt) s') s.
Proof. unfold ignore. by rewrite wp_bind. Qed.

(** A property of the state alone that a call keeps. *)
Lemma wp_call_state c (I : proc → Prop) s :
  (may_succeed c s → I (success c s)) → I s → wp solo (call c) (λ _ s', I s') s.
Proof. intros H1 H2. apply wp_call. by split. Qed.

(** ** Programs that keep a property of the state *)

Definition keeps {A} (I : proc → Prop) (m : prog sys_ev A) : Prop :=
  ∀ s, I s → wp solo m (λ _ s', I s') s.

Lemma keeps_ret {A} I (a : A) : keeps I (Ret a).
Proof. by intros s. Qed.
Lemma keeps_call I c : (∀ s, I s → I (success c s)) → keeps I (call c).
Proof. intros H s Hs. apply wp_call_state; auto. Qed.
Lemma keeps_ebind {A B} I (m : prog sys_ev (outcome A)) (f : A → prog sys_ev (outcome B)) :
  keeps I m → (∀ a, keeps I (f a)) → keeps I (ebind m f).
Proof.
  intros Hm Hf s Hs. apply wp_ebind. eapply wp_mono; [|by apply Hm].
  intros [a|e|] s' Hs'; [by apply Hf|done..].
Qed.
Lemma keeps_wrapping {A} I pre (m : prog sys_ev (outcome A)) : keeps I m → keeps I (wrapping pre m).
Proof. intros Hm s Hs. apply wp_wrapping. by apply Hm. Qed.
Lemma keeps_ignore {A} I (m : prog sys_ev (outcome A)) : keeps I m → keeps I (ignore m).
Proof. intros Hm s Hs. apply wp_ignore. by apply Hm. Qed.
Lemma keeps_each {A} I (f : A → prog sys_ev (outcome unit)) xs :
  (∀ x, keeps I (f x)) → keeps I (each f xs).
Proof. intros Hf s Hs. apply wp_each; [|done]. intros x s' _ Hs'. by apply Hf. Qed.
Lemma keeps_if {A} I P `{Decision P} (m n : prog sys_ev A) :
  keeps I m → keeps I n → keeps I (if decide P then m else n).
Proof. by case_decide. Qed.
End kernel.

(** Follow the structure of a program. *)
Ltac keeps_tac :=
  repeat first
    [ apply keeps_ret | apply keeps_if | apply keeps_wrapping | apply keeps_ignore
    | apply keeps_each; intros ? | apply keeps_ebind; [|intros ?]
    | apply keeps_call; let Hs := fresh "Hs" in intros ? Hs; try exact Hs ].

Section facts.
Context {U : Unix} {M : BpfMachine} {UT : UnicodeTables}.

(** Pivoting the root leaves the security state alone. *)
Lemma keeps_PivotRoot I r : keeps I (PivotRoot r).
Proof. unfold PivotRoot, done_. keeps_tac. Qed.

Lemma keeps_bounding I keep :
  (∀ c s, I s → I (without_bound c s)) → (∀ s, I s → I (with_nnp s)) →
  keeps I (DropCapabilityBoundingSet keep).
Proof.
  intros HI HI'. unfold DropCapabilityBoundingSet, done_. destruct (keep_map ∅ keep); [|apply keeps_ret].
  keeps_tac. cbn. case_decide; [auto|]. case_decide; auto.
Qed.

Lemma keeps_DropCapabilities I keep :
  (∀ l h s, I s → I (with_caps l h s)) → keeps I (DropCapabilities keep).
Proof.
  intros HI. unfold DropCapabilities, done_. destruct (existsb _ _); [apply keeps_ret|].
  apply keeps_ebind; [apply keeps_ret|]. intros [l h]. keeps_tac. by apply HI.
Qed.

(** The length of a profile's filter fits its 16-bit field. *)
Lemma jump_checks_bound names dflt prog :
  compileFromNames names dflt = Ok prog → length prog ≤ 6 + length names.
Proof.
  intros [= <-]. unfold CompileWhitelistFilter.
  change compile_name with (dedupe (λ n, SyscallMap !! to_lower (trim_space n))).
  destruct (dedupe_spec (λ n, SyscallMap !! to_lower (trim_space n)) names [] ∅) as [_ Hl];
    [set_solver|].
  rewrite !length_app, jump_checks_length. cbn in *. lia.
Qed.

Lemma profile_length profile dflt prog :
  GetProfileFilter profile dflt = Ok prog → (1 ≤ Z.of_nat (length prog) < 2 ^ 16)%Z.
Proof.
  unfold GetProfileFilter. intros H.
  assert (Z.of_nat (length strict_names) = 20%Z ∧ Z.of_nat (length app_default_names) = 108%Z ∧
          Z.of_nat (length net_service_names) = 108%Z) as (? & ? & ?) by done.
  assert (∀ names, compileFromNames names dflt = Ok prog → 1 ≤ length prog) as Hpos
    by (intros names [= <-]; cbn; lia).
  case_decide; [injection H as <-; cbn; lia|].
  repeat (case_decide; [apply Hpos in H as ?; apply jump_checks_bound in H; lia|]). done.
Qed.

Lemma wp_ApplySeccompFilter filter s :
  (1 ≤ Z.of_nat (length filter) < 2 ^ 16)%Z →
  wp solo (ApplySeccompFilter filter)
    (λ r s', r = Ok tt → p_nnp s' = true ∧ p_filters s' = filter :: p_filters s ∧ p_exec s' = p_exec s) s.
Proof.
  intros Hlen. unfold ApplySeccompFilter. rewrite decide_False by (by destruct filter; [cbn in *; lia|]).
  apply wp_ebind, wp_wrapping, wp_call. split; [intros _|done].
  apply wp_wrapping, wp_call. split; [intros _|done]. cbn [wrap_err]. intros _.
  cbn. rewrite decide_True by done. rewrite decide_True by done. cbn.
  rewrite wrap_u_id by lia. rewrite Nat2Z.id, firstn_all. done.
Qed.

(** ** Capability masks *)

(** The capabilities of a pair of 32-bit masks. *)
Definition in_masks (m : Z * Z) (c : Z) : bool :=
  if (c <? 32)%Z then Z.testbit m.1 c else Z.testbit m.2 (c - 32).

(** Every capability constant is below 64. *)
Definition caps_in_range : Prop := ∀ n c, capNameToNum !! n = Some c → (0 ≤ c < 64)%Z.

Lemma ParseCapability_range name c : caps_in_range → ParseCapability name = Ok c → (0 ≤ c < 64)%Z.
Proof.
  unfold ParseCapability. intros Hr H. destruct (capNameToNum !! _) as [x|] eqn:Hl; [|done].
  injection H as <-. by eapply Hr.
Qed.

Lemma testbit_bit x i : (0 ≤ x < 32)%Z → (0 ≤ i < 32)%Z →
  Z.testbit (wrap_u 32 (Z.shiftl 1 x)) i = bool_decide (i = x).
Proof.
  intros Hx Hi. rewrite Z.shiftl_1_l, wrap_u_id.
  - rewrite Z.pow2_bits_eqb by lia. destruct (Z.eqb_spec x i); [by rewrite bool_decide_true|].
    by rewrite bool_decide_false.
  - split; [lia|]. apply Z.pow_lt_mono_r; lia.
Qed.

(** The capability a word of the keep list stands for. *)
Definition grants (k : string) (c : Z) : Prop := is_word "NONE" k = false ∧ ParseCapability k = Ok c.

Lemma cap_bit_spec st k st' :
  caps_in_range → cap_bit st k = Ok st' →
  ∀ c, (0 ≤ c < 64)%Z →
    in_masks st' c = true ↔ in_masks st c = true ∨ grants k c.
Proof.
  intros Hr H c Hc. pose proof (λ x, ParseCapability_range k x Hr) as Hxr. revert H Hxr.
  unfold cap_bit, grants. generalize (is_word "NONE" k), (ParseCapability k). clear Hr.
  intros w o H Hxr. destruct w; [injection H as <-; naive_solver|].
  apply outcome_bind_ok in H as (x & -> & [= <-]). specialize (Hxr x eq_refl).
  assert (Ok x = Ok c ↔ x = c) as -> by naive_solver.
  unfold in_masks. destruct (Z.ltb_spec x 32), (Z.ltb_spec c 32); cbn [fst snd].
  - rewrite Z.lor_spec, testbit_bit by lia. rewrite orb_true_iff, bool_decide_eq_true. naive_solver.
  - naive_solver lia.
  - naive_solver lia.
  - rewrite Z.lor_spec, testbit_bit by lia. rewrite orb_true_iff, bool_decide_eq_true. naive_solver lia.
Qed.

Lemma cap_bits_spec keep st st' :
  caps_in_range → fold_m cap_bit st keep = Ok st' →
  ∀ c, (0 ≤ c < 64)%Z →
    in_masks st' c = true ↔
      in_masks st c = true ∨ ∃ k, k ∈ keep ∧ grants k c.
Proof.
  intros Hr. revert st. induction keep as [|k keep IH]; intros st H c Hc.
  - cbn in H. injection H as <-. split; [by left|].
    intros [?|(k & Hk & _)]; [done|by apply not_elem_of_nil in Hk].
  - cbn [fold_m] in H. apply outcome_bind_ok in H as (st1 & H1 & H2).
    rewrite (IH _ H2 c Hc), (cap_bit_spec _ _ _ Hr H1 c Hc). setoid_rewrite elem_of_cons.
    clear. generalize (grants). intros G. naive_solver.
Qed.

(** One unknown name stops the loop before [capset]. *)
Lemma cap_bits_unknown keep st k :
  k ∈ keep → is_word "NONE" k = false → (∀ c, ParseCapability k ≠ Ok c) →
  ∃ e, fold_m cap_bit st keep = Err e.
Proof.
  intros Hk Hn Hu. revert st. induction Hk as [k keep|k k' keep Hk IH]; intros st; cbn [fold_m].
  - unfold cap_bit. rewrite Hn. unfold ParseCapability in *.
    destruct (capNameToNum !! _) as [x|]; [by destruct (Hu x)|]. by eexists.
  - destruct (cap_bit st k') as [st1|e|] eqn:Hc; cbn; [by apply IH|by eexists|].
    unfold cap_bit, ParseCapability in Hc. destruct (is_word "NONE" k'); [done|].
    by destruct (capNameToNum !! _).
Qed.

(** ** Enforcement *)

Definition confined (p : SecurityPolicy) : Prop :=
  SeccompProfile p ≠ "" ∧ SeccompProfile p ≠ "unrestricted".

(** What does not depend on capabilities and privileges. *)
Definition same_filters (s0 s : proc) : Prop := p_filters s = p_filters s0 ∧ p_exec s = p_exec s0.

(** A first step that keeps [I], with a postcondition about success only. *)
Lemma wp_keeps_then {A B} I (m : prog sys_ev (outcome A)) (f : A → prog sys_ev (outcome B))
    (Q : outcome B → proc → Prop) s :
  keeps I m → I s → (∀ o s', is_ok o = false → Q o s') →
  (∀ a s', I s' → wp solo (f a) Q s') → wp solo (ebind m f) Q s.
Proof.
  intros Hm Hs HQ Hf. apply wp_ebind. eapply wp_mono; [|by apply Hm].
  intros [a|e|] s' Hs'; [by apply Hf|by apply HQ..].
Qed.

Lemma keeps_step_filters s0 p :
  keeps (same_filters s0) (if decide (Rootfs p = "") then done_
    else wrapping "secd: pivot_root isolation failed: " (PivotRoot (Rootfs p))) ∧
  keeps (same_filters s0) (if NoNewPrivs p
    then wrapping "secd: failed setting PR_SET_NO_NEW_PRIVS: "
           (call (Prctl (unix "PR_SET_NO_NEW_PRIVS") 1))
    else done_) ∧
  keeps (same_filters s0) (if decide (CapsDrop p = [] ∧ CapsAdd p = []) then done_
    else _ ←! ignore (DropCapabilityBoundingSet (CapsAdd p)); ignore (DropCapabilities (CapsAdd p))).
Proof.
  unfold done_. split_and!.
  - apply keeps_if; [apply keeps_ret|]. apply keeps_wrapping, keeps_PivotRoot.
  - destruct (NoNewPrivs p); [|apply keeps_ret]. apply keeps_wrapping, keeps_call.
    intros s Hs. cbn. by repeat case_decide.
  - apply keeps_if; [apply keeps_ret|]. apply keeps_ebind; [|intros _]; apply keeps_ignore;
      [apply keeps_bounding|apply keeps_DropCapabilities]; by intros.
Qed.

(** The last step, once the handler for [SIGSYS] is set up. *)
Lemma keeps_filter_step I p s :
  (∀ prog s, I s → I (with_filter prog s)) → (∀ s, I s → I (with_nnp s)) →
  (∀ c s, I s → I (without_bound c s)) → I s →
  wp solo
    (filter ←! wrapping ("secd: invalid seccomp profile " +:+ quote (SeccompProfile p) +:+ ": ")
                 (Ret (GetProfileFilter (SeccompProfile p) ActionKillProcess));
     wrapping ("secd: failed applying seccomp filter " +:+ quote (SeccompProfile p) +:+ ": ")
       (ApplySeccompFilter filter)) (λ _ s', I s') s.
Proof.
  intros H1 H2 H3 Hs. revert s Hs. change (keeps I (
    filter ←! wrapping ("secd: invalid seccomp profile " +:+ quote (SeccompProfile p) +:+ ": ")
                 (Ret (GetProfileFilter (SeccompProfile p) ActionKillProcess));
     wrapping ("secd: failed applying seccomp filter " +:+ quote (SeccompProfile p) +:+ ": ")
       (ApplySeccompFilter filter))).
  apply keeps_ebind; [apply keeps_wrapping, keeps_ret|]. intros filter. apply keeps_wrapping.
  unfold ApplySeccompFilter, done_. apply keeps_if; [apply keeps_ret|].
  apply keeps_ebind; [|intros _]; apply keeps_wrapping, keeps_call; intros s Hs; cbn;
    repeat case_decide; auto.
Qed.

Lemma wp_Enforce p s0 :
  wp solo (EnforceSecurityPolicy (Some p))
    (λ r s', r = Ok tt → p_exec s' = p_exec s0 ∧
      (confined p → p_nnp s' = true ∧ ∃ prog,
        GetProfileFilter (SeccompProfile p) ActionKillProcess = Ok prog ∧
        p_filters s' = prog :: p_filters s0)) s0.
Proof.
  destruct (keeps_step_filters s0 p) as (H1 & H2 & H3). unfold EnforceSecurityPolicy.
  apply (wp_keeps_then (same_filters s0)); [exact H1|done|by intros [[]|?|] ? ? ?|intros _ s1 Hs1].
  apply (wp_keeps_then (same_filters s0)); [exact H2|done|by intros [[]|?|] ? ? ?|intros _ s2 Hs2].
  apply (wp_keeps_then (same_filters s0)); [exact H3|done|by intros [[]|?|] ? ? ?|intros _ s3 [Hf He]].
  clear H1 H2 H3. case_decide as Hp; [intros _; split; [done|]; unfold confined; naive_solver|].
  assert (∀ s4, s4 = s3 → wp solo
    (filter ←! wrapping ("secd: invalid seccomp profile " +:+ quote (SeccompProfile p) +:+ ": ")
                 (Ret (GetProfileFilter (SeccompProfile p) ActionKillProcess));
     wrapping ("secd: failed applying seccomp filter " +:+ quote (SeccompProfile p) +:+ ": ")
       (ApplySeccompFilter filter))
    (λ r s', r = Ok tt → p_exec s' = p_exec s0 ∧
      (confined p → p_nnp s' = true ∧ ∃ prog,
        GetProfileFilter (SeccompProfile p) ActionKillProcess = Ok prog ∧
        p_filters s' = prog :: p_filters s0)) s4) as Hlast.
  { intros s4 ->. apply wp_ebind, wp_wrapping. cbn [wp].
    destruct (GetProfileFilter _ _) as [prog|e|] eqn:Hprog; cbn [wrap_err]; [|done..].
    apply wp_wrapping. eapply wp_mono; [|by apply wp_ApplySeccompFilter, (profile_length _ _ _ Hprog)].
    intros r s4 H4 Hr. apply wrap_err_ok in Hr. destruct (H4 Hr) as (? & Hf4 & He4).
    rewrite He4. split; [done|]. intros _. split; [done|]. exists prog. by rewrite Hf4, Hf. }
  intros [err|] s4; cbn; intros Hs4; apply Hlast; [done|]. by destruct Hs4.
Qed.

(** Capabilities and the later steps: only [capset] touches the permitted set. *)
Lemma DropCapabilities_unknown keep k :
  existsb (is_word "ALL") keep = false →
  k ∈ keep → is_word "NONE" k = false → (∀ c, ParseCapability k ≠ Ok c) →
  ∃ e, DropCapabilities keep = Ret (Err e).
Proof.
  intros Ha Hk Hn Hu. destruct (cap_bits_unknown keep (0%Z, 0%Z) k Hk Hn Hu) as [e He].
  exists e. unfold DropCapabilities. by rewrite Ha, He.
Qed.

(** The whole command. *)
Lemma wp_secd_main f s0 :
  p_exec s0 = None →
  wp solo (secd_main f)
    (λ r s', r = Replaced → p_exec s' = Some (secd_target f) ∧
      (profileFlag f ≠ "" → profileFlag f ≠ "unrestricted" →
       p_nnp s' = true ∧ ∃ prog,
         GetProfileFilter (profileFlag f) ActionKillProcess = Ok prog ∧
         p_filters s' = prog :: p_filters s0)) s0.
Proof.
  intros Hexec. unfold secd_main. destruct (secd_target f) as [path args].
  case_decide; [done|]. apply wp_bind. eapply wp_mono; [|apply wp_Enforce].
  intros [[]|e|] s Hs; [|done..]. destruct (Hs eq_refl) as [_ Hc].
  intros [err|] s'; [done|]. intros [_ ->] _. cbn. split; [done|]. intros ? ?. by apply Hc.
Qed.

(** ** One thread among several

    As long as the goroutine has not moved, its thread sees what a single thread sees. *)
Lemma resched_moved s s' : resched s s' → moved s = true → moved s' = true.
Proof. induction 1; auto. Qed.

Lemma resched_running s s' th :
  resched s s' → threads s !! running s = Some th → moved s' = false →
  running s' = running s ∧ threads s' !! running s' = Some th ∧ moved s = false.
Proof.
  intros H. revert th. induction H as [s|s t th' u s' Ht Hu H IH|s t s' Ht H IH]; intros th Hth Hm; [done| |].
  - apply IH; [|done]. cbn. rewrite lookup_insert_ne; [done|]. by intros ->; congruence.
  - by rewrite (resched_moved _ _ H eq_refl) in Hm.
Qed.

Lemma moved_stays {A} (p : prog sys_ev A) s : moved s = true → wp kernel p (λ _ s', moved s' = true) s.
Proof.
  revert s. induction p as [a|X [c] k IH]; intros s Hs; [done|]. intros r s' (s1 & th & Hr & _ & _ & ->).
  apply IH. unfold returned. destruct r; [|destruct c]; exact (resched_moved _ _ Hr Hs).
Qed.

Lemma returned_running c r th s :
  threads s !! running s = Some th →
  threads (returned c r th s) !! running (returned c r th s) =
    Some match r with None => success c th | Some _ => th end ∧
  moved (returned c r th s) = moved s.
Proof.
  intros Hth. unfold returned. destruct r; [done|].
  destruct c; cbn; rewrite ?lookup_singleton_eq, ?lookup_insert_eq; done.
Qed.

(** What holds of every run of a single thread holds of every run that has not moved. *)
Lemma wp_unmoved {A} (p : prog sys_ev A) (Q : A → proc → Prop) s th :
  threads s !! running s = Some th → wp solo p Q th →
  wp kernel p (λ r s', moved s' = false → ∃ th', threads s' !! running s' = Some th' ∧ Q r th') s.
Proof.
  revert s th. induction p as [a|X [c] k IH]; intros s th Hth Hp; [by exists th|].
  intros r s' (s1 & th1 & Hr & Hth1 & Hm & ->).
  destruct (returned_running c r th1 s1 Hth1) as [Hret Hmv]. destruct (moved s1) eqn:Hmoved.
  { eapply wp_mono; [|by apply moved_stays; rewrite Hmv]. cbn beta. intros a s2 H1 H2. congruence. }
  destruct (resched_running _ _ _ Hr Hth Hmoved) as (_ & H1 & _). replace th1 with th in * by congruence.
  eapply IH; [exact Hret|]. apply Hp. destruct r; [done|]. split; [by apply Hm|done].
Qed.

(** Runs on which every call succeeds on the thread the goroutine started with. *)
Definition goes {A} (p : prog sys_ev A) (good : A → Prop) : Prop :=
  ∀ s th, threads s !! running s = Some th → ∃ a s' th', good a ∧ runs kernel p s a s' ∧
    s' = {| threads := <[running s := th']> (threads s); running := running s; moved := moved s |}.

Lemma goes_ret {A} (a : A) (good : A → Prop) : good a → goes (Ret a) good.
Proof.
  intros Ha s th Hth. exists a, s, th. split_and!; [done..|]. rewrite insert_id by done. by destruct s.
Qed.
Lemma goes_vis {A} c (k : option string → prog sys_ev A) (good : A → Prop) :
  (∀ path args, c ≠ Execve path args) → goes (k None) good → goes (Vis (Call c) k) good.
Proof.
  intros Hc Hk s th Hth. pose (s1 := returned c None th s).
  assert (s1 = {| threads := <[running s := success c th]> (threads s); running := running s;
                  moved := moved s |}) as Hs1
    by (subst s1; destruct c; first [done|by destruct (Hc _ _ eq_refl)]).
  destruct (Hk s1 (success c th)) as (a & s' & th' & Ha & Hrun & ->); [by rewrite Hs1; cbn; rewrite lookup_insert_eq|].
  exists a. eexists. exists th'. split; [done|]. split; [|done]. exists None, s1. split.
  - exists s, th. split_and!; [constructor|done| |done]. destruct c; first [done|by destruct (Hc _ _ eq_refl)].
  - revert Hrun. rewrite Hs1. cbn. by rewrite insert_insert_eq.
Qed.
Lemma goes_bind {A B} (p : prog sys_ev A) (f : A → prog sys_ev B) good good' :
  goes p good → (∀ a, good a → goes (f a) good') → goes (prog_bind f p) good'.
Proof.
  intros Hp Hf s th Hth. destruct (Hp s th Hth) as (a & s1 & th1 & Ha & Hrun & ->).
  destruct (Hf a Ha {| threads := <[running s := th1]> (threads s); running := running s; moved := moved s |} th1)
    as (b & s2 & th2 & Hb & Hrun2 & ->); [cbn; by rewrite lookup_insert_eq|].
  exists b. eexists. exists th2. split; [done|]. split; [by eapply runs_bind|]. cbn. by rewrite insert_insert_eq.
Qed.

(** ** Theorems *)

(** A process whose running thread has executed nothing yet. *)
Definition at_start (s0 : process) (th0 : proc) : Prop :=
  threads s0 !! running s0 = Some th0 ∧ p_exec th0 = None.

Lemma goes_call c : (∀ path args, c ≠ Execve path args) → goes (call c) (λ r, r = Ok tt).
Proof. intros Hc. apply goes_vis; [done|]. by apply goes_ret. Qed.
Lemma goes_ebind {A B} (m : prog sys_ev (outcome A)) (f : A → prog sys_ev (outcome B)) P good :
  goes m (λ r, ∃ a, r = Ok a ∧ P a) → (∀ a, P a → goes (f a) good) → goes (ebind m f) good.
Proof. intros Hm Hf. eapply goes_bind; [exact Hm|]. intros ? (a & -> & Ha). by apply Hf. Qed.
Lemma goes_then (m : prog sys_ev (outcome unit)) {B} (n : prog sys_ev (outcome B)) good :
  goes m (λ r, r = Ok tt) → goes n good → goes (_ ←! m; n) good.
Proof. intros Hm Hn. eapply goes_bind; [exact Hm|]. by intros ? ->. Qed.
Lemma goes_wrapping {A} pre (m : prog sys_ev (outcome A)) a :
  goes m (λ r, r = Ok a) → goes (wrapping pre m) (λ r, r = Ok a).
Proof. intros Hm. eapply goes_bind; [exact Hm|]. intros ? ->. by apply goes_ret. Qed.
Lemma goes_ignore {A} (m : prog sys_ev (outcome A)) : goes m (λ _, True) → goes (ignore m) (λ r, r = Ok tt).
Proof. intros Hm. eapply goes_bind; [exact Hm|]. intros ? _. by apply goes_ret. Qed.
Lemma goes_mono {A} (p : prog sys_ev A) (good good' : A → Prop) :
  (∀ a, good a → good' a) → goes p good → goes p good'.
Proof. intros Hg Hp s th Hth. destruct (Hp s th Hth) as (a & s' & th' & ? & ?). exists a, s', th'. auto. Qed.
Lemma goes_ignore_call c : (∀ path args, c ≠ Execve path args) → goes (ignore (call c)) (λ r, r = Ok tt).
Proof. intros Hc. apply goes_ignore. by eapply goes_mono; [|apply goes_call]. Qed.
Lemma goes_each {A} (f : A → prog sys_ev (outcome unit)) xs :
  (∀ x, goes (f x) (λ r, r = Ok tt)) → goes (each f xs) (λ r, r = Ok tt).
Proof. intros Hf. induction xs as [|x xs IH]; [by apply goes_ret|]. by apply goes_then. Qed.

(** Pivoting, dropping and filtering all go through when no call fails. *)
Lemma goes_Enforce p prog :
  confined p → GetProfileFilter (SeccompProfile p) ActionKillProcess = Ok prog →
  goes (EnforceSecurityPolicy (Some p)) (λ r, r = Ok tt).
Proof.
  intros [Hp1 Hp2] Hprog. unfold EnforceSecurityPolicy.
  apply goes_then; [|apply goes_then; [|apply goes_then]].
  - case_decide; [by apply goes_ret|]. apply goes_wrapping. unfold PivotRoot, done_. case_decide; [done|].
    repeat (apply goes_then; [first [by apply goes_wrapping, goes_call|by apply goes_ignore_call]|]).
    by apply goes_ignore_call.
  - destruct (NoNewPrivs p); [|by apply goes_ret]. by apply goes_wrapping, goes_call.
  - case_decide; [by apply goes_ret|]. apply goes_then; apply goes_ignore.
    + unfold DropCapabilityBoundingSet. destruct (keep_map _ _); [|by apply goes_ret].
      eapply goes_mono; [|apply goes_each]; [done|]. intros c. case_decide; [by apply goes_ret|].
      by apply goes_ignore_call.
    + unfold DropCapabilities. destruct (existsb _ _); [by apply goes_ret|].
      destruct (fold_m _ _ _) as [[low high]|e|]; [|by apply goes_ret..].
      change (goes (wrapping "capset failed: " (call (Capset (unix "LINUX_CAPABILITY_VERSION_3")
        {| Effective := low; Permitted := low; Inheritable := 0 |}
        {| Effective := high; Permitted := high; Inheritable := 0 |}))) (λ _, True)).
      eapply goes_mono; [|by apply goes_wrapping, goes_call]. done.
  - rewrite decide_False by naive_solver. apply goes_vis; [done|].
    rewrite Hprog. change (goes (wrapping ("secd: failed applying seccomp filter " +:+ quote (SeccompProfile p) +:+ ": ")
      (ApplySeccompFilter prog)) (λ r, r = Ok tt)).
    apply goes_wrapping. unfold ApplySeccompFilter. case_decide; [by apply goes_ret|].
    apply goes_then; by apply goes_wrapping, goes_call.
Qed.

Lemma wp_secd_main_kernel f s0 th0 :
  at_start s0 th0 →
  wp kernel (secd_main f)
    (λ r s', r = Replaced → ∃ th, threads s' = {[running s' := th]} ∧ p_exec th = Some (secd_target f) ∧
      (moved s' = false → profileFlag f ≠ "" → profileFlag f ≠ "unrestricted" →
       p_nnp th = true ∧ ∃ prog,
         GetProfileFilter (profileFlag f) ActionKillProcess = Ok prog ∧
         p_filters th = prog :: p_filters th0)) s0.
Proof.
  intros [Hth0 Hx]. pose proof (wp_unmoved _ _ s0 th0 Hth0 (wp_secd_main f th0 Hx)) as H1.
  assert (wp kernel (secd_main f) (λ r s', r = Replaced → ∃ th,
    threads s' = {[running s' := th]} ∧ p_exec th = Some (secd_target f)) s0) as H2.
  { unfold secd_main. destruct (secd_target f) as [path args]. case_decide; [done|]. apply wp_bind.
    apply wp_always. intros [[]|e|] s; [|done..]. intros [err|] s1; [done|].
    intros (s2 & th & _ & _ & _ & ->) _. by exists (success (Execve path args) th). }
  eapply wp_mono; [|exact (wp_and _ _ _ _ _ H1 H2)]. cbn beta. intros r s' [H3 H4] Hr.
  destruct (H4 Hr) as (th & Hth & Hp). exists th. split_and!; [done..|]. intros Hm Hp1 Hp2.
  destruct (H3 Hm) as (th' & Hth' & Hq). rewrite Hth, lookup_singleton_eq in Hth'. injection Hth' as <-.
  by apply Hq.
Qed.

(** C9: the wrapper replaces itself with the target only when enforcement went
    through, and with the target asked for; and when the goroutine of [main] has stayed
    on one thread, unless the profile is empty or [unrestricted], that program then has
    [no_new_privs] set, whatever the flag says, and carries exactly the filter of
    the profile besides those the thread started with.  The calls act on one thread and
    nothing locks the goroutine to it: the condition is needed, as
    [migration_loses_policy] shows and the security documentation lists. *)
Theorem secd_main_confines f s0 th0 :
  at_start s0 th0 →
  wp kernel (secd_main f)
    (λ r s', r = Replaced → ∃ th, threads s' = {[running s' := th]} ∧ p_exec th = Some (secd_target f) ∧
      (moved s' = false → profileFlag f ≠ "" → profileFlag f ≠ "unrestricted" →
       p_nnp th = true ∧ ∃ prog,
         GetProfileFilter (profileFlag f) ActionKillProcess = Ok prog ∧
         p_filters th = prog :: p_filters th0)) s0.
Proof. by apply wp_secd_main_kernel. Qed.

(** The condition of [secd_main_confines] is needed: for every command line with a known
    profile there is a run, on which every call succeeds, where the goroutine
    moves to another thread of the wrapper just before [execve]; the target then runs in
    the state that thread was in, untouched by the policy: without the filter, without
    [no_new_privs], with its capabilities. *)
Theorem migration_loses_policy f s0 th0 t u thu prog :
  running s0 = t → threads s0 !! t = Some th0 → threads s0 !! u = Some thu → t ≠ u →
  Forall (λ filter, verdict filter (unix "AUDIT_ARCH_X86_64") (unix "SYS_EXECVE") = ActionAllow) (p_filters thu) →
  (secd_target f).1 ≠ "" → profileFlag f ≠ "" → profileFlag f ≠ "unrestricted" →
  GetProfileFilter (profileFlag f) ActionKillProcess = Ok prog →
  ∃ s', runs kernel (secd_main f) s0 Replaced s' ∧
    threads s' = {[u := with_exec (secd_target f).1 (secd_target f).2 thu]}.
Proof.
  intros Ht Hth0 Hthu Hne Hall Htarget Hp1 Hp2 Hprog. unfold secd_main.
  destruct (secd_target f) as [path args]. cbn [fst snd] in *. rewrite decide_False by done.
  destruct (goes_Enforce (secd_policy f) prog) with (s := s0) (th := th0)
    as (r & s1 & th1 & -> & Hrun & Hs1); [done|done|by rewrite Ht|].
  exists (returned (Execve path args) None thu {| threads := threads s1; running := u; moved := true |}).
  split; [|done]. eapply runs_bind; [exact Hrun|]. eexists None, _. split; [|by split].
  exists {| threads := threads s1; running := u; moved := true |}, thu.
  assert (threads s1 !! u = Some thu) as Hu by (rewrite Hs1, Ht; cbn; by rewrite lookup_insert_ne).
  split; [eapply resched_move; [by exists thu|constructor]|]. split; [exact Hu|]. by split.
Qed.

(** C29: [DropCapabilities] touches the thread the goroutine is on when it calls [capset]
    and no other.  When the
    keep list has [ALL] it succeeds and nothing changes; otherwise success leaves the
    effective and permitted sets of that thread equal to the capabilities the list
    names, nothing inheritable, and a failure leaves every thread as it was.  The word
    [NONE] names nothing, so an empty list and a list of [NONE] only drop everything;
    beside other names it has no effect, while the comment of the function says that a
    list that contains it drops all. *)
Theorem DropCapabilities_exact keep s :
  caps_in_range →
  wp kernel (DropCapabilities keep)
    (λ r s',
       if existsb (is_word "ALL") keep then r = Ok tt ∧ s' = s
       else match r with
            | Ok _ => ∃ s1 th low high, resched s s1 ∧ threads s1 !! running s1 = Some th ∧
                s' = {| threads := <[running s1 := with_caps low high th]> (threads s1);
                        running := running s1; moved := moved s1 |} ∧
                Effective low = Permitted low ∧ Effective high = Permitted high ∧
                Inheritable low = 0%Z ∧ Inheritable high = 0%Z ∧
                ∀ c, (0 ≤ c < 64)%Z →
                  in_masks (Permitted low, Permitted high) c = true ↔ ∃ k, k ∈ keep ∧ grants k c
            | _ => resched s s'
            end) s.
Proof.
  intros Hr. unfold DropCapabilities. destruct (existsb (is_word "ALL") keep) eqn:Ha; [done|].
  apply wp_ebind. cbn [wp].
  destruct (fold_m cap_bit (0%Z, 0%Z) keep) as [[low high]|e|] eqn:Hf; [|constructor..].
  apply wp_wrapping, wp_vis. intros [err|] s'; intros (s1 & th & Hs & Hth & _ & ->); [done|].
  cbn [wp wrap_err]. exists s1, th. eexists _, _. split_and!; [done..|]. cbn [Permitted]. intros c Hc.
  rewrite (cap_bits_spec _ _ _ Hr Hf c Hc). unfold in_masks at 1. cbn [fst snd].
  rewrite !Z.testbit_0_l. destruct (c <? 32)%Z; naive_solver.
Qed.

(** A name the table does not know makes the wrapper fail open: with one such
    name among the capabilities to keep, no run of the wrapper, even on a single thread,
    reduces the permitted and effective sets, though the target is still run. *)
Theorem unknown_capability_fails_open f k s0 :
  k ∈ flag_list (capsAddFlag f) → is_word "NONE" k = false → (∀ c, ParseCapability k ≠ Ok c) →
  wp solo (secd_main f) (λ _ s', p_caps s' = p_caps s0) s0.
Proof.
  intros Hk Hn Hu. pose (I := λ s, p_caps s = p_caps s0).
  assert (keeps I (EnforceSecurityPolicy (Some (secd_policy f)))) as Henf.
  { unfold EnforceSecurityPolicy. unfold done_.
    assert (keeps I (DropCapabilities (CapsAdd (secd_policy f)))) as Hdrop.
    { destruct (existsb (is_word "ALL") (flag_list (capsAddFlag f))) eqn:Ha.
      - unfold DropCapabilities. cbn [CapsAdd secd_policy]. rewrite Ha. apply keeps_ret.
      - destruct (DropCapabilities_unknown _ k Ha Hk Hn Hu) as [e He]. cbn [CapsAdd secd_policy].
        rewrite He. apply keeps_ret. }
    apply keeps_ebind; [apply keeps_if; [apply keeps_ret|apply keeps_wrapping, keeps_PivotRoot]|intros _].
    apply keeps_ebind; [destruct (NoNewPrivs _); [|apply keeps_ret]|intros _].
    { apply keeps_wrapping, keeps_call. intros s Hs. cbn. by repeat case_decide. }
    apply keeps_ebind; [apply keeps_if; [apply keeps_ret|]|intros _].
    { apply keeps_ebind; [|intros _]; apply keeps_ignore; [by apply keeps_bounding|done]. }
    apply keeps_if; [apply keeps_ret|].
    intros s Hs [err|] s'; [intros ->|intros [_ ->]]; by apply keeps_filter_step. }
  unfold secd_main. destruct (secd_target f) as [path args]. case_decide; [done|].
  apply wp_bind. eapply wp_mono; [|by apply Henf].
  intros [[]|e|] s Hs; [|done..]. intros [err|] s'; [by intros ->|]. by intros [_ ->].
Qed.

(** Under [strict] the wrapper never gets to its target: the filter it installs
    kills the [execve] it then needs. *)
Theorem strict_never_execs f s0 :
  syscalls_distinct → ActionKillProcess ≠ ActionAllow →
  to_lower (trim_space (profileFlag f)) = "strict" → profileFlag f ≠ "" →
  profileFlag f ≠ "unrestricted" →
  wp solo (secd_main f) (λ r _, r ≠ Replaced) s0.
Proof.
  intros Hd Hne Hp Hp1 Hp2. unfold secd_main. destruct (secd_target f) as [path args].
  case_decide; [done|]. apply wp_bind. eapply wp_mono; [|apply wp_Enforce].
  intros [[]|e|] s Hs; [|done..]. destruct (Hs eq_refl) as (_ & _ & prog & Hprog & Hf); [done|].
  intros [err|] s'; [done|]. intros [Hall _]. exfalso. cbn [may_succeed] in Hall.
  rewrite Hf in Hall. apply Forall_cons in Hall as [Hall _].
  destruct (denied_not_allowed "strict" ("execve" :: "execveat" :: admin_names) "execve")
    as (names & Hin & Hout); [by left|by left|].
  destruct (profile_run (profileFlag f) names ActionKillProcess (unix "AUDIT_ARCH_X86_64")
    (unix "SYS_EXECVE")) as (prog' & Hprog' & Hv); [by rewrite Hp|].
  cbn [SeccompProfile secd_policy] in Hprog. rewrite Hprog in Hprog'. injection Hprog' as <-.
  rewrite decide_True, decide_False in Hv; [congruence| |done].
  eapply not_named; [done| |done]. done.
Qed.

End facts.

(** ** Witnesses *)

Definition sample_flags (profile caps : string) : secd_flags := {|
  profileFlag := profile; capsAddFlag := caps; capsDropFlag := "ALL"; noNewPrivsFlag := false;
  execFlag := "/bin/app"; rootfsFlag := ""; mountNSFlag := false; posArgs := ["-v"] |}.

(** A process with every capability. *)
Definition fresh_proc : proc := {|
  p_nnp := false; p_bound := list_to_set (Z.of_nat <$> seq 0 41); p_caps := None; p_filters := [];
  p_exec := None |}.

Definition run_wrapper (f : secd_flags) : secd_end * proc :=
  exec (@obliging x86_64) (@secd_main x86_64 no_tables f) fresh_proc.

(** A wrapper whose goroutine is on the first of two such threads. *)
Definition fresh_process : process := {|
  threads := {[0 := fresh_proc; 1 := fresh_proc]}; running := 0; moved := false |}.

(** On a run where every call succeeds on one thread, the flag [-no-new-privs=false] has
    no effect. *)
Lemma secd_main_confines_witness :
  let f := sample_flags "app-default" "CAP_KILL" in
  ((run_wrapper f).1 = Replaced ∧ p_nnp (run_wrapper f).2 = true) ∧
  wp (@kernel x86_64 linux_bpf) (@secd_main x86_64 no_tables f)
    (λ r s', r = Replaced → ∃ th, threads s' = {[running s' := th]} ∧ p_exec th = Some (secd_target f) ∧
      (moved s' = false → profileFlag f ≠ "" → profileFlag f ≠ "unrestricted" →
       p_nnp th = true ∧ ∃ prog,
         @GetProfileFilter x86_64 no_tables (profileFlag f) (@ActionKillProcess x86_64) = Ok prog ∧
         p_filters th = prog :: p_filters fresh_proc)) fresh_process.
Proof.
  split; [split; vm_compute; reflexivity|].
  apply (@secd_main_confines x86_64 linux_bpf no_tables). split; reflexivity.
Defined.

Lemma migration_loses_policy_witness :
  ∃ s', runs (@kernel x86_64 linux_bpf) (@secd_main x86_64 no_tables (sample_flags "app-default" "")) fresh_process
          Replaced s' ∧
    threads s' = {[1 := with_exec "/bin/app" ["/bin/app"; "-v"] fresh_proc]}.
Proof.
  destruct (@GetProfileFilter x86_64 no_tables "app-default" (@ActionKillProcess x86_64)) as [prog|e|] eqn:Hp.
  - apply (@migration_loses_policy x86_64 linux_bpf no_tables (sample_flags "app-default" "") fresh_process
      fresh_proc 0 1 fresh_proc prog); try reflexivity; try discriminate.
    + constructor.
    + exact Hp.
  - exfalso. apply (f_equal is_ok) in Hp. vm_compute in Hp. discriminate Hp.
  - exfalso. apply (f_equal is_ok) in Hp. vm_compute in Hp. discriminate Hp.
Defined.

Lemma caps_in_range_x86_64 : @caps_in_range x86_64.
Proof.
  intros n c H. unfold capNameToNum in H. rewrite lookup_fmap, fmap_Some in H.
  destruct H as (k & Hk & ->).
  assert (map_Forall (λ _ k, (0 ≤ @unix x86_64 k < 64)%Z)
    (list_to_map cap_table : gmap string string)) as Hall.
  { apply (proj1 (bool_decide_eq_true _)). vm_compute. reflexivity. }
  exact (Hall n k Hk).
Defined.

Lemma DropCapabilities_exact_witness :
  wp (@kernel x86_64 linux_bpf) (@DropCapabilities x86_64 no_tables ["CAP_KILL"; "none"])
    (λ r s',
       if existsb (is_word "ALL") ["CAP_KILL"; "none"] then r = Ok tt ∧ s' = fresh_process
       else match r with
            | Ok _ => ∃ s1 th low high, resched fresh_process s1 ∧ threads s1 !! running s1 = Some th ∧
                s' = {| threads := <[running s1 := with_caps low high th]> (threads s1);
                        running := running s1; moved := moved s1 |} ∧
                Effective low = Permitted low ∧ Effective high = Permitted high ∧
                Inheritable low = 0%Z ∧ Inheritable high = 0%Z ∧
                ∀ c, (0 ≤ c < 64)%Z →
                  in_masks (Permitted low, Permitted high) c = true ↔
                  ∃ k, k ∈ ["CAP_KILL"; "none"] ∧ @grants x86_64 no_tables k c
            | _ => resched fresh_process s'
            end) fresh_process.
Proof.
  apply (@DropCapabilities_exact x86_64 linux_bpf no_tables ["CAP_KILL"; "none"] fresh_process).
  apply caps_in_range_x86_64.
Defined.

(** [CAP_EVERYTHING] is unknown: the target runs with its sets never reduced. *)
Lemma unknown_capability_fails_open_witness :
  let f := sample_flags "app-default" "CAP_KILL,CAP_EVERYTHING" in
  (run_wrapper f).1 = Replaced ∧ p_caps (run_wrapper f).2 = None ∧
  wp (@solo x86_64 linux_bpf) (@secd_main x86_64 no_tables f) (λ _ s', p_caps s' = None) fresh_proc.
Proof.
  split; [vm_compute; reflexivity|]. split; [vm_compute; reflexivity|].
  apply (@unknown_capability_fails_open x86_64 linux_bpf no_tables _ "CAP_EVERYTHING" fresh_proc).
  - right. left.
  - vm_compute. reflexivity.
  - intros c H.
    assert (is_ok (@ParseCapability x86_64 no_tables "CAP_EVERYTHING") = false) as Hn
      by (vm_compute; reflexivity).
    rewrite H in Hn. discriminate Hn.
Defined.

Lemma strict_never_execs_witness :
  wp (@solo x86_64 linux_bpf) (@secd_main x86_64 no_tables (sample_flags "Strict" ""))
    (λ r _, r ≠ Replaced) fresh_proc.
Proof.
  apply (@strict_never_execs x86_64 linux_bpf no_tables).
  - apply (proj1 (bool_decide_eq_true _)). vm_compute. reflexivity.
  - vm_compute. discriminate.
  - vm_compute. reflexivity.
  - discriminate.
  - discriminate.
Defined.
