(* ===== verification/Protocol.v ===== *)
(** * Frames of the control plane ([internal/vsockd/protocol.go])

    Length-prefixed frames over a byte stream.  A stream delivers its bytes in
    pieces of the transport's choice, so a reader is a list of chunks and the way
    the stream ends; one [Read] returns at most one chunk. *)

From Stdlib Require Import Ascii SpecFloat.
From S2P Require Import Prelude GoStrings GoStrconv Prog.

Definition MaxFrameSize : Z := 10 * 1024 * 1024.

(** ** Messages *)

Record RPCRequest := {
  ID : string;
  Command : string;
  Service : string;
  Args : list string;
  Payload : string
}.

Record ServiceInfo := {
  si_Name : string; si_State : string; si_PID : Z; si_Exec : string; si_MemoryLimit : Z;
  si_CPUQuota : spec_float; si_Restart : string; si_SeccompProfile : string;
  si_After : list string
}.

Record SystemMetrics := {
  UptimeSeconds : spec_float; NumGoroutine : Z; MemoryAlloc : Z; MemorySys : Z;
  NumServices : Z
}.

(** ** Byte order *)

(** [binary.BigEndian.PutUint32] and [Uint32]. *)
Definition be32 (x : Z) : string :=
  String (of_byte (Z.shiftr x 24)) (String (of_byte (Z.shiftr x 16))
    (String (of_byte (Z.shiftr x 8)) (String (of_byte x) ""))).

Definition un_be32 (s : string) : Z :=
  match s with
  | String a (String b (String c (String d _))) =>
      Z.lor (byte_of d) (Z.lor (Z.shiftl (byte_of c) 8)
        (Z.lor (Z.shiftl (byte_of b) 16) (Z.shiftl (byte_of a) 24)))
  | _ => 0
  end.

(** ** Writing *)

(** One [Write] on the connection; the answer is the error, if any. *)
Inductive write_ev : Type → Type :=
| Write (data : string) : write_ev (option string).

Definition write (data : string) : prog write_ev (outcome unit) :=
  Vis (Write data) (λ r, Ret match r with Some e => Err e | None => Ok tt end).

Definition frame_length (payload : string) : Z := wrap_u 32 (Z.of_nat (String.length payload)).

Definition WriteFrame (payload : string) : prog write_ev (outcome unit) :=
  let length := frame_length payload in
  _ ←! wrapping "failed writing frame length header: " (write (be32 length));
  if (0 <? length)%Z then wrapping "failed writing frame payload: " (write payload) else done_.

(** ** Reading *)

Inductive stream_end := EOF | Broken (err : string).

Record reader := { chunks : list string; stream_ends : stream_end }.

Definition ErrEOF : string := "EOF".
Definition ErrUnexpectedEOF : string := "unexpected EOF".

(** [io.ReadFull] with [n] bytes to go and [got] read: the loop of [io.ReadAtLeast]
    over [Read] calls, each served from the first chunk left. *)
Fixpoint read_full (n : nat) (got : string) (cs : list string) (e : stream_end)
    : outcome (string * list string) :=
  match n with
  | O => Ok (got, cs)
  | _ =>
      match cs with
      | [] =>
          Err match e with
              | Broken err => err
              | EOF => if decide (got = "") then ErrEOF else ErrUnexpectedEOF
              end
      | c :: cs =>
          if (String.length c <? n)%nat
          then read_full (n - String.length c) (got +:+ c) cs e
          else Ok (got +:+ str_take n c, str_drop n c :: cs)
      end
  end.

Definition ReadFull (n : nat) (r : reader) : outcome (string * reader) :=
  '(data, cs) ← read_full n "" (chunks r) (stream_ends r);
  Ok (data, {| chunks := cs; stream_ends := stream_ends r |}).

(** The payload, and the stream after the frame. *)
Definition ReadFrame (r : reader) : outcome (string * reader) :=
  '(header, r1) ← ReadFull 4 r;
  let length := un_be32 header in
  if (MaxFrameSize <? length)%Z then
    Err ("frame size " +:+ itoa length +:+ " exceeds maximum allowed limit (" +:+
         itoa MaxFrameSize +:+ " bytes)")
  else if (0 <? length)%Z then
    wrap_err "failed reading frame payload: " (ReadFull (Z.to_nat length) r1)
  else Ok ("", r1).

(** * Properties *)

(** ** Byte order *)

Lemma be32_length x : String.length (be32 x) = 4.
Proof. done. Qed.

Lemma be32_inv x : (0 ≤ x < 2 ^ 32)%Z → un_be32 (be32 x) = x.
Proof.
  intros Hx. unfold be32, un_be32. rewrite !byte_of_of_byte.
  set (d := (x `mod` 256)%Z). set (c := (Z.shiftr x 8 `mod` 256)%Z).
  set (b := (Z.shiftr x 16 `mod` 256)%Z). set (a := (Z.shiftr x 24 `mod` 256)%Z).
  assert (0 ≤ d < 2 ^ 8 ∧ 0 ≤ c < 2 ^ 8 ∧ 0 ≤ b < 2 ^ 8)%Z as (? & ? & ?)
    by (unfold d, c, b; split_and!; apply Z.mod_pos_bound; lia).
  replace (Z.lor (Z.shiftl b 16) (Z.shiftl a 24)) with (Z.shiftl (Z.lor b (Z.shiftl a 8)) 16)
    by (rewrite Z.shiftl_lor, Z.shiftl_shiftl by lia; done).
  replace (Z.lor (Z.shiftl c 8) (Z.shiftl (Z.lor b (Z.shiftl a 8)) 16))
    with (Z.shiftl (Z.lor c (Z.shiftl (Z.lor b (Z.shiftl a 8)) 8)) 8)
    by (rewrite Z.shiftl_lor, Z.shiftl_shiftl by lia; done).
  rewrite !lor_shiftl by lia. unfold a, b, c, d. rewrite !Z.shiftr_div_pow2 by lia.
  change (2 ^ 8)%Z with 256%Z. change (2 ^ 16)%Z with (256 * 256)%Z.
  change (2 ^ 24)%Z with (256 * 256 * 256)%Z.
  rewrite <-!Z.div_div by lia.
  pose proof (Z.div_mod x 256 ltac:(lia)). pose proof (Z.div_mod (x / 256) 256 ltac:(lia)).
  pose proof (Z.div_mod (x / 256 / 256) 256 ltac:(lia)).
  rewrite (Z.mod_small (x / 256 / 256 / 256) 256); [lia|].
  split; [repeat apply Z.div_pos; lia|].
  repeat apply Z.div_lt_upper_bound; lia.
Qed.

(** ** Streams as byte strings *)

Definition str_concat (cs : list string) : string := foldr String.append "" cs.
Definition bytes (r : reader) : string := str_concat (chunks r).

Lemma str_drop_take_app n s t :
  String.length s < n →
  str_take n (s +:+ t) = s +:+ str_take (n - String.length s) t ∧
  str_drop n (s +:+ t) = str_drop (n - String.length s) t.
Proof.
  revert n. induction s as [|a s IH]; intros n Hn; cbn [String.length] in *.
  - rewrite !str_app_nil_l. by rewrite Nat.sub_0_r.
  - destruct n as [|n]; [lia|]. rewrite !str_app_cons. cbn [str_take str_drop].
    destruct (IH n) as [-> ->]; [lia|done].
Qed.

Lemma str_take_drop_short n s t :
  n ≤ String.length s →
  str_take n (s +:+ t) = str_take n s ∧ str_drop n (s +:+ t) = str_drop n s +:+ t.
Proof.
  revert s. induction n as [|n IH]; intros s Hn; [by rewrite !str_take_0, !str_drop_0|].
  destruct s as [|a s]; cbn [String.length] in *; [lia|].
  - rewrite !str_app_cons. cbn [str_take str_drop]. destruct (IH s) as [-> ->]; [lia|done].
Qed.

(** However the bytes are cut into chunks, [read_full] takes the first [n] of them, *)
Lemma read_full_enough n got cs e :
  n ≤ String.length (str_concat cs) →
  ∃ cs', read_full n got cs e = Ok (got +:+ str_take n (str_concat cs), cs') ∧
         str_concat cs' = str_drop n (str_concat cs).
Proof.
  revert n got. induction cs as [|c cs IH]; intros n got Hn.
  - cbn in Hn. replace n with 0 by lia. exists []. cbn. by rewrite str_app_nil_r.
  - destruct n as [|n].
    { exists (c :: cs). cbn [read_full]. by rewrite str_take_0, str_drop_0, str_app_nil_r. }
    change (str_concat (c :: cs)) with (c +:+ str_concat cs) in *.
    rewrite str_length_app in Hn. cbn [read_full].
    destruct (Nat.ltb_spec (String.length c) (S n)) as [Hlt|Hge].
    + destruct (str_drop_take_app (S n) c (str_concat cs) Hlt) as [-> ->].
      destruct (IH (S n - String.length c) (got +:+ c)) as (cs' & -> & Hcs'); [lia|].
      exists cs'. by rewrite str_app_assoc.
    + destruct (str_take_drop_short (S n) c (str_concat cs)) as [-> ->]; [lia|].
      by eexists.
Qed.

(** and fails when there are fewer. *)
Lemma read_full_short n got cs e :
  String.length (str_concat cs) < n →
  ∃ err, read_full n got cs e = Err err ∧
    (e = EOF → err = if decide (got +:+ str_concat cs = "") then ErrEOF else ErrUnexpectedEOF).
Proof.
  revert n got. induction cs as [|c cs IH]; intros n got Hn.
  - destruct n as [|n]; [cbn in Hn; lia|]. cbn [read_full]. eexists. split; [done|].
    intros ->. cbn. by rewrite str_app_nil_r.
  - change (str_concat (c :: cs)) with (c +:+ str_concat cs) in *.
    rewrite str_length_app in Hn. destruct n as [|n]; [lia|]. cbn [read_full].
    rewrite (proj2 (Nat.ltb_lt _ _)) by lia.
    destruct (IH (S n - String.length c) (got +:+ c)) as (err & -> & He); [lia|].
    exists err. rewrite str_app_assoc in He. by split.
Qed.

Lemma ReadFull_enough n r :
  n ≤ String.length (bytes r) →
  ∃ r', ReadFull n r = Ok (str_take n (bytes r), r') ∧
        bytes r' = str_drop n (bytes r) ∧ stream_ends r' = stream_ends r.
Proof.
  intros Hn. destruct (read_full_enough n "" (chunks r) (stream_ends r) Hn) as (cs' & Hr & Hcs).
  unfold ReadFull. rewrite Hr. cbn. by eexists.
Qed.

Lemma ReadFull_short n r :
  String.length (bytes r) < n →
  ∃ err, ReadFull n r = Err err ∧
    (stream_ends r = EOF → err = if decide (bytes r = "") then ErrEOF else ErrUnexpectedEOF).
Proof.
  intros Hn. destruct (read_full_short n "" (chunks r) (stream_ends r) Hn) as (err & Hr & He).
  unfold ReadFull. rewrite Hr. cbn. by eexists.
Qed.

(** ** Frames *)

Definition encode_frame (payload : string) : string :=
  be32 (Z.of_nat (String.length payload)) +:+ payload.

Definition fits (payload : string) : Prop := (Z.of_nat (String.length payload) ≤ MaxFrameSize)%Z.

Lemma ReadFrame_encoded payload rest r :
  fits payload → bytes r = encode_frame payload +:+ rest →
  ∃ r', ReadFrame r = Ok (payload, r') ∧ bytes r' = rest ∧ stream_ends r' = stream_ends r.
Proof.
  unfold fits, MaxFrameSize. intros Hfit Hb. unfold encode_frame in Hb. rewrite str_app_assoc in Hb.
  pose proof (be32_length (Z.of_nat (String.length payload))) as Hlen.
  destruct (ReadFull_enough 4 r) as (r1 & Hr1 & Hb1 & He1).
  { rewrite Hb, str_length_app, Hlen. lia. }
  unfold ReadFrame. rewrite Hr1. cbn [mbind outcome_bind].
  rewrite Hb, str_drop_len in Hb1 by done. rewrite Hb, str_take_len, be32_inv by (done || lia).
  unfold MaxFrameSize. rewrite (proj2 (Z.ltb_ge _ _)) by lia.
  destruct (Z.ltb_spec 0 (Z.of_nat (String.length payload))) as [Hpos|Hz].
  - rewrite Nat2Z.id. destruct (ReadFull_enough (String.length payload) r1) as (r2 & Hr2 & Hb2 & He2).
    { rewrite Hb1, str_length_app. lia. }
    exists r2. rewrite Hr2, Hb1, str_take_app. split_and!; [done| |by rewrite He2].
    by rewrite Hb2, Hb1, str_drop_app.
  - exists r1. assert (payload = "") as -> by (destruct payload; [done|cbn in Hz; lia]).
    by rewrite Hb1, str_app_nil_l.
Qed.

(** Read [n] frames. *)
Fixpoint read_frames (n : nat) (r : reader) : outcome (list string * reader) :=
  match n with
  | O => Ok ([], r)
  | S n =>
      '(p, r1) ← ReadFrame r;
      '(ps, r2) ← read_frames n r1;
      Ok (p :: ps, r2)
  end.

Definition encode_frames (ps : list string) : string := str_concat (encode_frame <$> ps).

Lemma read_frames_encoded ps rest r :
  Forall fits ps → bytes r = encode_frames ps +:+ rest →
  ∃ r', read_frames (length ps) r = Ok (ps, r') ∧ bytes r' = rest ∧ stream_ends r' = stream_ends r.
Proof.
  intros Hps. revert r. induction Hps as [|p ps Hp Hps IH]; intros r Hb.
  - exists r. by rewrite str_app_nil_l in Hb.
  - change (encode_frames (p :: ps)) with (encode_frame p +:+ encode_frames ps) in Hb.
    rewrite str_app_assoc in Hb.
    destruct (ReadFrame_encoded p _ r Hp Hb) as (r1 & Hr1 & Hb1 & He1).
    destruct (IH r1 Hb1) as (r2 & Hr2 & Hb2 & He2).
    exists r2. cbn [length read_frames]. rewrite Hr1. cbn [mbind outcome_bind]. rewrite Hr2. cbn.
    by rewrite He2.
Qed.

(** The wire: what has been written so far; a failed [Write] is the end of the
    conversation for the model. *)
Definition wire : env_rel write_ev string := λ X e s x s',
  match e in write_ev Y return Y → Prop with
  | Write data => λ r, match r with None => s' = s +:+ data | Some _ => True end
  end x.

Lemma wp_WriteFrame payload s :
  fits payload →
  wp wire (WriteFrame payload) (λ r s', r = Ok tt → s' = s +:+ encode_frame payload) s.
Proof.
  unfold fits, MaxFrameSize. intros Hfit. unfold WriteFrame, frame_length.
  rewrite wrap_u_id by lia. unfold encode_frame.
  intros [err|] s1; [done|]. cbn. intros ->.
  destruct (Z.ltb_spec 0 (Z.of_nat (String.length payload))) as [Hpos|Hz].
  - intros [err|] s2; [done|]. cbn. intros -> _. by rewrite str_app_assoc.
  - cbn. intros _. assert (payload = "") as -> by (destruct payload; [done|cbn in Hz; lia]).
    by rewrite str_app_nil_r.
Qed.

(** * Theorems *)

Definition write_all (ps : list string) : prog write_ev (outcome unit) := each WriteFrame ps.

(** C11: framing is lossless and independent of fragmentation: if every frame of a
    list of payloads of at most 10 MiB was written, a reader that gets those bytes,
    cut into chunks in any way and followed by anything, reads back exactly the
    payloads in order and is left at what follows. *)
Theorem frames_roundtrip ps rest :
  Forall fits ps →
  wp wire (write_all ps) (λ res sent, res = Ok tt →
    ∀ r, bytes r = sent +:+ rest →
    ∃ r', read_frames (length ps) r = Ok (ps, r') ∧ bytes r' = rest) "".
Proof.
  intros Hps.
  cut (wp wire (write_all ps) (λ res sent, res = Ok tt → sent = encode_frames ps) "").
  { apply wp_mono. intros res sent Hs Hres r Hr. rewrite (Hs Hres) in Hr.
    destruct (read_frames_encoded ps rest r Hps Hr) as (r' & ? & ? & _). by exists r'. }
  assert (∀ s, wp wire (write_all ps) (λ res sent, res = Ok tt → sent = s +:+ encode_frames ps) s)
    as Hgen; [|apply (Hgen "")].
  unfold write_all. induction Hps as [|p ps Hp Hps IH]; intros s.
  - cbn. by rewrite str_app_nil_r.
  - cbn [each]. apply wp_ebind. eapply wp_mono; [|by apply wp_WriteFrame].
    intros [[]|e|] s1 Hs1; [|done..]. rewrite (Hs1 eq_refl).
    eapply wp_mono; [|apply IH]. intros res s2 Hs2 Hres. rewrite (Hs2 Hres).
    change (encode_frames (p :: ps)) with (encode_frame p +:+ encode_frames ps).
    by rewrite str_app_assoc.
Qed.

(** The reader never accepts less or more than a frame announces: a length above
    10 MiB is refused on the header alone, whatever follows; a stream that ends
    inside a frame is an error, [EOF] only when no byte came at all. *)
Theorem ReadFrame_rejects r :
  (∀ n rest, (MaxFrameSize < n < 2 ^ 32)%Z → bytes r = be32 n +:+ rest →
     ∃ e, ReadFrame r = Err ("frame size " +:+ e)) ∧
  (∀ payload cut more, fits payload → encode_frame payload = bytes r +:+ String cut more →
     ∃ e, ReadFrame r = Err e ∧ (stream_ends r = EOF → (e = ErrEOF ↔ bytes r = ""))).
Proof.
  split.
  - intros n rest Hn Hb. pose proof (be32_length n) as Hlen.
    destruct (ReadFull_enough 4 r) as (r1 & Hr1 & _).
    { rewrite Hb, str_length_app, Hlen. lia. }
    unfold ReadFrame. rewrite Hr1. cbn [mbind outcome_bind]. rewrite Hb.
    unfold MaxFrameSize in Hn. rewrite str_take_len, be32_inv by (done || lia).
    rewrite (proj2 (Z.ltb_lt _ _)) by (unfold MaxFrameSize; lia). by eexists.
  - intros payload cut more Hfit Heq. unfold fits, MaxFrameSize in Hfit.
    unfold encode_frame in Heq.
    pose proof (be32_length (Z.of_nat (String.length payload))) as Hlen.
    pose proof (f_equal String.length Heq) as Hl. rewrite !str_length_app, Hlen in Hl.
    cbn [String.length] in Hl. unfold ReadFrame.
    destruct (Nat.lt_ge_cases (String.length (bytes r)) 4) as [Hs|Hs].
    { destruct (ReadFull_short 4 r Hs) as (e & -> & He). cbn. eexists. split; [done|].
      intros HE. rewrite (He HE). case_decide; naive_solver. }
    destruct (ReadFull_enough 4 r Hs) as (r1 & Hr1 & Hb1 & He1). rewrite Hr1.
    cbn [mbind outcome_bind].
    assert (str_take 4 (bytes r) = be32 (Z.of_nat (String.length payload))) as Htake.
    { destruct (str_take_drop_short 4 (bytes r) (String cut more) Hs) as [<- _].
      by rewrite <-Heq, str_take_len. }
    rewrite Htake, be32_inv by lia. unfold MaxFrameSize. rewrite (proj2 (Z.ltb_ge _ _)) by lia.
    rewrite (proj2 (Z.ltb_lt _ _)) by lia. rewrite Nat2Z.id.
    destruct (ReadFull_short (String.length payload) r1) as (e & -> & _).
    { rewrite Hb1, str_length_drop. lia. }
    cbn. eexists. split; [done|]. intros _. split; [done|]. intros Hb. rewrite Hb in Hs. cbn in Hs. lia.
Qed.

(** ** Witnesses *)

Lemma frames_roundtrip_witness :
  Forall fits ["ping"; ""; "stop"] ∧
  wp wire (write_all ["ping"; ""; "stop"]) (λ res sent, res = Ok tt →
    ∀ r, bytes r = sent +:+ "tail" →
    ∃ r', read_frames 3 r = Ok (["ping"; ""; "stop"], r') ∧ bytes r' = "tail") "".
Proof.
  assert (Forall fits ["ping"; ""; "stop"]) as Hf
    by (repeat constructor; unfold fits, MaxFrameSize; cbn; lia).
  split; [exact Hf|]. apply (frames_roundtrip ["ping"; ""; "stop"] "tail" Hf).
Defined.

Lemma ReadFrame_rejects_witness :
  (∃ e, ReadFrame {| chunks := [be32 (11 * 1024 * 1024); "x"]; stream_ends := EOF |} =
     Err ("frame size " +:+ e)) ∧
  (∃ e, ReadFrame {| chunks := [be32 4; "pi"]; stream_ends := EOF |} = Err e ∧ e ≠ ErrEOF).
Proof.
  split.
  - apply (proj1 (ReadFrame_rejects {| chunks := [be32 (11 * 1024 * 1024); "x"]; stream_ends := EOF |})
      (11 * 1024 * 1024)%Z "x"); [unfold MaxFrameSize; lia|reflexivity].
  - destruct (proj2 (ReadFrame_rejects {| chunks := [be32 4; "pi"]; stream_ends := EOF |})
      "ping" "n"%char "g") as (e & He & Hiff).
    + unfold fits, MaxFrameSize. cbn. lia.
    + reflexivity.
    + exists e. split; [exact He|]. intros Heq. apply (Hiff eq_refl) in Heq. discriminate Heq.
Defined.
