(* ===== verification/Server.v ===== *)
(** * Control-plane server and addresses

    [internal/vsockd/server.go] and the address syntax of [internal/vsockd/transport.go].
    The supervisor behind the server is the interface [ServiceProvider], here the
    requests [srv_ev]; JSON is a codec the standard library provides. *)

From Stdlib Require Import Ascii SpecFloat.
From S2P Require Import Prelude GoStrings GoStrconv Prog Protocol.

(** ** Addresses *)

Definition DefaultVSockPort : Z := 1024.
Definition DefaultGuestCID : Z := 3.
Definition DefaultHostCID : Z := 2.

Record VSockAddr := { CID : Z; Port : Z }.

Definition VSockAddr_String (a : VSockAddr) : string := itoa (CID a) +:+ ":" +:+ itoa (Port a).

(** Where [Dial] connects to. *)
Inductive target :=
| TVSock (cid port : Z)
| TUnix (path : string)
| TTcp (addr : string).

Section dial.
Context {UT : UnicodeTables}.

Definition Dial (address : string) : outcome target :=
  let addr := trim_space address in
  if has_prefix addr "vsock://" then
    match str_split ":" (trim_prefix addr "vsock://") with
    | [c; p] =>
        cid ← wrap_err ("invalid VSock CID in address " +:+ quote addr +:+ ": ") (ParseUint32 c);
        port ← wrap_err ("invalid VSock Port in address " +:+ quote addr +:+ ": ") (ParseUint32 p);
        Ok (TVSock cid port)
    | _ => Err ("invalid vsock address format " +:+ quote addr +:+ " (expected vsock://CID:PORT)")
    end
  else if has_prefix addr "unix://" then Ok (TUnix (trim_prefix addr "unix://"))
  else if has_prefix addr "/" || has_prefix addr "." then Ok (TUnix addr)
  else if has_prefix addr "tcp://" then Ok (TTcp (trim_prefix addr "tcp://"))
  else Ok (TTcp addr).
End dial.

(** ** Responses *)

(** The values the server puts in the [Data] field; [DAny] is what the metrics
    daemon answered and [DStatus] the record of [system.GetSystemStatus]. *)
Inductive resp_data :=
| DNil
| DText (s : string)
| DServices (l : list ServiceInfo)
| DMetrics (m : SystemMetrics)
| DStatus (s : string)
| DAny (s : string).

Record RPCResponse := { r_ID : string; Success : bool; Error : string; Data : resp_data }.

Definition ok_resp (id : string) (d : resp_data) : RPCResponse :=
  {| r_ID := id; Success := true; Error := ""; Data := d |}.
Definition err_resp (id e : string) : RPCResponse :=
  {| r_ID := id; Success := false; Error := e; Data := DNil |}.

(** The [encoding/json] codec on the two message types. *)
Class JsonCodec := {
  encode_request : RPCRequest → string;
  decode_request : string → RPCRequest + string;
  encode_response : RPCResponse → string + string;
  decode_response : string → RPCResponse + string
}.

(** ** What the server asks for

    The calls of [ServiceProvider], the process statistics and the system status, the
    connection to the metrics daemon (which gives the stream of its answers), and the
    writes on the two connections.  An answer is a value or the text of an error. *)

Inductive srv_ev : Type → Type :=
| ListServices : srv_ev (list ServiceInfo)
| StartService (name : string) : srv_ev (option string)
| StopService (name : string) : srv_ev (option string)
| GetServiceLogs (name : string) : srv_ev (string + string)
| Quiesce : srv_ev (option string)
| Unquiesce : srv_ev (option string)
| LoadService (configTOML : string) : srv_ev (option string)
| ApplyBundle (bundleJSON : string) : srv_ev (option string)
| ReadMetrics (numServices : Z) : srv_ev SystemMetrics
| GetSystemStatus : srv_ev (string + string)
| DialObsd : srv_ev (reader + string)
| ObsdWrite (data : string) : srv_ev (option string)
| ConnWrite (data : string) : srv_ev (option string).

(** ** Dispatch *)

Inductive command :=
| CPing | CList | CStart | CStop | CLogs | CMetrics | CObsd | CQuiesce | CUnquiesce | CStatus
| CTrace | CLoad | CRun | CBundle.

(** The [case] labels of [dispatchCommand]. *)
Definition command_names : list (string * command) :=
  [("ping", CPing); ("list_services", CList); ("ps", CList); ("start_service", CStart);
   ("start", CStart); ("stop_service", CStop); ("stop", CStop); ("get_logs", CLogs); ("logs", CLogs);
   ("get_metrics", CMetrics); ("metrics", CMetrics); ("get_obsd", CObsd); ("obsd", CObsd);
   ("quiesce", CQuiesce); ("freeze", CQuiesce); ("unquiesce", CUnquiesce); ("thaw", CUnquiesce);
   ("get_system_status", CStatus); ("system", CStatus); ("system_status", CStatus);
   ("status", CStatus); ("hardd", CStatus); ("trace", CTrace); ("stream_exec", CTrace);
   ("execsnoop", CTrace); ("load_service", CLoad); ("apply_service", CLoad); ("run_service", CRun);
   ("apply_bundle", CBundle); ("bundle_apply", CBundle)].

Definition command_of (s : string) : option command :=
  (list_to_map command_names : gmap string command) !! s.

Section server.
Context {UT : UnicodeTables} {J : JsonCodec}.

(** ** Frames on a connection *)

(** [WriteFrame(conn, payload)], [write] being one write on [conn]. *)
Definition send_frame (write : string → srv_ev (option string)) (payload : string)
    : prog srv_ev (outcome unit) :=
  let w data := Vis (write data) (λ r, Ret match r with Some e => Err e | None => Ok tt end) in
  _ ←! wrapping "failed writing frame length header: " (w (be32 (frame_length payload)));
  if (0 <? frame_length payload)%Z then wrapping "failed writing frame payload: " (w payload)
  else done_.

(** The bytes of a value that [EncodeJSON] could not encode are none. *)
Definition encoded (o : string + string) : string := match o with inl s => s | inr _ => "" end.

(** ** The metrics daemon *)

Definition obsd_unreachable (e : string) : string :=
  "obsd daemon un-reachable at /run/karim/obsd.sock: " +:+ e.

Definition obsd_request (id cmd : string) : string :=
  encode_request {| ID := id; Command := cmd; Service := ""; Args := []; Payload := "" |}.

Definition fetchObsdMetrics : prog srv_ev (outcome resp_data) :=
  Vis DialObsd (λ conn,
    match conn with
    | inr e => throw (obsd_unreachable e)
    | inl r =>
        _ ←! send_frame ObsdWrite (obsd_request "obsd-1" "get_metrics");
        '(respBytes, _) ←! Ret (ReadFrame r);
        resp ←! Ret (of_sum (decode_response respBytes));
        if Success resp then Ret (Ok (Data resp)) else throw (Error resp)
    end).

(** [for { ReadFrame(obsd); WriteFrame(conn) }] *)
Fixpoint forward (fuel : nat) (r : reader) : prog srv_ev unit :=
  match fuel with
  | O => Ret tt
  | S fuel =>
      match ReadFrame r with
      | Ok (frame, r') =>
          prog_bind (λ w, match w with Ok _ => forward fuel r' | _ => Ret tt end)
            (send_frame ConnWrite frame)
      | _ => Ret tt
      end
  end.

Definition handleTraceStream (id : string) : prog srv_ev unit :=
  let fail e :=
    prog_bind (λ _, Ret tt) (send_frame ConnWrite (encoded (encode_response (err_resp id e)))) in
  Vis DialObsd (λ conn,
    match conn with
    | inr e => fail (obsd_unreachable e)
    | inl r =>
        prog_bind (λ w,
          match w with
          | Err e => fail ("failed writing to obsd socket: " +:+ e)
          | _ =>
              match ReadFrame r with
              | Ok (initFrame, r') =>
                  prog_bind (λ w, match w with Ok _ => forward (S (String.length (bytes r'))) r' | _ => Ret tt end)
                    (send_frame ConnWrite initFrame)
              | Err e => fail ("failed reading initial response from obsd: " +:+ e)
              | Panic => Ret tt
              end
          end) (send_frame ObsdWrite (obsd_request id "trace"))
    end).

(** [provider] tells whether the server has a provider. *)
Context (provider : bool).

(** The guards the cases share: a provider, and a field that is not empty. *)
Definition needs_provider (req : RPCRequest) (k : prog srv_ev RPCResponse) : prog srv_ev RPCResponse :=
  if provider then k else Ret (err_resp (ID req) "no service provider configured").

Definition needs_field (req : RPCRequest) (field missing : string) (k : prog srv_ev RPCResponse)
    : prog srv_ev RPCResponse :=
  if decide (field = "") then Ret (err_resp (ID req) missing) else k.

(** [if err := call; err != nil { return error } return success]. *)
Definition report (req : RPCRequest) (e : srv_ev (option string)) (success : string)
    : prog srv_ev RPCResponse :=
  Vis e (λ r, Ret match r with
                  | Some err => err_resp (ID req) err
                  | None => ok_resp (ID req) (DText success)
                  end).

(** [value, err := call] with the value as data. *)
Definition report_value (req : RPCRequest) (e : srv_ev (string + string)) (f : string → resp_data)
    : prog srv_ev RPCResponse :=
  Vis e (λ r, Ret match r with
                  | inl a => ok_resp (ID req) (f a)
                  | inr err => err_resp (ID req) err
                  end).

Definition dispatchCommand (req : RPCRequest) : prog srv_ev RPCResponse :=
  match command_of (Command req) with
  | Some CPing => Ret (ok_resp (ID req) (DText "PONG"))
  | Some CList =>
      needs_provider req (Vis ListServices (λ services, Ret (ok_resp (ID req) (DServices services))))
  | Some CStart =>
      needs_provider req (needs_field req (Service req) "missing service name"
        (report req (StartService (Service req))
           ("service " +:+ Service req +:+ " started successfully")))
  | Some CStop =>
      needs_provider req (needs_field req (Service req) "missing service name"
        (report req (StopService (Service req))
           ("service " +:+ Service req +:+ " stopped successfully")))
  | Some CLogs =>
      needs_provider req (needs_field req (Service req) "missing service name"
        (report_value req (GetServiceLogs (Service req)) DText))
  | Some CMetrics =>
      let metrics n := Vis (ReadMetrics n) (λ m, Ret (ok_resp (ID req) (DMetrics m))) in
      if provider then Vis ListServices (λ services, metrics (Z.of_nat (length services)))
      else metrics 0%Z
  | Some CObsd =>
      prog_bind (λ r, Ret match r with
                          | Ok data => ok_resp (ID req) data
                          | Err e => err_resp (ID req) e
                          | Panic => err_resp (ID req) ""
                          end) fetchObsdMetrics
  | Some CQuiesce =>
      needs_provider req (report req Quiesce "guest filesystem buffers synced and state quiesced")
  | Some CUnquiesce => needs_provider req (report req Unquiesce "guest state unquiesced")
  | Some CStatus => report_value req GetSystemStatus DStatus
  | Some CTrace => Ret (ok_resp (ID req) (DText "STREAM_START"))
  | Some CLoad =>
      needs_provider req (needs_field req (Payload req) "missing TOML payload in request"
        (let serviceName := if decide (Service req = "") then "(parsed from TOML)" else Service req in
         report req (LoadService (Payload req))
           ("service " +:+ serviceName +:+ " loaded and started successfully")))
  | Some CRun =>
      needs_provider req (needs_field req (Payload req) "missing inline spec payload in request"
        (report req (LoadService (Payload req)) ("service " +:+ Service req +:+ " started dynamically")))
  | Some CBundle =>
      needs_provider req (needs_field req (Payload req) "missing OCI bundle payload in request"
        (let serviceName := if decide (Service req = "") then "dynamic-oci-bundle" else Service req in
         report req (ApplyBundle (Payload req))
           ("OCI container bundle " +:+ serviceName +:+ " applied and launched successfully")))
  | None => Ret (err_resp (ID req) ("unknown command: " +:+ quote (Command req)))
  end.

(** ** Connections *)

(** The bytes sent for a response, with the fallback when it cannot be encoded. *)
Definition response_bytes (req : RPCRequest) (resp : RPCResponse) : string :=
  match encode_response resp with
  | inl s => s
  | inr e => encoded (encode_response (err_resp (ID req) ("failed encoding response: " +:+ e)))
  end.

Definition is_trace (c : string) : bool :=
  bool_decide (c = "trace") || bool_decide (c = "stream_exec") || bool_decide (c = "execsnoop").

(** The loop of [handleConnection]; every frame takes at least four bytes of the
    input, so its length in bytes is enough fuel. *)
Fixpoint handle (fuel : nat) (r : reader) : prog srv_ev unit :=
  match fuel with
  | O => Ret tt
  | S fuel =>
      match ReadFrame r with
      | Ok (payload, r') =>
          match decode_request payload with
          | inl req =>
              if is_trace (Command req) then handleTraceStream (ID req)
              else
                prog_bind (λ resp,
                  prog_bind (λ w, match w with Ok _ => handle fuel r' | _ => Ret tt end)
                    (send_frame ConnWrite (response_bytes req resp)))
                  (dispatchCommand req)
          | inr e =>
              prog_bind (λ _, handle fuel r')
                (send_frame ConnWrite (encoded (encode_response (err_resp "" ("invalid JSON payload: " +:+ e)))))
          end
      | _ => Ret tt
      end
  end.

Definition handleConnection (r : reader) : prog srv_ev unit :=
  handle (S (String.length (bytes r))) r.
End server.

(** * Properties *)

(** The calls that change the state of the guest. *)
Inductive mutation :=
| MStart (name : string)
| MStop (name : string)
| MQuiesce
| MUnquiesce
| MLoad (configTOML : string)
| MBundle (bundleJSON : string).

(** What a request asks to change. *)
Definition requested (req : RPCRequest) : option mutation :=
  match command_of (Command req) with
  | Some CStart => if decide (Service req = "") then None else Some (MStart (Service req))
  | Some CStop => if decide (Service req = "") then None else Some (MStop (Service req))
  | Some CQuiesce => Some MQuiesce
  | Some CUnquiesce => Some MUnquiesce
  | Some CLoad | Some CRun => if decide (Payload req = "") then None else Some (MLoad (Payload req))
  | Some CBundle => if decide (Payload req = "") then None else Some (MBundle (Payload req))
  | _ => None
  end.

(** An environment that answers anything and logs the changes with their answers. *)
Definition logged := list (mutation * option string).

Definition log_env : env_rel srv_ev logged := λ X e s x s',
  match e in srv_ev Y return Y → Prop with
  | StartService n => λ r, s' = s ++ [(MStart n, r)]
  | StopService n => λ r, s' = s ++ [(MStop n, r)]
  | Quiesce => λ r, s' = s ++ [(MQuiesce, r)]
  | Unquiesce => λ r, s' = s ++ [(MUnquiesce, r)]
  | LoadService c => λ r, s' = s ++ [(MLoad c, r)]
  | ApplyBundle b => λ r, s' = s ++ [(MBundle b, r)]
  | _ => λ _, s' = s
  end x.

(** A connection that takes every write, the rest of the world answering anything:
    the state is what was written to the client. *)
Definition client : env_rel srv_ev string := λ X e s x s',
  match e in srv_ev Y return Y → Prop with
  | ConnWrite d => λ r, r = None ∧ s' = s +:+ d
  | _ => λ _, s' = s
  end x.

(** Requests that neither change the guest nor write to the client. *)
Definition passive X (e : srv_ev X) : Prop :=
  match e with
  | DialObsd | ObsdWrite _ | GetServiceLogs _ | GetSystemStatus | ListServices | ReadMetrics _ => True
  | _ => False
  end.

Definition not_conn X (e : srv_ev X) : Prop := match e with ConnWrite _ => False | _ => True end.

Section facts.
Context {UT : UnicodeTables} {J : JsonCodec}.

Lemma fetchObsd_passive : issues passive fetchObsdMetrics.
Proof.
  unfold fetchObsdMetrics. apply issues_vis; [done|]. intros [r|e]; [|done].
  apply issues_ebind.
  { unfold send_frame. apply issues_ebind; [by apply issues_wrapping, issues_vis|]. intros _.
    destruct (0 <? _)%Z; [|done]. by apply issues_wrapping, issues_vis. }
  intros _. apply issues_ebind; [done|]. intros [resp r'].
  apply issues_ebind; [done|]. intros resp'. by destruct (Success resp').
Qed.

Lemma dispatch_not_conn p req : issues not_conn (dispatchCommand p req).
Proof.
  assert (issues not_conn fetchObsdMetrics) as Hobsd.
  { eapply issues_mono; [|exact fetchObsd_passive]. by intros X []. }
  unfold dispatchCommand, needs_provider, needs_field, report, report_value.
  destruct (command_of (Command req)) as [[]|]; try done;
    try (destruct p; done); try (destruct p; [|done]; case_decide; done).
  by apply issues_bind; [|intros []].
Qed.

(** Every answer repeats the identifier of its request. *)
Lemma dispatch_ID {S} (env : env_rel srv_ev S) p req s :
  wp env (dispatchCommand p req) (λ resp _, r_ID resp = ID req) s.
Proof.
  unfold dispatchCommand, needs_provider, needs_field, report, report_value.
  destruct (command_of (Command req)) as [[]|]; try done;
    try (destruct p; [|done]); try (case_decide; [done|]);
    try (by intros ? ? _); try (by intros [] ? _); try (by intros ? ? _ ? ? _).
  apply wp_bind. apply wp_runs. by intros [] s' _.
Qed.

(** ** Theorems *)

(** A request changes the guest in at most the one way it names: on every run,
    the calls of [dispatchCommand] that start, stop, load, quiesce or thaw are
    exactly the one the command and its non-empty argument ask for, or none without
    a provider; the response reports that call's answer and the request's
    identifier. *)
Theorem dispatch_effect provider req :
  wp log_env (dispatchCommand provider req)
    (λ resp log, r_ID resp = ID req ∧
      match (if provider then requested req else None) with
      | Some m => ∃ r, log = [(m, r)] ∧ Success resp = bool_decide (r = None) ∧
                       Error resp = default "" r
      | None => log = []
      end) [].
Proof.
  assert (wp log_env fetchObsdMetrics (λ _ log, log = []) []) as Hobsd.
  { eapply (wp_issues log_env passive (λ log, log = [])); [exact fetchObsd_passive| |done].
    intros X e s x s' HP -> Henv. by destruct e. }
  unfold dispatchCommand, requested, needs_provider, needs_field, report, report_value.
  destruct (command_of (Command req)) as [[]|]; try (by destruct provider);
    try (destruct provider; [|done]);
    try (case_decide; [done|]); cbn [wp].
  all: try (intros x log Hx; cbn in Hx; subst log; split; [by destruct x|]; exists x;
            split; [done|]; destruct x; by split).
  all: try (intros [] log; cbn; by intros ->).
  - apply wp_bind. eapply wp_mono; [|exact Hobsd]. intros [] log ->; by destruct provider.
  - intros [] log; cbn; intros ->; by destruct provider.
Qed.

(** ** Connections *)

(** The bytes [WriteFrame] puts on the wire. *)
Definition wire_frame (p : string) : string :=
  be32 (frame_length p) +:+ if (0 <? frame_length p)%Z then p else "".

Lemma wp_send_frame payload s (Q : outcome unit → string → Prop) :
  Q (Ok tt) (s +:+ wire_frame payload) → wp client (send_frame ConnWrite payload) Q s.
Proof.
  intros HQ. unfold send_frame. intros r s1. cbn [client]. intros [-> ->]. cbn [wp].
  unfold wire_frame in HQ. destruct (0 <? frame_length payload)%Z.
  - intros r s2 [-> ->]. cbn. by rewrite str_app_assoc.
  - cbn. by rewrite str_app_nil_r in HQ.
Qed.

(** The reply to one payload. *)
Definition reply_to (payload reply : string) : Prop :=
  match decode_request payload with
  | inl req => ∃ resp, r_ID resp = ID req ∧ reply = response_bytes req resp
  | inr e => reply = encoded (encode_response (err_resp "" ("invalid JSON payload: " +:+ e)))
  end.

Definition traced (payload : string) : Prop :=
  match decode_request payload with inl req => is_trace (Command req) = true | inr _ => False end.

Lemma client_keeps X (e : srv_ev X) s x s' : not_conn X e → client X e s x s' → s' = s.
Proof. by destruct e. Qed.

Lemma wp_handle p ps fuel r sent :
  Forall fits ps → Forall (λ p, ¬ traced p) ps → bytes r = encode_frames ps →
  String.length (bytes r) < fuel →
  wp client (handle p fuel r)
    (λ _ s', ∃ replies, Forall2 reply_to ps replies ∧
       s' = sent +:+ str_concat (wire_frame <$> replies)) sent.
Proof.
  intros Hfit. revert fuel r sent. induction Hfit as [|q ps Hq Hps IH]; intros fuel r sent Htr Hb Hfuel;
    (destruct fuel as [|fuel]; [lia|]); cbn [handle].
  - destruct (ReadFull_short 4 r) as (e & He & _); [rewrite Hb; cbn; lia|].
    assert (ReadFrame r = Err e) as -> by (unfold ReadFrame; by rewrite He).
    exists []. split; [constructor|]. cbn. by rewrite str_app_nil_r.
  - apply Forall_cons in Htr as [Hnt Htr].
    change (encode_frames (q :: ps)) with (encode_frame q +:+ encode_frames ps) in Hb.
    destruct (ReadFrame_encoded q _ r Hq Hb) as (r' & -> & Hb' & _).
    assert (String.length (bytes r') < fuel) as Hfuel'.
    { rewrite Hb'. rewrite Hb, str_length_app in Hfuel. unfold encode_frame in Hfuel.
      rewrite str_length_app, be32_length in Hfuel. lia. }
    assert (∀ reply, reply_to q reply →
      wp client (handle p fuel r')
        (λ _ s', ∃ replies, Forall2 reply_to (q :: ps) replies ∧
           s' = sent +:+ str_concat (wire_frame <$> replies)) (sent +:+ wire_frame reply)) as Hnext.
    { intros reply Hreply. eapply wp_mono; [|by apply IH].
      intros [] s' (replies & Hall & ->). exists (reply :: replies). split; [by constructor|].
      cbn. by rewrite str_app_assoc. }
    unfold reply_to, traced in *. destruct (decode_request q) as [req|e].
    + rewrite (not_true_is_false _ Hnt). apply wp_bind.
      assert (wp client (dispatchCommand p req) (λ resp s', r_ID resp = ID req ∧ s' = sent) sent) as Hd.
      { apply wp_runs. intros resp s' Hr. split.
        - pose proof (dispatch_ID client p req sent) as Hid. rewrite wp_runs in Hid. by eapply Hid.
        - assert (wp client (dispatchCommand p req) (λ _ s', s' = sent) sent) as Hs.
          { eapply (wp_issues client not_conn (λ s', s' = sent)); [apply dispatch_not_conn| |done].
            intros X e s x s'' He -> Henv. by apply (client_keeps X e sent x). }
          rewrite wp_runs in Hs. by eapply Hs. }
      eapply wp_mono; [|exact Hd]. intros resp s' [Hid ->]. apply wp_bind, wp_send_frame.
      cbn beta iota. apply Hnext. exists resp. split; [exact Hid|reflexivity].
    + apply wp_bind, wp_send_frame. cbn beta iota. apply Hnext. reflexivity.
Qed.

(** C12: a connection is answered frame by frame: on a stream of requests (of at most
    10 MiB and none of them a trace), however fragmented, the server writes exactly
    one reply per frame, in order, each a response with the identifier of its
    request, or the JSON error when the payload does not decode; a bad payload does
    not end the conversation. *)
Theorem connection_replies provider ps r :
  Forall fits ps → Forall (λ p, ¬ traced p) ps → bytes r = encode_frames ps →
  wp client (handleConnection provider r)
    (λ _ sent, ∃ replies, Forall2 reply_to ps replies ∧
       sent = str_concat (wire_frame <$> replies)) "".
Proof.
  intros Hfit Htr Hb. unfold handleConnection. eapply wp_mono;
    [|apply (wp_handle provider ps (S (String.length (bytes r))) r ""); [done..|lia]].
  intros [] s' (replies & ? & ->). exists replies. split; [done|]. by rewrite str_app_nil_l.
Qed.

Lemma str_split_two c a b :
  str_free c a = true → str_free c b = true → str_split c (a +:+ String c b) = [a; b].
Proof. intros Ha Hb. rewrite str_split_cons by done. by rewrite str_split_free. Qed.

(** Addresses: a vsock address printed from a CID and a port of 32 bits is
    dialled at that CID and port, whatever white space surrounds it; a [unix://] URL
    and an absolute path are dialled as that path. *)
Theorem Dial_addresses cid port path :
  (0 ≤ cid < 2 ^ 32)%Z → (0 ≤ port < 2 ^ 32)%Z → trimmed path = true → path ≠ "" →
  Dial ("vsock://" +:+ VSockAddr_String {| CID := cid; Port := port |}) = Ok (TVSock cid port) ∧
  Dial ("unix://" +:+ path) = Ok (TUnix path) ∧
  (has_prefix path "/" = true → Dial path = Ok (TUnix path)).
Proof.
  intros Hc Hp Ht Hne. unfold VSockAddr_String. cbn [CID Port].
  destruct (itoa_digits cid) as [Hdc Hnc]; [lia|]. destruct (itoa_digits port) as [Hdp Hnp]; [lia|].
  split_and!.
  - unfold Dial. rewrite trim_space_trimmed.
    2: { destruct (itoa port) as [|b t] eqn:Hip; [done|]. rewrite <-Hip in Hdp.
         apply digits_trimmed in Hdp. rewrite Hip in Hdp.
         change ("vsock://" +:+ itoa cid +:+ ":" +:+ String b t)
           with (String "v" ("sock://" +:+ itoa cid +:+ ":" +:+ String b t)).
         rewrite <-(str_app_assoc (itoa cid)), <-(str_app_assoc "sock://"), <-str_app_cons.
         by apply (trimmed_app_ends "v" "" (_ +:+ _)). }
    rewrite has_prefix_app, trim_prefix_app, str_app_cons, str_app_nil_l.
    rewrite str_split_two.
    + unfold ParseUint32. rewrite !parse_uint_itoa by lia. done.
    + eapply digits_forall; [|exact Hdc]. intros a Ha. by rewrite (digit_not a ":").
    + eapply digits_forall; [|exact Hdp]. intros a Ha. by rewrite (digit_not a ":").
  - unfold Dial. rewrite trim_space_trimmed.
    2: { destruct path as [|b t]; [done|]. by apply (trimmed_app_ends "u" "" "nix://"). }
    change (has_prefix ("unix://" +:+ path) "vsock://") with false. cbn iota.
    by rewrite has_prefix_app, trim_prefix_app.
  - intros Habs. unfold Dial. rewrite trim_space_trimmed by done. apply has_prefix_true in Habs as [t ->].
    by rewrite has_prefix_app.
Qed.
End facts.

(** ** Witnesses *)

Section witnesses.

(** A codec that reads any payload as the command it spells, and prints the
    identifier and the text of a response; ["bad"] does not decode. *)
Definition toy_codec : JsonCodec := {|
  encode_request req := Command req;
  decode_request s :=
    if String.eqb s "bad" then inr "not JSON"
    else inl {| ID := "7"; Command := s; Service := "web"; Args := []; Payload := "" |};
  encode_response resp := inl (r_ID resp +:+ Error resp);
  decode_response s := inr s
|}.


Lemma connection_replies_witness :
  wp client (@handleConnection no_tables toy_codec true
      {| chunks := ["" +:+ encode_frame "start"; encode_frame "bad" +:+ encode_frame "ping"];
         stream_ends := EOF |})
    (λ _ sent, ∃ replies, Forall2 (@reply_to toy_codec) ["start"; "bad"; "ping"] replies ∧
       sent = str_concat (wire_frame <$> replies)) "".
Proof.
  apply (@connection_replies no_tables toy_codec true ["start"; "bad"; "ping"]).
  - repeat constructor; unfold fits, MaxFrameSize; cbn; lia.
  - repeat constructor; vm_compute; intros H; try discriminate H; exact H.
  - vm_compute. reflexivity.
Defined.

Lemma Dial_addresses_witness :
  @Dial no_tables ("vsock://" +:+ VSockAddr_String {| CID := 3; Port := 1024 |}) = Ok (TVSock 3 1024).
Proof.
  apply (@Dial_addresses no_tables 3 1024 "/run/karim.sock"); [lia|lia|reflexivity|discriminate].
Defined.
End witnesses.
