(* ===== verification/Transport.v ===== *)
(** * Sockets and listeners ([internal/vsockd/transport.go], [internal/vsockd/server.go])

    Opening and closing of the control plane's sockets, request by request over the file
    descriptors of the process, and the accept loops of the server with its shutdown. *)

From S2P Require Import Prelude GoStrings GoStrconv Prog Linux Protocol Server.

(** ** Sockets

    [Duplicate] is [net.FileListener] or [net.FileConn], which registers a duplicate of
    the descriptor with the poller; [ListenPath] and [DialNet] are [net.Listen] for a
    Unix socket and [net.Dial]; a listener or connection is its descriptor. *)

Inductive sock_ev : Type → Type :=
| Socket (domain typ proto : Z) : sock_ev (Z + string)
| CloseOnExec (fd : Z) : sock_ev unit
| Bind (fd cid port : Z) : sock_ev (option string)
| Listen (fd backlog : Z) : sock_ev (option string)
| Connect (fd cid port : Z) : sock_ev (option string)
| Duplicate (fd : Z) : sock_ev (Z + string)
| CloseFd (fd : Z) : sock_ev unit
| AcceptOn (fd : Z) : sock_ev (Z + string)
| RemovePath (path : string) : sock_ev unit
| ListenPath (path : string) : sock_ev (Z + string)
| ChmodPath (path : string) (mode : Z) : sock_ev (option string)
| DialNet (network address : string) : sock_ev (Z + string).

Record VSockConn := { conn : Z; laddr : VSockAddr; raddr : VSockAddr }.
Record VSockListener := { listener : Z; addr : VSockAddr }.

Definition Network (_ : VSockAddr) : string := "vsock".
Definition LocalAddr (c : VSockConn) : VSockAddr := laddr c.
Definition RemoteAddr (c : VSockConn) : VSockAddr := raddr c.
Definition Addr (l : VSockListener) : VSockAddr := addr l.

(** A call that gives a descriptor or an error. *)
Definition opening (pre : string) (e : sock_ev (Z + string)) : prog sock_ev (outcome Z) :=
  Vis e (λ r, Ret (wrap_err pre (of_sum r))).

(** [if err := call; err != nil { unix.Close(fd); return err }] *)
Definition or_close {A} (fd : Z) (pre : string) (e : sock_ev (option string)) (k : prog sock_ev (outcome A))
    : prog sock_ev (outcome A) :=
  Vis e (λ r, match r with
              | Some err => Vis (CloseFd fd) (λ _, throw (pre +:+ err))
              | None => k
              end).

(** [file := os.NewFile(fd); defer file.Close(); net.FileListener(file)] with the close
    of its error branch. *)
Definition registering (fd : Z) (pre : string) : prog sock_ev (outcome Z) :=
  prog_bind (λ r, Vis (CloseFd fd) (λ _, Ret r))
    (Vis (Duplicate fd) (λ r,
       match r with
       | inr err => Vis (CloseFd fd) (λ _, throw (pre +:+ err))
       | inl l => Ret (Ok l)
       end)).

Section transport.
Context {U : Unix}.

Definition vsock_socket : prog sock_ev (outcome Z) :=
  opening "failed creating AF_VSOCK socket: " (Socket (unix "AF_VSOCK") (unix "SOCK_STREAM") 0).

Definition any_port (port : Z) : VSockAddr := {| CID := unix "VMADDR_CID_ANY"; Port := port |}.

Definition ListenVSock (port : Z) : prog sock_ev (outcome VSockListener) :=
  fd ←! vsock_socket;
  Vis (CloseOnExec fd) (λ _,
    or_close fd ("failed binding AF_VSOCK socket to port " +:+ itoa port +:+ ": ")
      (Bind fd (unix "VMADDR_CID_ANY") port)
   (or_close fd ("failed listening on AF_VSOCK socket port " +:+ itoa port +:+ ": ") (Listen fd 128)
   (l ←! registering fd "failed registering AF_VSOCK listener with epoll netpoller: ";
    Ret (Ok {| listener := l; addr := any_port port |})))).

Definition DialVSock (cid port : Z) : prog sock_ev (outcome VSockConn) :=
  fd ←! vsock_socket;
  Vis (CloseOnExec fd) (λ _,
    or_close fd ("failed connecting AF_VSOCK socket to CID " +:+ itoa cid +:+ " port " +:+ itoa port +:+ ": ")
      (Connect fd cid port)
   (c ←! registering fd "failed registering AF_VSOCK conn with epoll netpoller: ";
    Ret (Ok {| conn := c; laddr := any_port 0; raddr := {| CID := cid; Port := port |} |}))).

Definition Accept (l : VSockListener) : prog sock_ev (outcome VSockConn) :=
  c ←! opening "" (AcceptOn (listener l));
  Ret (Ok {| conn := c; laddr := addr l; raddr := any_port 0 |}).

Definition ListenUnix (socketPath : string) : prog sock_ev (outcome Z) :=
  Vis (RemovePath socketPath) (λ _,
    l ←! opening "" (ListenPath socketPath);
    or_close l ("failed setting 0600 permissions on socket " +:+ socketPath +:+ ": ")
      (ChmodPath socketPath 0x180) (Ret (Ok l))).

Definition DialUnix (socketPath : string) : prog sock_ev (outcome Z) :=
  opening "" (DialNet "unix" socketPath).

(** [Dial]: the address parsed, then the connection. *)
Definition dial `{UnicodeTables} (address : string) : prog sock_ev (outcome Z) :=
  t ←! Ret (Dial address);
  match t with
  | TVSock cid port => c ←! DialVSock cid port; Ret (Ok (conn c))
  | TUnix path => DialUnix path
  | TTcp a => opening "" (DialNet "tcp" a)
  end.

Definition IsVSockSupported : prog sock_ev bool :=
  Vis (Socket (unix "AF_VSOCK") (unix "SOCK_STREAM") 0) (λ r,
    match r with inr _ => Ret false | inl fd => Vis (CloseFd fd) (λ _, Ret true) end).

Definition EnsureFDIsNotInherited (fd : Z) : prog sock_ev unit := Vis (CloseOnExec fd) Ret.
End transport.

(** ** The server's loops

    [serving] has one entry per call of [Serve]: its listener, and what it returned
    ([None] while it loops).  [os_open] are the listeners the process has not closed. *)

Record Server := { listeners : list nat; closed : bool }.

Definition NewServer : Server := {| listeners := []; closed := false |}.

(** [Serve] up to its loop. *)
Definition Serve_register (s : Server) (l : nat) : outcome Server :=
  if closed s then Err "server is closed"
  else Ok {| listeners := listeners s ++ [l]; closed := false |}.

(** What the loop does with the result of [Accept]: [None] when it goes on. *)
Definition Serve_accepted (s : Server) (r : unit + string) : option (outcome unit) :=
  match r with
  | inl _ => None
  | inr e => Some (if closed s then Ok tt else Err ("accept error: " +:+ e))
  end.

(** The loop of [Close]: every listener is closed, and the errors are collected.
    [closing] is what closing each of them answers; [os] are the listeners the process
    has not closed. *)
Fixpoint close_listeners (closing : nat → option string) (ls : list nat) (errs : list string) (os : gset nat)
    : list string * gset nat :=
  match ls with
  | [] => (errs, os)
  | l :: ls =>
      close_listeners closing ls (match closing l with Some e => errs ++ [e] | None => errs end) (os ∖ {[l]})
  end.

Definition Close (s : Server) (closing : nat → option string) (os : gset nat)
    : outcome unit * Server * gset nat :=
  let s := {| listeners := listeners s; closed := true |} in
  let '(errs, os) := close_listeners closing (listeners s) [] os in
  (match errs with e :: _ => Err e | [] => Ok tt end, s, os).

Record world := {
  srv : Server;
  serving : list (nat * option (outcome unit));
  os_open : gset nat
}.

(** What [Accept] can answer: an error on a listener that was closed, anything on another. *)
Definition acceptable (w : world) (l : nat) (r : unit + string) : Prop :=
  l ∈ os_open w ∨ ∃ e, r = inr e.

(** The steps of the goroutines: a call of [Serve] on an open listener, one round of a
    loop, one call of [Close]. *)
Definition after_serve (w : world) (l : nat) : world :=
  match Serve_register (srv w) l with
  | Ok s => {| srv := s; serving := serving w ++ [(l, None)]; os_open := os_open w |}
  | r => {| srv := srv w; serving := serving w ++ [(l, Some (_ ← r; Ok tt))]; os_open := os_open w |}
  end.

Definition after_close (w : world) (closing : nat → option string) : world :=
  let '(_, s, os) := Close (srv w) closing (os_open w) in
  {| srv := s; serving := serving w; os_open := os |}.

Inductive step (w : world) : world → Prop :=
| step_serve l : l ∈ os_open w → step w (after_serve w l)
| step_accept i l r :
    serving w !! i = Some (l, None) → acceptable w l r →
    step w {| srv := srv w; os_open := os_open w;
              serving := <[i := (l, Serve_accepted (srv w) r)]> (serving w) |}
| step_close closing : step w (after_close w closing).

Definition start (ls : gset nat) : world := {| srv := NewServer; serving := []; os_open := ls |}.

(** * Properties *)

(** ** Descriptors

    The process has other goroutines, which open and close descriptors of their own at any
    time.  [mine] are the descriptors of the call, [others] theirs, and [stolen] those of
    theirs that the call has closed. *)
Record fds := { mine : gset Z; others : gset Z; stolen : list Z }.

Definition closing (fd : Z) (s : fds) : fds :=
  if decide (fd ∈ mine s) then {| mine := mine s ∖ {[fd]}; others := others s; stolen := stolen s |}
  else if decide (fd ∈ others s) then
    {| mine := mine s; others := others s ∖ {[fd]}; stolen := stolen s ++ [fd] |}
  else s.

Definition opened (fd : Z) (s : fds) : fds :=
  {| mine := {[fd]} ∪ mine s; others := others s; stolen := stolen s |}.

(** The others open what is not in use, and close what is theirs. *)
Definition interfere (s s' : fds) : Prop :=
  mine s' = mine s ∧ stolen s' = stolen s ∧ mine s' ## others s'.

Definition opens (r : Z + string) (s s' : fds) : Prop :=
  match r with
  | inl fd => fd ∉ mine s ∪ others s ∧ interfere (opened fd s) s'
  | inr _ => interfere s s'
  end.

Definition fd_env : env_rel sock_ev fds := λ X e s x s',
  match e in sock_ev Y return Y → Prop with
  | Socket _ _ _ | Duplicate _ | AcceptOn _ | ListenPath _ | DialNet _ _ => λ r, opens r s s'
  | CloseFd fd => λ _, interfere (closing fd s) s'
  | _ => λ _, interfere s s'
  end x.

(** A call that gives a descriptor keeps it and no other; one that fails keeps none. *)
Definition keeps (s : fds) (r : outcome Z) (s' : fds) : Prop :=
  match r with
  | Ok fd => fd ∉ mine s ∧ mine s' = {[fd]} ∪ mine s ∧ stolen s' = stolen s
  | Err e => mine s' = mine s ∧ (stolen s' = stolen s ∨ has_prefix e "failed registering AF_VSOCK")
  | Panic => False
  end.

(** The call holds [fd] on top of what it had. *)
Definition holds (s : fds) (fd : Z) (s' : fds) : Prop :=
  fd ∉ mine s ∧ mine s' = {[fd]} ∪ mine s ∧ stolen s' = stolen s.
Definition same (s s' : fds) : Prop := mine s' = mine s ∧ stolen s' = stolen s.

Lemma holds_interfere s fd s1 s2 : holds s fd s1 → interfere s1 s2 → holds s fd s2.
Proof. intros (? & ? & ?) (? & ? & _). split_and!; [done|congruence..]. Qed.

Lemma same_interfere s s1 s2 : same s s1 → interfere s1 s2 → same s s2.
Proof. intros [??] (? & ? & _). split; congruence. Qed.

Lemma same_opens s s1 fd s2 : same s s1 → opens (inl fd) s1 s2 → holds s fd s2.
Proof.
  intros [Hm Hs] [Hfd Hi]. eapply holds_interfere; [|exact Hi]. cbn. unfold holds. cbn.
  rewrite Hm in *. split_and!; [set_solver|done..].
Qed.

Lemma closing_mine fd s :
  fd ∈ mine s → closing fd s = {| mine := mine s ∖ {[fd]}; others := others s; stolen := stolen s |}.
Proof. intros H. unfold closing. by rewrite decide_True. Qed.

Lemma closing_others fd s :
  fd ∉ mine s → fd ∈ others s →
  closing fd s = {| mine := mine s; others := others s ∖ {[fd]}; stolen := stolen s ++ [fd] |}.
Proof. intros H1 H2. unfold closing. by rewrite decide_False, decide_True. Qed.

Lemma holds_closing s fd s1 : holds s fd s1 → same s (closing fd s1).
Proof.
  intros (Hfd & Hm & Hs). rewrite closing_mine by (rewrite Hm; set_solver).
  split; cbn; [rewrite Hm; set_solver|done].
Qed.

Lemma same_closing s fd s1 : same s s1 → mine (closing fd s1) = mine s ∨ fd ∈ mine s.
Proof.
  intros [Hm _]. unfold closing. case_decide; [right; by rewrite <-Hm|]. case_decide; by left.
Qed.

Lemma wp_opening pre e s (Q : outcome Z → fds → Prop) :
  (∀ r s', fd_env _ e s r s' → opens r s s') →
  (∀ fd s', holds s fd s' → Q (Ok fd) s') →
  (∀ err s', same s s' → Q (Err (pre +:+ err)) s') →
  wp fd_env (opening pre e) Q s.
Proof.
  intros He Hok Herr. cbn. intros [fd|err] s' Hr%He.
  - apply Hok. eapply same_opens; [by split|exact Hr].
  - apply Herr. eapply same_interfere; [by split|exact Hr].
Qed.

Lemma wp_or_close {A} s fd pre e (k : prog sock_ev (outcome A)) (Q : outcome A → fds → Prop) s1 :
  (∀ r s1 s2, fd_env _ e s1 r s2 → interfere s1 s2) →
  holds s fd s1 →
  (∀ err s2, same s s2 → Q (Err (pre +:+ err)) s2) →
  (∀ s2, holds s fd s2 → wp fd_env k Q s2) →
  wp fd_env (or_close fd pre e k) Q s1.
Proof.
  intros He Hs Herr Hk. cbn. intros [err|] s2 Hi%He.
  - intros [] s3 Hi3. apply Herr. eapply same_interfere; [|exact Hi3].
    apply holds_closing. by eapply holds_interfere.
  - apply Hk. by eapply holds_interfere.
Qed.

Lemma wp_registering s fd pre (Q : outcome Z → fds → Prop) s1 :
  holds s fd s1 →
  (∀ l s2, holds s l s2 → Q (Ok l) s2) →
  (∀ err s2, mine s2 = mine s → Q (Err (pre +:+ err)) s2) →
  wp fd_env (registering fd pre) Q s1.
Proof.
  intros Hs Hok Herr. cbn. intros [l|err] s2 Hr; cbn.
  - intros [] s3 Hi. apply Hok. destruct Hs as (Hfd & Hm & Hst), Hr as [Hl (Hm2 & Hs2 & _)]. cbn in *.
    eapply holds_interfere; [|exact Hi].
    rewrite closing_mine by (rewrite Hm2, Hm; set_solver). unfold holds. cbn.
    rewrite Hm2, Hm, Hs2 in *. split_and!; [set_solver| |done]. set_solver.
  - intros [] s3 Hi3 [] s4 Hi4. apply Herr. destruct Hi4 as (Hm4 & _ & _). rewrite Hm4.
    assert (same s s3) as H3.
    { eapply same_interfere; [|exact Hi3]. apply holds_closing. by eapply holds_interfere. }
    destruct (same_closing s fd s3 H3) as [H|H]; [done|]. by destruct Hs as [[] _].
Qed.

Section properties.
Context {U : Unix} {UT : UnicodeTables}.

Lemma Dial_no_panic address : Dial address ≠ Panic.
Proof.
  unfold Dial, ParseUint32. repeat first [done | case_match]. all: by repeat (cbn; case_match).
Qed.

Lemma wp_DialVSock cid port s :
  wp fd_env (DialVSock cid port) (λ r, keeps s (c ← r; Ok (conn c))) s.
Proof.
  apply wp_ebind, wp_opening; [done| |intros err s1 []; split; [done|by left]].
  intros fd s1 H1 [] s2 H2.
  apply wp_or_close with s; [done|by eapply holds_interfere|intros err s3 []; split; [done|by left]|].
  intros s3 H3. apply wp_ebind, wp_registering with s; [done|by intros l s4 H4|].
  intros err s4 H4. split; [done|by right].
Qed.

Lemma wp_ListenVSock port s :
  wp fd_env (ListenVSock port) (λ r, keeps s (l ← r; Ok (listener l))) s.
Proof.
  apply wp_ebind, wp_opening; [done| |intros err s1 []; split; [done|by left]].
  intros fd s1 H1 [] s2 H2.
  apply wp_or_close with s; [done|by eapply holds_interfere|intros err s3 []; split; [done|by left]|].
  intros s3 H3. apply wp_or_close with s; [done..|intros err s4 []; split; [done|by left]|].
  intros s4 H4. apply wp_ebind, wp_registering with s; [done|by intros l s5 H5|].
  intros err s5 H5. split; [done|by right].
Qed.

Lemma wp_ListenUnix path s : wp fd_env (ListenUnix path) (keeps s) s.
Proof.
  intros [] s1 H1. assert (same s s1) as Hs by (by eapply same_interfere).
  apply wp_ebind, wp_opening; [done| |].
  - intros fd s2 H2. assert (holds s fd s2) as H by (destruct Hs, H2 as (?&?&?); split_and!; congruence).
    apply wp_or_close with s; [done..|intros err s3 []; split; [done|by left]|by intros s3 H3].
  - intros err s2 H2. destruct Hs, H2. split; [|left]; congruence.
Qed.

Lemma wp_dial address s : wp fd_env (dial address) (keeps s) s.
Proof.
  apply wp_ebind. cbn [wp]. destruct (Dial address) as [[cid port|path|a]|e|] eqn:Hd; cbn [wp].
  - apply wp_ebind. eapply wp_mono; [|apply wp_DialVSock]. by intros [c|e|] s'.
  - apply wp_opening; [done..|]. intros err s' []. split; [done|by left].
  - apply wp_opening; [done..|]. intros err s' []. split; [done|by left].
  - split; [done|by left].
  - by destruct (Dial_no_panic address).
Qed.

(** C32: opening a socket of the control plane keeps exactly the descriptor it returns and,
    when it fails, none, whatever the other goroutines open and close in the meantime; it
    never closes a descriptor of theirs, except when the registration with the poller fails,
    where the code closes its own twice. *)
Theorem sockets_balanced port path address s :
  wp fd_env (ListenVSock port) (λ r, keeps s (l ← r; Ok (listener l))) s ∧
  wp fd_env (ListenUnix path) (keeps s) s ∧
  wp fd_env (dial address) (keeps s) s ∧
  wp fd_env IsVSockSupported (λ _, same s) s.
Proof.
  split_and!; [apply wp_ListenVSock|apply wp_ListenUnix|apply wp_dial|].
  intros [fd|e] s1 H1; [|by eapply same_interfere].
  intros [] s2 H2. eapply same_interfere; [|exact H2]. by eapply holds_closing, same_opens.
Qed.

(** When the registration fails, the descriptor may have gone to another goroutine between
    the two calls that close it: that goroutine loses its file. *)
Theorem registration_failure_steals cid port fd s :
  fd ∉ mine s ∪ others s →
  ∃ e s', runs fd_env (DialVSock cid port) s (Err e) s' ∧ mine s' = mine s ∧ stolen s' = stolen s ++ [fd].
Proof.
  intros Hfd.
  set (held := {| mine := {[fd]} ∪ mine s; others := ∅; stolen := stolen s |}).
  set (taken := {| mine := mine s; others := {[fd]}; stolen := stolen s |}).
  set (lost := {| mine := mine s; others := ∅; stolen := stolen s ++ [fd] |}).
  assert (interfere held held) as Hheld by (split_and!; [done..|set_solver]).
  eexists ("failed registering AF_VSOCK conn with epoll netpoller: " +:+ "too many open files"), lost.
  split; [|done]. unfold DialVSock. cbn [ebind vsock_socket opening prog_bind runs].
  exists (inl fd), held. split; [split; [done|split_and!; [done..|set_solver]]|]. cbn.
  exists tt, held. split; [done|]. exists None, held. split; [done|].
  exists (inr "too many open files"), held. split; [done|].
  exists tt, taken. split; [|exists tt, lost; split; [|done]].
  - cbn [fd_env]. rewrite closing_mine by (cbn; set_solver). split_and!; cbn; set_solver.
  - cbn [fd_env]. rewrite closing_others by (cbn; set_solver). split_and!; cbn; set_solver.
Qed.
End properties.

(** ** Shutdown *)

(** What every reachable world satisfies: [Serve] returned without an error only after the
    server was closed, a loop belongs to a registered listener, and once the server is
    closed no registered listener is open. *)
Record world_ok (w : world) : Prop := {
  ended_closed : ∀ i l, serving w !! i = Some (l, Some (Ok tt)) → closed (srv w) = true;
  looping_registered : ∀ i l, serving w !! i = Some (l, None) → l ∈ listeners (srv w);
  closed_closed : closed (srv w) = true → ∀ l, l ∈ listeners (srv w) → l ∉ os_open w
}.

Lemma start_ok ls : world_ok (start ls).
Proof. by constructor; cbn. Qed.

(** The last entry of an appended list. *)
Lemma lookup_snoc_cases {A} (xs : list A) x i y : (xs ++ [x]) !! i = Some y → xs !! i = Some y ∨ y = x.
Proof.
  intros [H|[_ H]]%lookup_app_Some; [by left|right]. by destruct (i - length xs) as [|[]]; simplify_eq/=.
Qed.

Lemma after_serve_ok w l : world_ok w → l ∈ os_open w → world_ok (after_serve w l).
Proof.
  intros [He Hl Hc] Hopen. unfold after_serve, Serve_register.
  destruct (closed (srv w)) eqn:Hcl; cbn [mbind outcome_bind].
  - constructor; cbn; rewrite ?Hcl; [done| |done].
    intros i l' [H|H]%lookup_snoc_cases; [eauto|simplify_eq].
  - constructor; cbn; [intros i l' [H|H]%lookup_snoc_cases|intros i l' [H|H]%lookup_snoc_cases|done].
    + by apply He in H.
    + simplify_eq.
    + apply elem_of_app. left. eauto.
    + simplify_eq. set_solver.
Qed.

Lemma close_listeners_spec closing ls errs os :
  close_listeners closing ls errs os = (errs ++ omap closing ls, os ∖ list_to_set ls).
Proof.
  revert errs os. induction ls as [|l ls IH]; intros errs os; cbn [close_listeners].
  - cbn. rewrite app_nil_r. f_equal. set_solver.
  - rewrite IH. cbn [list_to_set omap list_omap]. f_equal; [|set_solver].
    destruct (closing l); [by rewrite <-app_assoc|done].
Qed.

Lemma after_close_eq w closing :
  after_close w closing =
    {| srv := {| listeners := listeners (srv w); closed := true |}; serving := serving w;
       os_open := os_open w ∖ list_to_set (listeners (srv w)) |}.
Proof. unfold after_close, Close. by rewrite close_listeners_spec. Qed.

Lemma step_ok w w' : world_ok w → step w w' → world_ok w'.
Proof.
  intros Hok Hstep. destruct Hstep as [l Hopen|i l r Hi Hr|cl]; [by apply after_serve_ok|..];
    destruct Hok as [He Hl Hc]; [|rewrite after_close_eq]; constructor; cbn; try done.
  - intros j l' [(_ & H & _)|[_ H]]%list_lookup_insert_Some; [|eauto].
    destruct r as [|e]; cbn in H; [done|]. by destruct (closed (srv w)).
  - intros j l' [(_ & H & _)|[_ H]]%list_lookup_insert_Some; [|eauto]. simplify_eq. eauto.
  - intros _ l Hin. set_solver.
Qed.

Lemma reachable_ok ls w : rtc step (start ls) w → world_ok w.
Proof.
  intros H. remember (start ls) as w0 eqn:E. assert (world_ok w0) as H0 by (rewrite E; apply start_ok).
  clear E. induction H as [|w0 w1 w2 Hs _ IH]; [done|]. by apply IH, (step_ok w0).
Qed.

(** The calls of [Serve] that have not returned. *)
Definition loops (w : world) : nat := length (filter (λ p, p.2 = None) (serving w)).

Lemma loops_ended (xs : list (nat * option (outcome unit))) i l r :
  xs !! i = Some (l, None) → length (filter (λ p, p.2 = None) (<[i := (l, Some r)]> xs)) <
                               length (filter (λ p, p.2 = None) xs).
Proof.
  revert i. induction xs as [|[l' o] xs IH]; intros [|i] H; [done..| |]; cbn [lookup list_lookup] in H; simplify_eq.
  - change (<[0 := (l, Some r)]> ((l, None) :: xs)) with ((l, Some r) :: xs).
    rewrite filter_cons_False, filter_cons_True by done. cbn [length]. lia.
  - change (<[S i := (l, Some r)]> ((l', o) :: xs)) with ((l', o) :: <[i := (l, Some r)]> xs).
    apply IH in H. rewrite !filter_cons. case_decide; cbn [length]; lia.
Qed.

(** A closed server stays closed, opens no listener again and starts no loop. *)
Lemma step_closed w w' :
  closed (srv w) = true → step w w' →
  closed (srv w') = true ∧ listeners (srv w') = listeners (srv w) ∧ os_open w' ⊆ os_open w ∧ loops w' ≤ loops w.
Proof.
  intros Hcl Hstep. destruct Hstep as [l Hopen|i l r Hi Hr|cl]; [| |rewrite after_close_eq]; cbn.
  - unfold after_serve, Serve_register. rewrite Hcl. cbn. split_and!; [done..|]. unfold loops. cbn.
    rewrite filter_app, length_app, filter_cons_False by done. cbn. lia.
  - split_and!; [done..|]. unfold loops. cbn. destruct r as [|e]; cbn; [by rewrite list_insert_id|].
    rewrite Hcl. apply Nat.lt_le_incl. by apply loops_ended.
  - split_and!; [done..|set_solver|]. unfold loops. cbn. lia.
Qed.

Lemma rtc_closed w w' :
  rtc step w w' → closed (srv w) = true →
  closed (srv w') = true ∧ os_open w' ⊆ os_open w ∧ loops w' ≤ loops w.
Proof.
  induction 1 as [|w w1 w2 Hs _ IH]; intros Hcl; [done|].
  destruct (step_closed _ _ Hcl Hs) as (Hcl1 & _ & Ho & Hl), (IH Hcl1) as (? & ? & ?).
  split_and!; [done|set_solver|lia].
Qed.

(** C36: [Close] ends the server.  In every interleaving of calls of [Serve], accept loops and
    calls of [Close], a [Serve] returns without an error only when the server was closed.
    And a call of [Close] reports the first error of closing a listener, if any; whatever
    happens after it, the listeners registered until then stay closed, a new [Serve]
    is refused so that no loop starts, every round of a loop that is left ends it without
    an error, and such a loop can make its round. *)
Theorem Close_ends_serving ls w closing w' :
  rtc step (start ls) w → rtc step (after_close w closing) w' →
  ((∃ i l, serving w !! i = Some (l, Some (Ok tt))) → closed (srv w) = true) ∧
  (Close (srv w) closing (os_open w)).1.1 =
    (match omap closing (listeners (srv w)) with e :: _ => Err e | [] => Ok tt end) ∧
  loops w' ≤ loops w ∧ (∀ l, l ∈ listeners (srv w) → l ∉ os_open w') ∧
  (∀ l, Serve_register (srv w') l = Err "server is closed") ∧
  ∀ i l, serving w' !! i = Some (l, None) →
    (∃ r, acceptable w' l r) ∧
    ∀ r, acceptable w' l r →
      Serve_accepted (srv w') r = Some (Ok tt) ∧
      length (filter (λ p, p.2 = None) (<[i := (l, Serve_accepted (srv w') r)]> (serving w'))) < loops w'.
Proof.
  intros Hw Hw'. pose proof (reachable_ok _ _ Hw) as [He _ _].
  assert (rtc step (start ls) w') as Hall
    by (etrans; [exact Hw|]; eapply rtc_l; [apply (step_close _ closing)|exact Hw']).
  apply reachable_ok in Hall as [_ Hl Hc].
  assert (closed (srv (after_close w closing)) = true) as Hcl by by rewrite after_close_eq.
  destruct (rtc_closed _ _ Hw' Hcl) as (Hcl' & Ho & Hloops). rewrite after_close_eq in Ho, Hloops.
  cbn [os_open] in Ho. split_and!.
  - intros (i & l & H). eauto.
  - unfold Close. by rewrite close_listeners_spec.
  - unfold loops in *. exact Hloops.
  - set_solver.
  - intros l. unfold Serve_register. by rewrite Hcl'.
  - intros i l Hi. split; [exists (inr "use of closed network connection"); right; eauto|].
    intros r [H|[e ->]]; [by destruct (Hc Hcl' l (Hl _ _ Hi))|]. cbn. rewrite Hcl'.
    split; [done|]. by apply loops_ended.
Qed.

(** A listener is served and the server is closed: the loop ends. *)
Lemma Close_ends_serving_witness :
  let w := {| srv := {| listeners := [0]; closed := false |}; serving := [(0, None)]; os_open := {[0]} |} in
  let w' := after_close w (λ _, None) in
  rtc step (start {[0]}) w ∧ serving w' = [(0, None)] ∧ 0 ∉ os_open w' ∧
  Serve_accepted (srv w') (inr "closed") = Some (Ok tt).
Proof.
  intros w w'.
  assert (rtc step (start {[0]}) w) as Hr
    by (eapply rtc_l; [by apply (step_serve _ 0), (bool_decide_unpack _)|apply rtc_refl]).
  split; [done|]. split; [reflexivity|].
  destruct (Close_ends_serving {[0]} w (λ _, None) w' Hr (rtc_refl _ _)) as (_ & _ & _ & Hopen & _ & Hloop).
  split; [apply Hopen; left|]. destruct (Hloop 0 0 eq_refl) as [_ Hr0]. apply (Hr0 (inr "closed")).
  right. by eexists.
Defined.
