(* ===== verification/Extract.v ===== *)
(** * Layer extraction ([internal/pkgd/extract.go], [internal/pkgd/oci.go])

    The path checks against tar-slip, and the extraction of one layer with its
    whiteouts, as a program of file-system requests.  A tar archive is the list of
    its entries and the way it ends. *)

From Stdlib Require Import Ascii.
From S2P Require Import Prelude GoStrings GoStrconv GoPath Prog Linux.

(** ** Archives *)

Inductive typeflag := TypeDir | TypeReg | TypeRegA | TypeSymlink | TypeLink | TypeOther (c : ascii).

Record tar_header := { Name : string; Typeflag : typeflag; Mode : Z; Linkname : string }.

(** [tar_err] is the error of the [Next] call after the last entry; [None] is [io.EOF]. *)
Record tar_archive := { entries : list (tar_header * string); tar_err : option string }.

(** ** The file system *)

Inductive lstat_answer := LNotExist | LErr (e : string) | LFound (symlink : bool).
Inductive readdir_answer := RNotExist | RErr (e : string) | REntries (names : list string).

Inductive fs_ev : Type → Type :=
| Lstat (path : string) : fs_ev lstat_answer
| EvalSymlinks (path : string) : fs_ev (string + string)
| ReadDir (path : string) : fs_ev readdir_answer
| MkdirAll (path : string) (mode : Z) : fs_ev (option string)
| RemoveAll (path : string) : fs_ev (option string)
| Remove (path : string) : fs_ev (option string)
| Symlink (oldname newname : string) : fs_ev (option string)
| Link (oldname newname : string) : fs_ev (option string)
| OpenDir (path : string) : fs_ev (option string)
| Openat2 (dir rel : string) (flags mode : Z) : fs_ev (option string)
| OpenFile (path : string) (flags mode : Z) : fs_ev (option string)
| CopyData (path data : string) : fs_ev (option string).

Definition act (e : fs_ev (option string)) : prog fs_ev (outcome unit) :=
  Vis e (λ r, Ret match r with Some err => Err err | None => Ok tt end).

(** [_ = f()] *)
Definition try_act (e : fs_ev (option string)) : prog fs_ev (outcome unit) :=
  Vis e (λ _, Ret (Ok tt)).

Definition WhiteoutPrefix : string := ".wh.".
Definition OpaqueWhiteout : string := ".wh..wh..opq".

(** [p] has the prefix [root + "/"] or is [root]. *)
Definition within (root p : string) : bool := has_prefix p (root +:+ slash) || bool_decide (p = root).

Section extract.
Context {U : Unix} {UT : UnicodeTables} (cwd : outcome string).

(** ** Path checks *)

Definition escapes {A} (text : string) : outcome A := Err ("tar-slip violation: " +:+ text).

(** The loop over the parent elements of the entry. *)
Fixpoint check_parents (cleanDest curr : string) (parts : list string) : prog fs_ev (outcome unit) :=
  match parts with
  | [] => done_
  | part :: parts =>
      if decide (part = "" ∨ part = ".") then check_parents cleanDest curr parts
      else
        let curr := Join [curr; part] in
        Vis (Lstat curr) (λ st,
          match st with
          | LNotExist => done_
          | LErr e => throw e
          | LFound false => check_parents cleanDest curr parts
          | LFound true =>
              Vis (EvalSymlinks curr) (λ r,
                match r with
                | inr e => throw ("failed resolving symlink " +:+ curr +:+ ": " +:+ e)
                | inl resolved =>
                    if within cleanDest resolved then check_parents cleanDest curr parts
                    else Ret (escapes ("parent symlink " +:+ curr +:+ " points outside root to " +:+ resolved))
                end)
          end)
  end.

Definition clean_dest (destDir : string) : outcome string := absDest ← Abs cwd destDir; Ok (Clean absDest).

Definition SafePathClean (destDir relPath : string) : prog fs_ev (outcome string) :=
  if decide (relPath = "") then throw "empty entry path"
  else
    cleanDest ←! Ret (wrap_err ("invalid destination directory " +:+ quote destDir +:+ ": ")
                        (clean_dest destDir));
    let cleanRel := Clean relPath in
    if has_prefix cleanRel "/" || has_prefix cleanRel "../" || bool_decide (cleanRel = "..") then
      Ret (escapes ("path traversal detected in " +:+ quote relPath))
    else
      let targetPath := Join [cleanDest; cleanRel] in
      if negb (within cleanDest targetPath) then
        Ret (escapes ("path " +:+ quote relPath +:+ " escapes root " +:+ quote cleanDest))
      else
        _ ←! check_parents cleanDest cleanDest (removelast (str_split "/" cleanRel));
        Ret (Ok targetPath).

Definition ValidateSymlinkTarget (destDir targetPath linkVal : string) : outcome unit :=
  cleanDest ← clean_dest destDir;
  let resolvedTarget :=
    if has_prefix linkVal "/" then Join [cleanDest; linkVal] else Join [Dir targetPath; linkVal] in
  let cleanTarget := Clean resolvedTarget in
  if within cleanDest cleanTarget then Ok tt
  else escapes ("symlink target " +:+ quote linkVal +:+ " escapes root " +:+ quote cleanDest).

Definition SafeOpenFile (destDir targetPath : string) (flags mode : Z) : prog fs_ev (outcome unit) :=
  cleanDest ←! Ret (clean_dest destDir);
  let fallback := act (OpenFile targetPath flags mode) in
  Vis (OpenDir cleanDest) (λ err,
    match err, Rel cleanDest targetPath with
    | None, Ok rel =>
        if has_prefix rel ".." then fallback
        else
          Vis (Openat2 cleanDest rel (Z.lor flags (unix "O_CLOEXEC")) mode) (λ err,
            match err with None => done_ | Some _ => fallback end)
    | _, _ => fallback
    end).

(** ** Entries *)

Definition clearDirectoryContents (dir : string) : prog fs_ev (outcome unit) :=
  Vis (ReadDir dir) (λ r,
    match r with
    | RNotExist => done_
    | RErr e => throw e
    | REntries names => each (λ name, act (RemoveAll (Join [dir; name]))) names
    end).

(** [os.O_CREATE|os.O_WRONLY|os.O_TRUNC] *)
Definition create_flags : Z := 0x241.

(** The file mode of an extracted file: 0755 when any execute bit is set, else 0644. *)
Definition file_mode (m : Z) : Z := if (Z.land m 0x49 =? 0)%Z then 0x1A4 else 0x1ED.

Definition extract_file (destDir targetPath : string) (hdr : tar_header) (data : string)
    : prog fs_ev (outcome unit) :=
  _ ←! wrapping ("failed creating parent dir for " +:+ targetPath +:+ ": ")
         (act (MkdirAll (Dir targetPath) 0x1ED));
  _ ←! wrapping ("failed creating file " +:+ targetPath +:+ ": ")
         (SafeOpenFile destDir targetPath create_flags (file_mode (Mode hdr)));
  wrapping ("failed writing data to " +:+ targetPath +:+ ": ") (act (CopyData targetPath data)).

Definition extract_symlink (destDir targetPath : string) (hdr : tar_header) : prog fs_ev (outcome unit) :=
  _ ←! Ret (wrap_err ("security check rejected symlink " +:+ quote (Name hdr) +:+ " -> " +:+
                      quote (Linkname hdr) +:+ ": ")
              (ValidateSymlinkTarget destDir targetPath (Linkname hdr)));
  _ ←! wrapping ("failed creating parent dir for symlink " +:+ targetPath +:+ ": ")
         (act (MkdirAll (Dir targetPath) 0x1ED));
  _ ←! try_act (Remove targetPath);
  wrapping ("failed creating symlink " +:+ targetPath +:+ " -> " +:+ Linkname hdr +:+ ": ")
    (act (Symlink (Linkname hdr) targetPath)).

Definition extract_link (destDir targetPath : string) (hdr : tar_header) : prog fs_ev (outcome unit) :=
  linkTarget ←! wrapping ("security check rejected hardlink " +:+ quote (Name hdr) +:+ " -> " +:+
                          quote (Linkname hdr) +:+ ": ") (SafePathClean destDir (Linkname hdr));
  _ ←! wrapping ("failed creating parent dir for hardlink " +:+ targetPath +:+ ": ")
         (act (MkdirAll (Dir targetPath) 0x1ED));
  _ ←! try_act (Remove targetPath);
  Vis (Link linkTarget targetPath) (λ err,
    match err with
    | None => done_
    | Some _ =>
        match ValidateSymlinkTarget destDir targetPath (Linkname hdr) with
        | Ok _ => try_act (Symlink (Linkname hdr) targetPath)
        | _ => done_
        end
    end).

(** One iteration of the loop of [ExtractLayerTarball]. *)
Definition extract_entry (destDir : string) (entry : tar_header * string) : prog fs_ev (outcome unit) :=
  let '(hdr, data) := entry in
  targetPath ←! wrapping ("security check rejected entry " +:+ quote (Name hdr) +:+ ": ")
                  (SafePathClean destDir (Name hdr));
  let baseName := Base (Name hdr) in
  let dirName := Dir (Name hdr) in
  if decide (baseName = OpaqueWhiteout) then
    targetDir ←! wrapping "opaque whiteout path security check failed: " (SafePathClean destDir dirName);
    wrapping ("opaque whiteout failed for " +:+ targetDir +:+ ": ") (clearDirectoryContents targetDir)
  else if has_prefix baseName WhiteoutPrefix then
    let deletedName := trim_prefix baseName WhiteoutPrefix in
    targetFile ←! wrapping "file whiteout path security check failed: "
                    (SafePathClean destDir (Join [dirName; deletedName]));
    try_act (RemoveAll targetFile)
  else
    match Typeflag hdr with
    | TypeDir =>
        wrapping ("failed creating dir " +:+ targetPath +:+ ": ") (act (MkdirAll targetPath 0x1ED))
    | TypeReg | TypeRegA => extract_file destDir targetPath hdr data
    | TypeSymlink => extract_symlink destDir targetPath hdr
    | TypeLink => extract_link destDir targetPath hdr
    | TypeOther _ => done_
    end.

Definition ExtractLayerTarball (archive : tar_archive) (destDir : string) : prog fs_ev (outcome unit) :=
  _ ←! each (extract_entry destDir) (entries archive);
  match tar_err archive with
  | None => done_
  | Some e => throw ("error reading layer tar entry: " +:+ e)
  end.
End extract.

(** * Properties *)

(** ** The lexical check *)

(** The elements of an entry name that stays below its root. *)
Definition rel_comps (relPath : string) : option (list string) :=
  if decide (relPath = "") then None
  else if is_abs relPath then None
  else
    let cs := clean_comps false (str_split "/" relPath) in
    if decide (head cs = Some "..") then None else Some cs.

Lemma rel_comps_norm relPath cs : rel_comps relPath = Some cs → Forall norm_comp cs.
Proof.
  unfold rel_comps. case_decide; [done|]. destruct (is_abs relPath); [done|].
  destruct (clean_comps_shape false (str_split "/" relPath)) as (n & ds & -> & Hds & _);
    [apply str_split_free_all|].
  case_decide as Hh; [done|]. destruct n; [by intros [= <-]|by destruct Hh].
Qed.

(** The clean form of an entry name, and the reasons to reject it. *)
Lemma Clean_rel_comps relPath :
  relPath ≠ "" →
  match rel_comps relPath with
  | None => has_prefix (Clean relPath) "/" || has_prefix (Clean relPath) "../"
            || bool_decide (Clean relPath = "..") = true
  | Some cs => Clean relPath = (if decide (cs = []) then "." else str_join slash cs) ∧
               has_prefix (Clean relPath) "/" || has_prefix (Clean relPath) "../"
               || bool_decide (Clean relPath = "..") = false
  end.
Proof.
  intros Hne. unfold rel_comps. rewrite decide_False by done.
  destruct (is_abs relPath) eqn:Habs.
  { assert (has_prefix (Clean relPath) "/" = true) as ->; [|done].
    change (is_abs (Clean relPath) = true). by rewrite Clean_is_abs. }
  unfold Clean. rewrite !(decide_False (P := relPath = "")), Habs by done.
  destruct (clean_comps_shape false (str_split "/" relPath)) as (n & ds & -> & Hds & _);
    [apply str_split_free_all|].
  destruct n as [|n].
  - cbn [replicate app]. rewrite (decide_False (P := head ds = Some "..")).
    2: { destruct Hds as [|d ds (_ & _ & Hd & _) _]; [done|]. cbn. naive_solver. }
    destruct (decide (ds = [])) as [->|Hd]; [done|].
    rewrite (decide_False (P := str_join slash ds = "")) by by apply str_join_nonempty.
    assert (has_prefix (str_join slash ds) "/" = false) as -> by by apply is_abs_prefix_slash.
    destruct Hds as [|d ds (Hd1 & _ & Hd3 & Hf) Hds]; [done|]. split; [done|].
    cbn [orb]. apply orb_false_iff. split.
    + apply not_true_iff_false. rewrite has_prefix_true. intros [t Ht].
      apply (f_equal (str_split "/")) in Ht. rewrite str_split_join in Ht.
      * change ("../" +:+ t) with (".." +:+ String "/" t) in Ht.
        rewrite str_split_cons in Ht by done. by injection Ht.
      * done.
      * constructor; [done|]. by apply Forall_norm_free.
    + apply bool_decide_eq_false. intros Ht. apply (f_equal (str_split "/")) in Ht.
      rewrite str_split_join in Ht; [|done|constructor; [done|by apply Forall_norm_free]].
      injection Ht as Ht. done.
  - cbn [replicate app head]. rewrite decide_True by done.
    destruct (replicate n ".." ++ ds) as [|e es].
    + done.
    + change (str_join slash (".." :: e :: es)) with ("../" +:+ str_join slash (e :: es)).
      rewrite (decide_False (P := "../" +:+ str_join slash (e :: es) = "")) by done.
      by rewrite has_prefix_app, orb_true_r.
Qed.

Section facts.
Context {U : Unix} {UT : UnicodeTables} (cwd : outcome string).
Context (ds : list string) (Hds : Forall norm_comp ds) (Hne : ds ≠ []).

(** [p] is the root or below it. *)
Definition inside (p : string) : Prop := ∃ cs, Forall norm_comp cs ∧ p = abs_path (ds ++ cs).

Lemma clean_dest_abs : clean_dest cwd (abs_path ds) = Ok (abs_path ds).
Proof.
  unfold clean_dest, Abs. rewrite is_abs_abs_path. cbn [mbind outcome_bind].
  by rewrite !Clean_abs_path by done.
Qed.

Lemma within_inside cs : Forall norm_comp cs → within (abs_path ds) (abs_path (ds ++ cs)) = true.
Proof.
  intros Hcs. unfold within. destruct (decide (cs = [])) as [->|Hc].
  - rewrite app_nil_r, bool_decide_true by done. apply orb_true_r.
  - by rewrite below_prefix.
Qed.

Lemma inside_within es :
  Forall norm_comp es → within (abs_path ds) (abs_path es) = true → inside (abs_path es).
Proof.
  intros Hes. unfold within. rewrite orb_true_iff, bool_decide_eq_true.
  intros [Hp|He].
  - apply prefix_below in Hp as (cs & -> & _); [|done..]. exists cs. by apply Forall_app in Hes as [_ ?].
  - exists []. rewrite app_nil_r. by split.
Qed.

(** What [SafePathClean] does, whatever the file system: it rejects a name that is
    empty, absolute or climbs, and otherwise checks the parents and returns the path
    of the name's elements below the root. *)
Lemma SafePathClean_spec relPath :
  match rel_comps relPath with
  | None => ∃ e, SafePathClean cwd (abs_path ds) relPath = Ret (Err e)
  | Some cs =>
      SafePathClean cwd (abs_path ds) relPath =
        (_ ←! check_parents (abs_path ds) (abs_path ds) (removelast cs); Ret (Ok (abs_path (ds ++ cs))))
  end.
Proof.
  unfold SafePathClean. destruct (decide (relPath = "")) as [->|Hr]; [by eexists|].
  pose proof (Clean_rel_comps relPath Hr) as Hcl.
  rewrite clean_dest_abs. cbn [wrap_err ebind prog_bind].
  destruct (rel_comps relPath) as [cs|] eqn:Hrel.
  2: { rewrite Hcl. by eexists. }
  destruct Hcl as [Hcl ->]. pose proof (rel_comps_norm _ _ Hrel) as Hcs. rewrite Hcl.
  destruct (decide (cs = [])) as [->|Hc].
  - rewrite Join_abs_dot, app_nil_r by done. rewrite <-(app_nil_r ds) at 2.
    by rewrite within_inside by constructor.
  - rewrite Join_abs_rel, within_inside by done. cbn [negb].
    by rewrite str_split_join by (done || by apply Forall_norm_free).
Qed.

(** Requests that only look. *)
Definition looks X (e : fs_ev X) : Prop :=
  match e with Lstat _ | EvalSymlinks _ => True | _ => False end.

Lemma check_parents_looks cleanDest curr parts : issues looks (check_parents cleanDest curr parts).
Proof.
  revert curr. induction parts as [|part parts IH]; intros curr; [done|]. cbn [check_parents].
  case_decide; [apply IH|]. apply issues_vis; [done|]. intros [|e|[]]; [done|done| |apply IH].
  apply issues_vis; [done|]. intros [r|e]; [|done]. case_match; [apply IH|done].
Qed.

(** Every path a request creates, changes or removes is the root or below it;
    [MkdirAll] may also name the parent of the root (an entry named [.]), which
    exists when the root does. *)
Definition touches_inside X (e : fs_ev X) : Prop :=
  match e with
  | RemoveAll p | Remove p | Symlink _ p | OpenFile p _ _ | CopyData p _ => inside p
  | Link old p => inside old ∧ inside p
  | MkdirAll p _ => inside p ∨ p = Dir (abs_path ds)
  | Openat2 dir rel _ _ => inside dir ∧ inside (Join [dir; rel])
  | Lstat _ | EvalSymlinks _ | ReadDir _ | OpenDir _ => True
  end.

(** Directory entries have proper names. *)
Definition dir_names : answer_rel fs_ev := λ X e x,
  match e in fs_ev Y return Y → Prop with
  | ReadDir _ => λ r, match r with REntries names => Forall norm_comp names | _ => True end
  | _ => λ _, True
  end x.

Lemma safe_SafePathClean P relPath :
  (∀ X e, looks X e → P X e) →
  safe dir_names P (SafePathClean cwd (abs_path ds) relPath)
    (λ r, ∀ p, r = Ok p → ∃ cs, rel_comps relPath = Some cs ∧ p = abs_path (ds ++ cs)).
Proof.
  intros HP. pose proof (SafePathClean_spec relPath) as Hs.
  destruct (rel_comps relPath) as [cs|]; [|by destruct Hs as [e ->]].
  rewrite Hs. apply safe_ebind.
  assert (∀ Q : outcome unit → Prop, (∀ r, Q r) → ∀ curr parts,
    safe dir_names P (check_parents (abs_path ds) curr parts) Q) as Hlook.
  { intros Q HQ curr parts. pose proof (check_parents_looks (abs_path ds) curr parts) as Hl.
    unfold issues in Hl. revert Hl. generalize (check_parents (abs_path ds) curr parts).
    intros m. induction m as [a|X e k IH]; [intros _; apply HQ|]. intros [He Hk]. split; [by apply HP|].
    intros x _. by apply IH, Hk. }
  apply Hlook. intros [[]|e|]; [|done..]. cbn. intros p [= <-]. by exists cs.
Qed.
Lemma inside_path cs : Forall norm_comp cs → inside (abs_path (ds ++ cs)).
Proof. intros Hcs. by exists cs. Qed.

Lemma inside_parent cs :
  Forall norm_comp cs →
  inside (Dir (abs_path (ds ++ cs))) ∨ Dir (abs_path (ds ++ cs)) = Dir (abs_path ds).
Proof.
  intros Hcs. destruct cs as [|c cs _] using rev_ind; [right; by rewrite app_nil_r|].
  left. apply Forall_app in Hcs as [Hcs Hc]. rewrite app_assoc, Dir_abs_snoc.
  - by apply inside_path.
  - apply Forall_app. split; [|done]. by apply Forall_app.
Qed.

Lemma safe_act (e : fs_ev (option string)) (Q : outcome unit → Prop) :
  touches_inside _ e → (∀ o, Q o) → safe dir_names touches_inside (act e) Q.
Proof. intros He HQ. split; [done|]. intros [] _; apply HQ. Qed.
Lemma safe_try_act (e : fs_ev (option string)) (Q : outcome unit → Prop) :
  touches_inside _ e → (∀ o, Q o) → safe dir_names touches_inside (try_act e) Q.
Proof. intros He HQ. split; [done|]. intros r _; apply HQ. Qed.

Lemma safe_SafeOpenFile cs flags mode (Q : outcome unit → Prop) :
  Forall norm_comp cs → (∀ o, Q o) →
  safe dir_names touches_inside (SafeOpenFile cwd (abs_path ds) (abs_path (ds ++ cs)) flags mode) Q.
Proof.
  intros Hcs HQ. unfold SafeOpenFile. rewrite clean_dest_abs. cbn [ebind prog_bind].
  split; [done|]. intros err _.
  assert (safe dir_names touches_inside (act (OpenFile (abs_path (ds ++ cs)) flags mode)) Q) as Hfall
    by (apply safe_act; [by apply inside_path|done]).
  destruct err; [done|].
  destruct (decide (cs = [])) as [->|Hc].
  - rewrite app_nil_r. unfold Rel. rewrite decide_True by done.
    change (has_prefix "." "..") with false. cbn iota.
    split; [unfold touches_inside; rewrite Join_abs_dot by done; by split; exists []; rewrite app_nil_r|].
    intros [] _; [|apply HQ]. by rewrite app_nil_r in Hfall.
  - rewrite Rel_below by done. destruct (has_prefix _ _); [done|].
    split; [unfold touches_inside; rewrite Join_abs_rel by done; split; [|by apply inside_path]|].
    { exists []. by rewrite app_nil_r. }
    intros [] _; [done|apply HQ].
Qed.

Lemma safe_clear cs (Q : outcome unit → Prop) :
  Forall norm_comp cs → (∀ o, Q o) →
  safe dir_names touches_inside (clearDirectoryContents (abs_path (ds ++ cs))) Q.
Proof.
  intros Hcs HQ. split; [done|]. intros [|e|names] Hans; [apply HQ..|]. cbn in Hans.
  apply (safe_mono dir_names touches_inside touches_inside _ (λ _, True)); [done|by intros; apply HQ|].
  apply safe_each. intros name Hin. rewrite Forall_forall in Hans.
  assert (Forall norm_comp [name]) as Hn by (constructor; [by apply Hans|done]).
  assert (Forall norm_comp (ds ++ cs)) as Hdc by by apply Forall_app.
  apply safe_act; [|done]. unfold touches_inside. change name with (str_join slash [name]).
  rewrite (Join_abs_rel (ds ++ cs) [name]) by done. rewrite <-app_assoc.
  apply inside_path. by apply Forall_app.
Qed.

(** Continue after a path check that passed. *)
Lemma safe_checked {B} pre relPath (f : string → prog fs_ev (outcome B)) (Q : outcome B → Prop) :
  (∀ e, Q (Err e)) → Q Panic →
  (∀ cs, Forall norm_comp cs → rel_comps relPath = Some cs →
     safe dir_names touches_inside (f (abs_path (ds ++ cs))) Q) →
  safe dir_names touches_inside
    (p ←! wrapping pre (SafePathClean cwd (abs_path ds) relPath); f p) Q.
Proof.
  intros HE HP Hf. apply safe_ebind, safe_wrapping.
  eapply safe_mono; [| |apply (safe_SafePathClean touches_inside)]; [done| |by intros X []].
  intros [p|e|] Hp; cbn; [|apply HE|done].
  destruct (Hp p eq_refl) as (cs & Hrel & ->). apply Hf; [by eapply rel_comps_norm|done].
Qed.

Lemma safe_extract_file cs hdr data :
  Forall norm_comp cs →
  safe dir_names touches_inside (extract_file cwd (abs_path ds) (abs_path (ds ++ cs)) hdr data) (λ _, True).
Proof.
  intros Hcs. unfold extract_file. apply safe_ebind, safe_wrapping, safe_act; [by apply inside_parent|].
  intros [[]|e|]; [|done..]. apply safe_ebind, safe_wrapping, safe_SafeOpenFile; [done|].
  intros [[]|e|]; [|done..]. apply safe_wrapping, safe_act; [by apply inside_path|done].
Qed.

Lemma safe_extract_symlink cs hdr :
  Forall norm_comp cs →
  safe dir_names touches_inside (extract_symlink cwd (abs_path ds) (abs_path (ds ++ cs)) hdr) (λ _, True).
Proof.
  intros Hcs. unfold extract_symlink. apply safe_ebind. cbn [safe].
  destruct (wrap_err _ _) as [[]|e|]; [|done..].
  apply safe_ebind, safe_wrapping, safe_act; [by apply inside_parent|].
  intros [[]|e|]; [|done..]. apply safe_ebind, safe_try_act; [by apply inside_path|].
  intros [[]|e|]; [|done..]. apply safe_wrapping, safe_act; [by apply inside_path|done].
Qed.

Lemma safe_extract_link cs hdr :
  Forall norm_comp cs →
  safe dir_names touches_inside (extract_link cwd (abs_path ds) (abs_path (ds ++ cs)) hdr) (λ _, True).
Proof.
  intros Hcs. unfold extract_link. apply safe_checked; [done..|]. intros ls Hls _.
  apply safe_ebind, safe_wrapping, safe_act; [by apply inside_parent|].
  intros [[]|e|]; [|done..]. apply safe_ebind, safe_try_act; [by apply inside_path|].
  intros [[]|e|]; [|done..]. split; [by split; apply inside_path|]. intros [err|] _; [|done].
  destruct (ValidateSymlinkTarget _ _ _ _); [|done..]. apply safe_try_act; [by apply inside_path|done].
Qed.

Lemma safe_extract_entry entry :
  safe dir_names touches_inside (extract_entry cwd (abs_path ds) entry) (λ _, True).
Proof.
  destruct entry as [hdr data]. unfold extract_entry. apply safe_checked; [done..|]. intros cs Hcs _.
  case_decide.
  { apply safe_checked; [done..|]. intros cs' Hcs' _. apply safe_wrapping. by apply safe_clear. }
  destruct (has_prefix _ _).
  { apply safe_checked; [done..|]. intros cs' Hcs' _. apply safe_try_act; [by apply inside_path|done]. }
  destruct (Typeflag hdr); [| | | | |done].
  - apply safe_wrapping, safe_act; [left; by apply inside_path|done].
  - by apply safe_extract_file.
  - by apply safe_extract_file.
  - by apply safe_extract_symlink.
  - by apply safe_extract_link.
Qed.
End facts.

(** ** A small POSIX file system

    The symbolic links, by path, and the paths opened for writing after their last
    element was resolved.  [openat2] with [RESOLVE_BENEATH] refuses a last element
    that is an absolute link; a plain [open] follows it. *)
Record posix_state := { links : gmap string string; written : list string; removed : list string }.

Definition posix : handler fs_ev posix_state := λ X e s,
  match e in fs_ev Y return Y * posix_state with
  | Lstat p => (if decide (is_Some (links s !! p)) then LFound true else LNotExist, s)
  | EvalSymlinks p => (inl (default p (links s !! p)), s)
  | ReadDir p => (REntries [], s)
  | MkdirAll _ _ => (None, s)
  | RemoveAll p => (None, {| links := links s; written := written s; removed := removed s ++ [p] |})
  | Remove p => (None, {| links := delete p (links s); written := written s; removed := removed s |})
  | Symlink o n => (None, {| links := <[n := o]> (links s); written := written s; removed := removed s |})
  | Link _ _ => (None, s)
  | OpenDir _ => (None, s)
  | Openat2 dir rel _ _ =>
      let p := Join [dir; rel] in
      if decide (is_Some (links s !! p)) then (Some "invalid cross-device link", s)
      else (None, {| links := links s; written := written s ++ [p]; removed := removed s |})
  | OpenFile p _ _ =>
      (None, {| links := links s; written := written s ++ [default p (links s !! p)]; removed := removed s |})
  | CopyData _ _ => (None, s)
  end.

Definition empty_fs : posix_state := {| links := ∅; written := []; removed := [] |}.

Definition entry (name : string) (t : typeflag) (link : string) : tar_header * string :=
  ({| Name := name; Typeflag := t; Mode := 0; Linkname := link |}, "data").

Definition archive_of (es : list (tar_header * string)) : tar_archive := {| entries := es; tar_err := None |}.

Section theorems.
Context {U : Unix} {UT : UnicodeTables} (cwd : outcome string).

Lemma rel_comps_single c : norm_comp c → rel_comps c = Some [c].
Proof.
  intros Hc. pose proof Hc as (Hne & _ & Hdd & Hf). unfold rel_comps. rewrite decide_False by done.
  assert (is_abs c = false) as -> by (apply (is_abs_prefix_slash [c]); [done|by constructor]).
  rewrite str_split_free by done. unfold clean_comps. cbn [foldl].
  rewrite clean_step_norm by done. cbn. by rewrite decide_False by naive_solver.
Qed.

Lemma SafePathClean_single ds c :
  Forall norm_comp ds → ds ≠ [] → norm_comp c →
  SafePathClean cwd (abs_path ds) c = Ret (Ok (abs_path (ds ++ [c]))).
Proof.
  intros Hds Hne Hc. pose proof (SafePathClean_spec cwd ds Hds Hne c) as Hs.
  rewrite rel_comps_single in Hs by done. by rewrite Hs.
Qed.

(** ** Theorems *)

(** [SafePathClean] is exact and confining: whatever the file system answers, a
    path it returns is the root followed by the elements of the entry name, which
    are ordinary elements; a name is rejected outright exactly when it is empty,
    absolute or climbs above the root. *)
Theorem SafePathClean_confines ds relPath :
  Forall norm_comp ds → ds ≠ [] →
  (rel_comps relPath = None → ∃ e, SafePathClean cwd (abs_path ds) relPath = Ret (Err e)) ∧
  safe any_answer (λ _ _, True) (SafePathClean cwd (abs_path ds) relPath)
    (λ r, ∀ p, r = Ok p → ∃ cs, rel_comps relPath = Some cs ∧ Forall norm_comp cs ∧
                                p = abs_path (ds ++ cs)) ∧
  (∀ c, norm_comp c → SafePathClean cwd (abs_path ds) c = Ret (Ok (abs_path (ds ++ [c])))).
Proof.
  intros Hds Hne. pose proof (SafePathClean_spec cwd ds Hds Hne relPath) as Hs. split_and!.
  - intros Hrel. by rewrite Hrel in Hs.
  - destruct (rel_comps relPath) as [cs|] eqn:Hrel; [|by destruct Hs as [e ->]].
    rewrite Hs. apply safe_ebind.
    eapply safe_mono; [| |apply check_parents_looks]; [done|].
    intros [[]|e|] _; [|done..]. cbn. intros p [= <-]. exists cs.
    split_and!; [done|by eapply rel_comps_norm|done].
  - intros c Hc. by apply SafePathClean_single.
Qed.

(** Extraction stays below its root by name: every path that extracting an
    archive creates, changes, links or removes is the destination or below it,
    whatever the archive holds and the file system answers (directory entries
    having proper names). *)
Theorem ExtractLayerTarball_confined ds archive :
  Forall norm_comp ds → ds ≠ [] →
  safe dir_names (touches_inside ds) (ExtractLayerTarball cwd archive (abs_path ds)) (λ _, True).
Proof.
  intros Hds Hne. unfold ExtractLayerTarball. apply safe_ebind.
  eapply safe_mono; [done| |apply safe_each]; cbn.
  - intros [[]|e|] _; [by destruct (tar_err archive)|done..].
  - intros e _. by apply safe_extract_entry.
Qed.

(** The two entries of the attack, one by one. *)
Lemma exec_symlink_entry ds c es s :
  Forall norm_comp ds → ds ≠ [] → norm_comp c → has_prefix c WhiteoutPrefix = false →
  Forall norm_comp es →
  exec posix (extract_entry cwd (abs_path ds) (entry c TypeSymlink (abs_path es))) s =
    (Ok tt, {| links := <[abs_path (ds ++ [c]) := abs_path es]> (delete (abs_path (ds ++ [c])) (links s));
               written := written s; removed := removed s |}).
Proof.
  intros Hds Hne Hc Hwh Hes. assert (c ≠ OpaqueWhiteout) as Hop by by intros ->.
  assert (ValidateSymlinkTarget cwd (abs_path ds) (abs_path (ds ++ [c])) (abs_path es) = Ok tt) as Hval.
  { unfold ValidateSymlinkTarget. rewrite clean_dest_abs by done. cbn [mbind outcome_bind].
    change (has_prefix (abs_path es) "/") with (is_abs (abs_path es)). rewrite is_abs_abs_path.
    rewrite Join_abs_abs by done. rewrite Clean_abs_path by by apply Forall_app.
    by rewrite within_inside. }
  unfold extract_entry, entry. cbn [Name Typeflag].
  rewrite SafePathClean_single by done. cbn [wrapping prog_bind wrap_err ebind].
  rewrite Base_norm, Hwh by done. rewrite decide_False by done.
  unfold extract_symlink. cbn [Linkname Name]. by rewrite Hval.
Qed.

Lemma exec_file_entry ds c link t s :
  Forall norm_comp ds → ds ≠ [] → norm_comp c → has_prefix c WhiteoutPrefix = false →
  links s !! abs_path (ds ++ [c]) = Some t →
  exec posix (extract_entry cwd (abs_path ds) (entry c TypeReg link)) s =
    (Ok tt, {| links := links s; written := written s ++ [t]; removed := removed s |}).
Proof.
  intros Hds Hne Hc Hwh Hl. assert (c ≠ OpaqueWhiteout) as Hop by by intros ->.
  assert (Forall norm_comp [c]) as Hc1 by by constructor.
  unfold extract_entry, entry. cbn [Name Typeflag].
  rewrite SafePathClean_single by done. cbn [wrapping prog_bind wrap_err ebind].
  rewrite Base_norm, Hwh by done. rewrite decide_False by done.
  unfold extract_file, SafeOpenFile. cbn [Mode]. rewrite clean_dest_abs by done. cbn [ebind prog_bind]. rewrite (Rel_below ds [c]) by done.
  change (str_join slash [c]) with c.
  cbn [wrapping act prog_bind wrap_err ebind exec posix].
  destruct (has_prefix c "..").
  - cbn [wrapping act prog_bind wrap_err ebind exec posix]. by rewrite Hl.
  - cbn [wrapping act prog_bind wrap_err ebind exec posix].
    pose proof (Join_abs_rel ds [c] Hds Hc1 ltac:(done)) as Hj. change (str_join slash [c]) with c in Hj.
    rewrite Hj, decide_True by by eexists.
    cbn [wrapping act prog_bind wrap_err ebind exec posix]. by rewrite Hl.
Qed.

(** But not by content: when [openat2] refuses to leave the root, the code opens
    the same path without the restriction.  An archive with a symbolic link to an
    absolute path and then a file of the same name overwrites that path of the
    host, for every path. *)
Theorem symlink_then_file_escapes ds c es :
  Forall norm_comp ds → ds ≠ [] → norm_comp c → has_prefix c WhiteoutPrefix = false →
  Forall norm_comp es →
  let r := exec posix (ExtractLayerTarball cwd
    (archive_of [entry c TypeSymlink (abs_path es); entry c TypeReg ""]) (abs_path ds)) empty_fs in
  r.1 = Ok tt ∧ written r.2 = [abs_path es].
Proof.
  intros Hds Hne Hc Hwh Hes. cbv zeta.
  unfold ExtractLayerTarball, archive_of. cbn [entries tar_err each].
  unfold ebind. rewrite !exec_bind, exec_symlink_entry by done. cbn [fst snd].
  rewrite exec_bind, (exec_file_entry _ _ _ (abs_path es)) by (done || apply lookup_insert_eq). done.
Qed.

(** A whiteout is an entry [.wh.<name>] and deletes [<name>]; one with an empty
    name deletes the extraction root itself, and the extraction reports success. *)
Theorem empty_whiteout_wipes_root ds s :
  Forall norm_comp ds → ds ≠ [] →
  exec posix (ExtractLayerTarball cwd (archive_of [entry WhiteoutPrefix TypeReg ""]) (abs_path ds)) s =
    (Ok tt, {| links := links s; written := written s; removed := removed s ++ [abs_path ds] |}).
Proof.
  intros Hds Hne. assert (norm_comp WhiteoutPrefix) as Hc by by apply (bool_decide_unpack _).
  assert (exec posix (extract_entry cwd (abs_path ds) (entry WhiteoutPrefix TypeReg "")) s =
    (Ok tt, {| links := links s; written := written s; removed := removed s ++ [abs_path ds] |})) as He.
  { unfold extract_entry, entry. cbn [Name Typeflag].
    rewrite SafePathClean_single by done. cbn [wrapping prog_bind wrap_err ebind].
    rewrite Base_norm, decide_False by done. change (has_prefix WhiteoutPrefix WhiteoutPrefix) with true.
    cbn iota.
    change (Join [Dir WhiteoutPrefix; trim_prefix WhiteoutPrefix WhiteoutPrefix]) with ".".
    pose proof (SafePathClean_spec cwd ds Hds Hne ".") as Hs.
    change (rel_comps ".") with (Some (@nil string)) in Hs. cbn iota in Hs.
    by rewrite Hs, app_nil_r. }
  unfold ExtractLayerTarball, archive_of. cbn [entries tar_err each].
  unfold ebind. by rewrite !exec_bind, He.
Qed.
End theorems.

(** ** Witnesses *)


Lemma norm_dest : Forall norm_comp ["var"; "layer"].
Proof. by apply (bool_decide_unpack _). Qed.

(** A name that climbs is rejected, one that climbs inside the root is not. *)
Lemma SafePathClean_confines_witness :
  @SafePathClean no_tables (Ok "/") "/var/layer" "conf" = Ret (Ok "/var/layer/conf") ∧
  ∃ e, @SafePathClean no_tables (Ok "/") "/var/layer" "a/../../b" = Ret (Err e).
Proof.
  split.
  - apply (@SafePathClean_confines no_tables (Ok "/") ["var"; "layer"] "conf" norm_dest
             ltac:(discriminate)).
    by apply (bool_decide_unpack _).
  - apply (@SafePathClean_confines no_tables (Ok "/") ["var"; "layer"] "a/../../b" norm_dest
             ltac:(discriminate)).
    vm_compute. reflexivity.
Defined.

Definition sample_archive : tar_archive :=
  archive_of [entry "etc" TypeDir ""; entry "etc/passwd" TypeReg ""; entry "etc/.wh..wh..opq" TypeReg "";
              entry "bin/sh" TypeSymlink "../etc/passwd"].

Lemma ExtractLayerTarball_confined_witness :
  (exec posix (@ExtractLayerTarball x86_64 no_tables (Ok "/") sample_archive "/var/layer") empty_fs).1
    = Ok tt ∧
  safe dir_names (touches_inside ["var"; "layer"])
    (@ExtractLayerTarball x86_64 no_tables (Ok "/") sample_archive "/var/layer") (λ _, True).
Proof.
  split; [vm_compute; reflexivity|].
  apply (@ExtractLayerTarball_confined x86_64 no_tables (Ok "/") ["var"; "layer"] sample_archive
           norm_dest ltac:(discriminate)).
Defined.

Lemma symlink_then_file_escapes_witness :
  written (exec posix (@ExtractLayerTarball x86_64 no_tables (Ok "/")
    (archive_of [entry "conf" TypeSymlink "/etc/passwd"; entry "conf" TypeReg ""]) "/var/layer")
    empty_fs).2 = ["/etc/passwd"].
Proof.
  apply (@symlink_then_file_escapes x86_64 no_tables (Ok "/") ["var"; "layer"] "conf" ["etc"; "passwd"]).
  - apply norm_dest.
  - discriminate.
  - by apply (bool_decide_unpack _).
  - reflexivity.
  - by apply (bool_decide_unpack _).
Defined.

Lemma empty_whiteout_wipes_root_witness :
  ∃ fs, exec posix (@ExtractLayerTarball x86_64 no_tables (Ok "/")
    (archive_of [entry ".wh." TypeReg ""]) "/var/layer") empty_fs = (Ok tt, fs) ∧
  removed fs = ["/var/layer"].
Proof.
  eexists. split.
  - apply (@empty_whiteout_wipes_root x86_64 no_tables (Ok "/") ["var"; "layer"] empty_fs norm_dest
             ltac:(discriminate)).
  - reflexivity.
Defined.
