(* ===== verification/Service.v ===== *)
(** * Supervised services ([internal/svcd/supervisor.go], [internal/svcd/cgroup.go])

    One service object and the code that runs under its lock: starting the process
    through the isolation wrapper, control groups, stopping, and the decisions of the
    monitor.  Interleavings of these pieces are in [SvcRun.v].  The flags of
    [cmd/karim-secd] are parsed here, so that the two ends of the command line meet. *)

From Stdlib Require Import Ascii SpecFloat.
From S2P Require Import Prelude GoStrings GoStrconv GoPath GoFloat GoFlag Prog Linux Seccomp Secd SvcConfig.

(** ** Data *)

Inductive ProcessState := StateStopped | StateStarting | StateRunning | StateStopping | StateTerminated.
#[export] Instance ProcessState_dec : EqDecision ProcessState.
Proof. solve_decision. Defined.

Definition ProcessState_String (s : ProcessState) : string :=
  match s with
  | StateStopped => "STOPPED"
  | StateStarting => "STARTING"
  | StateRunning => "RUNNING"
  | StateStopping => "STOPPING"
  | StateTerminated => "TERMINATED"
  end.

(** [Cmd] is the process of [ms.Cmd]; [CGroupMgr] says whether there is a manager. *)
Record ManagedService := {
  Spec : ServiceSpec;
  State : ProcessState;
  Cmd : option Z;
  CGroupMgr : bool;
  restartCount : Z;
  exitCodeRecorded : bool;
  recordedExitCode : Z
}.

Definition NewManagedService (spec : ServiceSpec) (cgm : bool) : ManagedService := {|
  Spec := spec; State := StateStopped; Cmd := None; CGroupMgr := cgm; restartCount := 0;
  exitCodeRecorded := false; recordedExitCode := 0
|}.

Definition RecordExitStatus (exitCode : Z) (ms : ManagedService) : ManagedService :=
  {| Spec := Spec ms; State := State ms; Cmd := Cmd ms; CGroupMgr := CGroupMgr ms;
     restartCount := restartCount ms; exitCodeRecorded := true; recordedExitCode := exitCode |}.

Definition with_state (st : ProcessState) (ms : ManagedService) : ManagedService :=
  {| Spec := Spec ms; State := st; Cmd := Cmd ms; CGroupMgr := CGroupMgr ms;
     restartCount := restartCount ms; exitCodeRecorded := exitCodeRecorded ms;
     recordedExitCode := recordedExitCode ms |}.

(** A child process to start. *)
Record child := {
  c_path : string;
  c_args : list string;
  c_dir : string;
  c_env : list string;
  c_pdeathsig : Z;
  c_chroot : string
}.

Inductive svc_ev : Type → Type :=
| Stat (path : string) : svc_ev bool
| LookPath (file : string) : svc_ev bool
| StdoutPipe : svc_ev (option string)
| StderrPipe : svc_ev (option string)
| StartProcess (c : child) : svc_ev (Z + string)
| MkdirAll (path : string) (mode : Z) : svc_ev (option string)
| WriteFile (path data : string) (mode : Z) : svc_ev (option string)
| GoStreamLogs (prefix : string) : svc_ev unit
| GoMonitor : svc_ev unit
| Signal (pid sig : Z) : svc_ev (option string)
| Kill (pid : Z) : svc_ev (option string).

Definition act (e : svc_ev (option string)) : prog svc_ev (outcome unit) :=
  Vis e (λ r, Ret match r with Some err => Err err | None => Ok tt end).
(** [_ = f()], or an error that is only printed *)
Definition try_act (e : svc_ev (option string)) : prog svc_ev (outcome unit) :=
  Vis e (λ _, Ret (Ok tt)).

(** ** Control groups *)

Definition CGroupBaseDir : string := "/sys/fs/cgroup/karim".

Definition enableSubtreeControllers (parentDir controllers : string) : svc_ev (option string) :=
  WriteFile (Join [parentDir; "cgroup.subtree_control"]) controllers 0x1A4.

Definition NewCGroupManager : prog svc_ev (outcome unit) :=
  _ ←! wrapping ("failed to create base cgroup directory " +:+ CGroupBaseDir +:+ ": ")
         (act (MkdirAll CGroupBaseDir 0x1ED));
  _ ←! try_act (enableSubtreeControllers "/sys/fs/cgroup" "+memory +cpu");
  try_act (enableSubtreeControllers CGroupBaseDir "+memory +cpu").

Definition cpu_period : Z := 100000.
(** [int(spec.CPUQuota * float64(period) / 100.0)] *)
Definition cpu_quota_us (q : float64) : Z :=
  f64_to_int (f64_div (f64_mul q (f64_of_Z cpu_period)) (f64_of_Z 100)).

Definition CreateServiceCGroup (spec : ServiceSpec) : prog svc_ev (outcome string) :=
  let path := Join [CGroupBaseDir; Name spec] in
  _ ←! wrapping ("failed to create service cgroup " +:+ path +:+ ": ") (act (MkdirAll path 0x1ED));
  _ ←! (if (0 <? MemoryLimit spec)%Z
        then try_act (WriteFile (Join [path; "memory.max"]) (itoa (MemoryLimit spec)) 0x1A4)
        else done_);
  _ ←! (if f64_gtb (CPUQuota spec) (S754_zero false)
        then try_act (WriteFile (Join [path; "cpu.max"])
               (itoa (cpu_quota_us (CPUQuota spec)) +:+ " " +:+ itoa cpu_period) 0x1A4)
        else done_);
  Ret (Ok path).

Definition AttachProcess (serviceName : string) (pid : Z) : prog svc_ev (outcome unit) :=
  let procsPath := Join [CGroupBaseDir; serviceName; "cgroup.procs"] in
  wrapping ("failed to attach PID " +:+ itoa pid +:+ " to " +:+ procsPath +:+ ": ")
    (act (WriteFile procsPath (itoa pid) 0x1A4)).

(** ** Starting *)

(** Signals of package [syscall] on Linux. *)
Definition SIGINT : Z := 2.
Definition SIGKILL : Z := 9.

Section start.
Context {UT : UnicodeTables}.

(** [SetupChildProcAttr] *)
Definition SetupChildProcAttr : Z := SIGKILL.

(** The pre-flight check: the executable to run. *)
Definition resolve_exec (spec : ServiceSpec) : prog svc_ev (outcome string) :=
  let execPath := Exec spec in
  let targetCheckPath := if decide (RootDir spec = "") then execPath else Join [RootDir spec; execPath] in
  Vis (Stat targetCheckPath) (λ found,
    if found : bool then Ret (Ok execPath)
    else
      let buildFallback := Join ["build"; Base execPath] in
      Vis (Stat buildFallback) (λ found,
        if found : bool then Ret (Ok buildFallback)
        else
          Vis (LookPath execPath) (λ found,
            if found : bool then Ret (Ok execPath)
            else throw ("executable " +:+ quote execPath +:+
                        " not found on rootfs (import container layer via 'karim import')")))).

(** The isolation wrapper; empty when there is none. *)
Definition find_secd (k : string → prog svc_ev (ManagedService * outcome unit))
    : prog svc_ev (ManagedService * outcome unit) :=
  Vis (Stat "/sbin/karim-secd") (λ found,
    if found : bool then k "/sbin/karim-secd"
    else Vis (Stat "build/karim-secd") (λ found, if found : bool then k "build/karim-secd" else k "")).

Definition wants_wrapper (spec : ServiceSpec) : bool :=
  negb (bool_decide (SvcConfig.SeccompProfile spec ∈ ["unrestricted"; "none"; "disabled"])).

Definition secd_args (spec : ServiceSpec) (execPath : string) : list string :=
  ["-profile"; SvcConfig.SeccompProfile spec; "-exec"; execPath] ++
  (if decide (CapabilitiesAdd spec = []) then [] else ["-caps-add"; str_join "," (CapabilitiesAdd spec)]) ++
  (if decide (CapabilitiesDrop spec = []) then [] else ["-caps-drop"; str_join "," (CapabilitiesDrop spec)]) ++
  (if SvcConfig.NoNewPrivs spec then [] else ["-no-new-privs=false"]) ++
  ["--"] ++ Args spec.

Definition defaultEnv : list string :=
  ["PATH=/usr/local/sbin:/usr/local/bin:/usr/sbin:/usr/bin:/sbin:/bin";
   "LD_LIBRARY_PATH=/lib:/usr/lib:/usr/local/lib:/lib64:/usr/lib64:/usr/local/lib64";
   "HOME=/root"; "TMPDIR=/tmp"].

(** The command, given the wrapper and the executable. *)
Definition service_child (spec : ServiceSpec) (secdBin execPath : string) : child :=
  let wrapped := negb (bool_decide (secdBin = "")) && wants_wrapper spec in
  let chrooted := negb (bool_decide (RootDir spec = "")) in
  {| c_path := if wrapped then secdBin else execPath;
     c_args := if wrapped then secd_args spec execPath else Args spec;
     c_dir := if chrooted && bool_decide (Directory spec = "") then "/" else Directory spec;
     c_env := defaultEnv ++ Env spec;
     c_pdeathsig := SetupChildProcAttr;
     c_chroot := RootDir spec |}.

(** [exitCodeRecorded = false; recordedExitCode = 0; State = StateStarting] *)
Definition starting (ms : ManagedService) : ManagedService :=
  {| Spec := Spec ms; State := StateStarting; Cmd := Cmd ms; CGroupMgr := CGroupMgr ms;
     restartCount := restartCount ms; exitCodeRecorded := false; recordedExitCode := 0 |}.

(** [ms.Cmd = cmd; ms.State = StateRunning] *)
Definition started (pid : Z) (ms : ManagedService) : ManagedService :=
  {| Spec := Spec ms; State := StateRunning; Cmd := Some pid; CGroupMgr := CGroupMgr ms;
     restartCount := restartCount ms; exitCodeRecorded := exitCodeRecorded ms;
     recordedExitCode := recordedExitCode ms |}.

(** What [Start] does once the process runs. *)
Definition after_start (ms : ManagedService) (pid : Z) : prog svc_ev (ManagedService * outcome unit) :=
  prog_bind (λ _,
    Vis (GoStreamLogs ("[karim-svcd | " +:+ Name (Spec ms) +:+ "] ")) (λ _,
    Vis (GoStreamLogs ("[karim-svcd | " +:+ Name (Spec ms) +:+ " | ERR] ")) (λ _,
    Vis GoMonitor (λ _, Ret (ms, Ok tt)))))
    (if CGroupMgr ms
     then _ ←! CreateServiceCGroup (Spec ms); AttachProcess (Name (Spec ms)) pid
     else done_).

(** [Start], under the lock: the service afterwards, and the error. *)
Definition Start (ms : ManagedService) : prog svc_ev (ManagedService * outcome unit) :=
  let spec := Spec ms in
  if decide (State ms = StateRunning) then
    Ret (ms, Err ("service " +:+ Name spec +:+ " is already running"))
  else
    let ms := starting ms in
    let failed e := Ret (with_state StateStopped ms, Err e) in
    prog_bind (λ r,
      match r with
      | Err e => failed e
      | Panic => Ret (ms, Panic)
      | Ok execPath =>
          find_secd (λ secdBin,
            Vis StdoutPipe (λ err,
              match err with
              | Some e => failed ("failed stdout pipe for " +:+ Name spec +:+ ": " +:+ e)
              | None =>
                  Vis StderrPipe (λ err,
                    match err with
                    | Some e => failed ("failed stderr pipe for " +:+ Name spec +:+ ": " +:+ e)
                    | None =>
                        Vis (StartProcess (service_child spec secdBin execPath)) (λ r,
                          match r with
                          | inr e => failed ("failed to start service process " +:+ Name spec +:+ ": " +:+ e)
                          | inl pid => after_start (started pid ms) pid
                          end)
                    end)
              end))
      end) (resolve_exec spec).

(** ** Stopping *)

Definition Stop (ms : ManagedService) : prog svc_ev ManagedService :=
  match State ms, Cmd ms with
  | StateRunning, Some pid =>
      Vis (Signal pid (SIGINT)) (λ err,
        let ms := with_state StateStopping ms in
        match err with
        | Some _ => Vis (Kill pid) (λ _, Ret ms)
        | None => Ret ms
        end)
  | _, _ => Ret ms
  end.
End start.

(** ** The monitor *)

(** What [ms.Cmd.Wait()] returns: [nil], an exit error, or another error. *)
Inductive wait_result := WaitNil | WaitExit (code : Z) | WaitErr (text : string).

Definition exit_code (ms : ManagedService) (err : wait_result) : Z :=
  if exitCodeRecorded ms then recordedExitCode ms
  else match err with
       | WaitNil => 0
       | WaitExit code => code
       | WaitErr text => if str_contains text "no child processes" then 0 else 1
       end.

(** The first critical section of [monitor]. *)
Definition monitor_exit (err : wait_result) (ms : ManagedService) : ManagedService * Z :=
  (with_state StateTerminated ms, exit_code ms err).

Definition shouldRestart (policy : string) (exitCode : Z) : bool :=
  if decide (policy = "always") then true
  else if decide (policy = "on-failure") then negb (exitCode =? 0)%Z
  else false.

Definition second : Z := 1000000000.

(** [time.Duration(1<<min(count-1, 5)) * time.Second], at most 30 seconds; a
    negative shift count panics. *)
Definition backoff (count : Z) : outcome Z :=
  let shift := Z.min (wrap_s 64 (count - 1)) 5 in
  if (shift <? 0)%Z then Panic
  else
    let b := wrap_s 64 (Z.shiftl 1 shift * second) in
    Ok (if (30 * second <? b)%Z then 30 * second else b)%Z.

(** The second critical section: the attempt is counted. *)
Definition count_restart (ms : ManagedService) : ManagedService :=
  {| Spec := Spec ms; State := State ms; Cmd := Cmd ms; CGroupMgr := CGroupMgr ms;
     restartCount := wrap_s 64 (restartCount ms + 1); exitCodeRecorded := exitCodeRecorded ms;
     recordedExitCode := recordedExitCode ms |}.

Definition may_restart (spec : ServiceSpec) (count : Z) : bool :=
  negb ((0 <? MaxRestarts spec)%Z && (MaxRestarts spec <? count)%Z).

Definition maxRestartsLabel (max : Z) : string := if (max =? 0)%Z then "∞" else itoa max.

Definition restart_notice (spec : ServiceSpec) (count : Z) : string :=
  "[karim-svcd] Restart policy '" +:+ Restart spec +:+ "' active for " +:+ Name spec +:+ " (attempt " +:+
  itoa count +:+ "/" +:+ maxRestartsLabel (MaxRestarts spec) +:+ ")".

(** ** The wrapper's command line *)

(** The flags [cmd/karim-secd] declares, and their defaults. *)
Definition secd_default_flags : secd_flags := {|
  profileFlag := "app-default"; capsAddFlag := ""; capsDropFlag := "ALL"; noNewPrivsFlag := true;
  execFlag := ""; rootfsFlag := ""; mountNSFlag := false; posArgs := []
|}.

Definition secd_is_bool (name : string) : option bool :=
  if decide (name ∈ ["profile"; "caps-add"; "caps-drop"; "exec"; "rootfs"]) then Some false
  else if decide (name ∈ ["no-new-privs"; "mount-ns"]) then Some true
  else None.

Definition secd_set_flag (name v : string) (f : secd_flags) : option secd_flags :=
  let '(Build_secd_flags p ca cd n e r m pos) := f in
  if decide (name = "profile") then Some (Build_secd_flags v ca cd n e r m pos)
  else if decide (name = "caps-add") then Some (Build_secd_flags p v cd n e r m pos)
  else if decide (name = "caps-drop") then Some (Build_secd_flags p ca v n e r m pos)
  else if decide (name = "exec") then Some (Build_secd_flags p ca cd n v r m pos)
  else if decide (name = "rootfs") then Some (Build_secd_flags p ca cd n e v m pos)
  else if decide (name = "no-new-privs") then b ← parse_bool v; Some (Build_secd_flags p ca cd b e r m pos)
  else if decide (name = "mount-ns") then b ← parse_bool v; Some (Build_secd_flags p ca cd n e r b pos)
  else None.

(** [flag.Parse] and [flag.Args] of [cmd/karim-secd]. *)
Definition secd_parse (args : list string) : option secd_flags :=
  '(f, pos) ← parse_flags secd_is_bool secd_set_flag args secd_default_flags;
  let '(Build_secd_flags p ca cd n e r m _) := f in
  Some (Build_secd_flags p ca cd n e r m pos).

(** * Properties *)

(** ** The command line of the wrapper *)

(** The flags that [secd_args] stands for. *)
Definition meant_flags (spec : ServiceSpec) (execPath : string) : secd_flags := {|
  profileFlag := SvcConfig.SeccompProfile spec;
  capsAddFlag := str_join "," (CapabilitiesAdd spec);
  capsDropFlag := if decide (CapabilitiesDrop spec = []) then "ALL" else str_join "," (CapabilitiesDrop spec);
  noNewPrivsFlag := SvcConfig.NoNewPrivs spec;
  execFlag := execPath; rootfsFlag := ""; mountNSFlag := false; posArgs := Args spec
|}.

Lemma secd_parse_args spec execPath : secd_parse (secd_args spec execPath) = Some (meant_flags spec execPath).
Proof.
  unfold secd_args, meant_flags.
  by destruct (CapabilitiesAdd spec), (CapabilitiesDrop spec), (SvcConfig.NoNewPrivs spec).
Qed.

(** ** What [Start] runs *)

Section start_facts.
Context {UT : UnicodeTables}.

Definition build_fallback (spec : ServiceSpec) : string := Join ["build"; Base (Exec spec)].

Definition resolved (spec : ServiceSpec) (p : string) : Prop := p = Exec spec ∨ p = build_fallback spec.

(** Where the wrapper can be found, given what [Stat] may answer. *)
Definition wrapper_at (ans : answer_rel svc_ev) (secdBin : string) : Prop :=
  (secdBin = "/sbin/karim-secd" ∧ ans _ (Stat "/sbin/karim-secd") true) ∨
  (secdBin = "build/karim-secd" ∧ ans _ (Stat "/sbin/karim-secd") false ∧
     ans _ (Stat "build/karim-secd") true) ∨
  (secdBin = "" ∧ ans _ (Stat "/sbin/karim-secd") false ∧ ans _ (Stat "build/karim-secd") false).

(** Every request except starting a process. *)
Definition no_child X (e : svc_ev X) : Prop :=
  match e with StartProcess _ => False | _ => True end.

Lemma safe_resolve_exec ans P spec :
  (∀ X e, no_child X e → P X e) →
  safe ans P (resolve_exec spec)
    (λ r, match r with Ok p => resolved spec p | Err _ => True | Panic => False end).
Proof.
  intros HP. unfold resolve_exec. split; [by apply HP|]. intros [] _; [by left|].
  split; [by apply HP|]. intros [] _; [by right|]. split; [by apply HP|]. intros [] _; [by left|done].
Qed.

Lemma safe_find_secd ans P k Q :
  (∀ X e, no_child X e → P X e) →
  (∀ secdBin, wrapper_at ans secdBin → safe ans P (k secdBin) Q) → safe ans P (find_secd k) Q.
Proof.
  intros HP Hk. unfold find_secd. split; [by apply HP|]. intros [] H1; [by apply Hk; left|].
  split; [by apply HP|]. intros [] H2; apply Hk; right; [by left|by right].
Qed.

Lemma issues_CreateServiceCGroup P spec :
  (∀ X e, no_child X e → P X e) → issues P (CreateServiceCGroup spec).
Proof.
  intros HP. unfold CreateServiceCGroup, try_act, act.
  apply issues_ebind; [apply issues_wrapping, issues_vis; [by apply HP|done]|intros _].
  apply issues_ebind; [destruct (_ <? _)%Z; [apply issues_vis; [by apply HP|done]|done]|intros _].
  apply issues_ebind; [destruct (f64_gtb _ _); [apply issues_vis; [by apply HP|done]|done]|done].
Qed.

Lemma safe_after_start ans P ms pid :
  (∀ X e, no_child X e → P X e) → safe ans P (after_start ms pid) (λ _, True).
Proof.
  intros HP. apply (safe_bind ans P). eapply (safe_mono ans P P _ (λ _, True)); [done| |].
  - intros _ _. repeat (split; [by apply HP|intros ? _]). done.
  - destruct (CGroupMgr ms); [|done].
    assert (issues P (_ ←! CreateServiceCGroup (Spec ms); AttachProcess (Name (Spec ms)) pid)) as Hi.
    { apply issues_ebind; [by apply issues_CreateServiceCGroup|intros _].
      apply issues_wrapping, issues_vis; [by apply HP|done]. }
    by apply issues_safe.
Qed.

Lemma safe_Start ans P ms :
  (∀ X e, no_child X e → P X e) →
  (∀ secdBin p, wrapper_at ans secdBin → resolved (Spec ms) p →
     P _ (StartProcess (service_child (Spec ms) secdBin p))) →
  safe ans P (Start ms) (λ _, True).
Proof.
  intros HP HS. unfold Start. case_decide; [done|]. apply safe_bind.
  eapply (safe_mono ans P P); [done| |by apply safe_resolve_exec]. cbn beta.
  intros [p|e|] Hp; [|done..]. apply safe_find_secd; [done|]. intros secdBin Hw.
  split; [by apply HP|]. intros [e|] _; [done|]. split; [by apply HP|]. intros [e|] _; [done|].
  split; [by apply HS|]. intros [pid|e] _; [|done]. by apply safe_after_start.
Qed.
End start_facts.

Lemma Clean_nonempty p : Clean p ≠ "".
Proof.
  unfold Clean. case_decide; [done|]. destruct (is_abs p); [by unfold slash; rewrite str_app_cons|].
  by case_decide.
Qed.

(** ** Processes and monitors

    The children started so far and the number of monitors. *)
Definition spawn_env : env_rel svc_ev (list Z * nat) := λ X e s x s',
  match e in svc_ev Y return Y → Prop with
  | StartProcess _ => λ r, s' = match r with inl pid => (s.1 ++ [pid], s.2) | inr _ => s end
  | GoMonitor => λ _, s' = (s.1, S s.2)
  | _ => λ _, s' = s
  end x.

Definition quiet X (e : svc_ev X) : Prop :=
  match e with StartProcess _ | GoMonitor => False | _ => True end.

Lemma wp_quiet {A} (m : prog svc_ev A) s : issues quiet m → wp spawn_env m (λ _ s', s' = s) s.
Proof.
  intros Hm. apply (wp_issues spawn_env quiet (λ s', s' = s)); [done| |done].
  intros X e s1 x s2 He ->. by destruct e.
Qed.

Section start_state.
Context {UT : UnicodeTables}.

Lemma wp_resolve_exec spec s :
  wp spawn_env (resolve_exec spec) (λ r s', r ≠ Panic ∧ s' = s) s.
Proof.
  unfold resolve_exec. intros [] s1 ->; [by split|]. intros [] s2 ->; [by split|].
  by intros [] s3 ->.
Qed.

Lemma wp_find_secd k Q s : (∀ b, wp spawn_env (k b) Q s) → wp spawn_env (find_secd k) Q s.
Proof. intros Hk. unfold find_secd. intros [] s1 ->; [apply Hk|]. intros [] s2 ->; apply Hk. Qed.

Lemma wp_after_start ms pid s :
  wp spawn_env (after_start ms pid) (λ r s', r = (ms, Ok tt) ∧ s' = (s.1, S s.2)) s.
Proof.
  unfold after_start. apply wp_bind. eapply wp_mono; [|apply wp_quiet].
  - cbn beta. intros _ s' ->. by intros [] s1 -> [] s2 -> [] s3 ->.
  - destruct (CGroupMgr ms); [|done]. apply issues_ebind; [|by intros _].
    unfold CreateServiceCGroup. apply issues_ebind; [done|intros _].
    apply issues_ebind; [by destruct (_ <? _)%Z|intros _].
    by apply issues_ebind; [destruct (f64_gtb _ _)|].
Qed.

(** ** Control group paths *)

Definition cgroup_dir (name : string) : list string := ["sys"; "fs"; "cgroup"; "karim"; name].

Lemma cgroup_base_norm : Forall norm_comp ["sys"; "fs"; "cgroup"; "karim"].
Proof. by apply (bool_decide_unpack _). Qed.

Lemma Join_cgroup name : norm_comp name → Join [CGroupBaseDir; name] = abs_path (cgroup_dir name).
Proof.
  intros Hn. change CGroupBaseDir with (abs_path ["sys"; "fs"; "cgroup"; "karim"]).
  apply (Join_abs_rel ["sys"; "fs"; "cgroup"; "karim"] [name]); [apply cgroup_base_norm|by constructor|done].
Qed.

Lemma Join_cgroup_file name file :
  norm_comp name → norm_comp file →
  Join [abs_path (cgroup_dir name); file] = abs_path (cgroup_dir name ++ [file]).
Proof.
  intros Hn Hf. apply (Join_abs_rel (cgroup_dir name) [file]); [|by constructor|done].
  apply (Forall_app norm_comp ["sys"; "fs"; "cgroup"; "karim"] [name]).
  split; [apply cgroup_base_norm|by constructor].
Qed.

(** Every whole percentage up to 64 processors, checked by computation. *)
Definition percent_ok (p : Z) : bool :=
  match parseCPUQuota (itoa p +:+ "%") with
  | Ok q => f64_gtb q (S754_zero false) && (cpu_quota_us q =? 1000 * p)%Z
  | _ => false
  end.

Lemma percents_ok : forallb percent_ok (seqZ 1 6400) = true.
Proof. vm_compute. reflexivity. Qed.

(** ** Theorems *)

(** C13: [Start] is all or nothing: on success the service is running, its command is
    the one process the call started, and exactly one monitor watches it; a running
    service is left as it is; after any other error no process was started and the
    service is [STOPPED].  It never panics.  The CLI reference and the supervisor
    documentation say that a launch error marks the service [FAILED]: there is no such
    state in the code. *)
Theorem Start_all_or_nothing ms s :
  wp spawn_env (Start ms)
    (λ '(ms', r) s', match r with
       | Ok _ => State ms ≠ StateRunning ∧
           ∃ pid, ms' = started pid (starting ms) ∧ s' = (s.1 ++ [pid], S s.2)
       | Err _ => s' = s ∧
           ms' = (if decide (State ms = StateRunning) then ms else with_state StateStopped (starting ms))
       | Panic => False
       end) s.
Proof.
  unfold Start. destruct (decide (State ms = StateRunning)) as [Hs|Hs]; [done|].
  apply wp_bind. eapply wp_mono; [|apply wp_resolve_exec]. cbn beta.
  intros [p|e|] s1 [Hp ->]; [|done..]. apply wp_find_secd. intros secdBin.
  intros [e|] s2 ->; [done|]. intros [e|] s3 ->; [done|]. intros [pid|e] s4 ->; [|done].
  eapply wp_mono; [|apply wp_after_start]. intros [ms' r] s5 [[= -> ->] ->].
  split; [done|]. by exists pid.
Qed.

(** C1: a service that is not chrooted and whose profile is enabled is started
    confined: when the wrapper is installed, every process [Start] creates is the
    wrapper, in the file system of the supervisor, and on the command line it is given
    the wrapper (as modelled by [secd_main]) only ever executes the service's executable
    with the service's arguments; and when its goroutine has then stayed on one thread,
    which nothing in the code ensures ([Secd.migration_loses_policy]), the program has
    [no_new_privs] set and carries the filter of the service's profile.  A service with
    [RootDir] is left out: its command is chrooted, so that the path of the wrapper
    is looked up inside the directory of the service. *)
Theorem Start_confines {U : Unix} {M : BpfMachine} ms (ans : answer_rel svc_ev) :
  (∀ b, ans _ (Stat "/sbin/karim-secd") b → b = true) → RootDir (Spec ms) = "" →
  SvcConfig.SeccompProfile (Spec ms) ∉ ["unrestricted"; "none"; "disabled"] → Exec (Spec ms) ≠ "" → SvcConfig.SeccompProfile (Spec ms) ≠ "" →
  safe ans (λ X e,
    match e with
    | StartProcess c => c_path c = "/sbin/karim-secd" ∧ c_chroot c = "" ∧
        ∃ f p, secd_parse (c_args c) = Some f ∧ resolved (Spec ms) p ∧
          ∀ s0 th0, at_start s0 th0 →
            wp kernel (secd_main f) (λ r s', r = Replaced → ∃ th,
              threads s' = {[running s' := th]} ∧ p_exec th = Some (p, p :: Args (Spec ms)) ∧
              (moved s' = false → p_nnp th = true ∧
               ∃ prog, GetProfileFilter (SvcConfig.SeccompProfile (Spec ms)) ActionKillProcess = Ok prog ∧
                       p_filters th = prog :: p_filters th0)) s0
    | _ => True
    end) (Start ms) (λ _, True).
Proof.
  intros Hans Hroot Hpr He Hp. assert (wants_wrapper (Spec ms) = true) as Hw.
  { unfold wants_wrapper. by rewrite bool_decide_false. }
  apply safe_Start; [by intros X []|].
  intros secdBin p [[-> _]|[(_ & H & _)|(_ & H & _)]] Hres; [|by apply Hans in H..].
  unfold service_child. rewrite Hw, bool_decide_false by done. cbn [negb andb c_path c_chroot c_args].
  split_and!; [done..|]. exists (meant_flags (Spec ms) p), p. split_and!; [apply secd_parse_args|done|].
  intros s0 th0 Hs0. eapply wp_mono; [|by apply wp_secd_main_kernel]. intros r s' H Hr.
  destruct (H Hr) as (th & Hth & Hx & Hc). exists th. split_and!; [done| |].
  - rewrite Hx. unfold secd_target, meant_flags. cbn [execFlag posArgs]. rewrite decide_False; [done|].
    destruct Hres as [->| ->]; [done|apply Clean_nonempty].
  - intros Hm. apply Hc; [done..|]. cbn [profileFlag meant_flags]. intros Hun. rewrite Hun in Hpr.
    apply Hpr. by left.
Qed.

(** Without an installed wrapper the same service is started all the same, as the
    bare executable with no filter at all: every process is the executable with the
    service's own arguments, for every profile. *)
Theorem Start_without_wrapper_unconfined ms (ans : answer_rel svc_ev) :
  (∀ b, ans _ (Stat "/sbin/karim-secd") b → b = false) →
  (∀ b, ans _ (Stat "build/karim-secd") b → b = false) →
  safe ans (λ X e,
    match e with
    | StartProcess c => resolved (Spec ms) (c_path c) ∧ c_args c = Args (Spec ms)
    | _ => True
    end) (Start ms) (λ _, True).
Proof.
  intros H1 H2. apply safe_Start; [by intros X []|].
  intros secdBin p [[_ H]|[(_ & _ & H)|(-> & _)]] Hres; [by apply H1 in H|by apply H2 in H|]. done.
Qed.

(** The limits of a service reach its control group: the requests stay inside the
    group of the service, [memory.max] receives the decimal text of a positive limit
    and [cpu.max] the quota of the period, and nothing else is written. *)
Theorem cgroup_limits_written spec :
  norm_comp (Name spec) → (MemoryLimit spec < 2 ^ 63)%Z →
  let dir := cgroup_dir (Name spec) in
  issues (λ X e,
    match e with
    | MkdirAll p _ => p = abs_path dir
    | WriteFile p d _ =>
        (p = abs_path (dir ++ ["memory.max"]) ∧ (0 < MemoryLimit spec)%Z ∧
           parse_int_val d = inl (MemoryLimit spec)) ∨
        (p = abs_path (dir ++ ["cpu.max"]) ∧ f64_gtb (CPUQuota spec) (S754_zero false) = true ∧
           d = itoa (cpu_quota_us (CPUQuota spec)) +:+ " 100000")
    | _ => False
    end) (CreateServiceCGroup spec) ∧
  ∀ s, wp (λ X e s x s', match e with WriteFile p _ _ => s' = p :: s | _ => s' = s end)
    (CreateServiceCGroup spec)
    (λ r s', r = Ok (abs_path dir) →
       ((0 < MemoryLimit spec)%Z → abs_path (dir ++ ["memory.max"]) ∈ s') ∧
       (f64_gtb (CPUQuota spec) (S754_zero false) = true → abs_path (dir ++ ["cpu.max"]) ∈ s')) s.
Proof.
  intros Hn Hm dir. assert (norm_comp "memory.max") as H1 by by apply (bool_decide_unpack _).
  assert (norm_comp "cpu.max") as H2 by by apply (bool_decide_unpack _).
  unfold CreateServiceCGroup, try_act, act.
  rewrite Join_cgroup, !Join_cgroup_file by done. fold dir. split.
  - apply issues_ebind; [by apply issues_wrapping, issues_vis|intros _].
    apply issues_ebind; [destruct (Z.ltb_spec 0 (MemoryLimit spec)); [apply issues_vis; [|done]|done]|intros _].
    + left. split_and!; [done..|]. apply parse_int_itoa. lia.
    + apply issues_ebind; [destruct (f64_gtb _ _) eqn:Hq; [apply issues_vis; [|done]|done]|done].
      right. by split_and!.
  - intros s. apply wp_ebind, wp_wrapping. intros [err|] s1 ->; [done|]. cbn [wp wrap_err].
    apply wp_ebind. destruct (Z.ltb_spec 0 (MemoryLimit spec)) as [Hp|Hp];
      [intros r2 s2 ->|cbn [done_ wp]]; apply wp_ebind; destruct (f64_gtb _ _) eqn:Hq;
      try (intros r3 s3 ->); cbn [done_ wp]; intros _; split; intros H;
      first [lia | discriminate | set_solver].
Qed.

(** For every whole percentage up to 64 processors, the quota written in the
    configuration as a percentage reaches the kernel exactly: floating point
    rounding never loses a microsecond. *)
Theorem cpu_quota_exact p :
  (1 ≤ p ≤ 6400)%Z →
  ∃ q, parseCPUQuota (itoa p +:+ "%") = Ok q ∧ f64_gtb q (S754_zero false) = true ∧
       cpu_quota_us q = (1000 * p)%Z.
Proof.
  intros Hp. pose proof percents_ok as Hall. rewrite forallb_forall in Hall.
  assert (p ∈ seqZ 1 6400) as Hin by (apply elem_of_seqZ; lia).
  specialize (Hall p (proj1 (list_elem_of_In _ _) Hin)). unfold percent_ok in Hall.
  destruct (parseCPUQuota _) as [q|e|]; [|done..]. exists q.
  apply andb_true_iff in Hall as [? ?%Z.eqb_eq]. done.
Qed.

(** The delay before the n-th automatic restart doubles from one second and stops
    at thirty, for every count a machine integer can hold: no overflow, no negative
    shift. *)
Theorem backoff_bounds count :
  (1 ≤ count < 2 ^ 63)%Z →
  backoff count = Ok (Z.min (2 ^ (count - 1)) 30 * second)%Z.
Proof.
  intros Hc. unfold backoff. rewrite wrap_s_id by lia.
  destruct (Z.leb_spec 6 count) as [H6|H6].
  - rewrite (Z.min_r (count - 1) 5) by lia.
    assert (2 ^ 5 ≤ 2 ^ (count - 1))%Z by (apply Z.pow_le_mono_r; lia).
    rewrite (Z.min_r (2 ^ (count - 1)) 30) by lia. done.
  - assert (count = 1 ∨ count = 2 ∨ count = 3 ∨ count = 4 ∨ count = 5)%Z as Hcs by lia.
    by destruct Hcs as [->|[->|[->|[->| ->]]]].
Qed.
End start_state.

(** ** Witnesses *)

Definition sample_service : ManagedService :=
  NewManagedService (set_Exec (set_Name default_spec "web") "/bin/web") true.

(** A guest that holds the given files, where processes start with PID 7; the state
    collects the children. *)
Definition guest (files : list string) : handler svc_ev (list child) := λ X e s,
  match e in svc_ev Y return Y * list child with
  | Stat p => (bool_decide (p ∈ files), s)
  | LookPath p => (bool_decide (p ∈ files), s)
  | StartProcess c => (inl 7%Z, s ++ [c])
  | GoStreamLogs _ => (tt, s)
  | GoMonitor => (tt, s)
  | StdoutPipe => (None, s)
  | StderrPipe => (None, s)
  | MkdirAll _ _ => (None, s)
  | WriteFile _ _ _ => (None, s)
  | Signal _ _ => (None, s)
  | Kill _ => (None, s)
  end.

Definition start_in (files : list string) : (ManagedService * outcome unit) * list child :=
  exec (guest files) (@Start no_tables sample_service) [].

Lemma Start_confines_witness :
  (start_in ["/bin/web"; "/sbin/karim-secd"]).1.2 = Ok tt ∧
  (c_args <$> (start_in ["/bin/web"; "/sbin/karim-secd"]).2) =
    [["-profile"; "app-default"; "-exec"; "/bin/web"; "--"]] ∧
  safe (λ X e x, match e in svc_ev Y return Y → Prop with Stat _ => λ b, b = true | _ => λ _, True end x)
    (λ X e, match e with
      | StartProcess c => c_path c = "/sbin/karim-secd" ∧ c_chroot c = "" ∧
          ∃ f p, secd_parse (c_args c) = Some f ∧ resolved (Spec sample_service) p ∧
            ∀ s0 th0, at_start s0 th0 →
              wp (@kernel x86_64 linux_bpf) (@secd_main x86_64 no_tables f) (λ r s', r = Replaced → ∃ th,
                threads s' = {[running s' := th]} ∧ p_exec th = Some (p, p :: Args (Spec sample_service)) ∧
                (moved s' = false → p_nnp th = true ∧
                 ∃ prog, @GetProfileFilter x86_64 no_tables
                           (SvcConfig.SeccompProfile (Spec sample_service)) (@ActionKillProcess x86_64) = Ok prog ∧
                         p_filters th = prog :: p_filters th0)) s0
      | _ => True
      end) (@Start no_tables sample_service) (λ _, True).
Proof.
  split; [vm_compute; reflexivity|]. split; [vm_compute; reflexivity|].
  apply (@Start_confines no_tables x86_64 linux_bpf sample_service).
  - intros b H. exact H.
  - reflexivity.
  - apply (bool_decide_unpack _). vm_compute. exact I.
  - discriminate.
  - discriminate.
Defined.

Lemma Start_without_wrapper_unconfined_witness :
  (start_in ["/bin/web"]).1.2 = Ok tt ∧ (c_path <$> (start_in ["/bin/web"]).2) = ["/bin/web"] ∧
  safe (λ X e x, match e in svc_ev Y return Y → Prop with
                 | Stat p => λ b, b = bool_decide (p = "/bin/web") | _ => λ _, True end x)
    (λ X e, match e with
      | StartProcess c => resolved (Spec sample_service) (c_path c) ∧ c_args c = Args (Spec sample_service)
      | _ => True
      end) (@Start no_tables sample_service) (λ _, True).
Proof.
  split; [vm_compute; reflexivity|]. split; [vm_compute; reflexivity|].
  apply (@Start_without_wrapper_unconfined no_tables sample_service).
  - intros b H. exact H.
  - intros b H. exact H.
Defined.

Lemma cgroup_limits_written_witness :
  wp (λ X e s x s', match e with WriteFile p _ _ => s' = p :: s | _ => s' = s end)
    (CreateServiceCGroup (set_MemoryLimit (Spec sample_service) 1048576))
    (λ r s', r = Ok "/sys/fs/cgroup/karim/web" →
       ((0 < 1048576)%Z → "/sys/fs/cgroup/karim/web/memory.max" ∈ s') ∧
       (f64_gtb (S754_zero false) (S754_zero false) = true → "/sys/fs/cgroup/karim/web/cpu.max" ∈ s')) [].
Proof.
  apply (cgroup_limits_written (set_MemoryLimit (Spec sample_service) 1048576)).
  - by apply (bool_decide_unpack _).
  - reflexivity.
Defined.

Lemma cpu_quota_exact_witness :
  ∃ q, @parseCPUQuota no_tables "150%" = Ok q ∧ f64_gtb q (S754_zero false) = true ∧
       cpu_quota_us q = 150000%Z.
Proof. apply (@cpu_quota_exact no_tables 150). by split. Defined.

Lemma backoff_bounds_witness : backoff 4 = Ok 8000000000%Z ∧ backoff 1000 = Ok 30000000000%Z.
Proof.
  split.
  - rewrite (backoff_bounds 4); [reflexivity|by split].
  - rewrite (backoff_bounds 1000); [reflexivity|by split].
Defined.
