(* ===== verification/SvcRun.v ===== *)
(** * The supervisor at run time ([cmd/karim-svcd/main.go], [internal/svcd/supervisor.go])

    Every interleaving of the goroutines that share the service objects: calls of
    [Start] and [Stop] from the control plane, one monitor per started process, and
    the reaper of the main loop.  A step is one critical section (or one system call
    between two of them); [Start] takes two, since the child exists before [ms.Cmd]
    is assigned.  Objects live in a store and are referred to by their index, as the
    code shares pointers: a rolling update replaces the object in the registry while
    the monitor of the old one lives on.  PIDs are not reused. *)

From S2P Require Import Prelude GoStrings GoStrconv Prog SvcConfig Service.

(** ** State *)

(** [wstatus]: how a process ended. *)
Inductive wait_status := Exited (code : Z) | Signaled (sig : Z).

Inductive process := Alive | Zombie (st : wait_status).

Inductive thread :=
| TStart (i : nat)                   (* about to call [Start] *)
| TSpawned (i : nat) (pid : Z)       (* in [Start], holding the lock, the child exists *)
| TMonitor (i : nat)                 (* [go ms.monitor()] *)
| TWait (i : nat) (pid : Z)          (* in [ms.Cmd.Wait()] *)
| TExit (i : nat) (err : wait_result)   (* [Wait] has returned *)
| TPolicy (i : nat) (exitCode : Z)   (* the restart policy asks for a restart *)
| TSleep (i : nat).                  (* in [time.Sleep(backoff)], then [Start] *)

(** The [SIGCHLD] branch of the main loop. *)
Inductive reaper_state := RIdle | RReaped (pid : Z) (st : wait_status) | RMatched (i : nat) (exitCode : Z).

(** [procs] maps a PID to the object it was started for and its state. *)
Record world := {
  objs : list ManagedService;
  managed : gmap string nat;
  procs : gmap Z (nat * process);
  next_pid : Z;
  threads : list thread;
  reaper : reaper_state
}.

Definition init : world :=
  {| objs := []; managed := ∅; procs := ∅; next_pid := 2; threads := []; reaper := RIdle |}.

(** The log line of an automatic restart: the object and the attempt. *)
Inductive event := Restarting (i : nat) (count : Z).

Inductive start_choice := Spawns | Fails.

Inductive label :=
| LRun (n : nat) (c : start_choice) (text : string)   (* thread [n] goes on *)
| LExits (pid : Z) (st : wait_status)                 (* a child ends *)
| LReap (pid : Z)
| LMatch (i : option nat)
| LRecord
| LStartService (name : string)
| LStopService (name : string)
| LLoadService (spec : ServiceSpec) (cgm : bool).

(** ** Steps *)

Definition set_obj (i : nat) (ms : ManagedService) (w : world) : world :=
  {| objs := <[i := ms]> (objs w); managed := managed w; procs := procs w; next_pid := next_pid w;
     threads := threads w; reaper := reaper w |}.
Definition set_threads (ts : list thread) (w : world) : world :=
  {| objs := objs w; managed := managed w; procs := procs w; next_pid := next_pid w;
     threads := ts; reaper := reaper w |}.
Definition set_procs (ps : gmap Z (nat * process)) (w : world) : world :=
  {| objs := objs w; managed := managed w; procs := ps; next_pid := next_pid w;
     threads := threads w; reaper := reaper w |}.
Definition set_reaper (r : reaper_state) (w : world) : world :=
  {| objs := objs w; managed := managed w; procs := procs w; next_pid := next_pid w;
     threads := threads w; reaper := r |}.
Definition add_thread (t : thread) (w : world) : world := set_threads (threads w ++ [t]) w.

(** [ms.mu] is held across two steps only inside [Start]. *)
Definition holds (i : nat) (t : thread) : bool :=
  match t with TSpawned j _ => bool_decide (i = j) | _ => false end.
Definition unlocked (w : world) (i : nat) : bool := negb (existsb (holds i) (threads w)).

(** The error of [Wait] on a child: nil for status 0, [ExitCode()] is -1 after a signal. *)
Definition wait_of (st : wait_status) : wait_result :=
  match st with
  | Exited code => if decide (code = 0%Z) then WaitNil else WaitExit code
  | Signaled _ => WaitExit (-1)
  end.

(** The reaper's exit code. *)
Definition reaped_code (st : wait_status) : Z :=
  match st with Exited code => code | Signaled sig => 128 + sig end.

(** The service after [Stop]. *)
Definition stopped (ms : ManagedService) : ManagedService :=
  match State ms, Cmd ms with
  | StateRunning, Some _ => with_state StateStopping ms
  | _, _ => ms
  end.

(** One step of a goroutine: the threads that replace it, the world after (whose
    threads are still the old ones), and the log. *)
Definition thread_step (t : thread) (c : start_choice) (text : string) (w : world)
    : option (list thread * world * list event) :=
  match t with
  | TStart i =>
      ms ← objs w !! i;
      if unlocked w i then
        if decide (State ms = StateRunning) then Some ([], w, [])
        else match c with
             | Fails => Some ([], set_obj i (with_state StateStopped (starting ms)) w, [])
             | Spawns =>
                 let pid := next_pid w in
                 Some ([TSpawned i pid],
                       {| objs := <[i := starting ms]> (objs w); managed := managed w;
                          procs := <[pid := (i, Alive)]> (procs w); next_pid := pid + 1;
                          threads := threads w; reaper := reaper w |}, [])
             end
      else None
  | TSpawned i pid =>
      ms ← objs w !! i;
      Some ([TMonitor i], set_obj i (started pid ms) w, [])
  | TMonitor i =>
      ms ← objs w !! i;
      pid ← Cmd ms;
      Some ([TWait i pid], w, [])
  | TWait i pid =>
      match procs w !! pid with
      | Some (_, Alive) => None
      | Some (_, Zombie st) => Some ([TExit i (wait_of st)], set_procs (delete pid (procs w)) w, [])
      | None => Some ([TExit i (WaitErr text)], w, [])
      end
  | TExit i err =>
      ms ← objs w !! i;
      if unlocked w i then
        let '(ms', exitCode) := monitor_exit err ms in
        Some (if shouldRestart (Restart (Spec ms)) exitCode then [TPolicy i exitCode] else [],
              set_obj i ms' w, [])
      else None
  | TPolicy i _ =>
      ms ← objs w !! i;
      if unlocked w i then
        let ms' := count_restart ms in
        let count := restartCount ms' in
        Some (if may_restart (Spec ms) count
              then ([TSleep i], set_obj i ms' w, [Restarting i count])
              else ([], set_obj i ms' w, []))
      else None
  | TSleep i => Some ([TStart i], w, [])
  end.

(** [Wait4(-1, WNOHANG)]: the status of a child that has ended. *)
Definition wait4 (pid : Z) (w : world) : option world :=
  match reaper w, procs w !! pid with
  | RIdle, Some (_, Zombie st) =>
      Some (set_reaper (RReaped pid st) (set_procs (delete pid (procs w)) w))
  | _, _ => None
  end.

(** The scan of the registry for the service of the PID; several objects may match, and
    the map is visited in any order. *)
Definition match_service (o : option nat) (w : world) : option world :=
  match reaper w with
  | RReaped pid st =>
      let ids := (map_to_list (managed w)).*2 in
      let is_match i :=
        match objs w !! i with Some ms => bool_decide (Cmd ms = Some pid) | None => false end in
      match o with
      | Some i =>
          if bool_decide (i ∈ ids) && is_match i
          then Some (set_reaper (RMatched i (reaped_code st)) w) else None
      | None => if existsb is_match ids then None else Some (set_reaper RIdle w)
      end
  | _ => None
  end.

Definition record_exit (w : world) : option world :=
  match reaper w with
  | RMatched i exitCode =>
      ms ← objs w !! i;
      if unlocked w i then Some (set_reaper RIdle (set_obj i (RecordExitStatus exitCode ms) w)) else None
  | _ => None
  end.

(** The control plane: [Start] then runs in the goroutine of the request. *)
Definition StartService (name : string) (w : world) : option world :=
  i ← managed w !! name; Some (add_thread (TStart i) w).

Definition StopService (name : string) (w : world) : option world :=
  i ← managed w !! name;
  ms ← objs w !! i;
  if unlocked w i then Some (set_obj i (stopped ms) w) else None.

(** [LoadService] on a parsed service: the existing one is stopped and replaced. *)
Definition stop_existing (name : string) (w : world) : option world :=
  match managed w !! name with
  | Some j => ms ← objs w !! j; if unlocked w j then Some (set_obj j (stopped ms) w) else None
  | None => Some w
  end.

Definition replace_service (spec : ServiceSpec) (cgm : bool) (w : world) : option world :=
  w ← stop_existing (Name spec) w;
  let i := length (objs w) in
  Some {| objs := objs w ++ [NewManagedService spec cgm]; managed := <[Name spec := i]> (managed w);
          procs := procs w; next_pid := next_pid w; threads := threads w ++ [TStart i];
          reaper := reaper w |}.

Definition silent (w : option world) : option (world * list event) := w ← w; Some (w, []).

(** A child ends. *)
Definition exits (pid : Z) (st : wait_status) (w : world) : option world :=
  match procs w !! pid with
  | Some (i, Alive) => Some (set_procs (<[pid := (i, Zombie st)]> (procs w)) w)
  | _ => None
  end.

Definition run_thread (n : nat) (c : start_choice) (text : string) (w : world)
    : option (world * list event) :=
  t ← threads w !! n;
  '(ts, w', evs) ← thread_step t c text w;
  Some (set_threads (take n (threads w) ++ ts ++ drop (S n) (threads w)) w', evs).

Definition step (l : label) (w : world) : option (world * list event) :=
  match l with
  | LRun n c text => run_thread n c text w
  | LExits pid st => silent (exits pid st w)
  | LReap pid => silent (wait4 pid w)
  | LMatch o => silent (match_service o w)
  | LRecord => silent (record_exit w)
  | LStartService name => silent (StartService name w)
  | LStopService name => silent (StopService name w)
  | LLoadService spec cgm => silent (replace_service spec cgm w)
  end.

(** A run: the world and the log after a sequence of steps. *)
Fixpoint run (ls : list label) (w : world) : option (world * list event) :=
  match ls with
  | [] => Some (w, [])
  | l :: ls =>
      '(w1, e1) ← step l w;
      '(w2, e2) ← run ls w1;
      Some (w2, e1 ++ e2)
  end.

(** * Properties *)

Lemma silent_inv o w e : silent o = Some (w, e) → o = Some w ∧ e = [].
Proof. destruct o; cbn; [by intros [= -> ->]|done]. Qed.

(** ** Restart attempts *)

Definition restarts_of (i : nat) (evs : list event) : list Z :=
  omap (λ '(Restarting j c), if decide (i = j) then Some c else None) evs.

Lemma restarts_of_app i e1 e2 : restarts_of i (e1 ++ e2) = restarts_of i e1 ++ restarts_of i e2.
Proof. apply omap_app. Qed.

(** The same service, with as many attempts counted. *)
Definition same_count (ms ms' : ManagedService) : Prop :=
  Spec ms' = Spec ms ∧ restartCount ms' = restartCount ms.

Definition counted (ms ms' : ManagedService) (cs : list Z) : Prop :=
  Spec ms' = Spec ms ∧ restartCount ms' = wrap_s 64 (restartCount ms + 1) ∧
  cs = if may_restart (Spec ms) (restartCount ms') then [restartCount ms'] else [].

(** What one step may do to an object. *)
Definition evolves (w w' : world) (e : list event) (i : nat) (ms : ManagedService) : Prop :=
  ∃ ms', objs w' !! i = Some ms' ∧
    ((same_count ms ms' ∧ restarts_of i e = []) ∨ counted ms ms' (restarts_of i e)).

Lemma evolves_same w w' i ms :
  objs w' !! i = Some ms → evolves w w' [] i ms.
Proof. intros H. exists ms. split; [done|]. by left. Qed.

Lemma evolves_update w w' i j ms0 ms1 ms :
  objs w' = <[j := ms1]> (objs w) → objs w !! j = Some ms0 → same_count ms0 ms1 →
  objs w !! i = Some ms → evolves w w' [] i ms.
Proof.
  intros Ho Hj Hs Hi. unfold evolves. rewrite Ho. destruct (decide (j = i)) as [->|Hne].
  - rewrite list_lookup_insert_eq by by eapply lookup_lt_Some. simplify_eq. exists ms1. split; [done|]. by left.
  - rewrite list_lookup_insert_ne by done. exists ms. split; [done|]. by left.
Qed.

Lemma evolves_count w w' i j ms0 e ms :
  objs w !! j = Some ms0 → objs w' = <[j := count_restart ms0]> (objs w) →
  e = (if may_restart (Spec ms0) (restartCount (count_restart ms0))
       then [Restarting j (restartCount (count_restart ms0))] else []) →
  objs w !! i = Some ms → evolves w w' e i ms.
Proof.
  intros Hj Ho -> Hi. unfold evolves. rewrite Ho. destruct (decide (j = i)) as [->|Hne].
  - rewrite list_lookup_insert_eq by by eapply lookup_lt_Some. simplify_eq.
    eexists. split; [done|]. right. split_and!; [done..|].
    destruct (may_restart _ _); cbn; [by rewrite decide_True|done].
  - rewrite list_lookup_insert_ne by done. exists ms. split; [done|]. left. split; [done|].
    destruct (may_restart _ _); cbn; [by rewrite decide_False|done].
Qed.

Lemma stopped_same ms : same_count ms (stopped ms).
Proof. unfold stopped. by destruct (State ms), (Cmd ms). Qed.

Lemma thread_step_evolves t c text w ts w' e i ms :
  thread_step t c text w = Some (ts, w', e) → objs w !! i = Some ms → evolves w w' e i ms.
Proof.
  intros Hs Hi. destruct t as [j|j pid|j|j pid|j r|j code|j]; cbn [thread_step] in Hs;
    try (destruct (objs w !! j) as [ms0|] eqn:Hj; [cbn [mbind option_bind] in Hs|done]).
  - destruct (unlocked w j); [|done]. case_decide; [simplify_eq; by apply evolves_same|].
    destruct c; simplify_eq; by eapply (evolves_update w _ i j ms0).
  - simplify_eq. by eapply (evolves_update w _ i j ms0).
  - destruct (Cmd ms0); [|done]. cbn in Hs. simplify_eq. by apply evolves_same.
  - destruct (procs w !! pid) as [[? []]|]; [done|..]; simplify_eq; by apply evolves_same.
  - destruct (unlocked w j); [|done]. cbn in Hs. simplify_eq. by eapply (evolves_update w _ i j ms0).
  - destruct (unlocked w j); [|done].
    assert (w' = set_obj j (count_restart ms0) w ∧
            e = if may_restart (Spec ms0) (restartCount (count_restart ms0))
                then [Restarting j (restartCount (count_restart ms0))] else []) as [-> ->].
    { by destruct (may_restart _ _); simplify_eq. }
    by apply (evolves_count w _ i j ms0).
  - simplify_eq. by apply evolves_same.
Qed.

Lemma step_evolves l w w' e i ms :
  step l w = Some (w', e) → objs w !! i = Some ms → evolves w w' e i ms.
Proof.
  intros Hs Hi. destruct l as [n c text|pid st|pid|o| |name|name|spec cgm]; cbn [step] in Hs;
    try (apply silent_inv in Hs as [Hs ->]); unfold run_thread, exits, wait4, match_service, record_exit, StartService, StopService,
      replace_service, stop_existing in Hs.
  - destruct (threads w !! n) as [t|]; [cbn in Hs|done].
    destruct (thread_step t c text w) as [[[ts w1] evs]|] eqn:Ht; [cbn in Hs|done]. simplify_eq.
    destruct (thread_step_evolves _ _ _ _ _ _ _ i ms Ht Hi) as (ms' & H1 & H2). by exists ms'.
  - destruct (procs w !! pid) as [[? []]|]; [|done..]. simplify_eq. by apply evolves_same.
  - destruct (reaper w); [|done..]. destruct (procs w !! pid) as [[? []]|]; [done| |done].
    simplify_eq. by apply evolves_same.
  - destruct (reaper w) as [|pid st|]; [done| |done].
    destruct o as [j|]; destruct (_ : bool); simplify_eq; by apply evolves_same.
  - destruct (reaper w) as [| |j code]; [done..|].
    destruct (objs w !! j) as [ms0|] eqn:Hj; [cbn in Hs|done].
    destruct (unlocked w j); [|done]. simplify_eq. by eapply (evolves_update w _ i j ms0).
  - destruct (managed w !! name); [|done]. cbn in Hs. simplify_eq. by apply evolves_same.
  - destruct (managed w !! name) as [j|]; [cbn in Hs|done].
    destruct (objs w !! j) as [ms0|] eqn:Hj; [cbn in Hs|done].
    destruct (unlocked w j); [|done]. simplify_eq. by eapply (evolves_update w _ i j ms0); [|done|apply stopped_same|].
  - assert (∃ w1, objs w' = objs w1 ++ [NewManagedService spec cgm] ∧ evolves w w1 [] i ms)
      as (w1 & Ho & ms' & H1 & H2).
    { destruct (managed w !! Name spec) as [j|]; cbn in Hs.
      - destruct (objs w !! j) as [ms0|] eqn:Hj; [cbn in Hs|done].
        destruct (unlocked w j); cbn in Hs; [|done]. simplify_eq.
        eexists (set_obj j (stopped ms0) w). split; [done|].
        by eapply (evolves_update w _ i j ms0); [|done|apply stopped_same|].
      - simplify_eq. exists w. split; [done|]. by apply evolves_same. }
    exists ms'. split; [|done]. rewrite Ho. by apply lookup_app_l_Some.
Qed.

(** The attempts of one object over a run: each is numbered, and only those within
    the limit are logged. *)
Lemma run_attempts ls w w' evs i ms :
  run ls w = Some (w', evs) → objs w !! i = Some ms → (0 ≤ restartCount ms)%Z →
  (restartCount ms + Z.of_nat (length ls) < 2 ^ 63)%Z →
  ∃ ms' n, objs w' !! i = Some ms' ∧ Spec ms' = Spec ms ∧
    restartCount ms' = (restartCount ms + Z.of_nat n)%Z ∧ n ≤ length ls ∧
    restarts_of i evs = filter (λ c, may_restart (Spec ms) c = true) (seqZ (restartCount ms + 1) (Z.of_nat n)).
Proof.
  revert w evs ms. induction ls as [|l ls IH]; intros w evs ms Hr Hi H0 Hb.
  - cbn in Hr. simplify_eq. exists ms, 0. split_and!; [done|done|lia|done|done].
  - cbn [run] in Hr. destruct (step l w) as [[w1 e1]|] eqn:Hs; [cbn in Hr|done].
    destruct (run ls w1) as [[w2 e2]|] eqn:Hr2; [cbn in Hr|done]. simplify_eq.
    cbn [length] in Hb. rewrite restarts_of_app.
    destruct (step_evolves l w w1 e1 i ms Hs Hi) as (ms1 & Hi1 & [[[Hsp Hc] ->]|(Hsp & Hc & ->)]).
    + destruct (IH w1 e2 ms1 Hr2 Hi1) as (ms' & n & H1 & H2 & H3 & H4 & H5); [lia..|].
      rewrite Hsp, Hc in *. exists ms', n. split_and!; [done|congruence|lia|cbn; lia|done].
    + rewrite wrap_s_id in Hc by lia.
      destruct (IH w1 e2 ms1 Hr2 Hi1) as (ms' & n & H1 & H2 & H3 & H4 & H5); [lia..|].
      exists ms', (S n). split_and!; [done|congruence|lia|cbn; lia|].
      rewrite H5, Hsp, Hc, Nat2Z.inj_succ, (seqZ_cons _ (Z.succ _)) by lia.
      rewrite Z.pred_succ, filter_cons. unfold Z.succ. by destruct (may_restart _ _).
Qed.

Lemma seqZ_snoc n : seqZ 1 (Z.of_nat (S n)) = seqZ 1 (Z.of_nat n) ++ [Z.of_nat (S n)].
Proof.
  replace (Z.of_nat (S n)) with (Z.of_nat n + 1)%Z by lia. rewrite seqZ_app by lia. f_equal.
  change (seqZ (1 + Z.of_nat n) 1) with [(1 + Z.of_nat n)%Z]. f_equal. lia.
Qed.

(** Attempts within the limit. *)
Lemma filter_attempts spec n :
  filter (λ c, may_restart spec c = true) (seqZ 1 (Z.of_nat n)) =
  seqZ 1 (if (0 <? MaxRestarts spec)%Z then Z.min (MaxRestarts spec) (Z.of_nat n) else Z.of_nat n).
Proof.
  unfold may_restart. destruct (Z.ltb_spec 0 (MaxRestarts spec)) as [Hm|Hm]; cbn [andb negb].
  - induction n as [|n IH]; [by rewrite Z.min_r by lia|].
    rewrite seqZ_snoc, filter_app, IH, filter_cons, filter_nil.
    destruct (Z.ltb_spec (MaxRestarts spec) (Z.of_nat (S n))); cbn [negb].
    + rewrite decide_False by done. rewrite app_nil_r. f_equal. lia.
    + rewrite decide_True by done. rewrite !Z.min_r by lia. by rewrite seqZ_snoc.
  - induction n as [|n IH]; [done|]. rewrite seqZ_snoc, filter_app, IH by lia.
    by rewrite filter_cons, filter_nil, decide_True.
Qed.

(** ** One process per service

    While nothing is stopped, an object is idle, or exactly one goroutine takes care
    of its only process. *)

(** The goroutines that take care of a process of object [i]. *)
Definition cares (i : nat) (t : thread) : Prop :=
  match t with
  | TSpawned j _ | TMonitor j | TWait j _ | TExit j _ => i = j
  | _ => False
  end.
#[export] Instance cares_dec i t : Decision (cares i t).
Proof. destruct t; cbn; apply _. Defined.

Definition carers (i : nat) (ts : list thread) : list thread := filter (cares i) ts.

(** The children started for object [i]. *)
Definition owns (w : world) (i : nat) (pid : Z) : Prop := ∃ st, procs w !! pid = Some (i, st).

Inductive phase (i : nat) (own : Z → Prop) : option ManagedService → list thread → Prop :=
| ph_absent : (∀ pid, ¬ own pid) → phase i own None []
| ph_idle ms : State ms ≠ StateRunning → (∀ pid, ¬ own pid) → phase i own (Some ms) []
| ph_spawned ms pid : State ms ≠ StateRunning → (∀ p, own p → p = pid) → phase i own (Some ms) [TSpawned i pid]
| ph_monitor ms pid :
    State ms = StateRunning → Cmd ms = Some pid → (∀ p, own p → p = pid) → phase i own (Some ms) [TMonitor i]
| ph_wait ms pid : State ms = StateRunning → (∀ p, own p → p = pid) → phase i own (Some ms) [TWait i pid]
| ph_exit ms r : State ms = StateRunning → (∀ pid, ¬ own pid) → phase i own (Some ms) [TExit i r].

Definition cared_for (w : world) : Prop := ∀ i, phase i (owns w i) (objs w !! i) (carers i (threads w)).

(** A phase survives fewer children and a service that differs elsewhere. *)
Lemma phase_weaken i own own' o o' ts :
  phase i own o ts → (∀ pid, own' pid → own pid) →
  (o' = o ∨ ∃ ms ms', o = Some ms ∧ o' = Some ms' ∧ State ms' = State ms ∧ Cmd ms' = Cmd ms) →
  phase i own' o' ts.
Proof.
  intros H Hown [->|(ms & ms' & -> & -> & Hs & Hc)].
  - destruct H; econstructor; try done; intros p Hp%Hown; naive_solver.
  - inversion H; subst; econstructor; rewrite ?Hs, ?Hc; try done; intros p Hp%Hown; naive_solver.
Qed.

Lemma carers_app i ts us : carers i (ts ++ us) = carers i ts ++ carers i us.
Proof. apply filter_app. Qed.

Lemma carers_one i t : carers i [t] = if decide (cares i t) then [t] else [].
Proof. done. Qed.

(** Replacing thread [n]: its own object sees the replacement, alone. *)
Lemma carers_replace i n t ts us :
  ts !! n = Some t →
  (¬ cares i t → carers i us = [] → carers i (take n ts ++ us ++ drop (S n) ts) = carers i ts) ∧
  (cares i t → length (carers i ts) ≤ 1 →
     carers i ts = [t] ∧ carers i (take n ts ++ us ++ drop (S n) ts) = carers i us) ∧
  (carers i ts = [] → carers i (take n ts ++ us ++ drop (S n) ts) = carers i us).
Proof.
  intros Ht. pose proof (take_drop_middle ts n t Ht) as Hmid.
  assert (carers i ts = carers i (take n ts) ++ carers i [t] ++ carers i (drop (S n) ts)) as Hts.
  { rewrite <-!carers_app. by rewrite <-Hmid at 1. }
  rewrite !carers_app, Hts, carers_one. split_and!.
  - intros Hc ->. by rewrite decide_False.
  - intros Hc Hl. rewrite decide_True in Hl |- * by done.
    destruct (carers i (take n ts)), (carers i (drop (S n) ts)); cbn in Hl |- *;
      [by rewrite app_nil_r|exfalso; rewrite ?length_app in Hl; cbn in Hl; lia..].
  - intros Hnil. apply app_nil in Hnil as [-> Hnil]. apply app_nil in Hnil as [_ ->]. by rewrite app_nil_r.
Qed.

Lemma phase_short i own o ts : phase i own o ts → length ts ≤ 1.
Proof. intros []; cbn; lia. Qed.

Lemma unlocked_carers i w : unlocked w i = true → ∀ pid, TSpawned i pid ∉ carers i (threads w).
Proof.
  unfold unlocked. rewrite negb_true_iff. intros Hu pid Hin. apply not_true_iff_false in Hu. apply Hu.
  apply existsb_exists. exists (TSpawned i pid). split.
  - apply list_elem_of_In. by apply list_elem_of_filter in Hin as [_ ?].
  - cbn. by apply bool_decide_eq_true.
Qed.

Definition thread_obj (t : thread) : nat :=
  match t with
  | TStart i | TSpawned i _ | TMonitor i | TWait i _ | TExit i _ | TPolicy i _ | TSleep i => i
  end.

Lemma cares_obj i t : cares i t → i = thread_obj t.
Proof. by destruct t. Qed.

Lemma carers_other i t : i ≠ thread_obj t → carers i [t] = [].
Proof. intros Hi. rewrite carers_one, decide_False; [done|]. by intros ?%cares_obj. Qed.

Lemma owns_delete w pid i p :
  owns (set_procs (delete pid (procs w)) w) i p → owns w i p ∧ p ≠ pid.
Proof. intros [st Hp]. cbn in Hp. apply lookup_delete_Some in Hp as [? ?]. split; [by exists st|done]. Qed.

(** Threads of other objects, other objects and their children are not touched. *)
Lemma thread_step_frame t c text w ts w' e i :
  thread_step t c text w = Some (ts, w', e) → i ≠ thread_obj t →
  carers i ts = [] ∧ objs w' !! i = objs w !! i ∧ (∀ pid, owns w' i pid → owns w i pid).
Proof.
  intros Hs Hi. destruct t as [j|j pid|j|j pid|j r|j code|j]; cbn [thread_step thread_obj] in *;
    try (destruct (objs w !! j) as [ms0|] eqn:Hj; [cbn [mbind option_bind] in Hs|done]).
  - destruct (unlocked w j); [|done]. case_decide; [by simplify_eq|].
    destruct c; simplify_eq; cbn [set_obj objs]; rewrite list_lookup_insert_ne by done; [|done].
    rewrite carers_other by done. split_and!; [done..|].
    intros pid [st Hp]. cbn in Hp. apply lookup_insert_Some in Hp as [[_ [= <- _]]|[_ Hp]]; [done|by exists st].
  - simplify_eq. cbn [set_obj objs]. by rewrite list_lookup_insert_ne, carers_other by done.
  - destruct (Cmd ms0); [|done]. cbn in Hs. simplify_eq. by rewrite carers_other by done.
  - destruct (procs w !! pid) as [[? []]|]; [done|..]; simplify_eq; rewrite carers_other by done;
      split_and!; try done. by intros p [? _]%owns_delete.
  - destruct (unlocked w j); [|done]. cbn in Hs. simplify_eq. cbn [set_obj objs].
    rewrite list_lookup_insert_ne by done. split_and!; try done. by destruct (shouldRestart _ _).
  - destruct (unlocked w j); [|done]. destruct (may_restart _ _); simplify_eq; cbn [set_obj objs];
      by rewrite list_lookup_insert_ne by done.
  - by simplify_eq.
Qed.

(** The object of the thread that runs. *)
Lemma thread_step_own n t c text w ts w' e :
  let i := thread_obj t in
  threads w !! n = Some t → thread_step t c text w = Some (ts, w', e) →
  phase i (owns w i) (objs w !! i) (carers i (threads w)) →
  phase i (owns w' i) (objs w' !! i) (carers i (take n (threads w) ++ ts ++ drop (S n) (threads w))).
Proof.
  intros i Hn Hs Hph. destruct (carers_replace i n t (threads w) ts Hn) as (Hout & Hin & Hnil).
  pose proof (phase_short _ _ _ _ Hph) as Hshort.
  destruct t as [j|j pid|j|j pid|j r|j code|j]; cbn [thread_obj] in i; subst i;
    cbn [thread_step cares] in *;
    try (destruct (objs w !! j) as [ms0|] eqn:Hj; [cbn [mbind option_bind] in Hs|done]).
  - destruct (unlocked w j) eqn:Hu; [|done]. case_decide as Hst.
    { simplify_eq. rewrite Hout by tauto. by rewrite Hj. }
    pose proof (unlocked_carers _ _ Hu) as Hnone.
    assert (carers j (threads w) = [] ∧ ∀ pid, ¬ owns w j pid) as [Hc Hno].
    { clear -Hph Hnone Hst. revert Hph Hnone. generalize (carers j (threads w)). intros cs Hph Hnone.
      inversion Hph; subst; [done| |done..]. exfalso. apply (Hnone pid). by left. }
    rewrite Hnil by done. destruct c; simplify_eq; cbn [set_obj objs]; rewrite list_lookup_insert_eq
      by (by eapply lookup_lt_Some).
    + rewrite carers_one, decide_True by done. constructor; [done|]. intros p [st Hp]. cbn in Hp.
      apply lookup_insert_Some in Hp as [[<- _]|[_ Hp]]; [done|]. exfalso. apply (Hno p). by exists st.
    + by constructor.
  - destruct (Hin eq_refl Hshort) as [Hc ->]. simplify_eq. rewrite Hc in Hph. inversion Hph; subst.
    cbn [set_obj objs]. rewrite list_lookup_insert_eq by by eapply lookup_lt_Some.
    rewrite carers_one, decide_True by done. by eapply ph_monitor.
  - destruct (Hin eq_refl Hshort) as [Hc ->]. rewrite Hc in Hph. inversion Hph; subst.
    rewrite H1 in Hs. cbn in Hs. simplify_eq. rewrite carers_one, decide_True, Hj by done. by constructor.
  - destruct (Hin eq_refl Hshort) as [Hc ->]. rewrite Hc in Hph. inversion Hph; subst.
    destruct (procs w !! pid) as [[k []]|] eqn:Hp; [done|..]; simplify_eq; rewrite carers_one, decide_True by done;
      cbn [set_procs objs]; rewrite <-H; constructor; try done.
    + intros p [Hp' Hne]%owns_delete. naive_solver.
    + intros p Hp'. assert (p = pid) as -> by auto. destruct Hp' as [st Hp']. by rewrite Hp in Hp'.
  - destruct (Hin eq_refl Hshort) as [Hc ->]. rewrite Hc in Hph. inversion Hph; subst.
    destruct (unlocked w j); [|done]. cbn in Hs. simplify_eq. cbn [set_obj objs].
    rewrite list_lookup_insert_eq by by eapply lookup_lt_Some.
    destruct (shouldRestart _ _); by constructor.
  - destruct (unlocked w j); [|done].
    assert (carers j ts = []) as Hts by by destruct (may_restart _ _); simplify_eq.
    rewrite Hout by (done || tauto). eapply phase_weaken; [exact Hph|by destruct (may_restart _ _); simplify_eq|].
    right. exists ms0, (count_restart ms0). split_and!; [done| |done|done].
    destruct (may_restart _ _); simplify_eq; cbn [set_obj objs];
      by rewrite list_lookup_insert_eq by by eapply lookup_lt_Some.
  - simplify_eq. rewrite Hout by (done || tauto). done.
Qed.

(** Steps that stop nothing: no [StopService], no replacement of a service. *)
Definition calm (l : label) (w : world) : Prop :=
  match l with
  | LStopService _ => False
  | LLoadService spec _ => managed w !! Name spec = None
  | _ => True
  end.

Lemma cared_for_weaken w w' :
  cared_for w → threads w' = threads w → (∀ i pid, owns w' i pid → owns w i pid) →
  (∀ i, objs w' !! i = objs w !! i ∨
        ∃ ms ms', objs w !! i = Some ms ∧ objs w' !! i = Some ms' ∧ State ms' = State ms ∧ Cmd ms' = Cmd ms) →
  cared_for w'.
Proof. intros Hw Ht Ho Hobj i. rewrite Ht. eapply phase_weaken; [apply Hw|apply Ho|apply Hobj]. Qed.

Lemma step_cared_for l w w' e :
  calm l w → cared_for w → step l w = Some (w', e) → cared_for w'.
Proof.
  intros Hl Hw Hs. destruct l as [n c text|pid st|pid|o| |name|name|spec cgm]; cbn [step calm] in *;
    try (apply silent_inv in Hs as [Hs ->]); unfold run_thread, exits, wait4, match_service, record_exit, StartService,
      StopService, replace_service, stop_existing in Hs.
  - destruct (threads w !! n) as [t|] eqn:Hn; [cbn in Hs|done].
    destruct (thread_step t c text w) as [[[ts w1] evs]|] eqn:Ht; [cbn in Hs|done]. simplify_eq.
    intros i. cbn [set_threads objs threads]. change (owns (set_threads ?ts w1) i) with (owns w1 i).
    destruct (decide (i = thread_obj t)) as [->|Hi]; [by eapply thread_step_own|].
    destruct (thread_step_frame _ _ _ _ _ _ _ _ Ht Hi) as (Hc & Ho & Hp).
    rewrite (proj1 (carers_replace i n t (threads w) ts Hn)), Ho by (done || by intros ?%cares_obj).
    eapply phase_weaken; [apply Hw|done|by left].
  - destruct (procs w !! pid) as [[j []]|] eqn:Hp; [|done..]. simplify_eq.
    apply (cared_for_weaken w); [done|done| |by left]. intros i p [st' Hp']. cbn in Hp'.
    apply lookup_insert_Some in Hp' as [[<- [= <- _]]|[_ ?]]; by eexists.
  - destruct (reaper w); [|done..]. destruct (procs w !! pid) as [[? []]|]; [done| |done]. simplify_eq.
    apply (cared_for_weaken w); [done|done| |by left]. by intros i p [? _]%owns_delete.
  - destruct (reaper w) as [|pid st|]; [done| |done].
    destruct o as [j|]; destruct (_ : bool); simplify_eq; (apply (cared_for_weaken w); [done|done|done|by left]).
  - destruct (reaper w) as [| |j code]; [done..|].
    destruct (objs w !! j) as [ms0|] eqn:Hj; [cbn in Hs|done]. destruct (unlocked w j); [|done]. simplify_eq.
    apply (cared_for_weaken w); [done|done|done|]. intros i. cbn [set_obj set_reaper objs].
    destruct (decide (j = i)) as [->|Hne]; [|left; by rewrite list_lookup_insert_ne].
    right. exists ms0, (RecordExitStatus code ms0). rewrite list_lookup_insert_eq by by eapply lookup_lt_Some.
    done.
  - destruct (managed w !! name) as [j|]; [|done]. cbn in Hs. simplify_eq. intros i.
    cbn [add_thread set_threads objs threads]. change (owns (add_thread _ w) i) with (owns w i).
    rewrite carers_app. by rewrite app_nil_r.
  - done.
  - rewrite Hl in Hs. cbn in Hs. simplify_eq. intros i. cbn [objs threads].
    change (owns _ i) with (owns w i). rewrite carers_app, carers_one, decide_False, app_nil_r by tauto.
    specialize (Hw i). destruct (decide (i < length (objs w))) as [Hlt|Hge].
    + by rewrite lookup_app_l.
    + rewrite (lookup_ge_None_2 (objs w)) in Hw by lia. inversion Hw as [Hno| | | | |].
      destruct (decide (i = length (objs w))) as [->|Hne].
      * rewrite list_lookup_middle by done. by constructor.
      * rewrite lookup_ge_None_2 by (rewrite length_app; cbn; lia). by constructor.
Qed.

(** A run in which nothing is stopped or replaced. *)
Fixpoint calm_run (ls : list label) (w : world) : Prop :=
  match ls with
  | [] => True
  | l :: ls => calm l w ∧ match step l w with Some (w', _) => calm_run ls w' | None => False end
  end.

Lemma run_cared_for ls w w' evs :
  calm_run ls w → cared_for w → run ls w = Some (w', evs) → cared_for w'.
Proof.
  revert w evs. induction ls as [|l ls IH]; intros w evs Hc Hw Hr; cbn in *; [by simplify_eq|].
  destruct Hc as [Hl Hc]. destruct (step l w) as [[w1 e1]|] eqn:Hs; [cbn in Hr|done].
  destruct (run ls w1) as [[w2 e2]|] eqn:Hr2; [cbn in Hr|done]. simplify_eq.
  eapply IH; [done| |done]. by eapply step_cared_for.
Qed.

Lemma init_cared_for : cared_for init.
Proof. intros i. apply ph_absent. by intros pid [st Hp]. Qed.

(** The attempts of an object that is not there yet. *)
Lemma thread_step_absent t c text w ts w' e i :
  thread_step t c text w = Some (ts, w', e) → objs w !! i = None →
  restarts_of i e = [] ∧ objs w' !! i = None.
Proof.
  intros Hs Hi. destruct t as [j|j pid|j|j pid|j r|j code|j]; cbn [thread_step] in Hs;
    try (destruct (objs w !! j) as [ms0|] eqn:Hj; [cbn [mbind option_bind] in Hs|done]);
    try (assert (j ≠ i) as Hne by (intros ->; congruence)).
  - destruct (unlocked w j); [|done]. case_decide; [by simplify_eq|].
    destruct c; simplify_eq; cbn [set_obj objs]; by rewrite list_lookup_insert_ne.
  - simplify_eq. cbn [set_obj objs]. by rewrite list_lookup_insert_ne.
  - destruct (Cmd ms0); [|done]. cbn in Hs. by simplify_eq.
  - destruct (procs w !! pid) as [[? []]|]; [done|..]; by simplify_eq.
  - destruct (unlocked w j); [|done]. cbn in Hs. simplify_eq. cbn [set_obj objs].
    by rewrite list_lookup_insert_ne.
  - destruct (unlocked w j); [|done]. destruct (may_restart _ _); simplify_eq; cbn [set_obj objs];
      rewrite list_lookup_insert_ne by done; [|done]. split; [|done]. cbn. by rewrite decide_False.
  - by simplify_eq.
Qed.

Lemma step_absent l w w' e i :
  step l w = Some (w', e) → objs w !! i = None →
  restarts_of i e = [] ∧
  (objs w' !! i = None ∨ ∃ ms, objs w' !! i = Some ms ∧ restartCount ms = 0%Z).
Proof.
  intros Hs Hi. destruct l as [n c text|pid st|pid|o| |name|name|spec cgm]; cbn [step] in Hs;
    try (apply silent_inv in Hs as [Hs ->]); unfold run_thread, exits, wait4, match_service, record_exit, StartService, StopService,
      replace_service, stop_existing in Hs.
  - destruct (threads w !! n) as [t|]; [cbn in Hs|done].
    destruct (thread_step t c text w) as [[[ts w1] evs]|] eqn:Ht; [cbn in Hs|done]. simplify_eq.
    destruct (thread_step_absent _ _ _ _ _ _ _ i Ht Hi) as [H1 H2]. split; [done|by left].
  - destruct (procs w !! pid) as [[? []]|]; [|done..]. simplify_eq. by split; [|left].
  - destruct (reaper w); [|done..]. destruct (procs w !! pid) as [[? []]|]; [done| |done].
    simplify_eq. by split; [|left].
  - destruct (reaper w) as [|pid st|]; [done| |done].
    destruct o as [j|]; destruct (_ : bool); simplify_eq; by split; [|left].
  - destruct (reaper w) as [| |j code]; [done..|].
    destruct (objs w !! j) as [ms0|] eqn:Hj; [cbn in Hs|done].
    destruct (unlocked w j); [|done]. simplify_eq. split; [done|left]. cbn [set_reaper set_obj objs].
    rewrite list_lookup_insert_ne; [done|]. intros ->. congruence.
  - destruct (managed w !! name); [|done]. cbn in Hs. simplify_eq. by split; [|left].
  - destruct (managed w !! name) as [j|]; [cbn in Hs|done].
    destruct (objs w !! j) as [ms0|] eqn:Hj; [cbn in Hs|done].
    destruct (unlocked w j); [|done]. simplify_eq. split; [done|left]. cbn [set_obj objs].
    rewrite list_lookup_insert_ne; [done|]. intros ->. congruence.
  - assert (∃ w1, objs w' = objs w1 ++ [NewManagedService spec cgm] ∧ length (objs w1) = length (objs w))
      as (w1 & Ho & Hlen).
    { destruct (managed w !! Name spec) as [j|]; cbn in Hs.
      - destruct (objs w !! j) as [ms0|] eqn:Hj; [cbn in Hs|done].
        destruct (unlocked w j); cbn in Hs; [|done]. simplify_eq.
        exists (set_obj j (stopped ms0) w). split; [done|]. cbn. apply length_insert.
      - simplify_eq. by exists w. }
    split; [done|]. rewrite Ho. apply lookup_ge_None_1 in Hi. rewrite lookup_app_r by lia.
    destruct (i - length (objs w1)); [right|left]; [|done]. by eexists.
Qed.

(** The attempts of an object created during a run. *)
Lemma run_attempts_absent ls w w' evs i :
  run ls w = Some (w', evs) → objs w !! i = None → (Z.of_nat (length ls) < 2 ^ 63)%Z →
  (restarts_of i evs = [] ∧ objs w' !! i = None) ∨
  ∃ ms n, objs w' !! i = Some ms ∧ n ≤ length ls ∧
    restarts_of i evs = filter (λ c, may_restart (Spec ms) c = true) (seqZ 1 (Z.of_nat n)).
Proof.
  revert w evs. induction ls as [|l ls IH]; intros w evs Hr Hi Hb; cbn in Hr; [simplify_eq; by left|].
  destruct (step l w) as [[w1 e1]|] eqn:Hs; [cbn in Hr|done].
  destruct (run ls w1) as [[w2 e2]|] eqn:Hr2; [cbn in Hr|done]. simplify_eq. cbn [length] in *.
  rewrite restarts_of_app. destruct (step_absent _ _ _ _ i Hs Hi) as [-> [H1|(ms & H1 & H0)]].
  - destruct (IH w1 e2 Hr2 H1) as [?|(ms & n & ? & ? & ?)]; [lia|by left|].
    right. exists ms, n. split_and!; [done|lia|done].
  - destruct (run_attempts ls w1 w' e2 i ms Hr2 H1) as (ms' & n & H2 & H3 & _ & H4 & H5); [lia..|].
    right. exists ms', n. rewrite H3. rewrite H0 in H5. split_and!; [done|lia|done].
Qed.

(** ** Concrete runs *)

(** Thread [n] goes on. *)
Definition go (n : nat) : label := LRun n Spawns "".

(** Load a service and bring it up: started, assigned, monitored. *)
Definition bring_up (spec : ServiceSpec) : list label := [LLoadService spec false; go 0; go 0; go 0].

Definition up (m : gmap string nat) (spec : ServiceSpec) : world := {|
  objs := [started 2 (starting (NewManagedService spec false))]; managed := m;
  procs := {[2%Z := (0, Alive)]}; next_pid := 3; threads := [TWait 0 2]; reaper := RIdle |}.

(** A step that logs nothing. *)
Lemma run_quiet l ls w w' : step l w = Some (w', []) → run (l :: ls) w = run ls w'.
Proof. intros Hs. cbn [run]. rewrite Hs. cbn. by destruct (run ls w') as [[]|]. Qed.

(** The world after the service was loaded again as [spec']. *)
Definition updated (m : gmap string nat) (spec spec' : ServiceSpec) : world := {|
  objs := [stopped (started 2 (starting (NewManagedService spec false))); NewManagedService spec' false];
  managed := m; procs := {[2%Z := (0, Alive)]}; next_pid := 3; threads := [TWait 0 2; TStart 1];
  reaper := RIdle |}.

Lemma run_bring_up spec ls : run (bring_up spec ++ ls) init = run ls (up {[Name spec := 0]} spec).
Proof. cbn [bring_up app]. by do 4 erewrite run_quiet by reflexivity. Qed.

(** Run one step that looks a service up in the registry, and one that does not: the
    world is kept in normal form. *)
Ltac registry_step :=
  erewrite run_quiet by
    (cbn [step]; unfold silent, StartService, StopService; cbn [managed up objs];
     repeat match goal with H : _ !! _ = _ |- _ => rewrite H end; vm_compute; reflexivity).
Ltac run_step := erewrite run_quiet by (vm_compute; reflexivity).
(** One that asks the restart policy. *)
Ltac policy_step H := erewrite run_quiet by (cbn -[shouldRestart]; rewrite H; vm_compute; reflexivity).

(** ** Theorems *)

(** C3: automatic restarts are counted exactly under every interleaving: the attempts
    logged for a service are numbered consecutively from one and stop at
    [max_restarts] when that is positive (for runs of fewer than 2^63 steps, within
    which the counter cannot overflow).  The count is over the whole life of the service
    object, manual starts included: the supervisor documentation and the reference of the
    service definitions bound the restarts within a sliding [restart_window] instead, and
    give a manual start a fresh budget, neither of which the code has. *)
Theorem restarts_bounded ls evs w i ms :
  run ls init = Some (w, evs) → (Z.of_nat (length ls) < 2 ^ 63)%Z → objs w !! i = Some ms →
  ∃ n, n ≤ length ls ∧
    restarts_of i evs =
      seqZ 1 (if (0 <? MaxRestarts (Spec ms))%Z then Z.min (MaxRestarts (Spec ms)) (Z.of_nat n)
              else Z.of_nat n).
Proof.
  intros Hr Hb Hi. destruct (run_attempts_absent ls init w evs i Hr) as [[_ H]|(ms' & n & H & Hn & He)];
    [done|done|congruence|].
  simplify_eq. exists n. split; [done|]. by rewrite He, filter_attempts.
Qed.

(** C2: while nothing is stopped or replaced, a service never has two processes: all
    children started for an object, alive or waiting to be reaped, are the same one,
    exactly one goroutine takes care of it, and an object that is running always has
    that goroutine. *)
Theorem one_process_per_service ls w evs i :
  run ls init = Some (w, evs) → calm_run ls init →
  (∀ pid pid', owns w i pid → owns w i pid' → pid = pid') ∧
  (∀ pid, owns w i pid → ∃ t, carers i (threads w) = [t]) ∧
  (∀ ms, objs w !! i = Some ms → State ms = StateRunning → ∃ t, carers i (threads w) = [t]).
Proof.
  intros Hr Hc. pose proof (run_cared_for _ _ _ _ Hc init_cared_for Hr i) as Hp. revert Hp.
  generalize (owns w i), (objs w !! i), (carers i (threads w)). intros own o ts Hp.
  destruct Hp as [Hno|ms ? Hno|ms pid ? Ho|ms pid ? ? Ho|ms pid ? Ho|ms r ? Hno];
    (split_and!;
     [ intros p p' H1 H2; first [by destruct (Hno p)|by rewrite (Ho p H1), (Ho p' H2)]
     | intros p H1; first [by destruct (Hno p)|by eexists]
     | intros ms' Hms Hs; first [done|by simplify_eq|by eexists] ]).
Qed.

(** Stopping breaks that: [Start] is refused only in state [RUNNING], so stopping
    a service and starting it again at once, before the first process has ended,
    leaves two live processes of the same service. *)
Theorem stop_start_two_processes spec :
  ∃ w, run (bring_up spec ++ [LStopService (Name spec); LStartService (Name spec); go 1; go 1; go 1]) init
         = Some (w, []) ∧
    procs w !! 2%Z = Some (0, Alive) ∧ procs w !! 3%Z = Some (0, Alive) ∧
    threads w = [TWait 0 2; TWait 0 3] ∧ (Cmd <$> objs w !! 0) = Some (Some 3%Z).
Proof.
  rewrite run_bring_up.
  assert (({[Name spec := 0]} : gmap string nat) !! Name spec = Some 0) as Hm by apply lookup_singleton_eq.
  revert Hm. generalize ({[Name spec := 0]} : gmap string nat). intros m Hm.
  do 2 registry_step. do 3 run_step. eexists. split; [reflexivity|]. done.
Qed.

(** The first attempt is always within the limit. *)
Lemma may_restart_first spec : may_restart spec 1 = true.
Proof.
  unfold may_restart. destruct (Z.ltb_spec 0 (MaxRestarts spec)), (Z.ltb_spec (MaxRestarts spec) 1);
    [lia|done..].
Qed.

Lemma run_logs l ls w w' e r : step l w = Some (w', e) → run ls w' = Some (r, []) → run (l :: ls) w = Some (r, e).
Proof. intros Hs Hr. cbn [run]. rewrite Hs. cbn. rewrite Hr. cbn. by rewrite app_nil_r. Qed.

Definition restarting_policy (p : string) : Prop := p = "always" ∨ p = "on-failure".

(** Stopping a service is undone by its restart policy: under [always] and under
    [on-failure], the default, the death by the signal that [Stop] sends counts as a
    failure and the service is started again. *)
Theorem stop_undone_by_policy spec :
  restarting_policy (Restart spec) →
  ∃ w, run (bring_up spec ++ [LStopService (Name spec); LExits 2 (Signaled 2)] ++ replicate 6 (go 0)) init
         = Some (w, [Restarting 0 1]) ∧
    (State <$> objs w !! 0) = Some StateRunning ∧ procs w !! 3%Z = Some (0, Alive).
Proof.
  intros Hp. rewrite run_bring_up.
  assert (({[Name spec := 0]} : gmap string nat) !! Name spec = Some 0) as Hm by apply lookup_singleton_eq.
  revert Hm. generalize ({[Name spec := 0]} : gmap string nat). intros m Hm.
  pose proof (may_restart_first spec) as Hmay.
  cbn [replicate app]. registry_step. do 2 run_step.
  assert (∀ c, shouldRestart (Restart spec) (Z.neg c) = true) as Hsh by by destruct Hp as [-> | ->].
  policy_step Hsh.
  eexists. split.
  - eapply run_logs.
    + cbn -[may_restart]. change (wrap_s 64 (0 + 1)) with 1%Z. rewrite Hmay. vm_compute. reflexivity.
    + do 3 run_step. reflexivity.
  - done.
Qed.

(** A rolling update can leave the old version running where nobody can stop it:
    the replaced object is out of the registry, but its monitor applies the restart
    policy to the death by [Stop]'s signal and starts the old version again beside the
    new one. *)
Theorem rolling_update_leaks spec spec' :
  restarting_policy (Restart spec) → Name spec' = Name spec →
  ∃ w, run (bring_up spec ++ [LLoadService spec' false; go 1; go 1; go 1; LExits 2 (Signaled 2)] ++
            replicate 6 (go 0)) init = Some (w, [Restarting 0 1]) ∧
    (Spec <$> objs w !! 0) = Some spec ∧ (State <$> objs w !! 0) = Some StateRunning ∧
    procs w !! 4%Z = Some (0, Alive) ∧ procs w !! 3%Z = Some (1, Alive) ∧
    ∀ name, managed w !! name ≠ Some 0.
Proof.
  intros Hp Hn. rewrite run_bring_up. pose proof (may_restart_first spec) as Hmay.
  assert (∀ c, shouldRestart (Restart spec) (Z.neg c) = true) as Hsh by by destruct Hp as [-> | ->].
  cbn [replicate app].
  rewrite (run_quiet _ _ _ (updated (<[Name spec := 1]> {[Name spec := 0]}) spec spec'))
    by (cbn [step]; unfold silent, replace_service, stop_existing; cbn [managed up];
        rewrite Hn, lookup_singleton_eq; reflexivity).
  assert (∀ name, (<[Name spec := 1]> {[Name spec := 0]} : gmap string nat) !! name ≠ Some 0) as Hm.
  { intros name H. apply lookup_insert_Some in H as [[_ ?]|[Hne H]]; [done|].
    by rewrite lookup_singleton_ne in H. }
  revert Hm. generalize (<[Name spec := 1]> {[Name spec := 0]} : gmap string nat). intros m Hm.
  do 5 run_step. policy_step Hsh.
  eexists. split.
  - eapply run_logs.
    + cbn -[may_restart]. change (wrap_s 64 (0 + 1)) with 1%Z. rewrite Hmay. vm_compute. reflexivity.
    + do 3 run_step. reflexivity.
  - split_and!; [reflexivity..|exact Hm].
Qed.

(** The reaper of the main loop can hide a failure: when it collects the status
    first and the monitor asks before the status is recorded, any non-zero exit is
    taken for a clean one, and a service to be restarted on failure stays down with no
    goroutine left to care; when the monitor collects the status itself it goes on to
    restart the service. *)
Theorem reaper_hides_failure spec code :
  Restart spec = "on-failure" → code ≠ 0%Z →
  (∃ w, run (bring_up spec ++ [LExits 2 (Exited code); LReap 2;
             LRun 0 Spawns "waitid: no child processes"; go 0]) init = Some (w, []) ∧
     threads w = [] ∧ (State <$> objs w !! 0) = Some StateTerminated ∧ procs w = ∅) ∧
  (∃ w, run (bring_up spec ++ [LExits 2 (Exited code); go 0; go 0]) init = Some (w, []) ∧
     threads w = [TPolicy 0 code]).
Proof.
  intros Hp Hc. rewrite !run_bring_up. generalize ({[Name spec := 0]} : gmap string nat). intros m.
  assert (shouldRestart (Restart spec) 0 = false) as H0 by by rewrite Hp.
  assert (shouldRestart (Restart spec) code = true) as Hsh.
  { rewrite Hp. unfold shouldRestart. cbn. by apply negb_true_iff, Z.eqb_neq. }
  split.
  - do 3 run_step. policy_step H0. eexists. split; [reflexivity|]. done.
  - destruct code as [|p|p]; [done|..]; do 2 run_step; policy_step Hsh; by eexists.
Qed.

(** ** Witnesses *)

Definition web (policy : string) (limit : Z) : ServiceSpec :=
  set_MaxRestarts (set_Restart (set_Name default_spec "web") policy) limit.

(** A service that fails twice with a limit of one restart. *)
Definition crash (pid : Z) : list label := LExits pid (Exited 1) :: replicate 3 (go 0).
Definition crash_twice : list label := bring_up (web "on-failure" 1) ++ crash 2 ++ replicate 4 (go 0) ++ crash 3.

Lemma restarts_bounded_witness :
  ∃ w ms evs, run crash_twice init = Some (w, evs) ∧ evs = [Restarting 0 1] ∧ threads w = [] ∧
    objs w !! 0 = Some ms ∧
    ∃ n, n ≤ length crash_twice ∧
      restarts_of 0 evs = seqZ 1 (if (0 <? MaxRestarts (Spec ms))%Z
                                  then Z.min (MaxRestarts (Spec ms)) (Z.of_nat n) else Z.of_nat n).
Proof.
  eexists _, _, _. split; [vm_compute; reflexivity|]. split; [reflexivity|]. split; [reflexivity|].
  split; [reflexivity|]. eapply (restarts_bounded crash_twice).
  - vm_compute. reflexivity.
  - reflexivity.
  - reflexivity.
Defined.

Lemma one_process_per_service_witness :
  ∃ w, run (bring_up (web "always" 0)) init = Some (w, []) ∧ owns w 0 2 ∧
    ∃ t, carers 0 (threads w) = [t].
Proof.
  eexists. split; [vm_compute; reflexivity|]. split; [by exists Alive|].
  eapply (proj1 (proj2 (one_process_per_service (bring_up (web "always" 0)) _ [] 0
    ltac:(vm_compute; reflexivity) ltac:(by vm_compute))) 2%Z).
  exists Alive. reflexivity.
Defined.

Lemma stop_undone_by_policy_witness :
  ∃ w, run (bring_up (web "on-failure" 0) ++ [LStopService "web"; LExits 2 (Signaled 2)] ++ replicate 6 (go 0))
         init = Some (w, [Restarting 0 1]) ∧
    (State <$> objs w !! 0) = Some StateRunning ∧ procs w !! 3%Z = Some (0, Alive).
Proof. apply (stop_undone_by_policy (web "on-failure" 0)). right. reflexivity. Defined.

Lemma rolling_update_leaks_witness :
  ∃ w, run (bring_up (web "always" 0) ++
            [LLoadService (web "never" 0) false; go 1; go 1; go 1; LExits 2 (Signaled 2)] ++
            replicate 6 (go 0)) init = Some (w, [Restarting 0 1]) ∧
    (Spec <$> objs w !! 0) = Some (web "always" 0) ∧ (State <$> objs w !! 0) = Some StateRunning ∧
    procs w !! 4%Z = Some (0, Alive) ∧ procs w !! 3%Z = Some (1, Alive) ∧
    ∀ name, managed w !! name ≠ Some 0.
Proof.
  apply (rolling_update_leaks (web "always" 0) (web "never" 0)).
  - left. reflexivity.
  - reflexivity.
Defined.

Lemma reaper_hides_failure_witness :
  (∃ w, run (bring_up (web "on-failure" 0) ++ [LExits 2 (Exited 1); LReap 2;
             LRun 0 Spawns "waitid: no child processes"; go 0]) init = Some (w, []) ∧
     threads w = [] ∧ (State <$> objs w !! 0) = Some StateTerminated ∧ procs w = ∅) ∧
  (∃ w, run (bring_up (web "on-failure" 0) ++ [LExits 2 (Exited 1); go 0; go 0]) init = Some (w, []) ∧
     threads w = [TPolicy 0 1]).
Proof. apply (reaper_hides_failure (web "on-failure" 0) 1); [reflexivity|discriminate]. Defined.
