(* ===== verification/GoNet.v ===== *)
(** * Addresses and netlink messages

    What the network code uses of Go's [encoding/binary], [net] and [syscall]:
    little-endian integers, [net.ParseIP] with [To4], and [syscall.ParseNetlinkMessage]. *)

From Stdlib Require Import Ascii.
From S2P Require Import Prelude GoStrings GoStrconv.

(** ** Little-endian integers *)

(** The [n] low bytes of [x], least significant first. *)
Fixpoint le (n : nat) (x : Z) : string :=
  match n with
  | O => ""
  | S n => String (of_byte x) (le n (Z.shiftr x 8))
  end.

Fixpoint un_le (s : string) : Z :=
  match s with
  | "" => 0
  | String a s => Z.lor (byte_of a) (Z.shiftl (un_le s) 8)
  end.

(** The integer in the [n] bytes from offset [off]. *)
Definition le_at (off n : nat) (s : string) : Z := un_le (str_take n (str_drop off s)).

Lemma le_length n x : String.length (le n x) = n.
Proof. revert x. induction n as [|n IH]; intros x; cbn; [done|]. by rewrite IH. Qed.

Lemma un_le_le n x : un_le (le n x) = wrap_u (8 * Z.of_nat n) x.
Proof.
  unfold wrap_u. revert x. induction n as [|n IH]; intros x; cbn [le un_le].
  { by rewrite Z.mod_1_r. }
  rewrite byte_of_of_byte, IH. change 256%Z with (2 ^ 8)%Z.
  rewrite lor_shiftl by (first [lia | apply Z.mod_pos_bound; lia]).
  rewrite Z.shiftr_div_pow2 by lia.
  replace (8 * Z.of_nat (S n))%Z with (8 + 8 * Z.of_nat n)%Z by lia.
  rewrite Z.pow_add_r by lia. rewrite Z.rem_mul_r by lia. lia.
Qed.

Lemma un_le_small n x : (0 ≤ x < 2 ^ (8 * Z.of_nat n))%Z → un_le (le n x) = x.
Proof. intros Hx. rewrite un_le_le. by apply wrap_u_id. Qed.

Lemma le_at_app n p x s : String.length p = n → (0 ≤ x)%Z →
  ∀ k, (x < 2 ^ (8 * Z.of_nat k))%Z → le_at n k (p +:+ le k x +:+ s) = x.
Proof.
  intros <- Hx0 k Hx. unfold le_at. rewrite str_drop_app, str_take_len by by rewrite le_length.
  by apply un_le_small.
Qed.

(** ** IP addresses *)

(** [parseIPv4Fields]: [pos] octets are in [out]; [val] has the value of [digLen] digits
    of the next one.  A point at the start or after a point is one with no digit before. *)
Fixpoint ipv4_go (pos digLen : nat) (val : Z) (out s : string) : option string :=
  match s with
  | "" => if (pos <? 3)%nat then None else Some (out +:+ String (of_byte val) "")
  | String c s' =>
      let x := byte_of c in
      if ((48 <=? x) && (x <=? 57))%Z then
        if (digLen =? 1)%nat && (val =? 0)%Z then None
        else
          let val := (val * 10 + x - 48)%Z in
          if (255 <? val)%Z then None else ipv4_go pos (S digLen) val out s'
      else if Ascii.eqb c "." then
        if (digLen =? 0)%nat || bool_decide (s' = "") then None
        else if (pos =? 3)%nat then None
        else ipv4_go (S pos) 0 0 (out +:+ String (of_byte val) "") s'
      else None
  end.

Definition parse_ipv4 (s : string) : option string := ipv4_go 0 0 0 "" s.

Definition hex_val (c : ascii) : option Z :=
  let x := byte_of c in
  if ((48 <=? x) && (x <=? 57))%Z then Some (x - 48)%Z
  else if ((97 <=? x) && (x <=? 102))%Z then Some (x - 87)%Z
  else if ((65 <=? x) && (x <=? 70))%Z then Some (x - 55)%Z
  else None.

(** The hexadecimal digits at the front, at most four: their value, number and the rest. *)
Fixpoint hex_group (off : nat) (acc : Z) (s : string) : option (Z * nat * string) :=
  match s with
  | String c s' =>
      match hex_val c with
      | Some v => if (3 <? off)%nat then None else hex_group (S off) (Z.shiftl acc 4 + v) s'
      | None => Some (acc, off, s)
      end
  | "" => Some (acc, off, s)
  end.

(** The loop of [parseIPv6]; [n] is the number of groups that still fit. *)
Fixpoint ipv6_go (n : nat) (ip : string) (ellipsis : option nat) (s : string)
    : option (string * option nat * string) :=
  match n with
  | O => Some (ip, ellipsis, s)
  | S n =>
      match hex_group 0 0 s with
      | None => None
      | Some (acc, off, rest) =>
          if (off =? 0)%nat then None
          else
            match rest with
            | String "." _ =>
                if bool_decide (ellipsis = None) && negb (String.length ip =? 12)%nat then None
                else if (16 <? String.length ip + 4)%nat then None
                else
                  match parse_ipv4 s with
                  | None => None
                  | Some b => Some (ip +:+ b, ellipsis, "")
                  end
            | _ =>
                let ip := ip +:+ String (of_byte (Z.shiftr acc 8)) (String (of_byte acc) "") in
                match rest with
                | "" => Some (ip, ellipsis, "")
                | String c rest =>
                    if negb (Ascii.eqb c ":") then None
                    else
                      match rest with
                      | "" => None
                      | String ":" rest =>
                          match ellipsis with
                          | Some _ => None
                          | None =>
                              let ellipsis := Some (String.length ip) in
                              if decide (rest = "") then Some (ip, ellipsis, "") else ipv6_go n ip ellipsis rest
                          end
                      | rest => ipv6_go n ip ellipsis rest
                      end
                end
            end
      end
  end.

Definition parse_ipv6 (s : string) : option string :=
  let '(ellipsis, s) :=
    match s with String ":" (String ":" s) => (Some 0%nat, s) | s => (None, s) end in
  if decide (ellipsis = Some 0%nat ∧ s = "") then Some (zeros 16)
  else
    match ipv6_go 8 "" ellipsis s with
    | Some (ip, ellipsis, "") =>
        if (String.length ip <? 16)%nat then
          match ellipsis with
          | None => None
          | Some e => Some (str_take e ip +:+ zeros (16 - String.length ip) +:+ str_drop e ip)
          end
        else match ellipsis with None => Some ip | Some _ => None end
    | _ => None
    end.

Definition v4_in_v6_prefix : string := zeros 10 +:+ String (of_byte 255) (String (of_byte 255) "").

(** The first point, colon or percent sign decides the family. *)
Fixpoint ip_family (s : string) : option bool :=
  match s with
  | "" => None
  | String c s =>
      if Ascii.eqb c "." then Some true
      else if Ascii.eqb c ":" then Some false
      else if Ascii.eqb c "%" then None
      else ip_family s
  end.

(** [net.ParseIP]: 16 bytes.  An address with a zone gives [nil]. *)
Definition ParseIP (s : string) : option string :=
  match ip_family s with
  | Some true => option_map (String.append v4_in_v6_prefix) (parse_ipv4 s)
  | Some false => if str_free "%" s then parse_ipv6 s else None
  | None => None
  end.

(** [ip.To4()] *)
Definition To4 (ip : option string) : option string :=
  match ip with
  | Some ip => strip_prefix v4_in_v6_prefix ip
  | None => None
  end.

(** The dotted text of four octets, and their bytes. *)
Definition dotted (a b c d : Z) : string :=
  itoa a +:+ "." +:+ itoa b +:+ "." +:+ itoa c +:+ "." +:+ itoa d.
Definition octets (a b c d : Z) : string :=
  String (of_byte a) (String (of_byte b) (String (of_byte c) (String (of_byte d) ""))).

Definition octet (x : Z) : Prop := (0 ≤ x < 256)%Z.

Lemma ipv4_go_octet x : octet x →
  ∀ pos out t, ∃ n, ipv4_go pos 0 0 out (itoa x +:+ t) = ipv4_go pos (S n) x out t.
Proof.
  intros Hx.
  assert (Forall (λ x, ∀ pos out t, ∃ n, ipv4_go pos 0 0 out (itoa x +:+ t) = ipv4_go pos (S n) x out t) (seqZ 0 256))
    as Hall.
  { repeat (constructor; [intros; first [by exists 0 | by exists 1 | by exists 2]|]). constructor. }
  rewrite Forall_forall in Hall. apply Hall. apply elem_of_seqZ. unfold octet in Hx. lia.
Qed.

Lemma ipv4_go_point pos n x out s :
  (pos < 3)%nat → s ≠ "" →
  ipv4_go pos (S n) x out ("." +:+ s) = ipv4_go (S pos) 0 0 (out +:+ String (of_byte x) "") s.
Proof.
  intros Hp Hs. change ("." +:+ s) with (String "." s). cbn [ipv4_go].
  change (byte_of ".") with 46%Z. cbn [Z.leb Z.compare andb Nat.eqb orb Ascii.eqb Bool.eqb Pos.compare Pos.compare_cont].
  rewrite bool_decide_false by done.
  by replace (pos =? 3)%nat with false by (symmetry; apply Nat.eqb_neq; lia).
Qed.

Lemma itoa_octet_nonempty x t : octet x → itoa x +:+ t ≠ "".
Proof.
  intros Hx. destruct (itoa_digits x ltac:(unfold octet in Hx; lia)) as [_ Hne]. by destruct (itoa x).
Qed.

Lemma parse_ipv4_dotted a b c d :
  octet a → octet b → octet c → octet d → parse_ipv4 (dotted a b c d) = Some (octets a b c d).
Proof.
  intros Ha Hb Hc Hd. unfold parse_ipv4, dotted.
  destruct (ipv4_go_octet a Ha 0 "" ("." +:+ itoa b +:+ "." +:+ itoa c +:+ "." +:+ itoa d)) as [n1 ->].
  rewrite ipv4_go_point by (lia || by apply itoa_octet_nonempty).
  edestruct (ipv4_go_octet b Hb) as [n2 ->].
  rewrite ipv4_go_point by (lia || by apply itoa_octet_nonempty).
  edestruct (ipv4_go_octet c Hc) as [n3 ->].
  rewrite ipv4_go_point by (first [lia | rewrite <-(str_app_nil_r (itoa d)); by apply itoa_octet_nonempty]).
  rewrite <-(str_app_nil_r (itoa d)). edestruct (ipv4_go_octet d Hd) as [n4 ->].
  cbn -[of_byte]. done.
Qed.

Lemma ip_family_digits x t : octet x → ip_family (itoa x +:+ "." +:+ t) = Some true.
Proof.
  intros Hx. destruct (itoa_digits x ltac:(unfold octet in Hx; lia)) as [Hd _]. revert Hd.
  induction (itoa x) as [|c s IH]; [done|]. cbn [str_forall]. rewrite andb_true_iff. intros [Hc Hs].
  change (String c s +:+ ?u) with (String c (s +:+ u)). cbn [ip_family].
  rewrite !(digit_not c) by (done || by vm_compute). by apply IH.
Qed.

(** The text of an address is read back as its octets. *)
Lemma To4_dotted a b c d :
  octet a → octet b → octet c → octet d → To4 (ParseIP (dotted a b c d)) = Some (octets a b c d).
Proof.
  intros Ha Hb Hc Hd. unfold ParseIP. unfold dotted at 1. rewrite ip_family_digits by done.
  rewrite parse_ipv4_dotted by done. cbn [option_map To4]. by apply strip_prefix_Some.
Qed.

Lemma ipv4_go_length pos n val out s b :
  String.length out = pos → (pos ≤ 3)%nat → ipv4_go pos n val out s = Some b → String.length b = 4.
Proof.
  revert pos n val out. induction s as [|c s IH]; intros pos n val out Hl Hp; cbn [ipv4_go].
  - destruct (Nat.ltb_spec pos 3); [done|]. intros [= <-]. rewrite str_length_app. cbn. lia.
  - destruct (_ && _).
    + destruct (_ && _); [done|]. destruct (255 <? _)%Z; [done|]. by apply IH.
    + destruct (Ascii.eqb _ _); [|done]. destruct (_ || _); [done|].
      destruct (Nat.eqb_spec pos 3); [done|]. apply IH; [rewrite str_length_app; cbn; lia|lia].
Qed.

Lemma parse_ipv4_length s b : parse_ipv4 s = Some b → String.length b = 4.
Proof. apply (ipv4_go_length 0 0 0 "" s b); [done|lia]. Qed.

Lemma ipv6_go_length n ip e s ip' e' s' :
  (String.length ip + 2 * n = 16)%nat → ipv6_go n ip e s = Some (ip', e', s') → (String.length ip' ≤ 16)%nat.
Proof.
  revert ip e s. induction n as [|n IH]; intros ip e s Hl; cbn [ipv6_go].
  { intros [= <- <- <-]. lia. }
  destruct (hex_group 0 0 s) as [[[acc off] rest]|]; [|done]. destruct (off =? 0)%nat; [done|].
  set (ip2 := ip +:+ String (of_byte (Z.shiftr acc 8)) (String (of_byte acc) "")).
  assert (String.length ip2 = String.length ip + 2)%nat as H2 by by unfold ip2; rewrite str_length_app.
  assert (∀ e s, ipv6_go n ip2 e s = Some (ip', e', s') → (String.length ip' ≤ 16)%nat) as Hrec
    by (intros ??; apply IH; lia).
  clearbody ip2.
  assert (∀ r, match parse_ipv4 s with None => None | Some b => Some (ip +:+ b, e, "") end = Some r →
          String.length r.1.1 = String.length ip + 4)%nat as Hv4.
  { intros r. destruct (parse_ipv4 s) as [b|] eqn:Hb; [|done]. intros [= <-]. cbn. rewrite str_length_app.
    f_equal. by apply (parse_ipv4_length s). }
  assert (∀ c rest', (if negb (Ascii.eqb c ":") then None else
     match rest' with
     | "" => None
     | String ":" rest => match e with Some _ => None | None =>
         if decide (rest = "") then Some (ip2, Some (String.length ip2), "") else ipv6_go n ip2 (Some (String.length ip2)) rest end
     | rest => ipv6_go n ip2 e rest end) = Some (ip', e', s') → (String.length ip' ≤ 16)%nat) as Hsep.
  { intros c rest'. destruct (negb _); [done|]. destruct rest' as [|c2 rest2]; [done|].
    destruct c2 as [[] [] [] [] [] [] [] []]; try apply Hrec.
    destruct e; [done|]. destruct (decide _); [intros [= <- <- <-]; lia|apply Hrec]. }
  destruct rest as [|c rest]; [intros [= <- <- <-]; lia|]. specialize (Hsep c rest).
  destruct c as [[] [] [] [] [] [] [] []]; try exact Hsep. clear Hsep.
  destruct (_ && _); [done|]. destruct (Nat.ltb_spec 16 (String.length ip + 4)); [done|].
  intros Hr. apply Hv4 in Hr. cbn in Hr. lia.
Qed.

Lemma parse_ipv6_length s ip : parse_ipv6 s = Some ip → String.length ip = 16.
Proof.
  unfold parse_ipv6.
  set (p := match s with String ":" (String ":" s) => (Some 0%nat, s) | s => (None, s) end).
  destruct p as [e r]. destruct (decide _); [by intros [= <-]|].
  destruct (ipv6_go 8 "" e r) as [[[ip' e'] [|]]|] eqn:Hgo; [|done..].
  apply ipv6_go_length in Hgo; [|done]. destruct (Nat.ltb_spec (String.length ip') 16).
  - destruct e' as [e'|]; [|done]. intros [= <-].
    rewrite !str_length_app, zeros_length, str_length_take, str_length_drop. lia.
  - destruct e'; [done|]. intros [= <-]. lia.
Qed.

Lemma To4_length s b : To4 (ParseIP s) = Some b → String.length b = 4.
Proof.
  unfold ParseIP. destruct (ip_family s) as [[]|]; [| |done].
  - destruct (parse_ipv4 s) as [b'|] eqn:Hb; [|done]. cbn [option_map To4].
    intros Hs. rewrite strip_prefix_app in Hs. injection Hs as <-. by apply (parse_ipv4_length s).
  - destruct (str_free "%" s); [|done]. destruct (parse_ipv6 s) as [ip|] eqn:Hip; [|done]. cbn [To4].
    intros Hs. apply parse_ipv6_length in Hip. apply strip_prefix_Some in Hs as ->.
    rewrite str_length_app in Hip. change (String.length v4_in_v6_prefix) with 12 in Hip. lia.
Qed.

(** ** Netlink messages *)

(** [syscall.NlMsghdr] *)
Record NlMsghdr := { Len : Z; Type_ : Z; Flags : Z; Seq : Z; Pid : Z }.

Definition SizeofNlMsghdr : nat := 16.

(** The header as it lies in memory. *)
Definition header_bytes (h : NlMsghdr) : string :=
  le 4 (Len h) +:+ le 2 (Type_ h) +:+ le 2 (Flags h) +:+ le 4 (Seq h) +:+ le 4 (Pid h).

Definition read_header (s : string) : NlMsghdr := {|
  Len := le_at 0 4 s; Type_ := le_at 4 2 s; Flags := le_at 6 2 s; Seq := le_at 8 4 s; Pid := le_at 12 4 s |}.

Record NetlinkMessage := { Header : NlMsghdr; Data : string }.

Definition nlm_align (n : Z) : Z := Z.land (n + 3) (Z.lnot 3).

(** The loop of [syscall.ParseNetlinkMessage]; a message is at least its header, so the
    length of the buffer bounds it. *)
Fixpoint parse_netlink (fuel : nat) (b : string) : list NetlinkMessage + string :=
  if (String.length b <? SizeofNlMsghdr)%nat then inl []
  else
    match fuel with
    | O => inl []
    | S fuel =>
        let h := read_header b in
        let l := nlm_align (Len h) in
        if ((Len h <? Z.of_nat SizeofNlMsghdr) || (Z.of_nat (String.length b) <? l))%Z then inr "invalid argument"
        else
          let m := {| Header := h; Data := str_take (Z.to_nat (Len h) - SizeofNlMsghdr) (str_drop SizeofNlMsghdr b) |} in
          match parse_netlink fuel (str_drop (Z.to_nat l) b) with
          | inl ms => inl (m :: ms)
          | inr e => inr e
          end
    end.

Definition ParseNetlinkMessage (b : string) : list NetlinkMessage + string := parse_netlink (String.length b) b.
