(* ===== verification/Cpio.v ===== *)
(** * The initramfs archive ([internal/builder/cpio.go])

    The newc writer, entry by entry, and the packing of a directory tree.  The reader
    at the end is the documented newc format, written independently; the archive is
    read back through it. *)

From Stdlib Require Import Ascii.
From S2P Require Import Prelude GoStrings GoStrconv GoPath Prog Protocol.

(** ** Headers *)

Definition cpioMagic : string := "070701".
Definition cpioTrailer : string := "TRAILER!!!".
Definition cpioHeaderSz : Z := 110.

Record CPIOHeader := {
  Ino : Z; Mode : Z; UID : Z; GID : Z; NLink : Z; MTime : Z; FileSize : Z;
  DevMaj : Z; DevMin : Z; RDevMaj : Z; RDevMin : Z; Name : string
}.

(** [%08X] of a [uint32] *)
Definition hex8 (x : Z) : string := hex_n true 8 x.



(** [(4 - n%4) % 4] *)
Definition pad4 (n : Z) : Z := (4 - n mod 4) mod 4.

Definition numbers (h : CPIOHeader) (nameSize : Z) : list Z :=
  [Ino h; Mode h; UID h; GID h; NLink h; MTime h; FileSize h; DevMaj h; DevMin h; RDevMaj h; RDevMin h;
   nameSize].

Fixpoint hex_fields (xs : list Z) : string :=
  match xs with
  | [] => ""
  | x :: xs => hex8 x +:+ hex_fields xs
  end.

Definition header_text (h : CPIOHeader) (nameSize : Z) : string :=
  cpioMagic +:+ hex_fields (numbers h nameSize) +:+ "00000000".

(** [w.Write(bytes.Repeat([]byte{0}, pad))] when there is something to pad *)
Definition write_pad (pad : Z) : prog write_ev (outcome unit) :=
  if (0 <? pad)%Z then write (zeros (Z.to_nat pad)) else done_.

Definition WriteCPIOHeader (h : CPIOHeader) : prog write_ev (outcome unit) :=
  let nameBytes := Name h +:+ nul in
  let nameSize := wrap_u 32 (Z.of_nat (String.length nameBytes)) in
  let hdrStr := header_text h nameSize in
  if negb (Z.of_nat (String.length hdrStr) =? cpioHeaderSz)%Z then
    throw ("invalid header length " +:+ itoa (Z.of_nat (String.length hdrStr)) +:+ " (expected " +:+
           itoa cpioHeaderSz +:+ ")")
  else
    _ ←! write hdrStr;
    _ ←! write nameBytes;
    write_pad (pad4 (cpioHeaderSz + Z.of_nat (String.length nameBytes))).

(** ** Entries *)

(** What a reader yields until its end: the bytes and the error, if any. *)
Record source := { content : string; read_err : option string }.

(** [io.Copy(w, r)] *)
Definition copy_to (r : source) : prog write_ev (outcome Z) :=
  _ ←! write (content r);
  match read_err r with
  | Some e => throw e
  | None => Ret (Ok (Z.of_nat (String.length (content r))))
  end.

Definition WriteCPIOEntry (h : CPIOHeader) (r : option source) : prog write_ev (outcome unit) :=
  _ ←! WriteCPIOHeader h;
  match r with
  | Some r =>
      if (0 <? FileSize h)%Z then
        n ←! copy_to r;
        if negb (wrap_u 32 n =? FileSize h)%Z then
          throw ("file size mismatch for " +:+ Name h +:+ ": wrote " +:+ itoa n +:+ ", expected " +:+
                 itoa (FileSize h))
        else write_pad (pad4 (FileSize h))
      else done_
  | None => done_
  end.

Definition trailer_header : CPIOHeader := {|
  Ino := 0; Mode := 0; UID := 0; GID := 0; NLink := 1; MTime := 0; FileSize := 0;
  DevMaj := 0; DevMin := 0; RDevMaj := 0; RDevMin := 0; Name := cpioTrailer |}.

Definition WriteCPIOTrailer : prog write_ev (outcome unit) := WriteCPIOEntry trailer_header None.

(** ** Directory trees *)

(** A node of the tree: what [Walk] and, later, [Readlink] and [Open] report. *)
Inductive node :=
| NDir
| NLinkTo (target : outcome string)
| NFile (size sysMode : Z) (file : outcome source).

Record walk_entry := { fullPath : string; info : node }.

Record entry := { relPath : string; e_full : string; e_info : node }.

(** One call of the function passed to [filepath.Walk]. *)
Definition visit (rootDir : string) (entries : list entry) (w : walk_entry) : outcome (list entry) :=
  rel ← Rel rootDir (fullPath w);
  Ok (if decide (rel = ".") then entries
      else entries ++ [{| relPath := rel; e_full := fullPath w; e_info := info w |}]).

(** [sort.Slice] by relative path *)
Definition path_le (a b : entry) : Prop := (relPath a <=? relPath b)%string = true.
#[export] Instance path_le_dec a b : Decision (path_le a b).
Proof. unfold path_le. apply _. Defined.
Definition sort_entries (es : list entry) : list entry := merge_sort path_le es.

(** [time.Time] with whole seconds: the zero time is 1 January of year 1. *)
Definition zero_time : Z := -62135596800.
Definition mtime_sec (fixedMTime : Z) : Z :=
  if (fixedMTime =? zero_time)%Z then 0%Z else wrap_u 32 fixedMTime.

Definition node_mode (n : node) : Z :=
  match n with
  | NDir => 0x41ED
  | NLinkTo _ => 0xA1FF
  | NFile _ sysMode _ => if (Z.land sysMode 0x49 =? 0)%Z then 0x81A4 else 0x81ED
  end.

(** [info.Size()] is not used for directories and links. *)
Definition base_header (ino mtime : Z) (e : entry) (nlink size : Z) : CPIOHeader := {|
  Ino := ino; Mode := node_mode (e_info e); UID := 0; GID := 0; NLink := nlink; MTime := mtime;
  FileSize := size; DevMaj := 0; DevMin := 0; RDevMaj := 0; RDevMin := 0; Name := relPath e |}.

Definition pack_entry (ino mtime : Z) (e : entry) : prog write_ev (outcome unit) :=
  match e_info e with
  | NDir =>
      wrapping ("failed writing dir " +:+ relPath e +:+ " to cpio: ")
        (WriteCPIOEntry (base_header ino mtime e 2 0) None)
  | NLinkTo target =>
      target ←! Ret (wrap_err ("failed reading symlink " +:+ e_full e +:+ ": ") target);
      wrapping ("failed writing symlink " +:+ relPath e +:+ " to cpio: ")
        (WriteCPIOEntry (base_header ino mtime e 1 (wrap_u 32 (Z.of_nat (String.length target))))
           (Some {| content := target; read_err := None |}))
  | NFile size _ file =>
      f ←! Ret (wrap_err ("failed opening " +:+ e_full e +:+ ": ") file);
      wrapping ("failed writing file " +:+ relPath e +:+ " to cpio: ")
        (WriteCPIOEntry (base_header ino mtime e 1 (wrap_u 32 size)) (Some f))
  end.

Fixpoint pack_entries (ino mtime : Z) (es : list entry) : prog write_ev (outcome unit) :=
  match es with
  | [] => done_
  | e :: es => _ ←! pack_entry ino mtime e; pack_entries (wrap_u 32 (ino + 1)) mtime es
  end.

(** [walk] is what [filepath.Walk] reports, up to its first error. *)
Definition PackCPIOInitramfs (rootDir : string) (walk : outcome (list walk_entry)) (fixedMTime : Z)
    : prog write_ev (outcome unit) :=
  entries ←! Ret (wrap_err ("failed walking " +:+ rootDir +:+ ": ")
                    (ws ← walk; fold_m (visit rootDir) [] ws));
  _ ←! pack_entries 1 (mtime_sec fixedMTime) (sort_entries entries);
  wrapping "failed writing cpio trailer: " WriteCPIOTrailer.

(** * The format *)

(** ** A reader *)

Definition hex_val (c : ascii) : option Z :=
  let x := byte_of c in
  (if (48 <=? x) && (x <=? 57) then Some (x - 48)
   else if (65 <=? x) && (x <=? 70) then Some (x - 55)
   else None)%Z.

Fixpoint parse_hex (n : nat) (acc : Z) (s : string) : option (Z * string) :=
  match n, s with
  | O, _ => Some (acc, s)
  | S n, String c s => d ← hex_val c; parse_hex n (16 * acc + d)%Z s
  | S _, "" => None
  end.

Fixpoint parse_fields (n : nat) (s : string) : option (list Z * string) :=
  match n with
  | O => Some ([], s)
  | S n =>
      '(x, s) ← parse_hex 8 0 s;
      '(xs, s) ← parse_fields n s;
      Some (x :: xs, s)
  end.

(** [n] bytes and what follows them. *)
Definition take_bytes (n : Z) (s : string) : option (string * string) :=
  if (n <=? Z.of_nat (String.length s))%Z
  then Some (str_take (Z.to_nat n) s, str_drop (Z.to_nat n) s) else None.

(** One member: the header fields, the name without its terminator, the body. *)
Definition parse_member (s : string) : option (CPIOHeader * string * string) :=
  s ← strip_prefix cpioMagic s;
  '(fs, s) ← parse_fields 13 s;
  match fs with
  | [ino; mode; uid; gid; nlink; mtime; size; dmaj; dmin; rmaj; rmin; namesize; _] =>
      '(name, s) ← take_bytes (namesize - 1) s;
      s ← strip_prefix nul s;
      '(_, s) ← take_bytes (pad4 (cpioHeaderSz + namesize)) s;
      '(body, s) ← take_bytes size s;
      '(_, s) ← take_bytes (pad4 size) s;
      Some ({| Ino := ino; Mode := mode; UID := uid; GID := gid; NLink := nlink; MTime := mtime;
               FileSize := size; DevMaj := dmaj; DevMin := dmin; RDevMaj := rmaj; RDevMin := rmin;
               Name := name |}, body, s)
  | _ => None
  end.

(** The members up to the trailer, and what follows it. *)
Fixpoint parse_archive (fuel : nat) (s : string) : option (list (CPIOHeader * string) * string) :=
  match fuel with
  | O => None
  | S fuel =>
      '(h, body, s) ← parse_member s;
      if decide (Name h = cpioTrailer) then Some ([], s)
      else '(ms, s) ← parse_archive fuel s; Some ((h, body) :: ms, s)
  end.

(** ** Hexadecimal fields *)

Definition u32 (x : Z) : Prop := (0 ≤ x < 2 ^ 32)%Z.

Lemma hex_val_digit d : (0 ≤ d < 16)%Z → hex_val (hex_digit true d) = Some d.
Proof.
  intros Hd. assert (forallb (λ d, bool_decide (hex_val (hex_digit true d) = Some d)) (seqZ 0 16) = true) as H
    by by vm_compute.
  rewrite forallb_forall in H. specialize (H d). rewrite <-list_elem_of_In in H.
  assert (d ∈ seqZ 0 16) as Hin by (apply elem_of_seqZ; lia). by apply H, bool_decide_eq_true in Hin.
Qed.

Lemma parse_hex_n n acc x rest :
  parse_hex n acc (hex_n true n x +:+ rest) = Some (acc * 16 ^ Z.of_nat n + x mod 16 ^ Z.of_nat n, rest)%Z.
Proof.
  revert acc. induction n as [|n IH]; intros acc.
  - cbn. rewrite Z.mod_1_r. do 2 f_equal. lia.
  - cbn [hex_n]. rewrite str_app_cons. cbn [parse_hex].
    assert (Z.land (Z.shiftr x (4 * Z.of_nat n)) 15 = (x / 16 ^ Z.of_nat n) mod 16)%Z as Hd.
    { change 15%Z with (Z.ones 4). rewrite Z.land_ones, Z.shiftr_div_pow2 by lia.
      by rewrite Z.pow_mul_r by lia. }
    rewrite Hd, hex_val_digit by (apply Z.mod_pos_bound; lia). cbn [mbind option_bind].
    rewrite IH, Nat2Z.inj_succ, Z.pow_succ_r by lia. do 2 f_equal.
    rewrite (Z.mul_comm 16 (16 ^ _)), Z.rem_mul_r by lia. lia.
Qed.

Lemma hex_n_length n x : String.length (hex_n true n x) = n.
Proof. induction n as [|n IH]; [done|]. cbn. by f_equal. Qed.

Lemma parse_hex8 x rest : u32 x → parse_hex 8 0 (hex8 x +:+ rest) = Some (x, rest).
Proof. intros Hx. unfold hex8. rewrite parse_hex_n. do 2 f_equal. apply Z.mod_small. exact Hx. Qed.

Lemma parse_fields_hex xs rest :
  Forall u32 xs → parse_fields (length xs) (hex_fields xs +:+ rest) = Some (xs, rest).
Proof.
  intros Hxs. induction Hxs as [|x xs Hx Hxs IH]; [done|]. cbn [length hex_fields parse_fields].
  rewrite str_app_assoc, parse_hex8 by done. cbn [mbind option_bind]. by rewrite IH.
Qed.

Lemma hex_fields_length xs : String.length (hex_fields xs) = 8 * length xs.
Proof.
  induction xs as [|x xs IH]; [done|]. cbn [hex_fields length]. rewrite str_length_app, IH.
  unfold hex8. rewrite hex_n_length. lia.
Qed.

Lemma hex_fields_app xs ys : hex_fields (xs ++ ys) = hex_fields xs +:+ hex_fields ys.
Proof.
  induction xs as [|x xs IH]; [by rewrite str_app_nil_l|]. cbn. by rewrite IH, str_app_assoc.
Qed.

Lemma header_text_fields h n : header_text h n = cpioMagic +:+ hex_fields (numbers h n ++ [0%Z]).
Proof. unfold header_text. by rewrite hex_fields_app. Qed.

Lemma header_text_length h n : Z.of_nat (String.length (header_text h n)) = cpioHeaderSz.
Proof. rewrite header_text_fields, str_length_app, hex_fields_length. done. Qed.

(** ** Members *)

Definition name_size (h : CPIOHeader) : Z := Z.of_nat (String.length (Name h)) + 1.

Definition header_bytes (h : CPIOHeader) : string :=
  header_text h (name_size h) +:+ Name h +:+ nul +:+ zeros (Z.to_nat (pad4 (cpioHeaderSz + name_size h))).

Definition member_bytes (h : CPIOHeader) (body : string) : string :=
  header_bytes h +:+ body +:+ zeros (Z.to_nat (pad4 (FileSize h))).

Definition header_ok (h : CPIOHeader) : Prop := Forall u32 (numbers h (name_size h)).

Lemma take_bytes_app n s rest :
  Z.of_nat (String.length s) = n → take_bytes n (s +:+ rest) = Some (s, rest).
Proof.
  intros <-. unfold take_bytes. rewrite str_length_app. destruct (Z.leb_spec (Z.of_nat (String.length s))
    (Z.of_nat (String.length s + String.length rest))); [|lia].
  by rewrite Nat2Z.id, str_take_app, str_drop_app.
Qed.

Lemma pad4_range n : (0 ≤ pad4 n < 4)%Z.
Proof. apply Z.mod_pos_bound. lia. Qed.

Lemma pad4_aligned n : ((n + pad4 n) mod 4 = 0)%Z.
Proof. unfold pad4. Z.div_mod_to_equations. lia. Qed.

Lemma parse_member_bytes h body rest :
  header_ok h → Z.of_nat (String.length body) = FileSize h →
  parse_member (member_bytes h body +:+ rest) = Some (h, body, rest).
Proof.
  intros Hh Hb. unfold parse_member, member_bytes, header_bytes. rewrite header_text_fields.
  rewrite !str_app_assoc, strip_prefix_app. cbn [mbind option_bind].
  change 13 with (length (numbers h (name_size h) ++ [0%Z])).
  rewrite parse_fields_hex by (apply Forall_app; split; [exact Hh|by constructor]).
  cbn [numbers app mbind option_bind]. rewrite take_bytes_app by (unfold name_size; lia). cbn [mbind option_bind].
  rewrite strip_prefix_app. cbn [mbind option_bind].
  rewrite take_bytes_app by (rewrite zeros_length, Z2Nat.id by apply pad4_range; done).
  cbn [mbind option_bind]. rewrite (take_bytes_app _ body) by done. cbn [mbind option_bind].
  rewrite take_bytes_app by (rewrite zeros_length, Z2Nat.id by apply pad4_range; done). by destruct h.
Qed.

(** Members are aligned to four bytes. *)
Lemma member_aligned h body :
  Z.of_nat (String.length body) = FileSize h →
  (Z.of_nat (String.length (member_bytes h body)) mod 4 = 0)%Z.
Proof.
  intros Hb. unfold member_bytes, header_bytes. rewrite !str_length_app, !zeros_length.
  pose proof (header_text_length h (name_size h)) as Hl.
  change (String.length nul) with 1.
  pose proof (pad4_aligned (cpioHeaderSz + name_size h)) as H1. pose proof (pad4_aligned (FileSize h)) as H2.
  pose proof (pad4_range (cpioHeaderSz + name_size h)). pose proof (pad4_range (FileSize h)).
  replace (Z.of_nat _) with
    ((cpioHeaderSz + name_size h + pad4 (cpioHeaderSz + name_size h)) + (FileSize h + pad4 (FileSize h)))%Z
    by (unfold name_size in *; lia).
  rewrite Z.add_mod, H1, H2 by done. done.
Qed.

(** ** What the writer writes *)

Lemma wp_write data s (Q : outcome unit → string → Prop) :
  Q (Ok tt) (s +:+ data) → (∀ e s', Q (Err e) s') → wp wire (write data) Q s.
Proof. intros H1 H2 [err|] s'; [intros _; apply H2|]. intros ->. apply H1. Qed.

Lemma wp_write_pad pad s :
  (0 ≤ pad)%Z → wp wire (write_pad pad) (λ r s', r = Ok tt → s' = s +:+ zeros (Z.to_nat pad)) s.
Proof.
  intros Hp. unfold write_pad. destruct (Z.ltb_spec 0 pad); [by apply wp_write|].
  assert (pad = 0%Z) as -> by lia. intros _. by rewrite str_app_nil_r.
Qed.

Definition name_fits (h : CPIOHeader) : Prop := (name_size h < 2 ^ 32)%Z.

Lemma wp_WriteCPIOHeader h s :
  name_fits h → wp wire (WriteCPIOHeader h) (λ r s', r = Ok tt → s' = s +:+ header_bytes h) s.
Proof.
  intros Hn. unfold WriteCPIOHeader. rewrite str_length_app. change (String.length nul) with 1.
  assert (Z.of_nat (String.length (Name h) + 1) = name_size h) as -> by (unfold name_size; lia).
  rewrite wrap_u_id by (unfold name_fits, name_size in *; lia).
  rewrite header_text_length, Z.eqb_refl. cbn [negb].
  apply wp_ebind, wp_write; [|done]. apply wp_ebind, wp_write; [|done].
  eapply wp_mono; [|apply wp_write_pad, pad4_range]. cbn beta. intros r s' H Hr. rewrite (H Hr).
  unfold header_bytes. by rewrite !str_app_assoc.
Qed.

(** The body of a member for a given reader. *)
Definition body_of (h : CPIOHeader) (r : option source) : string :=
  match r with Some r => if (0 <? FileSize h)%Z then content r else "" | None => "" end.

Definition source_fits (h : CPIOHeader) (r : option source) : Prop :=
  match r with
  | Some r => u32 (FileSize h) ∧ u32 (Z.of_nat (String.length (content r)))
  | None => FileSize h = 0%Z
  end.

Lemma member_bytes_empty h : FileSize h = 0%Z → member_bytes h "" = header_bytes h.
Proof. intros Hz. unfold member_bytes. rewrite Hz. cbn. apply str_app_nil_r. Qed.

Lemma wp_WriteCPIOEntry h r s :
  name_fits h → source_fits h r →
  wp wire (WriteCPIOEntry h r) (λ o s', o = Ok tt →
    s' = s +:+ member_bytes h (body_of h r) ∧ Z.of_nat (String.length (body_of h r)) = FileSize h) s.
Proof.
  intros Hn Hr. unfold WriteCPIOEntry. apply wp_ebind. eapply wp_mono; [|by apply wp_WriteCPIOHeader].
  intros [[]|e|] s1 H1; [|done..]. rewrite (H1 eq_refl). clear H1. destruct r as [r|]; cbn [body_of source_fits] in *.
  - destruct Hr as [Hf Hc]. destruct (Z.ltb_spec 0 (FileSize h)) as [Hp|Hz].
    + apply wp_ebind. unfold copy_to. apply wp_ebind, wp_write; [|done].
      destruct (read_err r); [done|]. cbn [wp]. rewrite wrap_u_id by exact Hc.
      destruct (Z.eqb_spec (Z.of_nat (String.length (content r))) (FileSize h)) as [He|]; [|done].
      cbn [negb]. eapply wp_mono; [|apply wp_write_pad, pad4_range]. cbn beta. intros o s' H Ho.
      rewrite (H Ho). split; [|done]. unfold member_bytes. by rewrite !str_app_assoc.
    + assert (FileSize h = 0%Z) as Hz0 by (unfold u32 in Hf; lia). intros _. split; [|done].
      by rewrite member_bytes_empty.
  - intros _. by rewrite member_bytes_empty.
Qed.

(** *** On a wire that never fails *)

Definition reliable : env_rel write_ev string := λ X e s x s',
  match e in write_ev Y return Y → Prop with Write data => λ r, r = None ∧ s' = s +:+ data end x.

Definition succeeds (p : prog write_ev (outcome unit)) : Prop :=
  ∀ s, wp reliable p (λ r _, r = Ok tt) s.

Lemma succeeds_ebind (p q : prog write_ev (outcome unit)) :
  succeeds p → succeeds q → succeeds (_ ←! p; q).
Proof. intros Hp Hq s. apply wp_ebind. eapply wp_mono; [|apply Hp]. intros ? s' ->. apply Hq. Qed.
Lemma succeeds_wrapping pre p : succeeds p → succeeds (wrapping pre p).
Proof. intros Hp s. apply wp_wrapping. eapply wp_mono; [|apply Hp]. by intros ? s' ->. Qed.
Lemma succeeds_write data : succeeds (write data).
Proof. by intros s r s' [-> _]. Qed.
Lemma succeeds_write_pad pad : succeeds (write_pad pad).
Proof. unfold write_pad. destruct (_ <? _)%Z; [apply succeeds_write|done]. Qed.

Lemma succeeds_WriteCPIOHeader h : name_fits h → succeeds (WriteCPIOHeader h).
Proof.
  intros Hn. unfold WriteCPIOHeader. rewrite header_text_length, Z.eqb_refl. cbn [negb].
  apply succeeds_ebind; [apply succeeds_write|]. apply succeeds_ebind; [apply succeeds_write|apply succeeds_write_pad].
Qed.

(** The reader delivers what the header announces. *)
Definition delivers (h : CPIOHeader) (r : option source) : Prop :=
  match r with
  | Some r => read_err r = None ∧ Z.of_nat (String.length (content r)) = FileSize h ∧ u32 (FileSize h)
  | None => True
  end.

Lemma succeeds_WriteCPIOEntry h r : name_fits h → delivers h r → succeeds (WriteCPIOEntry h r).
Proof.
  intros Hn Hd. unfold WriteCPIOEntry. apply succeeds_ebind; [by apply succeeds_WriteCPIOHeader|].
  destruct r as [r|]; [|done]. destruct Hd as (He & Hl & Hu). destruct (_ <? _)%Z; [|done].
  unfold copy_to. rewrite He, Hl. intros s. cbn. intros r1 s1 [-> _]. cbn.
  rewrite wrap_u_id by exact Hu. rewrite Z.eqb_refl. cbn [negb]. apply succeeds_write_pad.
Qed.

(** The member of an entry, as the reader shows it. *)
Definition member_of (ino mtime : Z) (e : entry) : CPIOHeader * string :=
  match e_info e with
  | NDir => (base_header ino mtime e 2 0, "")
  | NLinkTo (Ok t) => (base_header ino mtime e 1 (Z.of_nat (String.length t)), t)
  | NFile size _ (Ok f) => (base_header ino mtime e 1 size, if (0 <? size)%Z then content f else "")
  | _ => (base_header ino mtime e 1 0, "")
  end.

Fixpoint members (ino mtime : Z) (es : list entry) : list (CPIOHeader * string) :=
  match es with
  | [] => []
  | e :: es => member_of ino mtime e :: members (ino + 1) mtime es
  end.

(** Names and sizes fit the fields of the format, and no entry looks like its end. *)
Definition entry_fits (e : entry) : Prop :=
  (Z.of_nat (String.length (relPath e)) + 1 < 2 ^ 32)%Z ∧ relPath e ≠ cpioTrailer ∧
  match e_info e with
  | NLinkTo (Ok t) => u32 (Z.of_nat (String.length t))
  | NFile size _ (Ok f) => u32 size ∧ u32 (Z.of_nat (String.length (content f)))
  | _ => True
  end.

Lemma node_mode_u32 n : u32 (node_mode n).
Proof. destruct n; cbn; [done|done|]. by destruct (_ =? 0)%Z. Qed.

Lemma base_header_ok ino mtime e nlink size :
  u32 ino → u32 mtime → u32 nlink → u32 size → (Z.of_nat (String.length (relPath e)) + 1 < 2 ^ 32)%Z →
  header_ok (base_header ino mtime e nlink size).
Proof.
  intros. unfold header_ok, numbers, name_size. cbn.
  repeat (constructor; [first [assumption|apply node_mode_u32|by split|unfold u32; lia]|]). constructor.
Qed.

Lemma wp_pack_entry ino mtime e s :
  u32 ino → u32 mtime → entry_fits e →
  wp wire (pack_entry ino mtime e) (λ r s', r = Ok tt →
    s' = s +:+ member_bytes (member_of ino mtime e).1 (member_of ino mtime e).2 ∧
    header_ok (member_of ino mtime e).1 ∧ Name (member_of ino mtime e).1 ≠ cpioTrailer ∧
    Z.of_nat (String.length (member_of ino mtime e).2) = FileSize (member_of ino mtime e).1) s.
Proof.
  intros Hi Hm (Hn & Ht & Hs). unfold pack_entry, member_of.
  assert (u32 1 ∧ u32 2 ∧ u32 0) as (H1 & H2 & H0) by done.
  destruct (e_info e) as [|[t|err|]|size sm [f|err|]]; cbn [wrap_err ebind prog_bind]; try done.
  - apply wp_wrapping. eapply wp_mono; [|by apply wp_WriteCPIOEntry]. intros r s' H Hr%wrap_err_ok.
    destruct (H Hr) as [-> Hl]. split_and!; [done|by apply base_header_ok|done|done].
  - rewrite wrap_u_id by exact Hs. apply wp_wrapping. eapply wp_mono; [|by apply wp_WriteCPIOEntry].
    cbn [body_of FileSize base_header content]. intros r s' H Hr%wrap_err_ok. destruct (H Hr) as [-> Hl].
    assert ((if (0 <? Z.of_nat (String.length t))%Z then t else "") = t) as Ht'.
    { destruct t; [done|]. by destruct (Z.ltb_spec 0 (Z.of_nat (String.length (String a t)))); [|cbn in *; lia]. }
    rewrite Ht'. split_and!; [done|by apply base_header_ok|done|done].
  - destruct Hs as [Hs Hc]. rewrite wrap_u_id by exact Hs. apply wp_wrapping.
    eapply wp_mono; [|by apply wp_WriteCPIOEntry]. cbn [body_of FileSize base_header].
    intros r s' H Hr%wrap_err_ok. destruct (H Hr) as [-> Hl].
    split_and!; [done|by apply base_header_ok|done|done].
Qed.

Fixpoint archive_bytes (ms : list (CPIOHeader * string)) : string :=
  match ms with
  | [] => ""
  | (h, body) :: ms => member_bytes h body +:+ archive_bytes ms
  end.

Definition member_ok (m : CPIOHeader * string) : Prop :=
  header_ok m.1 ∧ Name m.1 ≠ cpioTrailer ∧ Z.of_nat (String.length m.2) = FileSize m.1.

Lemma wp_pack_entries ino mtime es s :
  (0 ≤ ino)%Z → (ino + Z.of_nat (length es) < 2 ^ 32)%Z → u32 mtime → Forall entry_fits es →
  wp wire (pack_entries ino mtime es) (λ r s', r = Ok tt →
    s' = s +:+ archive_bytes (members ino mtime es) ∧ Forall member_ok (members ino mtime es)) s.
Proof.
  intros H0 Hi Hm Hes. revert ino s H0 Hi. induction Hes as [|e es He Hes IH]; intros ino s H0 Hi.
  { intros _. by rewrite str_app_nil_r. }
  cbn [pack_entries length] in *. apply wp_ebind.
  eapply wp_mono; [|by apply wp_pack_entry; [unfold u32; lia|..]]. cbn beta.
  intros [[]|err|] s1 H1; [|done..]. destruct (H1 eq_refl) as [-> Hok]. clear H1.
  rewrite wrap_u_id by lia. eapply wp_mono; [|apply IH; lia]. cbn beta.
  intros r s2 H2 Hr. destruct (H2 Hr) as [-> Hall]. cbn [members archive_bytes].
  destruct (member_of ino mtime e) as [h body]. rewrite str_app_assoc. split; [done|]. by constructor.
Qed.

Lemma trailer_ok : header_ok trailer_header ∧ name_fits trailer_header.
Proof. split; [|done]. unfold header_ok, numbers. repeat (constructor; [by split|]). constructor. Qed.

Lemma parse_archive_bytes ms rest :
  Forall member_ok ms →
  parse_archive (S (length ms)) (archive_bytes ms +:+ member_bytes trailer_header "" +:+ rest) = Some (ms, rest).
Proof.
  remember (S (length ms)) as fuel eqn:Hf. intros Hms. revert fuel Hf.
  induction Hms as [|[h body] ms (Hh & Hn & Hl) Hms IH]; intros fuel ->.
  - cbn [length archive_bytes parse_archive]. rewrite str_app_nil_l.
    rewrite parse_member_bytes by (done || apply trailer_ok). cbn [mbind option_bind]. by rewrite decide_True.
  - cbn [length archive_bytes]. specialize (IH _ eq_refl). revert IH.
    generalize (S (length ms)). intros fuel IH. cbn [parse_archive]. rewrite str_app_assoc.
    rewrite parse_member_bytes by done. cbn [mbind option_bind]. rewrite decide_False by done.
    by rewrite IH.
Qed.

Lemma archive_aligned ms :
  Forall member_ok ms → (Z.of_nat (String.length (archive_bytes ms)) mod 4 = 0)%Z.
Proof.
  intros Hms. induction Hms as [|[h body] ms (_ & _ & Hl) Hms IH]; [done|]. cbn [archive_bytes].
  rewrite str_length_app, Nat2Z.inj_add, Z.add_mod, IH by done. by rewrite member_aligned.
Qed.

(** ** Order *)

#[export] Instance path_le_trans : Transitive path_le.
Proof. intros a b c. apply str_le_trans. Qed.
#[export] Instance path_le_total : Total path_le.
Proof. intros a b. apply String.leb_total. Qed.

Lemma sort_entries_perm es es' :
  NoDup (relPath <$> es) → es ≡ₚ es' → sort_entries es = sort_entries es'.
Proof.
  intros Hnd Hp. unfold sort_entries. apply (Sorted_unique_strong path_le).
  - intros x y Hx Hy H1 H2. assert (relPath x = relPath y) as Heq by by apply String.leb_antisym.
    rewrite (merge_sort_Permutation path_le) in Hx. rewrite (merge_sort_Permutation path_le), <-Hp in Hy.
    apply list_elem_of_lookup in Hx as [i Hi], Hy as [j Hj].
    assert (i = j) as ->; [|by simplify_eq].
    apply (NoDup_lookup (relPath <$> es) i j (relPath x)); [done|by rewrite list_lookup_fmap, Hi|].
    by rewrite list_lookup_fmap, Hj, Heq.
  - apply (Sorted_merge_sort path_le); apply _.
  - apply (Sorted_merge_sort path_le); apply _.
  - by rewrite !(merge_sort_Permutation path_le).
Qed.

(** The entries of a walk. *)
Definition entry_of (rootDir : string) (w : walk_entry) : option entry :=
  match Rel rootDir (fullPath w) with
  | Ok rel => if decide (rel = ".") then None
              else Some {| relPath := rel; e_full := fullPath w; e_info := info w |}
  | _ => None
  end.

Definition related (rootDir : string) (w : walk_entry) : Prop := is_ok (Rel rootDir (fullPath w)) = true.

Lemma visit_fold rootDir ws acc :
  Forall (related rootDir) ws → fold_m (visit rootDir) acc ws = Ok (acc ++ omap (entry_of rootDir) ws).
Proof.
  intros Hws. revert acc. induction Hws as [|w ws Hw Hws IH]; intros acc; [by rewrite app_nil_r|].
  cbn [fold_m omap list_omap]. unfold related in Hw.
  assert (visit rootDir acc w = Ok (acc ++ option_list (entry_of rootDir w))) as ->.
  { unfold visit, entry_of. destruct (Rel rootDir (fullPath w)) as [rel|e|]; [|done..]. cbn.
    destruct (decide (rel = ".")); [by rewrite app_nil_r|done]. }
  cbn [mbind outcome_bind]. rewrite IH. destruct (entry_of rootDir w); cbn [option_list].
  - by rewrite <-app_assoc.
  - by rewrite app_nil_r.
Qed.

(** The files of the tree can be read and did not change size. *)
Definition entry_ready (e : entry) : Prop :=
  match e_info e with
  | NDir => True
  | NLinkTo t => is_ok t = true
  | NFile size _ (Ok f) => read_err f = None ∧ Z.of_nat (String.length (content f)) = size
  | NFile _ _ _ => False
  end.

Lemma succeeds_pack_entries ino mtime es :
  Forall entry_fits es → Forall entry_ready es → succeeds (pack_entries ino mtime es).
Proof.
  intros Hes Hrs. revert ino. induction Hes as [|e es (Hn & _ & Hs) Hes IH]; intros ino; [done|].
  inversion_clear Hrs as [|? ? Hr Hrs']. cbn [pack_entries]. apply succeeds_ebind; [|by apply IH].
  assert (∀ nl sz, name_fits (base_header ino mtime e nl sz)) as Hnf by (intros; exact Hn).
  unfold pack_entry, entry_ready in *.
  destruct (e_info e) as [|[t|err|]|size sm [f|err|]]; cbn [wrap_err ebind prog_bind]; try done;
    apply succeeds_wrapping, succeeds_WriteCPIOEntry; try done; cbn [delivers FileSize base_header].
  - by rewrite wrap_u_id by exact Hs.
  - destruct Hr, Hs. by rewrite wrap_u_id by done.
Qed.

Lemma members_length ino mtime es : length (members ino mtime es) = length es.
Proof. revert ino. induction es as [|e es IH]; intros ino; [done|]. cbn [members length]. by rewrite IH. Qed.

(** Whenever packing succeeds, the bytes written are the members of the sorted entries and
    the trailer. *)
Lemma wp_Pack rootDir ws mtime s :
  Forall (related rootDir) ws →
  let es := omap (entry_of rootDir) ws in
  Forall entry_fits es → (Z.of_nat (length es) + 1 < 2 ^ 32)%Z →
  wp wire (PackCPIOInitramfs rootDir (Ok ws) mtime) (λ r s', r = Ok tt →
    s' = s +:+ archive_bytes (members 1 (mtime_sec mtime) (sort_entries es)) +:+ member_bytes trailer_header "" ∧
    Forall member_ok (members 1 (mtime_sec mtime) (sort_entries es))) s.
Proof.
  intros Hws es Hes Hlen. unfold PackCPIOInitramfs. cbn [mbind outcome_bind].
  rewrite visit_fold by done. cbn [app wrap_err ebind prog_bind]. fold es.
  assert (sort_entries es ≡ₚ es) as Hperm by apply merge_sort_Permutation.
  assert (u32 (mtime_sec mtime)) as Hm.
  { unfold mtime_sec. destruct (_ =? _)%Z; [done|]. apply Z.mod_pos_bound. lia. }
  apply wp_ebind. eapply wp_mono; [|apply wp_pack_entries; [lia|by rewrite Hperm; lia|done|by rewrite Hperm]].
  cbn beta. intros [[]|e|] s1 H1; [|done..]. destruct (H1 eq_refl) as [-> Hok]. clear H1.
  apply wp_wrapping. eapply wp_mono; [|by apply wp_WriteCPIOEntry; [apply trailer_ok|]]. cbn beta.
  intros r s2 H2 Hr%wrap_err_ok. destruct (H2 Hr) as [-> _]. cbn [body_of]. by rewrite str_app_assoc.
Qed.

(** ** Theorems *)

(** C14: the archive says what the tree holds.  Packing succeeds when no write fails
    and every file still delivers the size it was listed with; and whenever it
    succeeds, the bytes written are a sequence of aligned members that a newc reader reads back as exactly the
    entries of the walk in path order, numbered from one, with their types, normalised
    modes, sizes and contents, owned by root, up to the trailer and nothing after. *)
Theorem archive_readable rootDir ws mtime s :
  Forall (related rootDir) ws →
  let es := omap (entry_of rootDir) ws in
  Forall entry_fits es → (Z.of_nat (length es) + 1 < 2 ^ 32)%Z →
  (Forall entry_ready es → wp reliable (PackCPIOInitramfs rootDir (Ok ws) mtime) (λ r _, r = Ok tt) s) ∧
  wp wire (PackCPIOInitramfs rootDir (Ok ws) mtime) (λ r s', r = Ok tt →
    ∃ bytes, s' = s +:+ bytes ∧ (Z.of_nat (String.length bytes) mod 4 = 0)%Z ∧
      parse_archive (S (length es)) bytes = Some (members 1 (mtime_sec mtime) (sort_entries es), "")) s.
Proof.
  intros Hws es Hes Hlen. assert (sort_entries es ≡ₚ es) as Hperm by apply merge_sort_Permutation. split.
  - intros Hr. unfold PackCPIOInitramfs. cbn [mbind outcome_bind].
    rewrite visit_fold by done. cbn [app wrap_err ebind prog_bind]. fold es. apply succeeds_ebind.
    + by apply succeeds_pack_entries; rewrite Hperm.
    + apply succeeds_wrapping, succeeds_WriteCPIOEntry; [apply trailer_ok|done].
  - eapply wp_mono; [|by apply wp_Pack]. fold es. cbn beta. intros r s' H Hr.
    destruct (H Hr) as [-> Hok]. eexists. split_and!; [done|..].
    + rewrite str_length_app, Nat2Z.inj_add, Z.add_mod, archive_aligned by done. by rewrite member_aligned.
    + rewrite <-(str_app_nil_r (member_bytes trailer_header "")).
      replace (length es) with (length (members 1 (mtime_sec mtime) (sort_entries es))).
      * by apply parse_archive_bytes.
      * by rewrite members_length, Hperm.
Qed.

(** Packing is reproducible: the bytes do not depend on the order in which the
    directory tree is listed. *)
Theorem pack_order_independent rootDir ws ws' mtime :
  Forall (related rootDir) ws → NoDup (relPath <$> omap (entry_of rootDir) ws) → ws ≡ₚ ws' →
  PackCPIOInitramfs rootDir (Ok ws) mtime = PackCPIOInitramfs rootDir (Ok ws') mtime.
Proof.
  intros Hws Hnd Hp. unfold PackCPIOInitramfs. cbn [mbind outcome_bind].
  rewrite !visit_fold by (done || by rewrite <-Hp). cbn [app wrap_err ebind prog_bind].
  rewrite (sort_entries_perm _ (omap (entry_of rootDir) ws')); [done..|]. by rewrite Hp.
Qed.

(** Sizes are kept modulo 2^32 and the check of the size wraps with them: a file
    whose size is a positive multiple of 4 GiB is packed as an empty file, its content
    is not written, and no error is reported. *)
Theorem huge_file_packed_empty ino mtime e k sysMode f :
  e_info e = NFile (k * 2 ^ 32) sysMode (Ok f) →
  pack_entry ino mtime e =
    wrapping ("failed writing file " +:+ relPath e +:+ " to cpio: ")
      (WriteCPIOEntry (base_header ino mtime e 1 0) (Some {| content := ""; read_err := None |})).
Proof.
  intros He. unfold pack_entry. rewrite He. cbn [wrap_err ebind prog_bind].
  assert (wrap_u 32 (k * 2 ^ 32) = 0%Z) as -> by (unfold wrap_u; apply Z.mod_mul; lia). done.
Qed.

(** ** Witnesses *)

Definition sample_walk : list walk_entry := [
  {| fullPath := "/r"; info := NDir |};
  {| fullPath := "/r/sh"; info := NLinkTo (Ok "bin/busybox") |};
  {| fullPath := "/r/bin"; info := NDir |};
  {| fullPath := "/r/bin/busybox"; info := NFile 5 0x1ED (Ok {| content := "bytes"; read_err := None |}) |}].

Lemma sample_entries :
  omap (entry_of "/r") sample_walk = ltac:(let x := eval vm_compute in (omap (entry_of "/r") sample_walk) in exact x).
Proof. by vm_compute. Qed.

Lemma sample_walk_ok :
  Forall (related "/r") sample_walk ∧ Forall entry_fits (omap (entry_of "/r") sample_walk) ∧
  NoDup (relPath <$> omap (entry_of "/r") sample_walk).
Proof.
  split_and!; [repeat constructor| |apply (bool_decide_unpack _); by vm_compute].
  rewrite sample_entries.
  repeat constructor; cbn; try lia; try done; split; lia.
Qed.

Lemma archive_readable_witness :
  wp reliable (PackCPIOInitramfs "/r" (Ok sample_walk) zero_time) (λ r _, r = Ok tt) "" ∧
  wp wire (PackCPIOInitramfs "/r" (Ok sample_walk) zero_time) (λ r s', r = Ok tt →
    ∃ bytes, s' = "" +:+ bytes ∧ (Z.of_nat (String.length bytes) mod 4 = 0)%Z ∧
      parse_archive (S (length (omap (entry_of "/r") sample_walk))) bytes =
        Some (members 1 (mtime_sec zero_time) (sort_entries (omap (entry_of "/r") sample_walk)), "")) "".
Proof.
  destruct (archive_readable "/r" sample_walk zero_time "") as [H1 H2];
    [apply sample_walk_ok|apply sample_walk_ok|by vm_compute|].
  split; [apply H1|exact H2]. rewrite sample_entries. repeat constructor.
Defined.

Lemma pack_order_independent_witness :
  PackCPIOInitramfs "/r" (Ok sample_walk) 0 = PackCPIOInitramfs "/r" (Ok (rev sample_walk)) 0.
Proof.
  apply (pack_order_independent "/r"); [apply sample_walk_ok..|].
  apply Permutation_rev.
Defined.

Lemma huge_file_packed_empty_witness :
  pack_entry 1 0 {| relPath := "disk.img"; e_full := "/r/disk.img";
                    e_info := NFile (2 * 2 ^ 32) 0x1A4 (Ok {| content := "..."; read_err := None |}) |} =
  wrapping "failed writing file disk.img to cpio: "
    (WriteCPIOEntry
       (base_header 1 0 {| relPath := "disk.img"; e_full := "/r/disk.img";
          e_info := NFile (2 * 2 ^ 32) 0x1A4 (Ok {| content := "..."; read_err := None |}) |} 1 0)
       (Some {| content := ""; read_err := None |})).
Proof.
  apply (huge_file_packed_empty 1 0 {| relPath := "disk.img"; e_full := "/r/disk.img";
    e_info := NFile (2 * 2 ^ 32) 0x1A4 (Ok {| content := "..."; read_err := None |}) |} 2 0x1A4
    {| content := "..."; read_err := None |}). reflexivity.
Defined.
