(* ===== verification/Qmp.v ===== *)
(** * The hypervisor's monitor ([internal/qmp/client.go])

    The client of the QEMU Monitor Protocol: one JSON message per line, replies
    interleaved with asynchronous events.  A [Client] holds the lines it has not read;
    [encoding/json] is a codec. *)

From Stdlib Require Import Ascii.
From S2P Require Import Prelude GoStrings GoStrconv Prog Protocol.

(** ** Messages *)

(** A decoded JSON value; a number is kept as the text [fmt] prints for it, an object
    in the order of its keys. *)
Inductive json :=
| JNull
| JBool (b : bool)
| JNum (shown : string)
| JStr (s : string)
| JArr (l : list json)
| JObj (l : list (string * json)).

(** [fmt.Sprintf("%v", v)] *)
Fixpoint show_v (v : json) : string :=
  match v with
  | JNull => "<nil>"
  | JBool b => if b then "true" else "false"
  | JNum s | JStr s => s
  | JArr l => "[" +:+ str_join " " (map show_v l) +:+ "]"
  | JObj l => "map[" +:+ str_join " " (map (λ kv, kv.1 +:+ ":" +:+ show_v kv.2) l) +:+ "]"
  end.

Record QMPError := { Class_ : string; Desc : string }.
Definition QMPError_Error (e : QMPError) : string :=
  "QMP Error [" +:+ Class_ e +:+ "]: " +:+ Desc e.

(** [Return] is [JNull] when the field is missing or null. *)
Record qmpResponse := { Return : json; RespError : option QMPError; Event : string }.

Record VMStatus := { Running : bool; Singlestep : bool; Status : string }.

Record SnapshotInfo := {
  SnapID : string; Tag : string; VMSize : string; Date : string; VMClock : string }.

Class QmpCodec := {
  (** a [qmpCommand] with its arguments *)
  marshal_command : string → list (string * string) → string + string;
  (** the error of decoding a greeting, if any *)
  unmarshal_greeting : string → option string;
  unmarshal_response : string → qmpResponse + string;
  marshal_value : json → string + string;
  unmarshal_status : string → VMStatus + string
}.

(** ** The connection *)

Record Client := { lines : list string; conn_err : string; closed : bool }.

Definition end_error (e : stream_end) : string :=
  match e with EOF => ErrEOF | Broken err => err end.

Definition newline : string := String "010" "".

(** The lines [ReadString('\n')] will return from a stream, and the error after them;
    what follows the last newline is never returned. *)
Definition NewReader (r : reader) : Client := {|
  lines := map (λ l, l +:+ newline) (removelast (str_split "010" (str_concat (chunks r))));
  conn_err := end_error (stream_ends r); closed := false |}.

Definition with_lines (c : Client) (ls : list string) : Client :=
  {| lines := ls; conn_err := conn_err c; closed := closed c |}.

Inductive qmp_ev : Type → Type :=
| NetDial (network addr : string) (timeout : Z) : qmp_ev (reader + string)
| NetWrite (data : string) : qmp_ev (option string)
| NetClose : qmp_ev (option string)
| StatPath (path : string) : qmp_ev (option string).

(** ** Reading *)

Definition event_key : string := dq +:+ "event" +:+ dq +:+ ":".
Definition return_key : string := dq +:+ "return" +:+ dq +:+ ":".
Definition error_key : string := dq +:+ "error" +:+ dq +:+ ":".

(** The textual test for asynchronous events. *)
Definition looks_like_event (line : string) : bool :=
  str_contains line event_key && negb (str_contains line return_key) &&
  negb (str_contains line error_key).

Fixpoint read_line (ls : list string) (err : string) : outcome string * list string :=
  match ls with
  | [] => (Err err, [])
  | l :: ls =>
      let line := trim_space l in
      if decide (line = "") then read_line ls err
      else if looks_like_event line then read_line ls err
      else (Ok line, ls)
  end.

Definition readLine (c : Client) : outcome string * Client :=
  let '(r, ls) := read_line (lines c) (conn_err c) in (r, with_lines c ls).

(** A decoded event: nothing returned and no error. *)
Definition is_event (r : qmpResponse) : bool :=
  negb (bool_decide (Event r = "")) &&
  (match Return r with JNull => true | _ => false end) &&
  (match RespError r with None => true | _ => false end).

Section client.
Context {UT : UnicodeTables} {Q : QmpCodec}.

Definition reply_of (r : qmpResponse) : outcome json :=
  match RespError r with
  | Some e => Err (QMPError_Error e)
  | None => Ok (Return r)
  end.

(** The loop of [Execute]; [fuel] bounds the lines it may read. *)
Fixpoint await_reply (fuel : nat) (c : Client) : outcome json * Client :=
  match fuel with
  | O => (Err "", c)
  | S fuel =>
      let '(line, c) := readLine c in
      match wrap_err "failed reading QMP command response: " line with
      | Ok line =>
          match unmarshal_response line with
          | inr e => (Err ("failed unmarshaling QMP response line " +:+ quote line +:+ ": " +:+ e), c)
          | inl resp => if is_event resp then await_reply fuel c else (reply_of resp, c)
          end
      | Err e => (Err e, c)
      | Panic => (Panic, c)
      end
  end.

Definition Execute (c : Client) (cmd : string) (args : list (string * string))
    : prog qmp_ev (outcome json * Client) :=
  if closed c then Ret (Err "qmp client is closed", c)
  else
    match marshal_command cmd args with
    | inr e => Ret (Err ("failed marshaling QMP command " +:+ cmd +:+ ": " +:+ e), c)
    | inl payload =>
        Vis (NetWrite (payload +:+ newline)) (λ r,
          Ret match r with
              | Some e => (Err ("failed writing to QMP socket: " +:+ e), c)
              | None => await_reply (S (length (lines c))) c
              end)
    end.

(** ** Connecting *)

Definition parseTarget (target : string) : string * string :=
  if has_prefix target "unix://" then ("unix", trim_prefix target "unix://")
  else if has_prefix target "tcp://" then ("tcp", trim_prefix target "tcp://")
  else if has_prefix target "/" || has_prefix target "./" then ("unix", target)
  else ("unix", target).

(** Go on with the value and the client, or return the error. *)
Definition andThen {A B} (m : prog qmp_ev (outcome A * Client))
    (f : A → Client → prog qmp_ev (outcome B * Client)) : prog qmp_ev (outcome B * Client) :=
  prog_bind (λ r, match r.1 with
                  | Ok a => f a r.2
                  | Err e => Ret (Err e, r.2)
                  | Panic => Ret (Panic, r.2)
                  end) m.
Definition wrapC {A} (pre : string) (m : prog qmp_ev (outcome A * Client)) : prog qmp_ev (outcome A * Client) :=
  prog_bind (λ r, Ret (wrap_err pre r.1, r.2)) m.

Definition handshake (c : Client) : prog qmp_ev (outcome unit * Client) :=
  let '(line, c) := readLine c in
  match wrap_err "failed reading QMP greeting: " line with
  | Err e => Ret (Err e, c)
  | Panic => Ret (Panic, c)
  | Ok line =>
      match unmarshal_greeting line with
      | Some e => Ret (Err ("invalid QMP greeting banner payload: " +:+ e), c)
      | None =>
          andThen (wrapC "qmp_capabilities failed: " (Execute c "qmp_capabilities" []))
            (λ _ c, Ret (Ok tt, c))
      end
  end.

Definition DialTimeout (target : string) (timeout : Z) : prog qmp_ev (outcome Client) :=
  let '(network, addr) := parseTarget target in
  Vis (NetDial network addr timeout) (λ conn,
    match conn with
    | inr e => Ret (Err ("failed connecting to QMP socket " +:+ target +:+ " (" +:+ network +:+ "): " +:+ e))
    | inl r =>
        prog_bind (λ rc,
          match rc.1 with
          | Ok _ => Ret (Ok rc.2)
          | Err e => Vis NetClose (λ _, Ret (Err ("QMP capability handshake failed: " +:+ e)))
          | Panic => Ret Panic
          end) (handshake (NewReader r))
    end).

(** Durations are in milliseconds. *)
Definition Dial (target : string) : prog qmp_ev (outcome Client) := DialTimeout target 5000.

Definition DialConn (conn : reader) : prog qmp_ev (outcome Client) :=
  prog_bind (λ rc, Ret (wrap_err "QMP capability handshake failed: " (_ ← rc.1; Ok rc.2)))
    (handshake (NewReader conn)).

Definition Close (c : Client) : prog qmp_ev (outcome unit * Client) :=
  if closed c then Ret (Ok tt, c)
  else
    let c := {| lines := lines c; conn_err := conn_err c; closed := true |} in
    Vis NetClose (λ r, Ret (match r with Some e => Err e | None => Ok tt end, c)).

Definition IsQMPSocketAvailable (socketPath : string) : prog qmp_ev bool :=
  let '(network, addr) := parseTarget socketPath in
  let dial :=
    Vis (NetDial network addr 500) (λ conn,
      match conn with
      | inr _ => Ret false
      | inl _ => Vis NetClose (λ _, Ret true)
      end) in
  if decide (network = "unix") then
    Vis (StatPath addr) (λ r, match r with Some _ => Ret false | None => dial end)
  else dial.

(** ** Commands *)

Definition Stop (c : Client) : prog qmp_ev (outcome unit * Client) :=
  andThen (Execute c "stop" []) (λ _ c, Ret (Ok tt, c)).

Definition Cont (c : Client) : prog qmp_ev (outcome unit * Client) :=
  andThen (Execute c "cont" []) (λ _ c, Ret (Ok tt, c)).

Definition QueryStatus (c : Client) : prog qmp_ev (outcome VMStatus * Client) :=
  andThen (Execute c "query-status" []) (λ res c,
    Ret (match marshal_value res with
         | inr e => Err e
         | inl raw =>
             match unmarshal_status raw with
             | inr e => Err ("failed parsing query-status response: " +:+ e)
             | inl status => Ok status
             end
         end, c)).

Definition HumanMonitorCommand (c : Client) (commandLine : string) : prog qmp_ev (outcome string * Client) :=
  andThen (Execute c "human-monitor-command" [("command-line", commandLine)])
    (λ res c, Ret (Ok match res with JStr s => s | _ => show_v res end, c)).

Definition empty_tag : string := "snapshot tag name cannot be empty".

Definition SaveVM (c : Client) (name : string) : prog qmp_ev (outcome string * Client) :=
  if decide (name = "") then Ret (Err empty_tag, c)
  else HumanMonitorCommand c ("savevm " +:+ name).
Definition LoadVM (c : Client) (name : string) : prog qmp_ev (outcome string * Client) :=
  if decide (name = "") then Ret (Err empty_tag, c)
  else HumanMonitorCommand c ("loadvm " +:+ name).
Definition DelVM (c : Client) (name : string) : prog qmp_ev (outcome string * Client) :=
  if decide (name = "") then Ret (Err empty_tag, c)
  else HumanMonitorCommand c ("delvm " +:+ name).

(** ** The list of snapshots *)

Definition is_table_header (trimmed : string) : bool :=
  has_prefix trimmed "ID" && str_contains trimmed "TAG" && str_contains trimmed "VM SIZE".

(** One row of the table. *)
Definition snapshot_of (fs : list string) : option SnapshotInfo :=
  match fs with
  | f0 :: f1 :: f2 :: f3 :: f4 :: more =>
      Some match more with
           | [] => {| SnapID := f0; Tag := f1; VMSize := f2; Date := f3; VMClock := f4 |}
           | f5 :: _ => {| SnapID := f0; Tag := f1; VMSize := f2; Date := f3 +:+ " " +:+ f4; VMClock := f5 |}
           end
  | _ => None
  end.

Definition list_line (st : bool * list SnapshotInfo) (line : string) : bool * list SnapshotInfo :=
  let '(inTable, snapshots) := st in
  let trimmed := trim_space line in
  if decide (trimmed = "") then st
  else if is_table_header trimmed then (true, snapshots)
  else if negb inTable then st
  else match snapshot_of (fields trimmed) with
       | Some sn => (inTable, snapshots ++ [sn])
       | None => st
       end.

Definition ParseSnapshotList (output : string) : list SnapshotInfo :=
  (foldl list_line (false, []) (str_split "010" output)).2.

Definition ListSnapshots (c : Client) : prog qmp_ev (outcome (list SnapshotInfo) * Client) :=
  andThen (HumanMonitorCommand c "info snapshots") (λ output c, Ret (Ok (ParseSnapshotList output), c)).
End client.

(** * Properties *)

(** ** One reply *)

Section replies.
Context {UT : UnicodeTables} {Q : QmpCodec}.

(** A line that is no reply: blank, or an event by its text or by its content. *)
Definition noise (l : string) : bool :=
  let line := trim_space l in
  bool_decide (line = "") || looks_like_event line ||
  match unmarshal_response line with inl r => is_event r | inr _ => false end.

Fixpoint drop_noise (ls : list string) : list string :=
  match ls with
  | l :: ls' => if noise l then drop_noise ls' else ls
  | [] => []
  end.

(** What the first line that is no noise says. *)
Definition decode_reply (l : string) : outcome json :=
  let line := trim_space l in
  match unmarshal_response line with
  | inr e => Err ("failed unmarshaling QMP response line " +:+ quote line +:+ ": " +:+ e)
  | inl r => reply_of r
  end.

Definition first_reply (c : Client) : outcome json * Client :=
  match drop_noise (lines c) with
  | [] => (Err ("failed reading QMP command response: " +:+ conn_err c), with_lines c [])
  | l :: ls => (decode_reply l, with_lines c ls)
  end.

Lemma noise_skipped l : trim_space l = "" ∨ looks_like_event (trim_space l) = true → noise l = true.
Proof.
  unfold noise. intros [H|H]; [by rewrite bool_decide_true|]. rewrite H. by rewrite orb_true_r.
Qed.

Lemma drop_noise_cons l ls : drop_noise (l :: ls) = if noise l then drop_noise ls else l :: ls.
Proof. done. Qed.

(** [read_line] stops at a line that may be a reply. *)
Lemma read_line_spec ls err :
  match read_line ls err with
  | (Ok line, ls') => ∃ l, drop_noise ls = drop_noise (l :: ls') ∧ line = trim_space l ∧
      line ≠ "" ∧ looks_like_event line = false ∧ (length ls' < length ls)%nat
  | (r, ls') => r = Err err ∧ ls' = [] ∧ drop_noise ls = []
  end.
Proof.
  induction ls as [|l ls IH]; [done|]. cbn [read_line length].
  assert (noise l = true → match read_line ls err with
    | (Ok line, ls') => ∃ l', drop_noise (l :: ls) = drop_noise (l' :: ls') ∧ line = trim_space l' ∧
        line ≠ "" ∧ looks_like_event line = false ∧ (length ls' < S (length ls))%nat
    | (r, ls') => r = Err err ∧ ls' = [] ∧ drop_noise (l :: ls) = []
    end) as Hskip.
  { intros Hn. rewrite drop_noise_cons, Hn. destruct (read_line ls err) as [[line|e|] ls']; [|done..].
    destruct IH as (l' & H1 & H2 & H3 & H4 & H5). exists l'. split_and!; [done..|lia]. }
  destruct (decide (trim_space l = "")) as [He|He]; [by apply Hskip, noise_skipped; left|].
  destruct (looks_like_event (trim_space l)) eqn:Hl; [by apply Hskip, noise_skipped; right|].
  exists l. split_and!; [done..|lia].
Qed.

Lemma await_reply_spec fuel c : (length (lines c) < fuel)%nat → await_reply fuel c = first_reply c.
Proof.
  revert c. induction fuel as [|fuel IH]; intros c Hf; [lia|]. cbn [await_reply]. unfold readLine, first_reply.
  pose proof (read_line_spec (lines c) (conn_err c)) as H.
  destruct (read_line (lines c) (conn_err c)) as [[line|e|] ls'].
  - destruct H as (l & H1 & -> & H3 & H4 & H5). cbn [wrap_err]. rewrite H1. cbn [drop_noise].
    unfold noise, decode_reply. rewrite bool_decide_false, H4 by done. cbn [orb].
    destruct (unmarshal_response (trim_space l)) as [r|e] eqn:Hu; [|by rewrite ?Hu].
    destruct (is_event r); [|by rewrite ?Hu]. rewrite IH by (cbn; lia). done.
  - destruct H as (He & -> & ->). by simplify_eq.
  - by destruct H.
Qed.

Lemma drop_noise_app ns ls : Forall (λ l, noise l = true) ns → drop_noise (ns ++ ls) = drop_noise ls.
Proof. induction 1 as [|n ns Hn Hns IH]; [done|]. cbn [app drop_noise]. by rewrite Hn. Qed.
End replies.

(** ** A session *)

Section session.
Context {UT : UnicodeTables} {Q : QmpCodec}.

(** Commands one after the other on one client, with all their results. *)
Fixpoint session (c : Client) (cmds : list (string * list (string * string)))
    : prog qmp_ev (list (outcome json) * Client) :=
  match cmds with
  | [] => Ret ([], c)
  | (cmd, args) :: cmds =>
      prog_bind (λ rc, prog_bind (λ rs, Ret (rc.1 :: rs.1, rs.2)) (session rc.2 cmds)) (Execute c cmd args)
  end.

(** A connection on which every write succeeds; the state is what was sent. *)
Definition sending : handler qmp_ev string := λ X e sent,
  match e in qmp_ev Y return Y * string with
  | NetDial _ _ _ => (inr "", sent)
  | NetWrite data => (None, sent +:+ data)
  | NetClose => (None, sent)
  | StatPath _ => (None, sent)
  end.

(** What the monitor says to one command: events, then a reply. *)
Record exchange := { events : list string; reply : string }.

(** The messages of the protocol: an event says which and carries no result; a reply
    shows its result or its error, and is no event. *)
Definition event_msg (l : string) : Prop :=
  trim_space l = "" ∨
  ∃ r, unmarshal_response (trim_space l) = inl r ∧ Event r ≠ "" ∧ Return r = JNull ∧ RespError r = None.
Definition reply_msg (l : string) : Prop :=
  trim_space l ≠ "" ∧
  (str_contains (trim_space l) return_key = true ∨ str_contains (trim_space l) error_key = true) ∧
  ∀ r, unmarshal_response (trim_space l) = inl r → Event r = "".

Lemma event_noise l : event_msg l → noise l = true.
Proof.
  intros [H|(r & Hu & He & Hr & Hn)]; [by apply noise_skipped; left|]. unfold noise. rewrite Hu.
  unfold is_event. rewrite Hr, Hn, (bool_decide_false (Event r = "")) by done. cbn. by rewrite orb_true_r.
Qed.

Lemma reply_no_noise l : reply_msg l → noise l = false.
Proof.
  intros (Hne & Hk & Hu). unfold noise, looks_like_event. rewrite bool_decide_false by done.
  destruct (unmarshal_response (trim_space l)) as [r|e].
  - unfold is_event. rewrite (Hu r), bool_decide_true by done. cbn [negb andb]. rewrite orb_false_r.
    destruct Hk as [-> | ->]; cbn [negb]; by rewrite ?andb_false_r.
  - rewrite orb_false_r. destruct Hk as [-> | ->]; cbn [negb]; by rewrite ?andb_false_r.
Qed.

Definition exchange_ok (x : exchange) : Prop := Forall event_msg (events x) ∧ reply_msg (reply x).
Definition exchange_lines (x : exchange) : list string := events x ++ [reply x].

Lemma first_reply_exchange c x rest :
  exchange_ok x → lines c = exchange_lines x ++ rest →
  first_reply c = (decode_reply (reply x), with_lines c rest).
Proof.
  intros [He Hr] Hl. unfold first_reply. rewrite Hl. unfold exchange_lines.
  rewrite <-app_assoc, drop_noise_app by (eapply Forall_impl; [exact He|apply event_noise]).
  cbn [app drop_noise]. by rewrite reply_no_noise.
Qed.

(** One command at a time, as an equation. *)
Lemma Execute_eq c cmd args payload :
  closed c = false → marshal_command cmd args = inl payload →
  Execute c cmd args = Vis (NetWrite (payload +:+ newline)) (λ r,
    Ret match r with
        | Some e => (Err ("failed writing to QMP socket: " +:+ e), c)
        | None => await_reply (S (length (lines c))) c
        end).
Proof. intros Hc Hm. unfold Execute. by rewrite Hc, Hm. Qed.

Lemma session_run c cmds payloads script rest sent :
  closed c = false →
  Forall2 (λ ca p, marshal_command ca.1 ca.2 = inl p) cmds payloads →
  Forall exchange_ok script → length script = length cmds →
  lines c = mjoin (exchange_lines <$> script) ++ rest →
  exec sending (session c cmds) sent =
    ((decode_reply ∘ reply <$> script, with_lines c rest),
     sent +:+ str_concat ((λ p, p +:+ newline) <$> payloads)).
Proof.
  intros Hc Hp. revert c script sent Hc.
  induction Hp as [|[cmd args] p cmds payloads Hm Hp IH]; intros c script sent Hc Hs Hlen Hl.
  - destruct script; [|done]. cbn in Hl. cbn. rewrite str_app_nil_r. by destruct c; cbn in *; subst.
  - destruct script as [|x script]; [done|]. inversion_clear Hs as [|? ? Hx Hs']. cbn [session].
    rewrite exec_bind, (Execute_eq _ _ _ p) by done. cbn [exec sending].
    rewrite await_reply_spec by lia. cbn [fmap list_fmap mjoin list_join] in Hl.
    rewrite <-app_assoc in Hl. rewrite (first_reply_exchange c x _ Hx Hl). cbn [fst snd].
    rewrite exec_bind. rewrite (IH (with_lines c _) script); [|done..|by injection Hlen|done].
    cbn. by rewrite str_app_assoc.
Qed.

(** C23: replies are never mistaken for events nor for each other: however the monitor
    interleaves events and blank lines with its replies, the i-th command of a session
    is sent in order and gets exactly what the i-th reply says, and what follows the
    last reply is left unread. *)
Theorem session_in_order c cmds payloads script rest :
  closed c = false →
  Forall2 (λ ca p, marshal_command ca.1 ca.2 = inl p) cmds payloads →
  Forall exchange_ok script → length script = length cmds →
  lines c = mjoin (exchange_lines <$> script) ++ rest →
  exec sending (session c cmds) "" =
    ((decode_reply ∘ reply <$> script, with_lines c rest), str_concat ((λ p, p +:+ newline) <$> payloads)).
Proof. apply session_run. Qed.
End session.

(** ** Tables *)

Definition word (w : string) : bool := str_forall ascii_ns w && negb (bool_decide (w = "")).

(** A row: words separated by at least one blank each. *)
Fixpoint row (w : string) (ws : list (nat * string)) : string :=
  match ws with
  | [] => w
  | (n, w') :: ws => w +:+ String " " (str_repeat n " ") +:+ row w' ws
  end.

Definition row_ok (w : string) (ws : list (nat * string)) : Prop :=
  word w = true ∧ Forall (λ nw, word nw.2 = true) ws.

Lemma word_split w : word w = true → str_forall ascii_ns w = true ∧ w ≠ "".
Proof.
  unfold word. rewrite andb_true_iff, negb_true_iff. intros [H1 H2]. split; [done|].
  by apply bool_decide_eq_false in H2.
Qed.

Lemma word_trimmed w : word w = true → trimmed w = true.
Proof.
  intros [Hw Hne]%word_split. destruct w as [|a w]; [done|]. unfold trimmed.
  assert (str_forall ascii_ns (String.rev (String a w)) = true) as Hr by by rewrite str_forall_rev.
  apply andb_true_iff in Hw as [Ha _]. rewrite Ha. destruct (String.rev (String a w)) as [|b r]; [done|].
  by apply andb_true_iff in Hr as [-> _].
Qed.

Lemma blanks n : str_forall space1 (str_repeat n " ") = true.
Proof. by induction n. Qed.

Lemma row_head w ws : row_ok w ws → ∃ a s, row w ws = String a s ∧ trimmed (row w ws) = true.
Proof.
  intros [Hw Hws]. revert w Hw. induction Hws as [|[n w'] ws Hw' Hws IH]; intros w Hw; cbn [row].
  - pose proof (word_trimmed w Hw). apply word_split in Hw as [_ Hne]. destruct w as [|a w]; [done|].
    by exists a, w.
  - destruct (IH w' Hw') as (b & t & Hr & Ht). rewrite Hr in *.
    pose proof (word_split w Hw) as [Hf Hne]. destruct w as [|a w]; [done|].
    exists a, (w +:+ String " " (str_repeat n " ") +:+ String b t). split; [done|].
    apply trimmed_app_ends; [|done]. by apply andb_true_iff in Hf as [? _].
Qed.

Lemma fields_row w ws : row_ok w ws → fields (row w ws) = w :: (snd <$> ws).
Proof.
  intros [Hw Hws]. revert w Hw. induction Hws as [|[n w'] ws Hw' Hws IH]; intros w Hw; cbn [row].
  - apply word_split in Hw as []. by apply fields_last.
  - pose proof (word_split w Hw) as []. rewrite str_app_cons, fields_word by done. rewrite fields_blank by apply blanks.
    by rewrite IH.
Qed.

Lemma word_free w : word w = true → str_free "010" w = true.
Proof.
  intros [Hw _]%word_split. eapply str_forall_impl; [|exact Hw].
  intros a. by destruct a as [[] [] [] [] [] [] [] []].
Qed.

Lemma blanks_free n : str_free "010" (str_repeat n " ") = true.
Proof. by induction n. Qed.

Lemma row_free w ws : row_ok w ws → str_free "010" (row w ws) = true.
Proof.
  intros [Hw Hws]. revert w Hw. induction Hws as [|[n w'] ws Hw' _ IH]; intros w Hw; cbn [row]; [by apply word_free|].
  change (String " " ?s) with (" " +:+ s). rewrite !str_forall_app, word_free, blanks_free, IH by done. done.
Qed.

Lemma contains_mid a sub b : str_contains (a +:+ sub +:+ b) sub = true.
Proof.
  unfold str_contains. apply bool_decide_true. induction a as [|c a IH].
  - rewrite str_app_nil_l. exists 0. destruct (sub +:+ b) eqn:E; cbn [str_index]; rewrite <-E; by rewrite has_prefix_app.
  - rewrite str_app_cons. cbn [str_index]. destruct (has_prefix _ sub); [by eexists|]. destruct IH as [n ->]. by eexists.
Qed.

Lemma contains_after a t sub : str_contains t sub = true → str_contains (a +:+ t) sub = true.
Proof.
  unfold str_contains. rewrite !bool_decide_eq_true. intros H. induction a as [|c a IH]; [by rewrite str_app_nil_l|].
  rewrite str_app_cons. cbn [str_index]. destruct (has_prefix _ sub); [by eexists|]. destruct IH as [n ->]. by eexists.
Qed.

Lemma contains_row w n w' ws sub : str_contains (row w' ws) sub = true → str_contains (row w ((n, w') :: ws)) sub = true.
Proof. intros H. cbn [row]. by do 2 apply contains_after. Qed.

(** What one row of the table tells. *)
Definition row_info (r : string * list (nat * string)) : option SnapshotInfo :=
  snapshot_of (r.1 :: (snd <$> r.2)).

Definition data_row (r : string * list (nat * string)) : Prop :=
  row_ok r.1 r.2 ∧ has_prefix r.1 "ID" = false ∧ str_free "010" (row r.1 r.2) = true.

Lemma row_not_header w ws : row_ok w ws → has_prefix w "ID" = false → is_table_header (row w ws) = false.
Proof.
  intros [Hw _] Hid. unfold is_table_header.
  enough (has_prefix (row w ws) "ID" = false) as -> by done.
  destruct (has_prefix (row w ws) "ID") eqn:Hp; [|done]. exfalso.
  apply has_prefix_true in Hp as [t Ht]. destruct ws as [|[n w'] ws]; cbn [row] in Ht.
  { subst w. by rewrite has_prefix_app in Hid. }
  destruct w as [|a [|b w]]; cbn in Ht; simplify_eq.
Qed.

Lemma list_line_row acc r :
  data_row r → list_line (true, acc) (row r.1 r.2) = (true, acc ++ option_list (row_info r)).
Proof.
  intros (Hr & Hid & _). destruct (row_head _ _ Hr) as (a & s & Hh & Ht). unfold list_line.
  rewrite trim_space_trimmed by done. rewrite decide_False by by rewrite Hh.
  rewrite row_not_header by done. cbn [negb]. rewrite fields_row by done. unfold row_info.
  destruct (snapshot_of _); [done|]. by rewrite app_nil_r.
Qed.

Lemma foldl_list_line acc rs :
  Forall data_row rs →
  foldl list_line (true, acc) ((λ r, row r.1 r.2) <$> rs) = (true, acc ++ omap row_info rs).
Proof.
  intros Hrs. revert acc. induction Hrs as [|r rs Hr Hrs IH]; intros acc; [by rewrite app_nil_r|].
  cbn [fmap list_fmap foldl]. rewrite list_line_row, IH by done. cbn [omap list_omap].
  destruct (row_info r); cbn [option_list]; by rewrite <-app_assoc.
Qed.

(** Lines before the table that are no header change nothing. *)
Lemma foldl_preamble pre :
  Forall (λ l, is_table_header (trim_space l) = false) pre → foldl list_line (false, []) pre = (false, []).
Proof.
  induction 1 as [|l pre Hl Hpre IH]; [done|]. cbn [foldl]. unfold list_line at 2. cbn [negb].
  rewrite Hl. destruct (decide _); apply IH.
Qed.

Definition table_header : string := "ID        TAG                 VM SIZE       DATE       VM CLOCK".

Lemma parse_table pre header rs :
  Forall (λ l, is_table_header (trim_space l) = false ∧ str_free "010" l = true) pre →
  is_table_header (trim_space header) = true → str_free "010" header = true → Forall data_row rs →
  ParseSnapshotList (str_join newline (pre ++ header :: ((λ r, row r.1 r.2) <$> rs))) = omap row_info rs.
Proof.
  intros Hpre Hh Hf Hrs. unfold ParseSnapshotList. unfold newline. rewrite str_split_join.
  - rewrite foldl_app, foldl_preamble by (eapply Forall_impl; [exact Hpre|by intros ? []]).
    cbn [foldl]. assert (list_line (false, []) header = (true, @nil SnapshotInfo)) as ->.
    { unfold list_line. rewrite Hh, decide_False; [done|]. intros He. by rewrite He in Hh. }
    by rewrite foldl_list_line.
  - by destruct pre.
  - apply Forall_app. split; [eapply Forall_impl; [exact Hpre|by intros ? []]|].
    constructor; [done|]. apply Forall_fmap. eapply Forall_impl; [exact Hrs|]. by intros r (_ & _ & H).
Qed.

(** The heading of the table, with at least one blank between its columns. *)
Definition heading (g1 g2 g3 g4 : nat) : string :=
  row "ID" [(g1, "TAG"); (g2, "VM"); (0, "SIZE"); (g3, "DATE"); (g4, "VM"); (0, "CLOCK")].

Lemma heading_ok g1 g2 g3 g4 :
  is_table_header (trim_space (heading g1 g2 g3 g4)) = true ∧ str_free "010" (heading g1 g2 g3 g4) = true.
Proof.
  assert (row_ok "ID" [(g1, "TAG"); (g2, "VM"); (0, "SIZE"); (g3, "DATE"); (g4, "VM"); (0, "CLOCK")]) as Hr.
  { split; [done|]. by repeat (apply Forall_cons; split; [done|]). }
  split; [|by apply row_free]. unfold heading. destruct (row_head _ _ Hr) as (a & s & _ & Ht).
  rewrite trim_space_trimmed by done. unfold is_table_header. rewrite !andb_true_iff. split_and!.
  - exact (has_prefix_app "ID" _).
  - apply contains_row. exact (contains_mid "" "TAG" _).
  - do 2 apply contains_row. exact (contains_mid "" "VM SIZE" _).
Qed.

(** *** The rows of the table

    A snapshot with a date and a time, perhaps with more columns; one with the date
    alone; and a line of fewer than five words. *)
Inductive table_row :=
| Dated (id tag size date time clock : string) (more : list string)
| Undated (id tag size date clock : string)
| Fragment (w : string) (ws : list string).

Definition row_words (r : table_row) : string * list string :=
  match r with
  | Dated id tag size date time clock more => (id, tag :: size :: date :: time :: clock :: more)
  | Undated id tag size date clock => (id, [tag; size; date; clock])
  | Fragment w ws => (w, ws)
  end.

(** What the list must say about it. *)
Definition row_listed (r : table_row) : option SnapshotInfo :=
  match r with
  | Dated id tag size date time clock _ =>
      Some {| SnapID := id; Tag := tag; VMSize := size; Date := date +:+ " " +:+ time; VMClock := clock |}
  | Undated id tag size date clock =>
      Some {| SnapID := id; Tag := tag; VMSize := size; Date := date; VMClock := clock |}
  | Fragment _ _ => None
  end.

(** The words are words, the first is not taken for the heading, a fragment is one, and
    there is a gap before each word but the first. *)
Definition row_valid (rg : table_row * list nat) : Prop :=
  let '(w, ws) := row_words rg.1 in
  Forall (λ w, word w = true) (w :: ws) ∧ has_prefix w "ID" = false ∧ length rg.2 = length ws ∧
  match rg.1 with Fragment _ ws => length ws < 4 | _ => True end.

(** The text of a row, [S g] blanks in the place of a gap [g]. *)
Definition row_line (rg : table_row * list nat) : string :=
  row (row_words rg.1).1 (zip rg.2 (row_words rg.1).2).

Lemma row_valid_data rg :
  row_valid rg → data_row ((row_words rg.1).1, zip rg.2 (row_words rg.1).2) ∧
    row_info ((row_words rg.1).1, zip rg.2 (row_words rg.1).2) = row_listed rg.1.
Proof.
  unfold row_valid. destruct (row_words rg.1) as [w ws] eqn:Hw. intros (Hall & Hid & Hlen & Hfrag). cbn [fst snd].
  apply Forall_cons in Hall as [Hw1 Hws].
  assert (row_ok w (zip rg.2 ws)) as Hok.
  { split; [done|]. apply Forall_lookup. intros i nw Hi. destruct nw as [n v].
    apply lookup_zip_with_Some in Hi as (? & ? & [= <- <-] & _ & Hv). cbn. exact (Forall_lookup_1 _ _ _ _ Hws Hv). }
  split; [split_and!; [done..|by apply row_free]|].
  unfold row_info. cbn [fst snd]. rewrite snd_zip by lia.
  destruct (rg.1) as [id tag size date time clock more|id tag size date clock|v vs]; injection Hw as <- <-; [done..|].
  by destruct vs as [|v1 [|v2 [|v3 [|v4 vs]]]]; try done; cbn in Hfrag; lia.
Qed.

(** C24: every row of the table of snapshots is found, in order, whatever precedes the
    table and however wide its columns are, in the heading and in the rows: a row of
    six or more words gives its identifier, tag and size, the two words of its date and
    its clock; one of five words the same with a date of one word; shorter rows are
    left out. *)
Theorem ParseSnapshotList_table pre g1 g2 g3 g4 rs :
  Forall (λ l, is_table_header (trim_space l) = false ∧ str_free "010" l = true) pre → Forall row_valid rs →
  ParseSnapshotList (str_join newline (pre ++ heading g1 g2 g3 g4 :: (row_line <$> rs))) =
    omap (λ rg, row_listed rg.1) rs.
Proof.
  intros Hpre Hrs. destruct (heading_ok g1 g2 g3 g4) as [Hh Hf].
  set (data := (λ rg : table_row * list nat, ((row_words rg.1).1, zip rg.2 (row_words rg.1).2)) <$> rs).
  assert (row_line <$> rs = (λ r, row r.1 r.2) <$> data) as -> by (unfold data; by rewrite <-list_fmap_compose).
  assert (Forall data_row data) as Hdata.
  { unfold data. apply Forall_fmap. eapply Forall_impl; [exact Hrs|]. intros rg Hrg. by apply row_valid_data. }
  rewrite parse_table by done.
  unfold data. clear data Hdata. induction Hrs as [|rg rs Hrg Hrs IH]; [done|]. cbn [fmap list_fmap omap list_omap].
  rewrite (proj2 (row_valid_data rg Hrg)). by rewrite IH.
Qed.

(** ** Witnesses *)

(** A codec that knows the lines the samples use: commands by their names, replies that
    are strings, events. *)
Definition sample_codec : QmpCodec := {|
  marshal_command cmd args := inl (str_join " " (cmd :: (snd <$> args)));
  unmarshal_greeting line := None;
  unmarshal_response line :=
    match strip_prefix ("{" +:+ return_key +:+ " ") line with
    | Some v => inl {| Return := JStr (trim_suffix v "}"); RespError := None; Event := "" |}
    | None =>
        if has_prefix line ("{" +:+ event_key) then inl {| Return := JNull; RespError := None; Event := "STOP" |}
        else inr "invalid character"
    end;
  marshal_value v := inl (show_v v);
  unmarshal_status s := inl {| Running := true; Singlestep := false; Status := s |}
|}.

Definition reply_line (v : string) : string := "{" +:+ return_key +:+ " " +:+ v +:+ "}" +:+ newline.
Definition event_line : string := "{" +:+ event_key +:+ " STOP}" +:+ newline.

Definition sample_script : list exchange :=
  [{| events := [newline; event_line]; reply := reply_line "stopped" |};
   {| events := [event_line]; reply := reply_line "saved" |}].

Ltac sample_event :=
  first [left; by vm_compute|right; eexists; split_and!; by vm_compute].
Ltac sample_reply :=
  split_and!; [by vm_compute|left; by vm_compute|intros ? H; vm_compute in H; by injection H as <-].
Ltac sample_exchange := split; [repeat (constructor; [sample_event|]); constructor|sample_reply].

Lemma session_in_order_witness :
  exec sending
    (@session no_tables sample_codec
       {| lines := mjoin (exchange_lines <$> sample_script) ++ [event_line]; conn_err := ErrEOF; closed := false |}
       [("stop", []); ("human-monitor-command", [("command-line", "savevm a")])]) "" =
  ((@decode_reply no_tables sample_codec ∘ reply <$> sample_script,
    {| lines := [event_line]; conn_err := ErrEOF; closed := false |}),
   str_concat ((λ p, p +:+ newline) <$> ["stop"; "human-monitor-command savevm a"])).
Proof.
  apply (@session_in_order no_tables sample_codec); [done| | |done|done].
  - repeat constructor.
  - repeat (constructor; [sample_exchange|]). constructor.
Defined.

Lemma ParseSnapshotList_table_witness :
  ParseSnapshotList (str_join newline
    (["Snapshot devices: drive0"] ++ heading 7 16 6 7 ::
     (row_line <$> [(Dated "1" "v1.0" "15M" "2026-09-17" "10:00:00" "00:00:05.123" [], [8; 18; 0; 0; 2]);
                    (Undated "2" "v2.0" "16M" "2026-09-18" "00:00:06.456", [0; 0; 0; 0]);
                    (Fragment "total" ["2"], [0])]))) =
  [{| SnapID := "1"; Tag := "v1.0"; VMSize := "15M"; Date := "2026-09-17 10:00:00"; VMClock := "00:00:05.123" |};
   {| SnapID := "2"; Tag := "v2.0"; VMSize := "16M"; Date := "2026-09-18"; VMClock := "00:00:06.456" |}].
Proof.
  rewrite (ParseSnapshotList_table ["Snapshot devices: drive0"] 7 16 6 7
    [(Dated "1" "v1.0" "15M" "2026-09-17" "10:00:00" "00:00:05.123" [], [8; 18; 0; 0; 2]);
     (Undated "2" "v2.0" "16M" "2026-09-18" "00:00:06.456", [0; 0; 0; 0]);
     (Fragment "total" ["2"], [0])]); [reflexivity| |].
  - repeat constructor.
  - repeat constructor.
Defined.
