(* ===== verification/Snapshot.v ===== *)
(** * The snapshot orchestrator ([internal/snapshot/orchestrator.go])

    Saving and restoring a virtual machine with its guest quiesced.  [snap_ev] are the
    calls the orchestrator makes; [carry_out] implements each by the client of [Qmp]
    and by an RPC in the framing of [Protocol]. *)

From S2P Require Import Prelude GoStrings GoStrconv Prog Protocol Server Qmp.

Record SnapshotConfig := { QMPSocketPath : string; VSockTarget : string; PauseVM : bool }.

(** Times are in nanoseconds. *)
Record SnapshotResult := {
  ResTag : string; Quiesced : bool; Output : string; Duration : Z; Timestamp : Z }.

Definition NewOrchestrator (cfg : SnapshotConfig) : SnapshotConfig :=
  {| QMPSocketPath := if decide (QMPSocketPath cfg = "") then "/tmp/qmp.sock" else QMPSocketPath cfg;
     VSockTarget := VSockTarget cfg; PauseVM := PauseVM cfg |}.

(** ** Calls *)

Inductive snap_ev : Type → Type :=
| TimeNow : snap_ev Z
| Printf (text : string) : snap_ev unit
| GuestRPC (command : string) : snap_ev (option string)
| QmpDial : snap_ev (option string)
| QmpStop : snap_ev (option string)
| QmpCont : snap_ev (option string)
| QmpSaveVM (tag : string) : snap_ev (string + string)
| QmpLoadVM (tag : string) : snap_ev (string + string)
| QmpDelVM (tag : string) : snap_ev (string + string)
| QmpList : snap_ev (list SnapshotInfo + string)
| QmpStatus : snap_ev (VMStatus + string)
| QmpClose : snap_ev (option string).

(** Dial, go on with the connection, and close it on every way out. *)
Definition with_qmp {A} (what : string) (cfg : SnapshotConfig) (body : prog snap_ev (outcome A))
    : prog snap_ev (outcome A) :=
  Vis QmpDial (λ r,
    match r with
    | Some e => throw ("failed connecting to QMP " +:+ what +:+ " " +:+ QMPSocketPath cfg +:+ ": " +:+ e)
    | None => prog_bind (λ res, Vis QmpClose (λ _, Ret res)) body
    end).

Section orchestrator.
Context {UT : UnicodeTables}.

Definition no_tag : string := "snapshot tag cannot be empty".

(** Step 1 of [SaveSnapshot]: whether the guest is quiesced. *)
Definition quiesce_guest (cfg : SnapshotConfig) : prog snap_ev bool :=
  if decide (VSockTarget cfg = "") then Ret false
  else
    Vis (GuestRPC "quiesce") (λ r,
      match r with
      | None => Ret true
      | Some err =>
          Vis (Printf ("[snapshot-orchestrator] Notice: guest VSOCK quiesce un-reachable (" +:+ err +:+
                       "). Proceeding with QMP savevm.")) (λ _, Ret false)
      end).

Definition when (b : bool) {X} (e : snap_ev X) : prog snap_ev unit :=
  if b then Vis e (λ _, Ret tt) else Ret tt.

(** The end of [SaveSnapshot], with what [savevm] said. *)
Definition report_save (tag : string) (start : Z) (quiesced : bool) (out : string + string)
    : prog snap_ev (outcome SnapshotResult) :=
  match out with
  | inr err => throw ("QMP savevm failed for tag " +:+ quote tag +:+ ": " +:+ err)
  | inl out =>
      Vis TimeNow (λ now,
        Ret (Ok {| ResTag := tag; Quiesced := quiesced; Output := out;
                   Duration := now - start; Timestamp := start |}))
  end.

(** Steps 5 and 6: resume, thaw. *)
Definition after_save (cfg : SnapshotConfig) (tag : string) (start : Z) (quiesced : bool) (out : string + string)
    : prog snap_ev (outcome SnapshotResult) :=
  prog_bind (λ _,
  prog_bind (λ _, report_save tag start quiesced out)
    (when quiesced (GuestRPC "unquiesce")))
    (when (PauseVM cfg) QmpCont).

(** Steps 3 to 6, on the connection. *)
Definition save_on (cfg : SnapshotConfig) (tag : string) (start : Z) (quiesced : bool)
    : prog snap_ev (outcome SnapshotResult) :=
  prog_bind (λ _, Vis (QmpSaveVM tag) (after_save cfg tag start quiesced))
    (when (PauseVM cfg) QmpStop).

Definition SaveSnapshot (cfg : SnapshotConfig) (tag : string) : prog snap_ev (outcome SnapshotResult) :=
  if decide (tag = "") then throw no_tag
  else
    Vis TimeNow (λ start,
    prog_bind (λ quiesced, with_qmp "hypervisor socket" cfg (save_on cfg tag start quiesced))
      (quiesce_guest cfg)).

Definition RestoreSnapshot (cfg : SnapshotConfig) (tag : string) : prog snap_ev (outcome SnapshotResult) :=
  if decide (tag = "") then throw no_tag
  else
    Vis TimeNow (λ start,
    with_qmp "hypervisor socket" cfg (
      Vis (QmpLoadVM tag) (λ out,
        match out with
        | inr err => throw ("QMP loadvm failed for tag " +:+ quote tag +:+ ": " +:+ err)
        | inl out =>
            Vis QmpCont (λ _,
            prog_bind (λ _,
              Vis TimeNow (λ now,
                Ret (Ok {| ResTag := tag; Quiesced := false; Output := out;
                           Duration := now - start; Timestamp := start |})))
            (when (negb (bool_decide (VSockTarget cfg = ""))) (GuestRPC "unquiesce")))
        end))).
End orchestrator.

Definition Snapshot_ListSnapshots (cfg : SnapshotConfig) : prog snap_ev (outcome (list SnapshotInfo)) :=
  with_qmp "socket" cfg (Vis QmpList (λ r, Ret (of_sum r))).

Definition DeleteSnapshot (cfg : SnapshotConfig) (tag : string) : prog snap_ev (outcome unit) :=
  if decide (tag = "") then throw no_tag
  else with_qmp "socket" cfg (Vis (QmpDelVM tag) (λ r, Ret (_ ← of_sum r; Ok tt))).

Definition Snapshot_QueryStatus (cfg : SnapshotConfig) : prog snap_ev (outcome VMStatus) :=
  with_qmp "socket" cfg (Vis QmpStatus (λ r, Ret (of_sum r))).

(** ** Carrying the calls out *)

(** What one RPC asks of the network. *)
Inductive rpc_ev : Type → Type :=
| RpcNow : rpc_ev Z
| RpcDial (t : target) : rpc_ev (reader + string)
| RpcWrite (data : string) : rpc_ev (option string)
| RpcClose : rpc_ev (option string).

Definition rpc_write (X : Type) (e : write_ev X) : rpc_ev X :=
  match e with Write data => RpcWrite data end.

(** [WriteFrame] on the RPC connection. *)
Definition rpc_frame (payload : string) : prog rpc_ev (outcome unit) :=
  translate rpc_write (WriteFrame payload).

Section rpc.
Context {UT : UnicodeTables} {J : JsonCodec}.

Definition rpc_reply (command : string) (conn : reader) : outcome unit :=
  '(respBytes, _) ← ReadFrame conn;
  match decode_response respBytes with
  | inr e => Err e
  | inl resp =>
      if Success resp then Ok tt
      else Err ("guest RPC " +:+ command +:+ " failed: " +:+ Error resp)
  end.

Definition sendVSockRPC (target command : string) : prog rpc_ev (outcome unit) :=
  if decide (target = "") then done_
  else
    let unreachable e := "failed connecting to vsock target " +:+ target +:+ ": " +:+ e in
    match Server.Dial target with
    | Err e => throw (unreachable e)
    | Panic => Ret Panic
    | Ok t =>
        Vis (RpcDial t) (λ conn,
          match conn with
          | inr e => throw (unreachable e)
          | inl r =>
              Vis RpcNow (λ now,
              prog_bind (λ res, Vis RpcClose (λ _, Ret res))
                (_ ←! rpc_frame (encode_request {| ID := "snap-" +:+ itoa now; Command := command;
                                                   Service := ""; Args := []; Payload := "" |});
                 Ret (rpc_reply command r)))
          end)
    end.
End rpc.

(** The two networks, the clock and the terminal. *)
Inductive host_ev : Type → Type :=
| OnQmp {X} (e : qmp_ev X) : host_ev X
| OnRpc {X} (e : rpc_ev X) : host_ev X
| HostNow : host_ev Z
| HostPrint (text : string) : host_ev unit.

Section carry_out.
Context {UT : UnicodeTables} {J : JsonCodec} {Q : QmpCodec} (cfg : SnapshotConfig).

Definition on_qmp {A} : prog qmp_ev A → prog host_ev A := translate (λ X e, OnQmp e).
Definition on_rpc {A} : prog rpc_ev A → prog host_ev A := translate (λ X e, OnRpc e).

Definition failed {A} (o : outcome A) : option string :=
  match o with Ok _ => None | Err e => Some e | Panic => Some "" end.
Definition result {A} (o : outcome A) : A + string :=
  match o with Ok a => inl a | Err e => inr e | Panic => inr "" end.

Definition via {A X} (f : outcome A → X) (p : prog qmp_ev (outcome A * Client)) : prog host_ev (X * Client) :=
  prog_bind (λ rc, Ret (f rc.1, rc.2)) (on_qmp p).

(** Each call of the orchestrator, with the client between the calls. *)
Definition carry_out (X : Type) (e : snap_ev X) (c : Client) : prog host_ev (X * Client) :=
  match e in snap_ev Y return prog host_ev (Y * Client) with
  | TimeNow => Vis HostNow (λ t, Ret (t, c))
  | Printf text => Vis (HostPrint text) (λ _, Ret (tt, c))
  | GuestRPC command =>
      prog_bind (λ r, Ret (failed r, c)) (on_rpc (sendVSockRPC (VSockTarget cfg) command))
  | QmpDial =>
      prog_bind (λ r, Ret match r with Ok c' => (None, c') | r => (failed r, c) end)
        (on_qmp (Qmp.Dial (QMPSocketPath cfg)))
  | QmpStop => via failed (Qmp.Stop c)
  | QmpCont => via failed (Cont c)
  | QmpSaveVM tag => via result (SaveVM c tag)
  | QmpLoadVM tag => via result (LoadVM c tag)
  | QmpDelVM tag => via result (DelVM c tag)
  | QmpList => via result (ListSnapshots c)
  | QmpStatus => via result (QueryStatus c)
  | QmpClose => via failed (Close c)
  end.

(** Before the first connection there is no client to use. *)
Definition no_client : Client := {| lines := []; conn_err := ""; closed := true |}.

(** An operation of the orchestrator down to the two networks. *)
Definition carried {A} (p : prog snap_ev A) : prog host_ev A :=
  prog_bind (λ ac, Ret ac.1) (interp carry_out p no_client).
End carry_out.

(** * Properties *)

(** ** A machine behind the calls

    The guest's state is of any type.  It changes freely while the machine runs, and
    [frozen] says that the guest has carried out a quiesce and no unquiesce since (its
    handler reports success even when the freeze itself failed).  Every call may fail,
    and one that failed may have been carried out all the same, its reply lost: [refused]
    collects the names of the calls that were answered with an error, most recent first,
    and [lost] says that a quiesce was carried out although its reply never arrived.
    The monitor answers [savevm] and [loadvm] with a text, and [did] says which texts mean
    that it is done: QEMU then prints nothing, the monitors of the tests a sentence.
    [dialled]: the monitor was reached; [restored]: the snapshot loaded last. *)
Section machine.
Context {M : Type} (did : string → bool).

Record saved := { s_guest : M; s_frozen : bool; s_running : bool }.

Record vm := {
  guest : M; frozen : bool; running : bool; disk : gmap string saved;
  dialled : bool; lost : bool; restored : option saved; refused : list string }.

Definition set_guest (m : M) (s : vm) : vm := {|
  guest := m; frozen := frozen s; running := running s; disk := disk s;
  dialled := dialled s; lost := lost s; restored := restored s; refused := refused s |}.
Definition set_frozen (b l : bool) (s : vm) : vm := {|
  guest := guest s; frozen := b; running := running s; disk := disk s;
  dialled := dialled s; lost := l; restored := restored s; refused := refused s |}.
Definition set_running (b : bool) (s : vm) : vm := {|
  guest := guest s; frozen := frozen s; running := b; disk := disk s;
  dialled := dialled s; lost := lost s; restored := restored s; refused := refused s |}.
Definition set_dialled (s : vm) : vm := {|
  guest := guest s; frozen := frozen s; running := running s; disk := disk s;
  dialled := true; lost := lost s; restored := restored s; refused := refused s |}.
Definition save_as (tag : string) (s : vm) : vm := {|
  guest := guest s; frozen := frozen s; running := running s;
  disk := <[tag := {| s_guest := guest s; s_frozen := frozen s; s_running := running s |}]> (disk s);
  dialled := dialled s; lost := lost s; restored := restored s; refused := refused s |}.
Definition load (sn : saved) (s : vm) : vm := {|
  guest := s_guest sn; frozen := s_frozen sn; running := s_running sn; disk := disk s;
  dialled := dialled s; lost := lost s; restored := Some sn; refused := refused s |}.
Definition refuse (what : string) (s : vm) : vm := {|
  guest := guest s; frozen := frozen s; running := running s; disk := disk s;
  dialled := dialled s; lost := lost s; restored := restored s; refused := what :: refused s |}.

(** The machine goes on by itself: a running guest changes its state. *)
Definition drift (s s' : vm) : Prop :=
  s' = s ∨ (running s = true ∧ ∃ m, s' = set_guest m s).

(** A call that has one effect: without an error it has had it, with an error perhaps. *)
Definition call_effect (what : string) (can : bool) (effect : vm → vm) (s : vm) (r : option string) (s' : vm) : Prop :=
  match r with
  | None => can = true ∧ s' = effect s
  | Some _ => s' = refuse what s ∨ (can = true ∧ s' = refuse what (effect s))
  end.

(** Only a running guest can answer; one that freezes unheard is recorded in [lost]. *)
Definition call_quiesce (s : vm) (r : option string) (s' : vm) : Prop :=
  call_effect "quiesce" (running s)
    (set_frozen true (match r with None => lost s | Some _ => true end)) s r s'.
Definition call_thaw (s : vm) : option string → vm → Prop :=
  call_effect "unquiesce" (running s) (set_frozen false (lost s)) s.

Definition call_save (tag : string) (s : vm) (r : string + string) (s' : vm) : Prop :=
  match r with
  | inl text => s' = if did text then save_as tag s else s
  | inr _ => s' = s ∨ s' = save_as tag s
  end.
Definition call_load (tag : string) (s : vm) (r : string + string) (s' : vm) : Prop :=
  match r with
  | inl text => if did text then ∃ sn, disk s !! tag = Some sn ∧ s' = load sn s else s' = s
  | inr _ => s' = s ∨ ∃ sn, disk s !! tag = Some sn ∧ s' = load sn s
  end.

Definition call {X} (e : snap_ev X) (s : vm) : X → vm → Prop :=
  match e in snap_ev Y return Y → vm → Prop with
  | GuestRPC command =>
      λ r s', if decide (command = "quiesce") then call_quiesce s r s' else call_thaw s r s'
  | QmpDial => λ r s', match r with None => s' = set_dialled s | Some _ => s' = s end
  | QmpStop => call_effect "stop" true (set_running false) s
  | QmpCont => call_effect "cont" true (set_running true) s
  | QmpSaveVM tag => call_save tag s
  | QmpLoadVM tag => call_load tag s
  | QmpDelVM tag => λ r s', s' = s
  | TimeNow | Printf _ | QmpList | QmpStatus | QmpClose => λ _ s', s' = s
  end.

Definition hypervisor : env_rel snap_ev vm := λ X e s x s', ∃ s0, drift s s0 ∧ call e s0 x s'.

(** ** Saving *)

(** What every call of the orchestrator leaves alone. *)
Record kept (s s' : vm) : Prop := {
  kept_lost : lost s' = lost s; kept_dialled : dialled s' = dialled s; kept_restored : restored s' = restored s;
  kept_refused : refused s ⊆ refused s' }.

(** What [savevm] put on the disk. *)
Definition taken (tag : string) (f r : bool) (dk dk' : gmap string saved) : Prop :=
  ∃ m, dk' = <[tag := {| s_guest := m; s_frozen := f; s_running := r |}]> dk.

Section saving.
Context {UT : UnicodeTables}.

(** The parts of the state that the guest's own progress does not touch. *)
Definition same_but_guest (s s' : vm) : Prop := ∃ m, s' = set_guest m s.

Lemma drift_same s s' : drift s s' → same_but_guest s s'.
Proof. intros [->|(_ & m & ->)]; [exists (guest s); by destruct s|by exists m]. Qed.

Lemma kept_refl s : kept s s.
Proof. by constructor. Qed.
Lemma kept_trans s1 s2 s3 : kept s1 s2 → kept s2 s3 → kept s1 s3.
Proof. intros [] []. constructor; [congruence..|set_solver]. Qed.
Lemma not_refused w s s' : kept s s' → w ∉ refused s' → w ∉ refused s.
Proof. intros [_ _ _ H]. set_solver. Qed.

(** One call of a run: what the machine may have become and answered. *)
Ltac next :=
  let x := fresh "x" in let s' := fresh "s'" in let s0 := fresh "s0" in
  let m := fresh "m" in let Hc := fresh "Hc" in
  intros x s' (s0 & [m ->]%drift_same & Hc); cbn in Hc.

(** Split an answer that is carried out or not. *)
Ltac answered x Hc :=
  unfold call_quiesce, call_thaw, call_effect in Hc;
  destruct x as [x|]; [destruct Hc as [->|[? ->]]|destruct Hc as [? ->]].

(** [stop], [cont] and the thaw, where they are asked for. *)
Lemma wp_stop s p :
  running s = true → wp hypervisor (when p QmpStop) (λ _ s', kept s s' ∧ frozen s' = frozen s ∧ disk s' = disk s ∧
    (p = false → running s' = true) ∧ ("stop" ∉ refused s' → running s' = negb p)) s.
Proof.
  intros Hr. destruct p; [|split_and!; [apply kept_refl|done..]].
  next. answered x Hc; (split_and!; [constructor; cbn; set_solver|done..| |]); cbn; set_solver.
Qed.

Lemma wp_cont s p :
  (p = false → running s = true) →
  wp hypervisor (when p QmpCont) (λ _ s', kept s s' ∧ frozen s' = frozen s ∧ disk s' = disk s ∧
    ("cont" ∉ refused s' → running s' = true)) s.
Proof.
  intros Hr. destruct p; [|split_and!; [apply kept_refl|naive_solver..]].
  next. answered x Hc; (split_and!; [constructor; cbn; set_solver|done..|]); cbn; set_solver.
Qed.

Lemma wp_thaw s q :
  wp hypervisor (when q (GuestRPC "unquiesce")) (λ _ s', kept s s' ∧ running s' = running s ∧ disk s' = disk s ∧
    if q then "unquiesce" ∉ refused s' → frozen s' = false else frozen s' = frozen s) s.
Proof.
  destruct q; [|split_and!; [apply kept_refl|done..]].
  next. answered x Hc; (split_and!; [constructor; cbn; set_solver|done..|]); cbn; set_solver.
Qed.

(** The outcome of [savevm]: what it printed, and what it put on the disk. *)
Definition disk_after (tag : string) (out : string + string) (f r : bool) (dk dk' : gmap string saved) : Prop :=
  match out with
  | inl text => if did text then taken tag f r dk dk' else dk' = dk
  | inr _ => dk' = dk ∨ taken tag f r dk dk'
  end.

Lemma wp_savevm tag s :
  wp hypervisor (ask (QmpSaveVM tag)) (λ out s', kept s s' ∧ frozen s' = frozen s ∧ running s' = running s ∧
    disk_after tag out (frozen s) (running s) (disk s) (disk s')) s.
Proof.
  next. assert (taken tag (frozen s) (running s) (disk s) (disk (save_as tag (set_guest m s)))) as Ht by by exists m.
  destruct x as [text|e]; cbn in Hc.
  - cbn [wp ask disk_after]. destruct (did text); subst s'; by split_and!.
  - cbn [wp ask disk_after]. destruct Hc as [->| ->]; (split_and!; [done..|]); [by left|by right].
Qed.

(** What saving promises for a machine that runs and is not frozen. *)
Definition save_promise (cfg : SnapshotConfig) (tag : string) (dk : gmap string saved)
    (res : outcome SnapshotResult) (s' : vm) : Prop :=
  ("cont" ∉ refused s' → running s' = true) ∧
  (dialled s' = true → lost s' = false → "unquiesce" ∉ refused s' → frozen s' = false) ∧
  match res with
  | Ok r =>
      ResTag r = tag ∧
      if did (Output r) then ∃ rn, taken tag (Quiesced r || lost s') rn dk (disk s') ∧
        ("stop" ∉ refused s' → rn = negb (PauseVM cfg))
      else disk s' = dk
  | Err _ => disk s' = dk ∨ ∃ f rn, taken tag f rn dk (disk s')
  | Panic => False
  end.

Lemma save_promise_drift cfg tag dk res s1 s2 :
  save_promise cfg tag dk res s1 → drift s1 s2 → save_promise cfg tag dk res s2.
Proof. by intros H [m ->]%drift_same. Qed.

Lemma wp_save_on cfg tag start q s :
  running s = true → frozen s = q || lost s →
  wp hypervisor (save_on cfg tag start q) (λ res s', save_promise cfg tag (disk s) res s') s.
Proof.
  intros Hr Hf. unfold save_on. apply wp_bind. eapply wp_mono; [|by apply wp_stop].
  intros ? s1 (K1 & F1 & D1 & R1 & P1). change (Vis (QmpSaveVM tag) (after_save cfg tag start q))
    with (prog_bind (after_save cfg tag start q) (ask (QmpSaveVM tag))).
  apply wp_bind. eapply wp_mono; [|apply wp_savevm]. intros out s2 (K2 & F2 & R2 & D2).
  unfold after_save. apply wp_bind. eapply wp_mono; [|apply wp_cont; rewrite R2; exact R1].
  intros ? s3 (K3 & F3 & D3 & R3). apply wp_bind. eapply wp_mono; [|apply wp_thaw].
  intros ? s4 (K4 & R4 & D4 & F4).
  assert (kept s s4) as K by (eauto using kept_trans). assert (kept s1 s4) as K14 by (eauto using kept_trans).
  assert ("cont" ∉ refused s4 → running s4 = true) as HR.
  { intros Hc. rewrite R4. apply R3. by eapply not_refused. }
  assert (lost s4 = false → "unquiesce" ∉ refused s4 → frozen s4 = false) as HF.
  { intros Hl Hu. destruct q; [by apply F4|]. rewrite F4, F3, F2, F1, Hf. cbn. by rewrite <-(kept_lost _ _ K). }
  assert (disk_after tag out (q || lost s4) (running s1) (disk s) (disk s4)) as HD.
  { rewrite D4, D3, (kept_lost _ _ K), <-Hf, <-F1, <-D1. exact D2. }
  assert ("stop" ∉ refused s4 → running s1 = negb (PauseVM cfg)) as HS.
  { intros Hs. apply P1. by eapply not_refused. }
  unfold report_save. destruct out as [t|e].
  - next. subst s'. split; [exact HR|]. split; [done|]. split; [done|]. cbn [Output Quiesced].
    cbn [disk_after] in HD. destruct (did t); [by exists (running s1)|done].
  - split; [exact HR|]. split; [done|]. destruct HD as [HD|HD]; [by left|right; by eexists _, _].
Qed.

(** Dialling, and the end of the connection. *)
Lemma wp_with_qmp {A} what cfg (body : prog snap_ev (outcome A)) (P : outcome A → vm → Prop) s :
  (∀ e s', drift s s' → P (Err e) s') →
  (∀ s', drift s s' → wp hypervisor body P (set_dialled s')) →
  (∀ a s1 s2, P a s1 → drift s1 s2 → P a s2) →
  wp hypervisor (with_qmp what cfg body) P s.
Proof.
  intros He Hb Hd. unfold with_qmp. intros [e|] s1 (s0 & H0 & Hc); cbn in Hc; subst s1; [by apply He|].
  apply wp_bind. eapply wp_mono; [|by apply Hb]. intros a s1 Ha x s2 (s3 & H3 & Hc). cbn in Hc. subst s2.
  by eapply Hd.
Qed.

(** A quiesce that was reported done was carried out; one that was not may have been. *)
Lemma wp_quiesce cfg s :
  running s = true → frozen s = false → lost s = false →
  wp hypervisor (quiesce_guest cfg) (λ q s', running s' = true ∧ frozen s' = q || lost s' ∧
    disk s' = disk s ∧ dialled s' = dialled s) s.
Proof.
  intros Hr Hf Hl. unfold quiesce_guest. destruct (decide (VSockTarget cfg = "")).
  { cbn. by rewrite Hf, Hl. }
  next. answered x Hc.
  - intros ? s2 (s3 & [m2 ->]%drift_same & ->). cbn. by rewrite Hf, Hl.
  - by intros ? s2 (s3 & [m2 ->]%drift_same & ->).
  - done.
Qed.

Lemma wp_SaveSnapshot cfg tag s :
  tag ≠ "" → running s = true → frozen s = false → lost s = false → dialled s = false →
  wp hypervisor (SaveSnapshot cfg tag) (save_promise cfg tag (disk s)) s.
Proof.
  intros Ht Hr Hf Hl Hdl. unfold SaveSnapshot. rewrite decide_False by done. next. subst s'. apply wp_bind.
  eapply wp_mono; [|by apply wp_quiesce]. intros q s1 (Hr1 & Hf1 & Hk1 & Hd1). cbn in Hk1, Hd1.
  apply wp_with_qmp.
  - intros e s2 [m2 ->]%drift_same. unfold save_promise. cbn. rewrite Hr1, Hd1, Hdl, Hk1.
    split_and!; [done..|by left].
  - intros s2 [m2 ->]%drift_same. rewrite <-Hk1. by apply (wp_save_on cfg tag x q (set_dialled (set_guest m2 s1))).
  - intros res s2 s3. apply save_promise_drift.
Qed.

(** C20: a snapshot brackets the guest.  For a running machine whose guest is not frozen,
    on every run of [SaveSnapshot], whatever calls fail and whether or not those were carried
    out: unless [cont] was answered with an error, which the code ignores, the machine runs
    at the end; unless the thaw was (ignored as well) or the reply to a quiesce that was
    carried out was lost, the guest is thawed once the monitor was reached, whatever
    [savevm] said; and a result without an error says by its output, for a monitor
    whose texts tell it, whether a snapshot was taken under the tag: of a guest that was
    quiesced if the result says so, and unless [stop] was answered with an error, of a
    paused machine if pausing was asked for.  The snapshot documentation says the guest
    is thawed always, even on failure. *)
Theorem SaveSnapshot_brackets cfg tag s :
  tag ≠ "" → running s = true → frozen s = false → lost s = false → dialled s = false →
  wp hypervisor (SaveSnapshot cfg tag) (save_promise cfg tag (disk s)) s.
Proof. apply wp_SaveSnapshot. Qed.

(** ** Restoring *)

Lemma wp_loadvm tag s :
  wp hypervisor (ask (QmpLoadVM tag)) (λ out s', disk s' = disk s ∧ refused s' = refused s ∧
    let loaded := ∃ sn, disk s !! tag = Some sn ∧ restored s' = Some sn ∧ frozen s' = s_frozen sn ∧
                    running s' = s_running sn in
    let left_alone := restored s' = restored s ∧ frozen s' = frozen s ∧ running s' = running s in
    match out with inl text => if did text then loaded else left_alone | inr _ => left_alone ∨ loaded end) s.
Proof.
  next. unfold call_load in Hc. cbn [wp ask]. cbv zeta. destruct x as [text|e].
  - destruct (did text); [destruct Hc as (z & Hz & ->)|subst s']; (split; [done|split; [done|]]); [by exists z|done].
  - destruct Hc as [->|(z & Hz & ->)]; (split; [done|split; [done|]]); [by left|right; by exists z].
Qed.

(** What restoring does: on success with a text that means so, the machine was loaded from
    the snapshot stored under the tag. *)
Lemma wp_RestoreSnapshot cfg tag s :
  tag ≠ "" →
  wp hypervisor (RestoreSnapshot cfg tag) (λ res s', disk s' = disk s ∧ refused s ⊆ refused s' ∧
    match res with
    | Ok r =>
        ResTag r = tag ∧ Quiesced r = false ∧
        ("cont" ∉ refused s' → running s' = true) ∧
        (VSockTarget cfg ≠ "" → "unquiesce" ∉ refused s' → frozen s' = false) ∧
        if did (Output r) then ∃ sn, disk s !! tag = Some sn ∧ restored s' = Some sn
        else restored s' = restored s
    | Err _ =>
        (restored s' = restored s ∧ frozen s' = frozen s ∧ running s' = running s) ∨
        ∃ sn, disk s !! tag = Some sn ∧ restored s' = Some sn ∧ frozen s' = s_frozen sn ∧ running s' = s_running sn
    | Panic => False
    end) s.
Proof.
  intros Ht. unfold RestoreSnapshot. rewrite decide_False by done. next. subst s'. apply wp_with_qmp.
  - intros e s2 [m2 ->]%drift_same. split_and!; [done..|by left].
  - intros s2 [m2 ->]%drift_same.
    match goal with |- wp _ (Vis _ ?k) _ _ => change (Vis (QmpLoadVM tag) k) with (prog_bind k (ask (QmpLoadVM tag))) end.
    apply wp_bind. eapply wp_mono; [|apply wp_loadvm]. cbn beta. intros out s3 (Hk3 & Hr3 & H3). cbn in Hk3, Hr3, H3.
    destruct out as [t|e]; [|unfold throw; cbn [wp]; by rewrite Hk3, Hr3].
    intros x2 s4 (s5 & [m5 ->]%drift_same & Hc). cbn in Hc.
    assert (kept s3 s4 ∧ disk s4 = disk s3 ∧ ("cont" ∉ refused s4 → running s4 = true)) as (K4 & D4 & R4).
    { answered x2 Hc; (split_and!; [constructor; cbn; set_solver|done|]); cbn; set_solver. }
    clear Hc. apply wp_bind. eapply wp_mono; [|apply wp_thaw]. intros ? s6 (K6 & R6 & D6 & F6).
    next. cbn. subst s'. cbn.
    assert (kept s3 s6) as K by eauto using kept_trans. split_and!.
    + cbn. congruence.
    + rewrite <-Hr3. apply K.
    + done.
    + done.
    + intros Hc. rewrite R6. apply R4. by eapply not_refused.
    + intros Hv Hu. rewrite bool_decide_false in F6 by done. by apply F6.
    + rewrite (kept_restored _ _ K). destruct (did t); [|by destruct H3]. destruct H3 as (sn & H1 & H2 & _).
      by exists sn.
  - intros res s2 s3 H [m3 ->]%drift_same. exact H.
Qed.

(** C22: a save followed by a restore goes back to it: when both return without an error
    and with texts that mean done, the machine was loaded at the end from exactly the snapshot
    taken, which was of a quiesced guest if the first result says so and, unless [stop] was
    answered with an error, of a machine paused as configured; it runs unless a [cont]
    was answered with an error, and its guest is thawed unless a thaw was.  The code
    ignores those errors. *)
Theorem save_then_restore cfg tag s :
  tag ≠ "" → VSockTarget cfg ≠ "" → running s = true → frozen s = false → lost s = false → dialled s = false →
  wp hypervisor
    (r1 ←! SaveSnapshot cfg tag; r2 ←! RestoreSnapshot cfg tag; Ret (Ok (r1, r2)))
    (λ res s', ∀ r1 r2, res = Ok (r1, r2) → did (Output r1) = true → did (Output r2) = true →
       ("cont" ∉ refused s' → running s' = true) ∧ ("unquiesce" ∉ refused s' → frozen s' = false) ∧
       ∃ sn, restored s' = Some sn ∧ taken tag (s_frozen sn) (s_running sn) (disk s) (disk s') ∧
         disk s' !! tag = Some sn ∧ (Quiesced r1 = true → s_frozen sn = true) ∧
         ("stop" ∉ refused s' → s_running sn = negb (PauseVM cfg))) s.
Proof.
  intros Ht Hv Hr Hf Hl Hd. apply wp_ebind. eapply wp_mono; [|by apply wp_SaveSnapshot].
  intros [r1|e|] s1 (_ & _ & H1); [|done..]. destruct H1 as [_ H1].
  apply wp_ebind. eapply wp_mono; [|by apply wp_RestoreSnapshot].
  intros [r2|e|] s2 (Hk2 & Hk & H2); [|done..]. destruct H2 as (_ & _ & Hr2 & Hf2 & H2).
  intros r1' r2' [= <- <-] Ho1 Ho2. rewrite Ho1 in H1. rewrite Ho2 in H2.
  destruct H2 as (sn & Hsn & Hres), H1 as (rn & [m Hm] & Hstop).
  split; [done|]. split; [by apply Hf2|]. exists sn. rewrite Hm, lookup_insert_eq in Hsn. injection Hsn as <-.
  cbn [s_frozen s_running]. split_and!.
  - done.
  - exists m. by rewrite Hk2.
  - by rewrite Hk2, Hm, lookup_insert_eq.
  - by intros ->.
  - intros Hs. apply Hstop. set_solver.
Qed.

(** ** What goes wrong *)

Lemma drift_refl s : drift s s.
Proof. by left. Qed.

(** The thaw is not on every way out: when the guest was quiesced and the monitor
    then cannot be reached, [SaveSnapshot] returns the error of the dial and leaves the
    guest frozen. *)
Theorem dial_failure_leaves_frozen cfg tag s e :
  tag ≠ "" → VSockTarget cfg ≠ "" → running s = true →
  runs hypervisor (SaveSnapshot cfg tag) s
    (Err ("failed connecting to QMP hypervisor socket " +:+ QMPSocketPath cfg +:+ ": " +:+ e))
    (set_frozen true (lost s) s).
Proof.
  intros Ht Hv Hr. unfold SaveSnapshot, quiesce_guest. rewrite !decide_False by done.
  exists 0%Z, s. split; [exists s; by split; [apply drift_refl|]|].
  exists None, (set_frozen true (lost s) s). split; [exists s; by split; [apply drift_refl|]|].
  exists (Some e), (set_frozen true (lost s) s). split; [eexists; split; [apply drift_refl|done]|]. done.
Qed.

(** A machine whose guest cannot be reached and whose monitor prints [text]. *)
Definition refusing (text : string) : handler snap_ev vm := λ X e s,
  match e in snap_ev Y return Y * vm with
  | TimeNow => (0%Z, s)
  | Printf _ => (tt, s)
  | GuestRPC command =>
      if decide (command = "quiesce") then (Some "connection refused", refuse "quiesce" s)
      else if running s then (None, set_frozen false (lost s) s) else (Some "connection refused", refuse "unquiesce" s)
  | QmpDial => (None, set_dialled s)
  | QmpStop => (None, set_running false s)
  | QmpCont => (None, set_running true s)
  | QmpSaveVM _ | QmpLoadVM _ | QmpDelVM _ => (inl text, s)
  | QmpList => (inl [], s)
  | QmpStatus => (inr "", s)
  | QmpClose => (None, s)
  end.

Lemma refusing_ok text X (e : snap_ev X) s :
  did text = false → hypervisor X e s (refusing text X e s).1 (refusing text X e s).2.
Proof.
  intros Ht. exists s. split; [apply drift_refl|]. destruct e; cbn; try done.
  - destruct (decide (command = "quiesce")); cbn; [by left|]. unfold call_thaw.
    destruct (running s) eqn:Hr; cbn; rewrite ?Hr; [done|by left].
  - by rewrite Ht.
  - by rewrite Ht.
Qed.

(** The monitor prints the error of [savevm] as ordinary output, and that is
    reported as a success: a run of [SaveSnapshot] returns a result without an error
    although no snapshot was taken. *)
Theorem refused_save_reported_saved cfg tag s text :
  tag ≠ "" → did text = false → running s = true →
  ∃ r s', runs hypervisor (SaveSnapshot cfg tag) s (Ok r) s' ∧ Output r = text ∧ ResTag r = tag ∧
    disk s' = disk s.
Proof.
  intros Ht Hne Hr.
  pose proof (exec_runs hypervisor (refusing text) (SaveSnapshot cfg tag) s
                (λ X e s, refusing_ok text X e s Hne)) as H.
  assert (∃ r s', exec (refusing text) (SaveSnapshot cfg tag) s = (Ok r, s') ∧ Output r = text ∧
            ResTag r = tag ∧ disk s' = disk s) as (r & s' & He & Hrest).
  { unfold SaveSnapshot, quiesce_guest, save_on, after_save, when. rewrite decide_False by done.
    destruct (decide (VSockTarget cfg = "")), (PauseVM cfg); cbn; eexists _, _; by split_and!. }
  rewrite He in H. by exists r, s'.
Qed.
End saving.
End machine.
Arguments saved : clear implicits.
Arguments vm : clear implicits.

(** ** On the wire

    The orchestrator, the monitor's client and the RPC framing together, over networks
    on which every connection is made and every write succeeds. *)
Section wire.
Context {UT : UnicodeTables} {J : JsonCodec} {Q : QmpCodec} (cfg : SnapshotConfig).

Inductive item := ToMonitor (data : string) | ToGuest (data : string) | Printed (text : string).

(** What was sent, the guest's answers to the RPCs to come, the clock. *)
Record net := { log : list item; monitor : reader; guests : list reader; clock : Z }.
Definition sent (n : net) (i : item) : net :=
  {| log := log n ++ [i]; monitor := monitor n; guests := guests n; clock := clock n |}.

Definition on_net : handler host_ev net := λ X e n,
  match e in host_ev Y return Y * net with
  | OnQmp e =>
      match e in qmp_ev Y return Y * net with
      | NetDial _ _ _ => (inl (monitor n), n)
      | NetWrite data => (None, sent n (ToMonitor data))
      | NetClose | StatPath _ => (None, n)
      end
  | OnRpc e =>
      match e in rpc_ev Y return Y * net with
      | RpcNow => (clock n, n)
      | RpcDial _ =>
          match guests n with
          | r :: rs => (inl r, {| log := log n; monitor := monitor n; guests := rs; clock := clock n |})
          | [] => (inr "connection refused", n)
          end
      | RpcWrite data => (None, sent n (ToGuest data))
      | RpcClose => (None, n)
      end
  | HostNow => (clock n, n)
  | HostPrint text => (tt, sent n (Printed text))
  end.

(** The two writes of a frame. *)
Definition frame_items (payload : string) : list item :=
  [ToGuest (be32 (frame_length payload)); ToGuest payload].

Definition rpc_payload (command : string) (now : Z) : string :=
  encode_request {| ID := "snap-" +:+ itoa now; Command := command; Service := ""; Args := []; Payload := "" |}.

Definition logged (n : net) (its : list item) (rs : list reader) : net :=
  {| log := log n ++ its; monitor := monitor n; guests := rs; clock := clock n |}.

Lemma exec_rpc t command r rs n :
  VSockTarget cfg ≠ "" → Server.Dial (VSockTarget cfg) = Ok t → guests n = r :: rs →
  (0 < frame_length (rpc_payload command (clock n)))%Z →
  exec on_net (on_rpc (sendVSockRPC (VSockTarget cfg) command)) n =
    (rpc_reply command r, logged n (frame_items (rpc_payload command (clock n))) rs).
Proof.
  intros Hv Ht Hg Hl. unfold on_rpc. rewrite exec_translate. unfold sendVSockRPC.
  rewrite decide_False, Ht by done. cbn [exec on_net]. rewrite Hg. cbn [exec on_net clock].
  rewrite exec_bind. fold (rpc_payload command (clock n)). unfold ebind, rpc_frame. rewrite exec_bind, exec_translate.
  unfold WriteFrame. apply Z.ltb_lt in Hl. rewrite Hl. cbn. unfold logged, sent. cbn. by rewrite <-app_assoc.
Qed.

(** A command of the client whose reply is waiting. *)
Lemma exec_Execute c cmd args payload n :
  closed c = false → marshal_command cmd args = inl payload →
  exec on_net (on_qmp (Execute c cmd args)) n = (first_reply c, sent n (ToMonitor (payload +:+ newline))).
Proof.
  intros Hc Hm. unfold on_qmp. rewrite exec_translate, (Execute_eq _ _ _ payload) by done.
  cbn [exec on_net].
  by rewrite await_reply_spec by lia.
Qed.

Lemma exec_qmp_bind {A B} (f : A → prog qmp_ev B) (p : prog qmp_ev A) n :
  exec on_net (on_qmp (prog_bind f p)) n =
    let '(a, n) := exec on_net (on_qmp p) n in exec on_net (on_qmp (f a)) n.
Proof.
  unfold on_qmp. rewrite !exec_translate, exec_bind. destruct (exec _ p n) as [a n']. cbn.
  by rewrite exec_translate.
Qed.

Lemma exec_qmp_vis {A X} (e : qmp_ev X) (k : X → prog qmp_ev A) n :
  exec on_net (on_qmp (Vis e k)) n =
    let '(x, n) := on_net X (OnQmp e) n in exec on_net (on_qmp (k x)) n.
Proof. done. Qed.

Lemma exec_andThen {A B} (m : prog qmp_ev (outcome A * Client)) (f : A → Client → prog qmp_ev (outcome B * Client)) n :
  exec on_net (on_qmp (andThen m f)) n =
    let '((r, c), n) := exec on_net (on_qmp m) n in
    match r with
    | Ok a => exec on_net (on_qmp (f a c)) n
    | Err e => ((Err e, c), n)
    | Panic => ((Panic, c), n)
    end.
Proof.
  unfold andThen. rewrite exec_qmp_bind. by destruct (exec on_net (on_qmp m) n) as [[[a|e|] c] n'].
Qed.

Lemma exec_via {A X} (f : outcome A → X) (p : prog qmp_ev (outcome A * Client)) n :
  exec on_net (via f p) n = let '((r, c), n) := exec on_net (on_qmp p) n in ((f r, c), n).
Proof. unfold via. rewrite exec_bind. by destruct (exec _ _ n) as [[r c] n']. Qed.

(** A command whose exchange is next on the connection. *)
Lemma exec_exchange c cmd args payload x rest n :
  closed c = false → marshal_command cmd args = inl payload →
  exchange_ok x → lines c = exchange_lines x ++ rest →
  exec on_net (on_qmp (Execute c cmd args)) n =
    ((decode_reply (reply x), with_lines c rest), sent n (ToMonitor (payload +:+ newline))).
Proof. intros Hc Hm Hx Hl. rewrite (exec_Execute _ _ _ payload) by done. by rewrite (first_reply_exchange c x rest). Qed.

(** The calls, with their exchange next on the connection. *)
Lemma carry_simple (call : Client → prog qmp_ev (outcome unit * Client)) cmd c payload x rest n v :
  (∀ c, call c = andThen (Execute c cmd []) (λ _ c, Ret (Ok tt, c))) →
  closed c = false → marshal_command cmd [] = inl payload → exchange_ok x →
  lines c = exchange_lines x ++ rest → decode_reply (reply x) = Ok v →
  exec on_net (via failed (call c)) n =
    ((None, with_lines c rest), sent n (ToMonitor (payload +:+ newline))).
Proof.
  intros Hcall Hc Hm Hx Hl Hv. rewrite exec_via, Hcall, exec_andThen, (exec_exchange c cmd [] payload x rest) by done.
  by rewrite Hv.
Qed.

Lemma carry_save c tag payload x rest n text :
  closed c = false → tag ≠ "" →
  marshal_command "human-monitor-command" [("command-line", "savevm " +:+ tag)] = inl payload →
  exchange_ok x → lines c = exchange_lines x ++ rest → decode_reply (reply x) = Ok (JStr text) →
  exec on_net (via result (SaveVM c tag)) n =
    ((inl text, with_lines c rest), sent n (ToMonitor (payload +:+ newline))).
Proof.
  intros Hc Ht Hm Hx Hl Hv. rewrite exec_via. unfold SaveVM, HumanMonitorCommand. rewrite decide_False by done.
  rewrite exec_andThen, (exec_exchange c _ _ payload x rest) by done. by rewrite Hv.
Qed.

Definition greets (l : string) : Prop :=
  trim_space l ≠ "" ∧ looks_like_event (trim_space l) = false ∧ unmarshal_greeting (trim_space l) = None.

Lemma exec_dial greeting payload x rest n v :
  greets greeting → marshal_command "qmp_capabilities" [] = inl payload → exchange_ok x →
  lines (NewReader (monitor n)) = greeting :: exchange_lines x ++ rest → decode_reply (reply x) = Ok v →
  exec on_net (on_qmp (Qmp.Dial (QMPSocketPath cfg))) n =
    (Ok (with_lines (NewReader (monitor n)) rest), sent n (ToMonitor (payload +:+ newline))).
Proof.
  intros (Hg1 & Hg2 & Hg3) Hm Hx Hl Hv. unfold Qmp.Dial, DialTimeout. destruct (parseTarget _) as [network addr].
  rewrite exec_qmp_vis. cbn [on_net].
  rewrite exec_qmp_bind. unfold handshake, readLine. rewrite Hl. cbn [read_line].
  rewrite decide_False, Hg2 by done. cbn [wrap_err]. rewrite Hg3, exec_andThen.
  unfold wrapC. rewrite exec_qmp_bind, (exec_exchange _ _ [] payload x rest) by done. by rewrite Hv.
Qed.

(** The whole of a save on the networks: a pausing configuration, a guest that answers
    both RPCs, a monitor that greets, interleaves events as it likes and answers its
    four commands. *)
Record cooperative (tag : string) (n : net) (t : target) (r1 r2 : reader) (greeting : string)
    (x0 x1 x2 x3 : exchange) (rest : list string) (p0 p1 p2 p3 : string) (text : string) : Prop := {
  co_target : VSockTarget cfg ≠ "" ∧ Server.Dial (VSockTarget cfg) = Ok t;
  co_guests : guests n = [r1; r2] ∧ rpc_reply "quiesce" r1 = Ok tt ∧ rpc_reply "unquiesce" r2 = Ok tt;
  co_frames : (0 < frame_length (rpc_payload "quiesce" (clock n)))%Z ∧
    (0 < frame_length (rpc_payload "unquiesce" (clock n)))%Z;
  co_greets : greets greeting;
  co_monitor : lines (NewReader (monitor n)) =
    greeting :: exchange_lines x0 ++ exchange_lines x1 ++ exchange_lines x2 ++ exchange_lines x3 ++ rest;
  co_ok : exchange_ok x0 ∧ exchange_ok x1 ∧ exchange_ok x2 ∧ exchange_ok x3;
  co_replies : is_ok (decode_reply (reply x0)) = true ∧ is_ok (decode_reply (reply x1)) = true ∧
    decode_reply (reply x2) = Ok (JStr text) ∧ is_ok (decode_reply (reply x3)) = true;
  co_marshal : marshal_command "qmp_capabilities" [] = inl p0 ∧ marshal_command "stop" [] = inl p1 ∧
    marshal_command "human-monitor-command" [("command-line", "savevm " +:+ tag)] = inl p2 ∧
    marshal_command "cont" [] = inl p3
}.

(** The calls as steps of the client and the networks together. *)
Definition calls : handler snap_ev (Client * net) := λ X e cn,
  let '((x, c), n) := exec on_net (carry_out cfg X e cn.1) cn.2 in (x, (c, n)).

Lemma exec_carried {A} (p : prog snap_ev A) n :
  exec on_net (carried cfg p) n =
    let '(a, (_, n)) := exec calls p (no_client, n) in (a, n).
Proof.
  unfold carried. rewrite exec_bind, exec_interp. unfold calls.
  by destruct (exec _ p (no_client, n)) as [a [c n']].
Qed.

Lemma exec_call {A X} (e : snap_ev X) (k : X → prog snap_ev A) c n x c' n' :
  exec on_net (carry_out cfg X e c) n = ((x, c'), n') →
  exec calls (Vis e k) (c, n) = exec calls (k x) (c', n').
Proof. intros H. cbn [exec]. unfold calls at 1. cbn [fst snd]. by rewrite H. Qed.

Lemma exec_ret {A} (a : A) cn : exec calls (Ret a) cn = (a, cn).
Proof. done. Qed.

Lemma exec_guest_call t command r rs c n :
  VSockTarget cfg ≠ "" → Server.Dial (VSockTarget cfg) = Ok t → guests n = r :: rs →
  (0 < frame_length (rpc_payload command (clock n)))%Z → rpc_reply command r = Ok tt →
  exec on_net (carry_out cfg _ (GuestRPC command) c) n =
    ((None, c), logged n (frame_items (rpc_payload command (clock n))) rs).
Proof.
  intros Hv Ht Hg Hl Hr. cbn [carry_out]. rewrite exec_bind, (exec_rpc t command r rs) by done.
  by rewrite Hr.
Qed.

(** C21: the order of a save on the wire, with pausing configured and a guest and a monitor
    that answer everything: the guest is asked to quiesce before anything reaches the
    monitor, the machine is stopped, saved and resumed in this order whatever events
    the monitor sends in between, and the guest is asked to thaw last, when the machine
    runs again; the result carries the monitor's text.  The snapshot documentation describes
    another sequence: [query-status] and preconditions before the quiesce and a native
    [snapshot-save] or [migrate], never the monitor's [savevm]. *)
Theorem save_on_the_wire tag n t r1 r2 greeting x0 x1 x2 x3 rest p0 p1 p2 p3 text :
  tag ≠ "" → PauseVM cfg = true →
  cooperative tag n t r1 r2 greeting x0 x1 x2 x3 rest p0 p1 p2 p3 text →
  exec on_net (carried cfg (SaveSnapshot cfg tag)) n =
    (Ok {| ResTag := tag; Quiesced := true; Output := text; Duration := 0; Timestamp := clock n |},
     logged n (frame_items (rpc_payload "quiesce" (clock n)) ++
               (ToMonitor ∘ (λ p, p +:+ newline) <$> [p0; p1; p2; p3]) ++
               frame_items (rpc_payload "unquiesce" (clock n))) []).
Proof.
  intros Htag Hp [[Hv Ht] (Hg & Hr1 & Hr2) [Hf1 Hf2] Hgr Hmon (Hx0 & Hx1 & Hx2 & Hx3) (Hd0 & Hd1 & Hd2 & Hd3)
    (Hm0 & Hm1 & Hm2 & Hm3)].
  destruct (decode_reply (reply x0)) as [v0|?|] eqn:Hv0; [|done..].
  destruct (decode_reply (reply x1)) as [v1|?|] eqn:Hv1; [|done..].
  destruct (decode_reply (reply x3)) as [v3|?|] eqn:Hv3; [|done..].
  rewrite exec_carried. unfold SaveSnapshot. rewrite decide_False by done.
  erewrite exec_call by done. rewrite exec_bind. unfold quiesce_guest. rewrite decide_False by done.
  erewrite exec_call by (by eapply exec_guest_call). cbn beta iota; rewrite exec_ret; cbn [fst snd].
  unfold with_qmp. erewrite exec_call; cycle 1.
  { cbn [carry_out]. rewrite exec_bind.
    rewrite (exec_dial greeting p0 x0 (exchange_lines x1 ++ exchange_lines x2 ++ exchange_lines x3 ++ rest) _ v0) by done.
    reflexivity. }
  cbn [fst snd]. rewrite exec_bind. unfold save_on, when. rewrite Hp, exec_bind.
  erewrite exec_call by by apply (carry_simple Qmp.Stop "stop" _ p1 x1 (exchange_lines x2 ++ exchange_lines x3 ++ rest) _ v1).
  cbn beta iota; rewrite exec_ret; cbn [fst snd].
  erewrite exec_call by by apply (carry_save _ tag p2 x2 (exchange_lines x3 ++ rest) _ text).
  unfold after_save, when. rewrite Hp, exec_bind.
  erewrite exec_call by by apply (carry_simple Qmp.Cont "cont" _ p3 x3 rest _ v3).
  cbn beta iota; rewrite exec_ret; cbn [fst snd]. rewrite exec_bind.
  erewrite exec_call by by apply (exec_guest_call t "unquiesce" r2 []).
  cbn beta iota; rewrite exec_ret; cbn [fst snd report_save]. erewrite exec_call by done. cbn beta iota; rewrite exec_ret; cbn [fst snd].
  erewrite exec_call by done. rewrite exec_ret. cbn.
  rewrite Z.sub_diag. unfold logged, sent. cbn. by rewrite <-!app_assoc.
Qed.
End wire.

(** ** Witnesses *)

Definition sample_cfg : SnapshotConfig :=
  {| QMPSocketPath := "/tmp/qmp.sock"; VSockTarget := "unix:///run/karim/vsock.sock"; PauseVM := true |}.

Definition idle : vm nat :=
  {| guest := 0; frozen := false; running := true; disk := ∅; dialled := false; lost := false; restored := None;
     refused := [] |}.

(** QEMU's monitor prints nothing when it has saved or loaded. *)
Definition silent (text : string) : bool := bool_decide (text = "").

Lemma SaveSnapshot_brackets_witness :
  wp (hypervisor silent) (@SaveSnapshot no_tables sample_cfg "a") (save_promise silent sample_cfg "a" ∅) idle.
Proof. by apply (@SaveSnapshot_brackets nat silent no_tables sample_cfg "a" idle). Defined.

Lemma save_then_restore_witness :
  wp (hypervisor silent)
    (r1 ←! @SaveSnapshot no_tables sample_cfg "a"; r2 ←! @RestoreSnapshot no_tables sample_cfg "a"; Ret (Ok (r1, r2)))
    (λ res s', ∀ r1 r2, res = Ok (r1, r2) → silent (Output r1) = true → silent (Output r2) = true →
       ("cont" ∉ refused s' → running s' = true) ∧ ("unquiesce" ∉ refused s' → frozen s' = false) ∧
       ∃ sn, restored s' = Some sn ∧ taken "a" (s_frozen sn) (s_running sn) (disk idle) (disk s') ∧
         disk s' !! "a" = Some sn ∧ (Quiesced r1 = true → s_frozen sn = true) ∧
         ("stop" ∉ refused s' → s_running sn = negb (PauseVM sample_cfg))) idle.
Proof. by apply (@save_then_restore nat silent no_tables sample_cfg "a" idle). Defined.

Lemma dial_failure_leaves_frozen_witness :
  runs (hypervisor silent) (@SaveSnapshot no_tables sample_cfg "a") idle
    (Err "failed connecting to QMP hypervisor socket /tmp/qmp.sock: connection refused")
    (set_frozen true false idle).
Proof. by apply (@dial_failure_leaves_frozen nat silent no_tables sample_cfg "a" idle "connection refused"). Defined.

Definition hmp_error : string := "Error: No block device can accept snapshots".

Lemma refused_save_reported_saved_witness :
  ∃ r s', runs (hypervisor silent) (@SaveSnapshot no_tables sample_cfg "a") idle (Ok r) s' ∧
    Output r = hmp_error ∧ ResTag r = "a" ∧ disk s' = disk idle.
Proof. by apply (@refused_save_reported_saved nat silent no_tables sample_cfg "a" idle hmp_error). Defined.

(** A guest that answers every request with success. *)
Definition yes_codec : JsonCodec := {|
  encode_request req := Command req;
  decode_request s := inr s;
  encode_response resp := inr "";
  decode_response s := inl {| r_ID := ""; Success := true; Error := ""; Data := DNil |}
|}.

Definition one_frame : reader := {| chunks := [be32 2; "{}"]; stream_ends := EOF |}.
Definition stopping : exchange := {| events := [event_line]; reply := reply_line "stopped" |}.
Definition quiet (v : string) : exchange := {| events := []; reply := reply_line v |}.

Definition sample_net : net := {|
  log := [];
  monitor := {| chunks := [reply_line "hello"; reply_line "ready"; event_line; reply_line "stopped";
                           reply_line ""; reply_line "running"]; stream_ends := EOF |};
  guests := [one_frame; one_frame];
  clock := 5 |}.

Definition sample_target : target := TUnix "/run/karim/vsock.sock".

Lemma sample_cooperative :
  @cooperative no_tables yes_codec sample_codec sample_cfg "a" sample_net sample_target one_frame one_frame
    (reply_line "hello") (quiet "ready") stopping (quiet "") (quiet "running") []
    "qmp_capabilities" "stop" "human-monitor-command savevm a" "cont" "".
Proof.
  split.
  - by split; vm_compute.
  - by split_and!; vm_compute.
  - by split; vm_compute.
  - by split_and!; vm_compute.
  - by vm_compute.
  - split_and!; sample_exchange.
  - by split_and!; vm_compute.
  - by split_and!; vm_compute.
Qed.

Lemma save_on_the_wire_witness :
  exec on_net (@carried no_tables yes_codec sample_codec sample_cfg _ (@SaveSnapshot no_tables sample_cfg "a")) sample_net =
    (Ok {| ResTag := "a"; Quiesced := true; Output := ""; Duration := 0; Timestamp := 5 |},
     logged sample_net (frame_items "quiesce" ++
       (ToMonitor ∘ (λ p, p +:+ newline) <$> ["qmp_capabilities"; "stop"; "human-monitor-command savevm a"; "cont"]) ++
       frame_items "unquiesce") []).
Proof.
  exact (@save_on_the_wire no_tables yes_codec sample_codec sample_cfg "a" sample_net sample_target one_frame
    one_frame (reply_line "hello") (quiet "ready") stopping (quiet "") (quiet "running") []
    "qmp_capabilities" "stop" "human-monitor-command savevm a" "cont" "" ltac:(done) eq_refl sample_cooperative).
Defined.
