(* ===== verification/MockQmp.v ===== *)
(** * The monitor of the integration tests ([testing/mock_qmp_server.go])

    A small monitor that keeps its snapshots in a map, and a guest that accepts every
    request.  The last part runs the client of [Qmp] against it. *)

From Stdlib Require Import Ascii.
From S2P Require Import Prelude GoStrings GoStrconv GoFmt GoPath GoFlag Prog Protocol Server Qmp.

(** ** The guest *)

Record mockVSock := { quiesced : bool }.

(** The operations of [ServiceProvider]; the other requests of the server are not its own. *)
Definition mock_call {X} (e : srv_ev X) (m : mockVSock) : option (X * mockVSock) :=
  match e in srv_ev Y return option (Y * mockVSock) with
  | ListServices => Some ([], m)
  | StartService _ | StopService _ | LoadService _ | ApplyBundle _ => Some (None, m)
  | GetServiceLogs _ => Some (inl "", m)
  | Quiesce => Some (None, {| quiesced := true |})
  | Unquiesce => Some (None, {| quiesced := false |})
  | _ => None
  end.

(** ** The monitor *)

(** [encoding/json] on a request: the text of ["execute"] and that of ["command-line"] in
    the arguments, empty where there is none; and on the one answer that is marshalled. *)
Class MockCodec := {
  execute_of : string → string;
  command_line_of : string → string;
  marshal_return : string → string
}.

Definition quoted_key (k : string) : string := dq +:+ k +:+ dq.

Definition greeting : string :=
  "{" +:+ quoted_key "QMP" +:+ ": {" +:+ quoted_key "version" +:+ ": {" +:+ quoted_key "qemu" +:+ ": {" +:+
  quoted_key "major" +:+ ": 8, " +:+ quoted_key "minor" +:+ ": 2, " +:+ quoted_key "micro" +:+ ": 0}}, " +:+
  quoted_key "capabilities" +:+ ": []}}".

Definition return_line (v : string) : string := "{" +:+ return_key +:+ " " +:+ v +:+ "}".
Definition error_line (desc : string) : string :=
  "{" +:+ error_key +:+ " {" +:+ quoted_key "class" +:+ ": " +:+ quoted_key "CommandNotFound" +:+ ", " +:+
  quoted_key "desc" +:+ ": " +:+ quoted_key desc +:+ "}}".
Definition running_line : string :=
  return_line ("{" +:+ quoted_key "running" +:+ ": true, " +:+ quoted_key "singlestep" +:+ ": false, " +:+
               quoted_key "status" +:+ ": " +:+ quoted_key "running" +:+ "}").

(** [\n] is an escape of JSON here, two characters of the line. *)
Definition note (tag what : string) : string :=
  return_line (dq +:+ "Snapshot " +:+ tag +:+ " " +:+ what +:+ "\n" +:+ dq).

Definition saved_date : string := "32M 2026-09-17 12:00:00".

Definition info_row (id : nat) (snapshot : string * string) : string :=
  itoa (Z.of_nat id) +:+ "         " +:+ pad_right 18 snapshot.1 +:+ " " +:+ snapshot.2 +:+ "   00:00:10.000".

Definition info_lines (snapshots : list (string * string)) : list string :=
  ["Snapshot devices: drive0"; "Snapshot list (drives):"; table_header] ++ imap (λ i, info_row (S i)) snapshots.

(** The state of a connection, with the map it shares with the others. *)
Record mock_state := { isCaps : bool; snapshots : gmap string string }.

Definition with_snapshots (st : mock_state) (m : gmap string string) : mock_state :=
  {| isCaps := isCaps st; snapshots := m |}.

Section monitor.
Context {UT : UnicodeTables} {MC : MockCodec}.

(** A human command; [order] is the order in which the map is iterated. *)
Definition human (order : list string) (cmdLine : string) (m : gmap string string) : string * gmap string string :=
  if has_prefix cmdLine "savevm " then
    let tag := trim_prefix cmdLine "savevm " in (note tag "saved", <[tag := saved_date]> m)
  else if has_prefix cmdLine "loadvm " then (note (trim_prefix cmdLine "loadvm ") "restored", m)
  else if has_prefix cmdLine "delvm " then
    let tag := trim_prefix cmdLine "delvm " in (note tag "deleted", delete tag m)
  else if decide (cmdLine = "info snapshots") then
    (marshal_return (document (info_lines (omap (λ tag, (tag,.) <$> m !! tag) order))), m)
  else (return_line (dq +:+ "OK" +:+ dq), m).

(** The answer to one line that is not blank. *)
Definition answer (order : list string) (line : string) (st : mock_state) : string * mock_state :=
  let cmd := execute_of line in
  if decide (cmd = "qmp_capabilities") then (return_line "{}", {| isCaps := true; snapshots := snapshots st |})
  else if negb (isCaps st) then (error_line "capabilities not negotiated", st)
  else if decide (cmd = "stop" ∨ cmd = "cont") then (return_line "{}", st)
  else if decide (cmd = "query-status") then (running_line, st)
  else if decide (cmd = "human-monitor-command") then
    let '(reply, m) := human order (command_line_of line) (snapshots st) in (reply, with_snapshots st m)
  else (error_line "unknown", st).

(** The loop of [handleConn] over the lines that arrive; [order] gives the order of the map
    for each of them. *)
Fixpoint mock_lines (order : nat → gmap string string → list string) (ls : list string) (st : mock_state)
    : list string * mock_state :=
  match ls with
  | [] => ([], st)
  | l :: ls =>
      let line := trim_space l in
      if decide (line = "") then mock_lines order ls st
      else
        let '(reply, st) := answer (order (length ls) (snapshots st)) line st in
        let '(replies, st) := mock_lines order ls st in (reply :: replies, st)
  end.

(** A connection: what is written on it, line by line, and the map after it. *)
Definition mock_handleConn (order : nat → gmap string string → list string) (conn : reader) (m : gmap string string)
    : list string * gmap string string :=
  let '(replies, st) := mock_lines order (lines (NewReader conn)) {| isCaps := false; snapshots := m |} in
  (greeting :: replies, snapshots st).
End monitor.

(** ** Start and shutdown *)

Record mock_flags := { qmpPath : string; vsockPath : string }.
Definition default_mock_flags : mock_flags := {| qmpPath := "/tmp/qmp.sock"; vsockPath := "/tmp/vsock.sock" |}.
Definition mock_is_bool (name : string) : option bool := if decide (name ∈ ["qmp"; "vsock"]) then Some false else None.
Definition mock_set (name v : string) (f : mock_flags) : option mock_flags :=
  Some (if decide (name = "qmp") then {| qmpPath := v; vsockPath := vsockPath f |}
        else {| qmpPath := qmpPath f; vsockPath := v |}).

Inductive mock_ev : Type → Type :=
| MakeDirs (path : string) (mode : Z) : mock_ev unit
| NetListen (path : string) : mock_ev (option string)
| ListenGuest (path : string) : mock_ev (option string)
| ServeMonitor : mock_ev unit
| ServeGuest : mock_ev unit
| AwaitSignal : mock_ev unit
| CloseGuestServer : mock_ev unit
| CloseListener (path : string) : mock_ev unit
| Complain (text : string) : mock_ev unit.

(** [os.Exit] skips the deferred calls. *)
Definition mock_main (args : list string) : prog mock_ev Z :=
  match parse_flags mock_is_bool mock_set args default_mock_flags with
  | None => Ret (parse_exit mock_is_bool mock_set args default_mock_flags)
  | Some (f, _) =>
      Vis (MakeDirs (Dir (qmpPath f)) 0x1ED) (λ _, Vis (MakeDirs (Dir (vsockPath f)) 0x1ED) (λ _,
      Vis (NetListen (qmpPath f)) (λ err,
      match err with
      | Some e => Vis (Complain ("Failed creating QMP listener on " +:+ qmpPath f +:+ ": " +:+ e)) (λ _, Ret 1%Z)
      | None =>
          Vis (ListenGuest (vsockPath f)) (λ err,
          match err with
          | Some e => Vis (Complain ("Failed creating VSOCK listener on " +:+ vsockPath f +:+ ": " +:+ e)) (λ _, Ret 1%Z)
          | None =>
              Vis ServeMonitor (λ _, Vis ServeGuest (λ _, Vis AwaitSignal (λ _, Vis CloseGuestServer (λ _,
              Vis (CloseListener (vsockPath f)) (λ _, Vis (CloseListener (qmpPath f)) (λ _, Ret 0%Z))))))
          end)
      end)))
  end.


(** * Properties *)

(** ** The list it prints *)

Definition listed_as (id : nat) (tag : string) : SnapshotInfo :=
  {| SnapID := itoa (Z.of_nat id); Tag := tag; VMSize := "32M"; Date := "2026-09-17 12:00:00"; VMClock := "00:00:10.000" |}.

(** A tag without blanks, of the characters that need no escape. *)
Definition tag_ok (tag : string) : Prop := word tag = true ∧ str_forall plain tag = true.

Lemma repeat_snoc n : str_repeat n " " +:+ " " = String " " (str_repeat n " ").
Proof. induction n as [|n IH]; [done|]. cbn [str_repeat]. by rewrite str_app_assoc, IH. Qed.

Definition info_cells (tag : string) : list (nat * string) :=
  [(8, tag); (18 - rune_count tag, "32M"); (0, "2026-09-17"); (0, "12:00:00"); (2, "00:00:10.000")].

Lemma info_row_cells id tag : info_row id (tag, saved_date) = row (itoa (Z.of_nat id)) (info_cells tag).
Proof.
  unfold info_row, pad_right, info_cells, saved_date. cbn [fst snd row]. rewrite !str_app_assoc. do 3 f_equal.
  rewrite <-(str_app_assoc (str_repeat _ _)), repeat_snoc. done.
Qed.

Lemma word_itoa n : word (itoa (Z.of_nat n)) = true.
Proof.
  destruct (itoa_digits (Z.of_nat n)) as [Hd Hne]; [lia|]. unfold word. rewrite andb_true_iff, bool_decide_false by done.
  split; [|done]. eapply str_forall_impl; [|exact Hd]. intros a. by destruct a as [[] [] [] [] [] [] [] []].
Qed.

Lemma document_join ls : document ls = str_join newline (ls ++ [""]).
Proof.
  induction ls as [|l ls IH]; [done|]. cbn [document foldr app]. fold (document ls). rewrite IH.
  by destruct ls.
Qed.

Lemma split_document ls :
  Forall (λ l, str_free "010" l = true) ls → str_split "010" (document ls) = ls ++ [""].
Proof.
  intros Hls. rewrite document_join. apply str_split_join; [by destruct ls|].
  apply Forall_app. split; [done|by apply Forall_singleton].
Qed.

Lemma parse_document ls :
  ls ≠ [] → Forall (λ l, str_free "010" l = true) ls →
  ParseSnapshotList (document ls) = ParseSnapshotList (str_join newline ls).
Proof.
  intros Hne Hls. unfold ParseSnapshotList. rewrite split_document, foldl_app by done.
  unfold newline. rewrite str_split_join by done. cbn [foldl]. by destruct (foldl list_line _ ls).
Qed.

Lemma info_data_row id tag : tag_ok tag → data_row (itoa (Z.of_nat id), info_cells tag).
Proof.
  intros [Hw _]. assert (row_ok (itoa (Z.of_nat id)) (info_cells tag)) as Hrow.
  { split; [apply word_itoa|]. by repeat (apply Forall_cons; split; [done|]). }
  split; [done|]. split; [|by apply row_free].
  destruct (itoa_digits (Z.of_nat id)) as [Hd Hne]; [lia|]. destruct (itoa (Z.of_nat id)) as [|a s]; [done|].
  cbn [str_forall] in Hd. apply andb_true_iff in Hd as [Ha _]. cbn [fst].
  destruct (has_prefix (String a s) "ID") eqn:Hp; [|done].
  apply has_prefix_true in Hp as [t Ht]. injection Ht as -> _. done.
Qed.

Lemma omap_imap {A B C} (f : nat → A → B) (g : B → option C) (h : nat → A → C) l :
  (∀ i x, g (f i x) = Some (h i x)) → omap g (imap f l) = imap h l.
Proof.
  revert f h. induction l as [|x l IH]; intros f h H; [done|]. rewrite !imap_cons. cbn [omap list_omap]. rewrite H.
  f_equal. apply IH. intros i y. apply H.
Qed.

(** The client reads back what the monitor lists. *)
Lemma info_listed tags :
  Forall tag_ok tags →
  ParseSnapshotList (document (info_lines ((λ tag, (tag, saved_date)) <$> tags))) = imap (λ i, listed_as (S i)) tags.
Proof.
  intros Htags.
  set (rs := imap (λ i tag, (itoa (Z.of_nat (S i)), info_cells tag)) tags).
  assert (info_lines ((λ tag, (tag, saved_date)) <$> tags) =
    ["Snapshot devices: drive0"; "Snapshot list (drives):"] ++ table_header :: ((λ r, row r.1 r.2) <$> rs)) as ->.
  { unfold info_lines. cbn [app]. do 3 f_equal. unfold rs. rewrite fmap_imap, imap_fmap. apply imap_ext.
    intros i tag _. apply info_row_cells. }
  assert (Forall data_row rs) as Hrs.
  { apply Forall_lookup. intros i r. unfold rs. rewrite list_lookup_imap. intros (tag & Htag & ->)%fmap_Some.
    apply info_data_row. by eapply Forall_lookup_1. }
  rewrite parse_document, parse_table; [|by repeat constructor|done|done|done|done|].
  - by apply omap_imap.
  - apply Forall_app. split; [by repeat constructor|]. apply Forall_cons. split; [done|].
    apply Forall_fmap. eapply Forall_impl; [exact Hrs|]. by intros r (_ & _ & H).
Qed.

(** ** The client and the monitor *)

Section agreement.
Context {UT : UnicodeTables} {Q : QmpCodec} {MC : MockCodec}.

(** The two ends write and read the same JSON: commands whose texts need no escape, and
    the answers of the monitor. *)
Record codecs_agree : Prop := {
  agree_command cmd args :
    str_forall plain cmd = true → Forall (λ kv, str_forall plain kv.2 = true) args →
    ∃ p, marshal_command cmd args = inl p ∧ trimmed p = true ∧ p ≠ "" ∧ str_free "010" p = true ∧
         execute_of p = cmd ∧ command_line_of p = default "" (snd <$> head args);
  agree_greeting : unmarshal_greeting greeting = None;
  agree_done :
    unmarshal_response (return_line "{}") = inl {| Return := JObj []; RespError := None; Event := "" |};
  agree_note tag what :
    str_forall plain tag = true → what ∈ ["saved"; "restored"; "deleted"] →
    unmarshal_response (note tag what) =
      inl {| Return := JStr ("Snapshot " +:+ tag +:+ " " +:+ what +:+ newline); RespError := None; Event := "" |};
  agree_text ls :
    Forall (λ l, str_forall plain l = true) ls →
    let l := marshal_return (document ls) in
    trimmed l = true ∧ str_free "010" l = true ∧ str_contains l return_key = true ∧
    unmarshal_response l = inl {| Return := JStr (document ls); RespError := None; Event := "" |}
}.

Inductive mock_op := OpSave (tag : string) | OpLoad (tag : string) | OpDelete (tag : string).

Definition op_tag (op : mock_op) : string := match op with OpSave t | OpLoad t | OpDelete t => t end.
Definition op_line (op : mock_op) : string :=
  match op with OpSave t => "savevm " +:+ t | OpLoad t => "loadvm " +:+ t | OpDelete t => "delvm " +:+ t end.
Definition op_reply (op : mock_op) : string :=
  match op with OpSave t => note t "saved" | OpLoad t => note t "restored" | OpDelete t => note t "deleted" end.
Definition apply_op (m : gmap string string) (op : mock_op) : gmap string string :=
  match op with OpSave t => <[t := saved_date]> m | OpLoad _ => m | OpDelete t => delete t m end.

(** The same operations through the client, and the list after them. *)
Definition run_op (c : Client) (op : mock_op) : prog qmp_ev (outcome string * Client) :=
  match op with OpSave t => SaveVM c t | OpLoad t => LoadVM c t | OpDelete t => DelVM c t end.
Fixpoint run_ops (c : Client) (ops : list mock_op) : prog qmp_ev (outcome (list SnapshotInfo) * Client) :=
  match ops with
  | [] => ListSnapshots c
  | op :: ops => andThen (run_op c op) (λ _ c, run_ops c ops)
  end.

(** What the client writes. *)
Definition payload (cmd : string) (args : list (string * string)) : string :=
  match marshal_command cmd args with inl p => p | inr _ => "" end.
Definition human_payload (l : string) : string := payload "human-monitor-command" [("command-line", l)].
Definition op_payloads (ops : list mock_op) : list string :=
  (human_payload ∘ op_line <$> ops) ++ [human_payload "info snapshots"].
Definition transcript (ops : list mock_op) : string := document (payload "qmp_capabilities" [] :: op_payloads ops).

Hypothesis Hagree : codecs_agree.

Lemma trim_space_nl s : trimmed s = true → trim_space (s +:+ newline) = s.
Proof.
  intros H. destruct s as [|a s]; [done|]. pose proof (trim_space_trimmed _ H) as Ht. unfold trim_space in *.
  unfold trimmed in H. apply andb_true_iff in H as [Ha _]. rewrite trim_left_ns in Ht by done.
  rewrite str_app_cons, trim_left_ns, <-str_app_cons by done. unfold newline. by rewrite trim_right_space1.
Qed.

Lemma payload_ok cmd args :
  str_forall plain cmd = true → Forall (λ kv, str_forall plain kv.2 = true) args →
  marshal_command cmd args = inl (payload cmd args) ∧ trim_space (payload cmd args +:+ newline) = payload cmd args ∧
  payload cmd args ≠ "" ∧ str_free "010" (payload cmd args) = true ∧
  execute_of (payload cmd args) = cmd ∧ command_line_of (payload cmd args) = default "" (snd <$> head args).
Proof.
  intros Hc Ha. destruct (agree_command Hagree cmd args Hc Ha) as (p & Hp & Ht & Hne & Hf & He & Hl).
  unfold payload. rewrite Hp. split_and!; try done. by apply trim_space_nl.
Qed.

Lemma human_payload_ok l :
  str_forall plain l = true →
  let p := human_payload l in
  marshal_command "human-monitor-command" [("command-line", l)] = inl p ∧ trim_space (p +:+ newline) = p ∧ p ≠ "" ∧
  str_free "010" p = true ∧ execute_of p = "human-monitor-command" ∧ command_line_of p = l.
Proof. intros Hl. apply payload_ok; [done|by apply Forall_singleton]. Qed.

Lemma op_line_plain op : tag_ok (op_tag op) → str_forall plain (op_line op) = true.
Proof. intros [_ H]. destruct op; cbn [op_line op_tag] in *; by rewrite str_forall_app, H. Qed.

(** *** The monitor's side *)

Lemma human_op order op m : human order (op_line op) m = (op_reply op, apply_op m op).
Proof.
  unfold human. destruct op as [t|t|t]; cbn [op_line op_reply apply_op].
  - by rewrite has_prefix_app, trim_prefix_app.
  - rewrite has_prefix_app, trim_prefix_app. by replace (has_prefix ("loadvm " +:+ t) "savevm ") with false.
  - rewrite has_prefix_app, trim_prefix_app. by replace (has_prefix ("delvm " +:+ t) "savevm ") with false.
Qed.

(** While its snapshots are those it saved itself. *)
Definition all_saved (m : gmap string string) : Prop := ∀ tag date, m !! tag = Some date → date = saved_date.

Lemma apply_op_saved m op : all_saved m → all_saved (apply_op m op).
Proof.
  intros Hm. destruct op as [t|t|t]; cbn [apply_op]; intros tag date; [..|by apply Hm|].
  - rewrite lookup_insert_Some. intros [[_ <-]|[_ H]]; [done|by apply (Hm tag)].
  - rewrite lookup_delete_Some. intros [_ H]. by apply (Hm tag).
Qed.

Lemma shown_tags m tags :
  all_saved m → tags ≡ₚ (map_to_list m).*1 →
  omap (λ tag, (tag,.) <$> m !! tag) tags = (λ tag, (tag, saved_date)) <$> tags.
Proof.
  intros Hm Hp. assert (Forall (λ tag, m !! tag = Some saved_date) tags) as H.
  { apply Forall_forall. intros tag Htag. rewrite Hp in Htag. apply list_elem_of_fmap in Htag as ([k d] & -> & Hd).
    apply elem_of_map_to_list in Hd. cbn. by rewrite (Hm k d Hd) in Hd. }
  clear Hp. induction H as [|tag tags Htag _ IH]; [done|]. cbn [omap list_omap fmap list_fmap].
  by rewrite Htag, <-IH.
Qed.

Definition lines_of (ps : list string) : list string := (λ p, p +:+ newline) <$> ps.

Section served.
Context (order : nat → gmap string string → list string).
Hypothesis Horder : ∀ i m, order i m ≡ₚ (map_to_list m).*1.

Definition info_reply (m : gmap string string) : string :=
  marshal_return (document (info_lines ((λ tag, (tag, saved_date)) <$> order 0 m))).

Lemma answer_human i op_cmd m :
  str_forall plain op_cmd = true →
  answer (order i m) (human_payload op_cmd) {| isCaps := true; snapshots := m |} =
    let '(reply, m) := human (order i m) op_cmd m in (reply, {| isCaps := true; snapshots := m |}).
Proof.
  intros Hl. destruct (human_payload_ok op_cmd Hl) as (_ & _ & _ & _ & He & Hc). unfold answer. by rewrite He, Hc.
Qed.

Lemma mock_ops ops m :
  Forall (λ op, tag_ok (op_tag op)) ops → all_saved m →
  mock_lines order (lines_of (op_payloads ops)) {| isCaps := true; snapshots := m |} =
    ((op_reply <$> ops) ++ [info_reply (foldl apply_op m ops)],
     {| isCaps := true; snapshots := foldl apply_op m ops |}).
Proof.
  intros Hops. revert m. induction Hops as [|op ops Hop _ IH]; intros m Hm.
  - cbn [op_payloads lines_of fmap list_fmap app mock_lines foldl length].
    destruct (human_payload_ok "info snapshots") as (_ & -> & Hne & _); [done|].
    rewrite decide_False by done. cbn [snapshots]. rewrite answer_human by done.
    unfold human, info_reply. cbn. by rewrite shown_tags.
  - change (lines_of (op_payloads (op :: ops))) with ((human_payload (op_line op) +:+ newline) :: lines_of (op_payloads ops)).
    cbn [mock_lines]. destruct (human_payload_ok (op_line op)) as (_ & -> & Hne & _); [by apply op_line_plain|].
    rewrite decide_False by done. cbn [snapshots]. rewrite answer_human, human_op by by apply op_line_plain.
    by rewrite IH by by apply apply_op_saved.
Qed.

(** *** The client's side *)

Definition reply_ok (l : string) (v : json) : Prop :=
  trimmed l = true ∧ str_free "010" l = true ∧ str_contains l return_key = true ∧
  unmarshal_response l = inl {| Return := v; RespError := None; Event := "" |}.

Lemma return_line_ok v j :
  str_free "010" v = true →
  unmarshal_response (return_line v) = inl {| Return := j; RespError := None; Event := "" |} → reply_ok (return_line v) j.
Proof.
  intros Hv Hu. unfold return_line in *. split_and!; [| |by apply (contains_mid "{")|done].
  - rewrite <-(str_app_assoc return_key), <-(str_app_assoc (return_key +:+ " ")). by apply (trimmed_ends "{" _ "}").
  - by rewrite !str_forall_app, Hv.
Qed.

Lemma plain_free s : str_forall plain s = true → str_free "010" s = true.
Proof.
  apply str_forall_impl. intros a. by destruct a as [[] [] [] [] [] [] [] []].
Qed.

Definition op_answer (op : mock_op) : json :=
  JStr ("Snapshot " +:+ op_tag op +:+ " " +:+
        match op with OpSave _ => "saved" | OpLoad _ => "restored" | OpDelete _ => "deleted" end +:+ newline).

Lemma op_reply_ok op : tag_ok (op_tag op) → reply_ok (op_reply op) (op_answer op).
Proof.
  intros [_ Ht]. assert (∀ what, what ∈ ["saved"; "restored"; "deleted"] → str_free "010" what = true →
    reply_ok (note (op_tag op) what) (JStr ("Snapshot " +:+ op_tag op +:+ " " +:+ what +:+ newline))) as H.
  { intros what Hw Hf. unfold note. apply return_line_ok; [|by apply (agree_note Hagree)].
    by rewrite !str_forall_app, (plain_free _ Ht), Hf. }
  destruct op; apply H; done || by apply (bool_decide_unpack _).
Qed.

Lemma info_plain tags :
  Forall tag_ok tags → Forall (λ l, str_forall plain l = true) (info_lines ((λ tag, (tag, saved_date)) <$> tags)).
Proof.
  intros Htags. unfold info_lines. apply Forall_app. split; [by repeat constructor|].
  apply Forall_lookup. intros i l. rewrite list_lookup_imap, list_lookup_fmap.
  destruct (tags !! i) as [tag|] eqn:Ht; [|done]. intros [= <-].
  assert (tag_ok tag) as [_ Htag] by by eapply Forall_lookup_1. unfold info_row, pad_right. cbn [fst snd].
  destruct (itoa_digits (Z.of_nat (S i))) as [Hd _]; [lia|].
  assert (str_forall plain (itoa (Z.of_nat (S i))) = true) as Hid.
  { eapply str_forall_impl; [|exact Hd]. intros a. by destruct a as [[] [] [] [] [] [] [] []]. }
  assert (∀ n, str_forall plain (str_repeat n " ") = true) as Hb by by induction n.
  by rewrite !str_forall_app, Hid, Htag, Hb.
Qed.

Lemma info_reply_ok m :
  Forall tag_ok (order 0 m) →
  reply_ok (info_reply m) (JStr (document (info_lines ((λ tag, (tag, saved_date)) <$> order 0 m)))).
Proof. intros Hm. apply (agree_text Hagree), info_plain, Hm. Qed.

Lemma exec_command c cmd args p l v rest sent :
  closed c = false → lines c = (l +:+ newline) :: rest → reply_ok l v → marshal_command cmd args = inl p →
  exec sending (Execute c cmd args) sent = ((Ok v, with_lines c rest), sent +:+ p +:+ newline).
Proof.
  intros Hc Hl (Ht & Hf & Hk & Hu) Hm. rewrite (Execute_eq _ _ _ p) by done. cbn [exec sending].
  rewrite await_reply_spec by lia. assert (trim_space (l +:+ newline) = l) as Htl by by apply trim_space_nl.
  rewrite (first_reply_exchange c {| events := []; reply := l +:+ newline |} rest).
  - cbn [reply]. unfold decode_reply. by rewrite Htl, Hu.
  - split; [by constructor|]. unfold reply_msg. cbn [reply]. rewrite Htl, Hu. split_and!; [|by left|by intros r [= <-]].
    by intros ->.
  - done.
Qed.

Lemma exec_then {A B} (p : prog qmp_ev (outcome A * Client)) (f : A → Client → prog qmp_ev (outcome B * Client)) a c s s' :
  exec sending p s = ((Ok a, c), s') → exec sending (andThen p f) s = exec sending (f a c) s'.
Proof. intros H. unfold andThen. by rewrite exec_bind, H. Qed.

Lemma exec_human c l p r s rest sent :
  closed c = false → lines c = (r +:+ newline) :: rest → reply_ok r (JStr s) →
  marshal_command "human-monitor-command" [("command-line", l)] = inl p →
  exec sending (HumanMonitorCommand c l) sent = ((Ok s, with_lines c rest), sent +:+ p +:+ newline).
Proof. intros ????. unfold HumanMonitorCommand. by erewrite exec_then by by eapply exec_command. Qed.

Lemma run_op_human c op :
  tag_ok (op_tag op) → run_op c op = HumanMonitorCommand c (op_line op).
Proof.
  intros [[_ Hne]%word_split _]. destruct op; cbn [run_op op_tag op_line] in *; unfold SaveVM, LoadVM, DelVM;
    by rewrite decide_False.
Qed.

Lemma document_cons l ls : document (l :: ls) = l +:+ newline +:+ document ls.
Proof. done. Qed.

Lemma exec_ops ops m c sent :
  closed c = false → Forall (λ op, tag_ok (op_tag op)) ops → Forall tag_ok (order 0 (foldl apply_op m ops)) →
  lines c = lines_of ((op_reply <$> ops) ++ [info_reply (foldl apply_op m ops)]) →
  exec sending (run_ops c ops) sent =
    ((Ok (imap (λ i, listed_as (S i)) (order 0 (foldl apply_op m ops))), with_lines c []),
     sent +:+ document (op_payloads ops)).
Proof.
  intros Hc Hops Hall. revert m c sent Hc Hall. induction Hops as [|op ops Hop _ IH]; intros m c sent Hc Hall Hl.
  - cbn [run_ops foldl] in *. unfold ListSnapshots.
    destruct (human_payload_ok "info snapshots") as [Hm _]; [done|].
    erewrite exec_then; [|eapply exec_human; [exact Hc|exact Hl|by apply info_reply_ok|exact Hm]]. cbn [exec].
    by rewrite info_listed.
  - cbn [run_ops foldl fmap list_fmap app] in *. destruct (human_payload_ok (op_line op)) as [Hm _]; [by apply op_line_plain|].
    erewrite exec_then.
    2:{ rewrite run_op_human by done. eapply exec_human; [exact Hc|exact Hl|by apply op_reply_ok|exact Hm]. }
    rewrite (IH (apply_op m op)) by done. f_equal.
    change (op_payloads (op :: ops)) with (human_payload (op_line op) :: op_payloads ops).
    by rewrite document_cons, !str_app_assoc.
Qed.

(** *** Both together *)

Lemma reader_lines r ls :
  Forall (λ l, str_free "010" l = true) ls → bytes r = document ls → lines (NewReader r) = lines_of ls.
Proof.
  intros Hls Hr. unfold NewReader, bytes in *. cbn [lines]. rewrite Hr, split_document by done.
  by rewrite removelast_last.
Qed.

Lemma saved_tags ops m :
  Forall (λ op, tag_ok (op_tag op)) ops → (∀ tag, is_Some (m !! tag) → tag_ok tag) →
  ∀ tag, is_Some (foldl apply_op m ops !! tag) → tag_ok tag.
Proof.
  intros Hops. revert m. induction Hops as [|op ops Hop _ IH]; intros m Hm; [done|]. cbn [foldl]. apply IH.
  intros tag [d Hd]. destruct op as [t|t|t]; cbn [apply_op op_tag] in *; [|by apply Hm|].
  - apply lookup_insert_Some in Hd as [[<- _]|[_ Hd]]; [done|by apply Hm].
  - apply lookup_delete_Some in Hd as [_ Hd]. by apply Hm.
Qed.

Lemma exec_DialConn conn rest sent :
  lines (NewReader conn) = lines_of (greeting :: return_line "{}" :: rest) →
  ∃ c, closed c = false ∧ lines c = lines_of rest ∧
    exec sending (DialConn conn) sent = (Ok c, sent +:+ payload "qmp_capabilities" [] +:+ newline).
Proof.
  intros Hl. destruct (payload_ok "qmp_capabilities" []) as [Hm _]; [done|by apply Forall_nil|].
  set (c0 := with_lines (NewReader conn) (lines_of (return_line "{}" :: rest))).
  exists (with_lines c0 (lines_of rest)). split_and!; [done..|].
  assert (readLine (NewReader conn) = (Ok greeting, c0)) as Hg.
  { unfold readLine. rewrite Hl. change (lines_of (greeting :: ?ls)) with ((greeting +:+ newline) :: lines_of ls).
    cbn [read_line]. rewrite trim_space_nl by (by vm_compute). rewrite decide_False by done.
    by replace (looks_like_event greeting) with false by (by vm_compute). }
  unfold DialConn, handshake. rewrite Hg. cbn [wrap_err]. rewrite (agree_greeting Hagree).
  rewrite exec_bind. erewrite exec_then; [done|]. unfold wrapC. rewrite exec_bind.
  erewrite exec_command; [done|done|done| |exact Hm]. apply return_line_ok; [done|apply (agree_done Hagree)].
Qed.
End served.
End agreement.

Section both.
Context {UT : UnicodeTables} {Q : QmpCodec} {MC : MockCodec}.

(** C40: the monitor of the tests keeps what it is told.  When a client and this monitor talk
    over a connection, in whatever pieces the bytes arrive on either side, the client
    negotiates, each operation succeeds, and the list it reads in the end shows every tag
    that was saved and not deleted since, once, numbered from one, in the order of the map,
    with the texts the monitor gave it.  The tags are words of plain ASCII
    ([tag_ok]).  The snapshot documentation says this monitor replays recorded transcripts
    and answers an unexpected command with a [GenericError]: it keeps a table of tags,
    answers an unknown line of the human monitor with success and an unknown command with
    [CommandNotFound]. *)
Theorem client_on_mock order ops conn mconn :
  codecs_agree → (∀ i m, order i m ≡ₚ (map_to_list m).*1) → Forall (λ op, tag_ok (op_tag op)) ops →
  bytes mconn = transcript ops → bytes conn = document (mock_handleConn order mconn ∅).1 →
  let final := foldl apply_op ∅ ops in
  (mock_handleConn order mconn ∅).2 = final ∧
  exec sending (c ←! DialConn conn; prog_bind (λ r, Ret r.1) (run_ops c ops)) "" =
    (Ok (imap (λ i, listed_as (S i)) (order 0 final)), transcript ops).
Proof.
  intros Hagree Horder Hops Hmconn Hconn final.
  assert (Forall (λ l, str_free "010" l = true) (payload "qmp_capabilities" [] :: op_payloads ops)) as Hfree.
  { apply Forall_cons. split; [by apply payload_ok|]. apply Forall_app. split.
    - apply Forall_fmap. eapply Forall_impl; [exact Hops|]. intros op Hop. by apply human_payload_ok, op_line_plain.
    - by apply Forall_singleton, human_payload_ok. }
  assert (Forall tag_ok (order 0 final)) as Htags.
  { apply Forall_forall. intros tag Htag. rewrite Horder in Htag. apply list_elem_of_fmap in Htag as ([k d] & -> & Hd).
    apply elem_of_map_to_list in Hd. eapply (saved_tags ops ∅ Hops); [by intros ? []|by eexists]. }
  set (replies := (op_reply <$> ops) ++ [info_reply order final]).
  assert (mock_handleConn order mconn ∅ = (greeting :: return_line "{}" :: replies, final)) as Hmock.
  { unfold mock_handleConn. rewrite (reader_lines mconn _ Hfree Hmconn).
    change (lines_of (payload "qmp_capabilities" [] :: ?ls)) with ((payload "qmp_capabilities" [] +:+ newline) :: lines_of ls).
    destruct (payload_ok Hagree "qmp_capabilities" []) as (_ & Ht & Hne & _ & He & _); [done|by apply Forall_nil|].
    cbn [mock_lines]. rewrite Ht, decide_False by done. unfold answer at 1. rewrite He. cbn [snapshots].
    rewrite decide_True by done. by rewrite mock_ops. }
  rewrite Hmock in Hconn |- *. cbn [fst snd] in *. split; [done|].
  destruct (exec_DialConn Hagree conn replies "") as (c & Hc & Hl & Hdial).
  { apply reader_lines; [|done]. repeat (apply Forall_cons; split; [by vm_compute|]). apply Forall_app. split.
    - apply Forall_fmap. eapply Forall_impl; [exact Hops|]. intros op Hop. by destruct (op_reply_ok Hagree op Hop) as (_ & ? & _).
    - apply Forall_singleton. by destruct (info_reply_ok Hagree order final Htags) as (_ & ? & _). }
  unfold ebind. rewrite exec_bind, Hdial. cbn [fst snd]. rewrite exec_bind.
  rewrite (exec_ops Hagree order ops ∅) by done. cbn [exec fst snd].
  unfold transcript. by rewrite document_cons, str_app_nil_l, str_app_assoc.
Qed.
End both.

(** ** Witness *)

Section witness.
#[local] Existing Instance no_tables.

(** Line feeds are the only characters that are escaped, which is enough for texts without
    quotes and backslashes. *)
Fixpoint esc (s : string) : string :=
  match s with
  | "" => ""
  | String a s => if Ascii.eqb a "010" then "\n" +:+ esc s else String a (esc s)
  end.
Fixpoint unesc (s : string) : string :=
  match s with
  | String "\" (String "n" s) => String "010" (unesc s)
  | String a s => String a (unesc s)
  | "" => ""
  end.

Definition unreturn (line : string) : string :=
  trim_suffix (default "" (strip_prefix ("{" +:+ return_key +:+ " ") line)) "}".

#[local] Instance plain_qmp : QmpCodec := {|
  marshal_command cmd args :=
    inl ("{" +:+ dq +:+ cmd +:+ dq +:+ ":" +:+ dq +:+ default "" (snd <$> head args) +:+ dq +:+ "}");
  unmarshal_greeting line := None;
  unmarshal_response line :=
    let v := unreturn line in
    inl {| Return := if decide (v = "{}") then JObj [] else JStr (unesc (trim_suffix (trim_prefix v dq) dq));
           RespError := None; Event := "" |};
  marshal_value v := inl (show_v v);
  unmarshal_status s := inr "" |}.

#[local] Instance plain_mock : MockCodec := {|
  execute_of p := default "" (str_split "034" p !! 1);
  command_line_of p := default "" (str_split "034" p !! 3);
  marshal_return text := return_line (dq +:+ esc text +:+ dq) |}.

Definition no_escape (a : ascii) : bool := negb (Ascii.eqb a "\") && negb (Ascii.eqb a "034").

Lemma unreturn_line v : unreturn (return_line v) = v.
Proof.
  unfold unreturn, return_line. rewrite <-!(str_app_assoc _ _ (v +:+ "}")), <-(str_app_assoc "{").
  rewrite strip_prefix_app. cbn [default]. apply trim_suffix_app.
Qed.

Lemma unesc_cons a s : no_escape a = true → unesc (String a s) = String a (unesc s).
Proof. by destruct a as [[] [] [] [] [] [] [] []]. Qed.

Lemma unesc_app s t : str_forall no_escape s = true → unesc (s +:+ t) = s +:+ unesc t.
Proof.
  induction s as [|a s IH]; intros H; [done|]. cbn [str_forall] in H. apply andb_true_iff in H as [Ha Hs].
  by rewrite !str_app_cons, unesc_cons, IH.
Qed.

Lemma unesc_esc s : str_forall no_escape s = true → unesc (esc s) = s.
Proof.
  induction s as [|a s IH]; intros H; [done|]. cbn [str_forall] in H. apply andb_true_iff in H as [Ha Hs].
  specialize (IH Hs). cbn [esc]. destruct (Ascii.eqb_spec a "010") as [->|_];
    [change (String "010" (unesc (esc s)) = String "010" s); by rewrite IH|].
  by rewrite unesc_cons, IH.
Qed.

Lemma quoted_value s : trim_suffix (trim_prefix (dq +:+ s +:+ dq) dq) dq = s.
Proof. by rewrite trim_prefix_app, trim_suffix_app. Qed.

Lemma plain_no_escape s : str_forall plain s = true → str_forall no_escape s = true.
Proof. apply str_forall_impl. intros a. by destruct a as [[] [] [] [] [] [] [] []]. Qed.

Lemma document_no_escape ls : Forall (λ l, str_forall plain l = true) ls → str_forall no_escape (document ls) = true.
Proof.
  induction 1 as [|l ls Hl _ IH]; [done|]. rewrite document_cons, !str_forall_app, IH.
  by rewrite (plain_no_escape _ Hl).
Qed.

Lemma esc_free s : str_free "010" (esc s) = true.
Proof.
  induction s as [|a s IH]; [done|]. cbn [esc]. destruct (Ascii.eqb a "010") eqn:Ha; [by rewrite str_forall_app, IH|].
  cbn [str_forall]. by rewrite Ha, IH.
Qed.

Lemma plain_split s : str_forall plain s = true → str_free "034" s = true.
Proof. apply str_forall_impl. intros a. by destruct a as [[] [] [] [] [] [] [] []]. Qed.

Lemma plain_agree : @codecs_agree plain_qmp plain_mock.
Proof.
  split.
  - intros cmd args Hcmd Hargs. set (l := default "" (snd <$> head args)).
    assert (str_forall plain l = true) as Hl by by destruct Hargs.
    exists ("{" +:+ dq +:+ cmd +:+ dq +:+ ":" +:+ dq +:+ l +:+ dq +:+ "}").
    assert (str_split "034" ("{" +:+ dq +:+ cmd +:+ dq +:+ ":" +:+ dq +:+ l +:+ dq +:+ "}") = ["{"; cmd; ":"; l; "}"]) as Hs.
    { apply (str_split_join "034" ["{"; cmd; ":"; l; "}"]); [done|].
      repeat (apply Forall_cons; split; [first [done|by apply plain_split]|]). by apply Forall_nil. }
    split_and!; [done| |done| |cbn; by rewrite Hs..].
    + rewrite <-5!str_app_assoc. rewrite 5!str_app_assoc.
      pose proof (trimmed_ends "{" (dq +:+ cmd +:+ dq +:+ ":" +:+ dq +:+ l +:+ dq) "}") as Ht.
      rewrite !str_app_assoc in Ht. by apply Ht.
    + by rewrite !str_forall_app, (plain_free _ Hcmd), (plain_free _ Hl).
  - done.
  - done.
  - intros tag what Htag Hwhat. unfold note. cbn [unmarshal_response plain_qmp]. rewrite unreturn_line, decide_False by done.
    assert (dq +:+ "Snapshot " +:+ tag +:+ " " +:+ what +:+ "\n" +:+ dq =
      dq +:+ (("Snapshot " +:+ tag +:+ " " +:+ what) +:+ "\n") +:+ dq) as -> by by rewrite !str_app_assoc.
    assert (str_forall no_escape what = true) as Hw.
    { repeat (apply elem_of_cons in Hwhat as [->|Hwhat]; [done|]). by apply not_elem_of_nil in Hwhat. }
    rewrite quoted_value, unesc_app by (by rewrite !str_forall_app, (plain_no_escape _ Htag), Hw).
    by rewrite !str_app_assoc.
  - intros ls Hls. cbn [marshal_return plain_mock]. pose proof (document_no_escape ls Hls) as Hd.
    destruct (return_line_ok (Q := plain_qmp) (dq +:+ esc (document ls) +:+ dq) (JStr (document ls))) as (? & ? & ? & ?);
      [by rewrite !str_forall_app, esc_free| |done].
    cbn [unmarshal_response plain_qmp]. rewrite unreturn_line, decide_False by (by intros [=]).
    by rewrite quoted_value, unesc_esc.
Qed.

(** The same order for every line. *)
Definition keys (_ : nat) (m : gmap string string) : list string := (map_to_list m).*1.

Definition sample_ops : list mock_op := [OpSave "v1"; OpSave "v2"; OpLoad "v2"; OpDelete "v1"].

Lemma client_on_mock_witness :
  let mconn := {| chunks := [transcript sample_ops]; stream_ends := EOF |} in
  let conn := {| chunks := [document (mock_handleConn keys mconn ∅).1]; stream_ends := EOF |} in
  (mock_handleConn keys mconn ∅).2 = {["v2" := saved_date]} ∧
  exec sending (c ←! @DialConn no_tables plain_qmp conn; prog_bind (λ r, Ret r.1) (run_ops c sample_ops)) "" =
    (Ok [listed_as 1 "v2"], transcript sample_ops).
Proof.
  intros mconn conn. apply (@client_on_mock no_tables plain_qmp plain_mock keys sample_ops conn mconn).
  - apply plain_agree.
  - done.
  - by repeat constructor.
  - unfold bytes, mconn. cbn [chunks str_concat]. apply str_app_nil_r.
  - unfold bytes, conn. cbn [chunks str_concat]. apply str_app_nil_r.
Defined.
End witness.
