(* ===== verification/Os.v ===== *)
(** * The operating system

    The requests the guest daemons make of files, mounts and devices, with the answers
    Go's [os] and [unix] packages give.  An error is its number, for the code that
    compares it, and its text. *)

From S2P Require Import Prelude Prog.

Record errno := { code : Z; text : string }.

(** [ReadRTC] opens the device and reads its time: the fields, or the error of the
    request, or none when the device cannot be opened. *)
Inductive lstat_info := NotExist | StatErr (e : string) | Found (isdir : bool).

Inductive os_ev : Type → Type :=
| MkdirAll (path : string) (mode : Z) : os_ev (option string)
| StatErrOf (path : string) : os_ev (option string)
| StatDev (path : string) : os_ev (Z + string)
| LstatAt (path : string) : os_ev lstat_info
| ReadDirOk (path : string) : os_ev (option string)
| ReadFileAt (path : string) : os_ev (string + string)
| WriteFileAt (path data : string) (mode : Z) : os_ev (option string)
| EvalLinks (path : string) : os_ev (string + string)
| SymlinkAt (oldname newname : string) : os_ev (option string)
| CreateFile (path : string) (mode : Z) : os_ev (option string)
| CopyTo (path data : string) : os_ev (option string)
| Mount (source target fstype : string) (flags : Z) (data : string) : os_ev (option errno)
| Unmount (target : string) (flags : Z) : os_ev (option errno)
| Sync : os_ev unit
| Ioctl (path : string) (request : Z) : os_ev ((option errno) + string)
| Geteuid : os_ev Z
| Getpid : os_ev Z
| TimeNow : os_ev Z
| SysinfoUptime : os_ev (option Z)
| ReadDevice (path : string) (size : Z) : os_ev (string + string)
| WriteDevice (path data : string) : os_ev (option string)
| ReadRTC (path : string) : os_ev ((list Z) + option errno)
| ClockSet (nanoseconds : Z) : os_ev (option errno)
| TempDir : os_ev string
| Println (text : string) : os_ev unit.

Definition act (e : os_ev (option string)) : prog os_ev (outcome unit) :=
  Vis e (λ r, Ret match r with Some err => Err err | None => Ok tt end).

(** [_ = f()] *)
Definition ignore_err (e : os_ev (option string)) : prog os_ev (outcome unit) := Vis e (λ _, Ret (Ok tt)).
Definition ignoring {A} (p : prog os_ev (outcome A)) : prog os_ev (outcome unit) :=
  prog_bind (λ _, Ret (Ok tt)) p.

Definition say (text : string) : prog os_ev (outcome unit) := Vis (Println text) (λ _, Ret (Ok tt)).
