(* ===== verification/Stored.v ===== *)
(** * Runtime storage ([internal/stored/stored.go])

    Overlay mounts, the block device of the image, and the linking of the image into
    the root file system.  The image is read-only, so its content is data: a [tree];
    the root is state behind the requests. *)

From Stdlib Require Import Ascii.
From S2P Require Import Prelude GoStrings GoPath Linux Prog Os.

(** ** Overlays *)

Record OverlayConfig := { LowerDir : string; UpperDir : string; WorkDir : string; TargetDir : string }.

Definition BuildOverlayOptions (lowerDir upperDir workDir : string) : string :=
  "lowerdir=" +:+ lowerDir +:+ ",upperdir=" +:+ upperDir +:+ ",workdir=" +:+ workDir.

Definition PrepareOverlayDirectories (baseOverlayDir : string) : prog os_ev (outcome (string * string)) :=
  let upperDir := Join [baseOverlayDir; "upper"] in
  let workDir := Join [baseOverlayDir; "work"] in
  _ ←! wrapping ("failed to create overlay upperdir " +:+ upperDir +:+ ": ") (act (MkdirAll upperDir 0x1ED));
  _ ←! wrapping ("failed to create overlay workdir " +:+ workDir +:+ ": ") (act (MkdirAll workDir 0x1ED));
  Ret (Ok (upperDir, workDir)).

(** [fmt] prints the configuration with its field names. *)
Definition show_config (cfg : OverlayConfig) : string :=
  "{LowerDir:" +:+ LowerDir cfg +:+ " UpperDir:" +:+ UpperDir cfg +:+ " WorkDir:" +:+ WorkDir cfg +:+
  " TargetDir:" +:+ TargetDir cfg +:+ "}".

Definition MountOverlay (cfg : OverlayConfig) : prog os_ev (outcome unit) :=
  if decide (LowerDir cfg = "" ∨ UpperDir cfg = "" ∨ WorkDir cfg = "" ∨ TargetDir cfg = "") then
    throw ("invalid OverlayConfig: all directory paths must be specified (" +:+ show_config cfg +:+ ")")
  else
    _ ←! wrapping ("failed to create target mount dir " +:+ TargetDir cfg +:+ ": ") (act (MkdirAll (TargetDir cfg) 0x1ED));
    let opts := BuildOverlayOptions (LowerDir cfg) (UpperDir cfg) (WorkDir cfg) in
    _ ←! say ("[karim-stored] Mounting OverlayFS: lower=" +:+ LowerDir cfg +:+ ", upper=" +:+ UpperDir cfg +:+
              ", work=" +:+ WorkDir cfg +:+ " -> target=" +:+ TargetDir cfg);
    Vis (Mount "overlay" (TargetDir cfg) "overlay" 0 opts) (λ err,
      match err with
      | None => done_
      | Some e =>
          Vis Geteuid (λ uid,
            if (uid =? 0)%Z then throw ("mount overlay failed on " +:+ TargetDir cfg +:+ ": " +:+ text e)
            else say ("[karim-stored] Notice: Unprivileged execution (EUID!=0), skipping kernel mount syscall on "
                      +:+ TargetDir cfg +:+ ": " +:+ text e))
      end).

(** [unix.EBUSY], [unix.EINVAL] *)
Definition EBUSY : Z := 16.
Definition EINVAL : Z := 22.

Definition UnmountOverlay `{Unix} (targetDir : string) : prog os_ev (outcome unit) :=
  _ ←! say ("[karim-stored] Unmounting target " +:+ targetDir +:+ "...");
  Vis (Unmount targetDir (unix "MNT_DETACH")) (λ err,
    match err with
    | Some e => if (code e =? EINVAL)%Z then done_
                else throw ("failed to unmount " +:+ targetDir +:+ ": " +:+ text e)
    | None => done_
    end).

(** Where the directories of containers are. *)
Definition container_base : prog os_ev (outcome string) :=
  Vis (MkdirAll "/run/karim/containers" 0x1ED) (λ err,
    match err with
    | None => Ret (Ok "/run/karim/containers")
    | Some _ =>
        Vis TempDir (λ tmp,
          let base := Join [tmp; "karim_containers"] in
          Vis (MkdirAll base 0x1ED) (λ _, Ret (Ok base)))
    end).

Definition MountDynamicOverlay (containerID : string) (lowerDirs : list string) (targetDir : string)
    : prog os_ev (outcome OverlayConfig) :=
  if decide (containerID = "") then throw "containerID cannot be empty"
  else if decide (lowerDirs = []) then throw "lowerDirs cannot be empty"
  else
    baseContainerDir ←! container_base;
    let targetDir := if decide (targetDir = "") then Join [baseContainerDir; containerID; "rootfs"] else targetDir in
    let baseOverlayDir := Join [baseContainerDir; containerID; "overlay"] in
    dirs ←! wrapping ("failed preparing overlay dirs for container " +:+ containerID +:+ ": ")
              (PrepareOverlayDirectories baseOverlayDir);
    let cfg := {| LowerDir := str_join ":" lowerDirs; UpperDir := dirs.1; WorkDir := dirs.2;
                  TargetDir := targetDir |} in
    _ ←! wrapping ("failed creating target dir " +:+ targetDir +:+ ": ") (act (MkdirAll targetDir 0x1ED));
    _ ←! wrapping ("failed mounting dynamic overlay on " +:+ targetDir +:+ ": ") (MountOverlay cfg);
    _ ←! say ("[karim-stored] Dynamic OverlayFS mounted successfully for container " +:+ containerID +:+
              " on " +:+ targetDir);
    Ret (Ok cfg).

(** ** Mount points *)

(** The loop over the lines of [/proc/mounts]. *)
Definition mounted_at (cleanPath line : string) : bool :=
  match fields line with
  | _ :: f1 :: _ => bool_decide (Clean f1 = cleanPath)
  | _ => false
  end.

Definition isMountPointStat (path : string) : prog os_ev (outcome bool) :=
  Vis (StatDev path) (λ st,
    match st with
    | inr e => throw e
    | inl dev =>
        Vis (StatDev (Dir path)) (λ st,
          match st with
          | inr e => throw e
          | inl parent => Ret (Ok (negb (dev =? parent)%Z))
          end)
    end).

Definition too_long : string := "bufio.Scanner: token too long".

Definition IsMountPoint (path : string) : prog os_ev (outcome bool) :=
  Vis (ReadFileAt "/proc/mounts") (λ r,
    match r with
    | inr _ => isMountPointStat path
    | inl data =>
        let '(lines, long) := scan_lines data in
        if existsb (mounted_at (Clean path)) lines then Ret (Ok true)
        else Ret (if long : bool then Err too_long else Ok false)
    end).

(** [mounted, _ := IsMountPoint(path)] *)
Definition is_mounted (path : string) : prog os_ev (outcome bool) :=
  prog_bind (λ r, Ret (Ok match r with Ok b => b | _ => false end)) (IsMountPoint path).

(** ** The image *)

Definition squashfs_devices : list string := ["/dev/vda"; "/dev/sda"; "/dev/initrd"].

(** The loop over the devices; [lastErr] is the error of the last mount that failed. *)
Fixpoint try_devices (rdonly : Z) (lowerDir : string) (lastErr : option string) (devs : list string)
    : prog os_ev (outcome unit) :=
  match devs with
  | [] =>
      throw match lastErr with
            | Some e => "could not mount any SquashFS device on " +:+ lowerDir +:+ ": " +:+ e
            | None => "no suitable SquashFS block device found for " +:+ lowerDir
            end
  | dev :: devs =>
      Vis (StatErrOf dev) (λ err,
        match err with
        | Some _ => try_devices rdonly lowerDir lastErr devs
        | None =>
            _ ←! say ("[karim-stored] Mounting SquashFS block device " +:+ dev +:+ " on " +:+ lowerDir +:+ "...");
            Vis (Mount dev lowerDir "squashfs" rdonly "") (λ err,
              match err with
              | None => say ("[karim-stored] Successfully mounted SquashFS " +:+ dev +:+ " on " +:+ lowerDir)
              | Some e =>
                  _ ←! say ("[karim-stored] Warning: Failed mounting SquashFS " +:+ dev +:+ ": " +:+ text e);
                  try_devices rdonly lowerDir (Some (text e)) devs
              end)
        end)
  end.

Definition MountSquashFSDevice `{Unix} (lowerDir : string) : prog os_ev (outcome unit) :=
  _ ←! wrapping ("failed creating lowerdir " +:+ lowerDir +:+ ": ") (act (MkdirAll lowerDir 0x1ED));
  mounted ←! is_mounted lowerDir;
  if mounted : bool then done_
  else try_devices (unix "MS_RDONLY") lowerDir None squashfs_devices.

(** A directory of the image: its entries by name.  A symbolic link is a [TFile]. *)
Inductive tree := TFile | TDir (es : list (string * tree)).

Definition is_dir (t : tree) : bool := match t with TDir _ => true | TFile => false end.

(** [realSrc]: the source, resolved when it can be, and the link to it. *)
Definition link_to (src target notice : string) : prog os_ev (outcome unit) :=
  Vis (EvalLinks src) (λ r,
    let realSrc := match r with inl resolved => resolved | inr _ => src end in
    _ ←! ignore_err (SymlinkAt realSrc target);
    say (notice +:+ target +:+ " -> " +:+ realSrc)).

Fixpoint linkDirectoryContents (t : tree) (srcDir targetDir : string) : prog os_ev (outcome unit) :=
  Vis (ReadDirOk srcDir) (λ err,
    match err with
    | Some e => throw e
    | None =>
        match t with
        | TFile => done_
        | TDir es =>
            each (λ '(name, sub),
              let subSrc := Join [srcDir; name] in
              let subTarget := Join [targetDir; name] in
              Vis (LstatAt subTarget) (λ st,
                match st with
                | NotExist =>
                    if is_dir sub then
                      _ ←! ignore_err (MkdirAll subTarget 0x1ED);
                      ignoring (linkDirectoryContents sub subSrc subTarget)
                    else link_to subSrc subTarget "[karim-stored] Linked sub-entry "
                | Found true =>
                    if is_dir sub then ignoring (linkDirectoryContents sub subSrc subTarget) else done_
                | _ => done_
                end)) es
        end
    end).

Definition skipped_names : list string := ["proc"; "sys"; "dev"; "mnt"; "run"].

Definition link_root_entry (lowerDir : string) (entry : string * tree) : prog os_ev (outcome unit) :=
  let '(name, sub) := entry in
  let srcPath := Join [lowerDir; name] in
  let targetPath := "/" +:+ name in
  if decide (name ∈ skipped_names) then done_
  else
    Vis (LstatAt targetPath) (λ st,
      match st with
      | NotExist => link_to srcPath targetPath "[karim-stored] Linked root entry "
      | Found true => if is_dir sub then ignoring (linkDirectoryContents sub srcPath targetPath) else done_
      | _ => done_
      end).

Definition LinkLowerDirToRoot (lowerDir : string) (es : list (string * tree)) : prog os_ev (outcome unit) :=
  Vis (ReadDirOk lowerDir) (λ err,
    match err with
    | Some e => throw ("failed reading lowerdir " +:+ lowerDir +:+ ": " +:+ e)
    | None => each (link_root_entry lowerDir) es
    end).

(** ** Boot *)

Definition tmpfs_options : string := "size=64M,mode=0755".

Definition mount_writable (dir : string) : prog os_ev (outcome unit) :=
  _ ←! ignore_err (MkdirAll dir 0x1ED);
  mounted ←! is_mounted dir;
  if mounted : bool then done_
  else
    Vis (Mount "tmpfs" dir "tmpfs" 0 tmpfs_options) (λ err,
      match err with
      | None => say ("[karim-stored] Mounted writable tmpfs on " +:+ dir)
      | Some _ => done_
      end).

(** An error that is only printed. *)
Definition notice {A} (pre : string) (p : prog os_ev (outcome A)) : prog os_ev (outcome unit) :=
  prog_bind (λ r, match r with
                  | Ok _ => done_
                  | Err e => say (pre +:+ e)
                  | Panic => Ret Panic
                  end) p.

Definition mount_overlay_base (baseOverlayDir : string) : prog os_ev (outcome unit) :=
  prog_bind (λ r,
    match r with
    | Ok true => done_
    | _ =>
        _ ←! say ("[karim-stored] Mounting tmpfs on overlay base " +:+ baseOverlayDir +:+ "...");
        Vis (Mount "tmpfs" baseOverlayDir "tmpfs" 0 tmpfs_options) (λ err,
          match err with
          | Some e =>
              if (code e =? EBUSY)%Z then done_
              else say ("[karim-stored] Warning: failed to mount tmpfs on " +:+ baseOverlayDir +:+ ": " +:+ text e)
          | None => done_
          end)
    end) (IsMountPoint baseOverlayDir).

(** [image] is what [ReadDir] finds below [lowerDir] once the image is mounted. *)
Definition PrepareAndMountRootOverlay `{Unix} (image : list (string * tree))
    (lowerDir baseOverlayDir targetDir : string) : prog os_ev (outcome OverlayConfig) :=
  _ ←! notice "[karim-stored] Notice: " (MountSquashFSDevice lowerDir);
  _ ←! each mount_writable ["/var"; "/tmp"; "/run"];
  _ ←! notice "[karim-stored] Rootfs link notice: " (LinkLowerDirToRoot lowerDir image);
  _ ←! wrapping ("failed to create base overlay dir " +:+ baseOverlayDir +:+ ": ") (act (MkdirAll baseOverlayDir 0x1ED));
  _ ←! mount_overlay_base baseOverlayDir;
  dirs ←! PrepareOverlayDirectories baseOverlayDir;
  let cfg := {| LowerDir := lowerDir; UpperDir := dirs.1; WorkDir := dirs.2; TargetDir := targetDir |} in
  _ ←! (if decide (targetDir = "/") then done_
        else Vis (StatErrOf lowerDir) (λ err,
          match err with
          | None => notice ("[karim-stored] Warning: MountOverlay target " +:+ targetDir +:+ " failed: ") (MountOverlay cfg)
          | Some _ => done_
          end));
  Ret (Ok cfg).

(** * Properties *)

(** ** Linking the image *)

(** The root file system, by the elements of the paths. *)
Inductive rnode := RDir | RFile | RLink (target : string).
Abbreviation rootfs := (gmap (list string) rnode).

(** The guest while it links: its root, and the paths of the requests that failed. *)
Record guest := { root : rootfs; failed : list (list string) }.

Definition with_root (r : rootfs) (s : guest) : guest := {| root := r; failed := failed s |}.
Definition fails (path : string) (s : guest) : guest := {| root := root s; failed := comps path :: failed s |}.

Section root.
(** Where symbolic links of the image lead. *)
Context (resolve : string → option string).

Definition lstat_of (s : rootfs) (path : string) : lstat_info :=
  match s !! comps path with
  | None => NotExist
  | Some RDir => Found true
  | Some _ => Found false
  end.

Definition put (path : string) (n : rnode) (s : rootfs) : rootfs := <[comps path := n]> s.

(** Any request may fail; an entry is made only by one that does not, and never in the
    place of one that is there. *)
Definition guest_root : env_rel os_ev guest := λ X e s x s',
  match e in os_ev Y return Y → Prop with
  | LstatAt path => λ st,
      (st = lstat_of (root s) path ∧ s' = s) ∨ ((∃ e, st = StatErr e) ∧ s' = fails path s)
  | ReadDirOk path => λ r, (r = None ∧ s' = s) ∨ (is_Some r ∧ s' = fails path s)
  | EvalLinks path => λ r, r = (match resolve path with Some q => inl q | None => inr "" end) ∧ s' = s
  | MkdirAll path _ => λ r,
      (r = None ∧ root s !! comps path = None ∧ s' = with_root (put path RDir (root s)) s) ∨
      (r = None ∧ root s !! comps path = Some RDir ∧ s' = s) ∨ (is_Some r ∧ s' = fails path s)
  | SymlinkAt old new => λ r,
      (r = None ∧ root s !! comps new = None ∧ s' = with_root (put new (RLink old) (root s)) s) ∨
      (is_Some r ∧ s' = fails new s)
  | _ => λ _, s' = s
  end x.

Definition link_target (src : list string) : string :=
  default (abs_path src) (resolve (abs_path src)).

(** The paths of the files and of the directories of an image. *)
Inductive file_at : tree → list string → Prop :=
| file_here : file_at TFile []
| file_below es name sub p : (name, sub) ∈ es → file_at sub p → file_at (TDir es) (name :: p).
Inductive dir_at : tree → list string → Prop :=
| dir_here es : dir_at (TDir es) []
| dir_below es name sub p : (name, sub) ∈ es → dir_at sub p → dir_at (TDir es) (name :: p).

(** The names in a directory of an image are names, and different. *)
Inductive names_ok : tree → Prop :=
| ok_file : names_ok TFile
| ok_dir es : NoDup es.*1 → (∀ name sub, (name, sub) ∈ es → norm_comp name ∧ names_ok sub) → names_ok (TDir es).

Lemma tree_rect_list (P : tree → Prop) :
  P TFile → (∀ es, (∀ name sub, (name, sub) ∈ es → P sub) → P (TDir es)) → ∀ t, P t.
Proof.
  intros Hf Hd. fix IH 1. intros [|es]; [exact Hf|]. apply Hd. induction es as [|[name sub] es IHes].
  - intros name sub H. exfalso. clear IH. by apply elem_of_nil in H.
  - intros name' sub' H. apply elem_of_cons in H as [H|H]; [|exact (IHes _ _ H)].
    replace sub' with sub by congruence. apply IH.
Qed.

Lemma same_name {A} (es : list (string * A)) name x y :
  NoDup es.*1 → (name, x) ∈ es → (name, y) ∈ es → x = y.
Proof.
  induction es as [|[n z] es IH]; intros Hnd Hx Hy; [by apply elem_of_nil in Hx|].
  cbn in Hnd. apply NoDup_cons in Hnd as [Hout Hnd].
  assert (∀ v, (n, v) ∈ es → False) as Hn by (intros v Hv; apply Hout, list_elem_of_fmap; by exists (n, v)).
  apply elem_of_cons in Hx as [Hx|Hx]; apply elem_of_cons in Hy as [Hy|Hy]; simplify_eq; try done.
  - destruct (Hn _ Hy).
  - destruct (Hn _ Hx).
  - by apply IH.
Qed.

(** A path is not both a file and a directory. *)
Lemma file_not_dir t p : names_ok t → file_at t p → dir_at t p → False.
Proof.
  intros Hok Hf. induction Hf as [|es name sub p Hin Hf IH]; intros Hd; [by inversion Hd|].
  inversion Hd as [|? ? sub' ? Hin' Hd']; subst. inversion_clear Hok as [|? Hnd Hes].
  rewrite (same_name es name sub' sub) in Hd' by done. apply IH; [|done]. by destruct (Hes name sub Hin).
Qed.

Section linking.
Context (ls : list string) (image : tree) (s0 : rootfs) (Hls : Forall norm_comp ls) (Himage : names_ok image).

(** Nothing of the old root is lost, and everything new is a directory where the
    image has one, or a link to the entry of the image at its path. *)
Definition faithful (s : rootfs) : Prop :=
  s0 ⊆ s ∧ ∀ q n, s !! q = Some n →
    s0 !! q = Some n ∨ (n = RDir ∧ dir_at image q) ∨ n = RLink (link_target (ls ++ q)).

Lemma faithful_put s cs n :
  Forall norm_comp cs → s !! cs = None → (n = RDir ∧ dir_at image cs) ∨ n = RLink (link_target (ls ++ cs)) →
  faithful s → faithful (put (abs_path cs) n s) ∧ s ⊆ put (abs_path cs) n s ∧ put (abs_path cs) n s !! cs = Some n.
Proof.
  intros Hcs Hl Hn [Hsub Hf]. unfold put. rewrite comps_abs_path by done.
  assert (s ⊆ <[cs := n]> s) by by apply insert_subseteq. split_and!; [|done|by rewrite lookup_insert_eq].
  split; [by trans s|]. intros q m [[<- <-]|[_ Hq]]%lookup_insert_Some; [by right|by apply Hf].
Qed.

(** States only grow. *)
Definition grows (s s' : guest) : Prop := root s ⊆ root s' ∧ failed s ⊆ failed s'.
Lemma grows_refl s : grows s s.
Proof. done. Qed.
Lemma grows_trans s1 s2 s3 : grows s1 s2 → grows s2 s3 → grows s1 s3.
Proof. intros [H1 H2] [H3 H4]. split; [by trans (root s2)|set_solver]. Qed.
Lemma grows_fails path s : grows s (fails path s).
Proof. split; [done|]. cbn. set_solver. Qed.

(** What became of the file [p] below [ds]: on the way to it, or at its place, there
    is a link into the image, or an entry of the old root that hides it, or a
    request that failed. *)
Definition settled (s : guest) (ds p : list string) : Prop :=
  ∃ q, q ≠ [] ∧ q `prefix_of` p ∧
    (root s !! (ds ++ q) = Some (RLink (link_target (ls ++ ds ++ q))) ∨
     (∃ n, s0 !! (ds ++ q) = Some n ∧ (n ≠ RDir ∨ q = p)) ∨
     ds ++ q ∈ failed s ∨ ls ++ ds ++ q ∈ failed s).

Lemma settled_grows s s' ds p : grows s s' → settled s ds p → settled s' ds p.
Proof.
  intros [Hr Hf] (q & Hq & Hp & H). exists q. split_and!; [done..|].
  destruct H as [H|[H|[H|H]]]; [left; by eapply lookup_weaken|by right; left|right; right; left; set_solver|
    right; right; right; set_solver].
Qed.

(** Every file of the entry [e] below [ds]. *)
Definition entry_done (ds : list string) (e : string * tree) (s : guest) : Prop :=
  ∀ p, file_at e.2 p → settled s ds (e.1 :: p).

Lemma entry_done_grows ds e s s' : grows s s' → entry_done ds e s → entry_done ds e s'.
Proof. intros Hs H p Hp. eapply settled_grows; [exact Hs|by apply H]. Qed.

Lemma settled_here s ds e p :
  root s !! (ds ++ [e]) = Some (RLink (link_target (ls ++ ds ++ [e]))) ∨
  (∃ n, s0 !! (ds ++ [e]) = Some n ∧ (n ≠ RDir ∨ p = [])) ∨
  ds ++ [e] ∈ failed s ∨ ls ++ ds ++ [e] ∈ failed s →
  settled s ds (e :: p).
Proof.
  intros H. exists [e]. split_and!; [done|by apply prefix_cons, prefix_nil|].
  destruct H as [H|[(n & H1 & H2)|H]]; [by left|right; left; exists n|by right; right].
  split; [done|]. destruct H2 as [H2| ->]; [by left|by right].
Qed.

(** An entry that is there already and is no directory, or is none of the image's. *)
Lemma settled_found s ds e p n :
  faithful (root s) → root s !! (ds ++ [e]) = Some n → (n = RDir → p = [] ∧ ¬ dir_at image (ds ++ [e])) →
  settled s ds (e :: p).
Proof.
  intros [_ Hf] Hl Hn. apply settled_here. destruct (Hf _ _ Hl) as [H|[[-> H]| ->]].
  - right. left. exists n. split; [done|]. destruct n; [right; by apply Hn|by left..].
  - by destruct (Hn eq_refl).
  - by left.
Qed.

(** A loop whose steps keep an invariant, only grow the state, and each reach a goal that
    stays reached. *)
Lemma wp_each_reach {A} (f : A → prog os_ev (outcome unit)) (P : A → guest → Prop) xs s :
  (∀ x s s', grows s s' → P x s → P x s') →
  (∀ x s, x ∈ xs → faithful (root s) →
     wp guest_root (f x) (λ r s', r = Ok tt ∧ faithful (root s') ∧ grows s s' ∧ P x s') s) →
  faithful (root s) →
  wp guest_root (each f xs) (λ r s', r = Ok tt ∧ faithful (root s') ∧ grows s s' ∧ ∀ x, x ∈ xs → P x s') s.
Proof.
  intros Hmono. revert s. induction xs as [|x xs IH]; intros s Hf HI.
  { cbn. split_and!; [done..|]. by intros x H%elem_of_nil. }
  cbn [each]. apply wp_ebind. eapply wp_mono; [|apply Hf; [by left|done]].
  intros r s1 (-> & HI1 & Hs1 & HP). eapply wp_mono; [|apply IH; [|done]].
  - intros r s2 (-> & HI2 & Hs2 & Hall). split_and!; [done..|by eapply grows_trans|].
    intros y [->|Hy]%elem_of_cons; [by eapply Hmono|by apply Hall].
  - intros y s2 Hy. apply Hf. by right.
Qed.

Lemma wp_link_to ds name src notice s (sub : tree) :
  Forall norm_comp (ds ++ [name]) → src = abs_path (ls ++ ds ++ [name]) →
  root s !! (ds ++ [name]) = None → faithful (root s) →
  wp guest_root (link_to src (abs_path (ds ++ [name])) notice) (λ r s',
    r = Ok tt ∧ faithful (root s') ∧ grows s s' ∧ entry_done ds (name, sub) s') s.
Proof.
  intros Hn -> Hl Hf. unfold link_to. intros r s1 [-> ->].
  assert (∀ o : option string, (match (match o with Some q => inl q | None => inr "" end : string + string) with
            inl resolved => resolved | inr _ => abs_path (ls ++ ds ++ [name]) end) =
           default (abs_path (ls ++ ds ++ [name])) o) as -> by by intros [].
  fold (link_target (ls ++ ds ++ [name])).
  intros x s2 [(-> & _ & ->)|(_ & ->)]; intros [] s3 ->.
  - destruct (faithful_put (root s) (ds ++ [name]) (RLink (link_target (ls ++ ds ++ [name])))) as (H1 & H2 & H3);
      [done..|by right|done|]. split_and!; [done..|]. intros p _. apply settled_here. by left.
  - split_and!; [done..|apply grows_fails|]. intros p _. apply settled_here. right; right; left.
    cbn. rewrite comps_abs_path by done. by left.
Qed.

Lemma Join_snoc ds name :
  Forall norm_comp (ds ++ [name]) → Join [abs_path ds; name] = abs_path (ds ++ [name]).
Proof.
  intros [Hds Hn]%Forall_app. change name with (str_join slash [name]) at 1. by apply Join_abs_rel.
Qed.

Lemma lstat_norm s cs : Forall norm_comp cs →
  lstat_of s (abs_path cs) = match s !! cs with None => NotExist | Some RDir => Found true | Some _ => Found false end.
Proof. intros Hcs. unfold lstat_of. by rewrite comps_abs_path. Qed.

Lemma wp_ignoring (p : prog os_ev (outcome unit)) (Q : outcome unit → guest → Prop) s :
  wp guest_root p (λ _ s', Q (Ok tt) s') s → wp guest_root (ignoring p) Q s.
Proof. intros H. unfold ignoring. apply wp_bind. eapply wp_mono; [|exact H]. by intros r s' H'. Qed.

(** What linking the contents of the directory at [ds] achieves. *)
Definition dir_done (ds : list string) (t : tree) (s : guest) : Prop :=
  ls ++ ds ∈ failed s ∨ match t with TDir es => ∀ e, e ∈ es → entry_done ds e s | TFile => True end.

Lemma dir_done_entry ds name sub s :
  is_dir sub = true → dir_done (ds ++ [name]) sub s → entry_done ds (name, sub) s.
Proof.
  intros Hdir [Hf|Hd] p Hp; cbn [fst snd] in *; [by apply settled_here; right; right; right|].
  destruct Hp as [|es n sub' p Hin Hp]; [done|].
  destruct (Hd (n, sub') Hin p Hp) as (q & Hq & Hpre & H). cbn [fst] in *.
  exists (name :: q). rewrite <-!app_assoc in H. split_and!; [done|by apply prefix_cons|].
  destruct H as [H|[(m & Hm & H)|H]]; [by left|right; left; exists m|by right; right].
  split; [exact Hm|]. destruct H as [H| ->]; [by left|by right].
Qed.

(** A subtree of the image. *)
Definition below (ds : list string) (t : tree) : Prop :=
  (∀ p, file_at t p → file_at image (ds ++ p)) ∧ (∀ p, dir_at t p → dir_at image (ds ++ p)).

Lemma below_entry ds es name sub : below ds (TDir es) → (name, sub) ∈ es → below (ds ++ [name]) sub.
Proof.
  intros [Hf Hd] Hin. split; intros p Hp; rewrite <-app_assoc; [apply Hf|apply Hd]; by econstructor.
Qed.

(** An entry found at the place of a file. *)
Lemma found_file ds name s n :
  below (ds ++ [name]) TFile → faithful (root s) → root s !! (ds ++ [name]) = Some n → entry_done ds (name, TFile) s.
Proof.
  intros [Hfile _] Hf Hl p Hp. inversion Hp; subst. eapply settled_found; [done|exact Hl|]. intros _.
  split; [done|]. intros Hd. pose proof (Hfile [] file_here) as Hat. rewrite app_nil_r in Hat.
  exact (file_not_dir image _ Himage Hat Hd).
Qed.

Lemma wp_link_contents t ds s :
  names_ok t → below ds t → Forall norm_comp ds → faithful (root s) →
  wp guest_root (linkDirectoryContents t (abs_path (ls ++ ds)) (abs_path ds)) (λ r s',
    faithful (root s') ∧ grows s s' ∧ dir_done ds t s') s.
Proof.
  revert ds s. induction t as [|es IH] using tree_rect_list; intros ds s Hok Hb Hds Hf;
    (intros r s1 Hr; assert (Forall norm_comp (ls ++ ds)) as Hlds by by apply Forall_app).
  { destruct Hr as [[-> ->]|[[e ->] ->]]; [by split_and!; [..|right]|].
    split_and!; [done|apply grows_fails|left; cbn; rewrite comps_abs_path by done; by left]. }
  destruct Hr as [[-> ->]|[[e ->] ->]]; cycle 1.
  { split_and!; [done|apply grows_fails|left; cbn; rewrite comps_abs_path by done; by left]. }
  inversion_clear Hok as [|? _ Hes]. eapply wp_mono; [|apply (wp_each_reach _ (entry_done ds));
    [apply entry_done_grows| |done]]; cbn beta.
  { intros r s' (_ & H1 & H2 & H3). split_and!; [done..|by right]. }
  intros [name sub] s1 Hin Hf1. destruct (Hes name sub Hin) as [Hn Hsub].
  pose proof (below_entry _ _ _ _ Hb Hin) as Hbs.
  assert (Forall norm_comp (ds ++ [name])) as Hdn by (apply Forall_app; split; [done|by constructor]).
  assert (Forall norm_comp ((ls ++ ds) ++ [name])) as Hsn
    by (rewrite <-app_assoc; by apply Forall_app).
  rewrite !Join_snoc by done. rewrite <-!app_assoc.
  intros st s2 [[-> ->]|[[? ->] ->]]; cycle 1.
  { split_and!; [done..|apply grows_fails|]. intros p _. apply settled_here. right; right; left.
    cbn. rewrite comps_abs_path by done. by left. }
  rewrite lstat_norm by done.
  assert (∀ s2, faithful (root s2) → grows s1 s2 → is_dir sub = true →
    wp guest_root (ignoring (linkDirectoryContents sub (abs_path (ls ++ ds ++ [name])) (abs_path (ds ++ [name]))))
      (λ r s', r = Ok tt ∧ faithful (root s') ∧ grows s1 s' ∧ entry_done ds (name, sub) s') s2) as Hrec.
  { intros s2 Hf2 H12 Hdir. apply wp_ignoring.
    eapply wp_mono; [|by apply (IH name sub Hin (ds ++ [name]) s2)]. cbn beta.
    intros r s3 (Hf3 & H23 & Hd). split_and!; [done..|by eapply grows_trans|by apply dir_done_entry]. }
  destruct (root s1 !! (ds ++ [name])) as [n|] eqn:Hl.
  - destruct n as [| |l].
    + destruct (is_dir sub) eqn:Hdir; [by apply Hrec|]. cbn. split_and!; [done..|].
      destruct sub; [|done]. by eapply found_file.
    + cbn. split_and!; [done..|]. intros p _. by eapply settled_found.
    + cbn. split_and!; [done..|]. intros p _. by eapply settled_found.
  - destruct (is_dir sub) eqn:Hdir; [|by apply wp_link_to].
    assert (dir_at image (ds ++ [name])) as Hdir_at.
    { destruct sub as [|es']; [done|]. destruct Hbs as [_ Hd]. specialize (Hd [] (dir_here es')). by rewrite app_nil_r in Hd. }
    intros r s2 [(-> & _ & ->)|[(_ & Hx & _)|(_ & ->)]].
    + destruct (faithful_put (root s1) (ds ++ [name]) RDir) as (H1 & H2 & _); [done..|by left|done|]. by apply Hrec.
    + rewrite comps_abs_path in Hx by done. congruence.
    + apply Hrec; [done|apply grows_fails|done].
Qed.

Lemma wp_link_root_entry name sub s :
  norm_comp name → names_ok sub → below [name] sub → faithful (root s) →
  wp guest_root (link_root_entry (abs_path ls) (name, sub)) (λ r s',
    r = Ok tt ∧ faithful (root s') ∧ grows s s' ∧ (name ∉ skipped_names → entry_done [] (name, sub) s')) s.
Proof.
  intros Hn Hok Hb Hf. unfold link_root_entry. destruct (decide (name ∈ skipped_names)) as [|Hskip]; [by split_and!|].
  assert (Forall norm_comp [name]) as Hdn by by constructor.
  assert (Forall norm_comp (ls ++ [name])) as Hsn by by apply Forall_app.
  rewrite Join_snoc by done. change ("/" +:+ name) with (abs_path ([] ++ [name])).
  intros st s1 [[-> ->]|[[? ->] ->]]; cycle 1.
  { split_and!; [done..|apply grows_fails|]. intros _ p _. apply settled_here. right; right; left.
    cbn. rewrite comps_abs_path by done. by left. }
  rewrite lstat_norm by done. change ([] ++ [name]) with [name].
  destruct (root s !! [name]) as [n|] eqn:Hl.
  - destruct n as [| |l].
    + destruct (is_dir sub) eqn:Hdir.
      * apply wp_ignoring. eapply wp_mono; [|by apply (wp_link_contents sub [name] s)]. cbn beta.
        intros r s1 (Hf1 & H1 & Hd). split_and!; [done..|]. intros _. by apply dir_done_entry.
      * cbn. split_and!; [done..|]. intros _. destruct sub; [|done]. by eapply (found_file []).
    + cbn. split_and!; [done..|]. intros _ p _. by eapply (settled_found s []).
    + cbn. split_and!; [done..|]. intros _ p _. by eapply (settled_found s []).
  - eapply wp_mono; [|by apply (wp_link_to [] name _ _ s sub)]. cbn beta. intros r s1 (-> & Hf1 & H1 & Hd).
    by split_and!.
Qed.
End linking.

(** C27: the image shows through and never wins, on every run, whatever requests fail: linking
    keeps every entry the root file system had; everything it adds is a directory where the
    image has one or a link to the entry of the image at the same path; and for
    every file of the image, outside the five directories that are skipped, one of
    three things is true of its path or of a beginning of it: there is now a link to that
    entry of the image; there was an entry before, which hides it; or a request failed there,
    whose error the code ignores, as the documentation of the runtime storage says. *)
Theorem LinkLowerDirToRoot_shows ls es s :
  Forall norm_comp ls → names_ok (TDir es) →
  wp guest_root (LinkLowerDirToRoot (abs_path ls) es) (λ r s',
    s ⊆ root s' ∧
    (∀ q n, root s' !! q = Some n →
       s !! q = Some n ∨ (n = RDir ∧ dir_at (TDir es) q) ∨ n = RLink (link_target (ls ++ q))) ∧
    (r = Ok tt ∨ failed s' = [ls]) ∧
    ∀ name p, name ∉ skipped_names → file_at (TDir es) (name :: p) → r = Ok tt →
      ∃ q, q ≠ [] ∧ q `prefix_of` name :: p ∧
        (root s' !! q = Some (RLink (link_target (ls ++ q))) ∨
         (∃ n, s !! q = Some n ∧ (n ≠ RDir ∨ q = name :: p)) ∨
         q ∈ failed s' ∨ ls ++ q ∈ failed s')) {| root := s; failed := [] |}.
Proof.
  intros Hls Hok. inversion Hok as [|? Hnd Hes]; subst. unfold LinkLowerDirToRoot.
  assert (faithful ls (TDir es) s s) as H0 by (split; [done|]; intros q n Hq; by left).
  intros r s1 [[-> ->]|[[e ->] ->]]; cycle 1.
  { cbn. destruct H0 as [H1 H2]. split_and!; [done..| |done]. right. by rewrite comps_abs_path by done. }
  eapply wp_mono; [|apply (wp_each_reach ls (TDir es) s Hls Hok _
    (λ e s', e.1 ∉ skipped_names → entry_done ls s [] e s'))]; cbn beta.
  - intros r s' (-> & [H1 H2] & _ & Hall). split_and!; [done..|by left|]. intros name p Hsk Hp _.
    inversion Hp as [|? ? sub ? Hin Hsub]; subst. exact (Hall (name, sub) Hin Hsk p Hsub).
  - intros e s2 s3 Hs H Hsk. eapply entry_done_grows; [done..|exact Hs|by apply H].
  - intros [name sub] s2 Hin Hf. destruct (Hes name sub Hin). apply wp_link_root_entry; try done.
    by split; intros p Hp; econstructor.
  - exact H0.
Qed.
End root.

(** ** Witness *)

Definition sample_image : list (string * tree) :=
  [("bin", TDir [("sh", TFile)]); ("etc", TDir [("hosts", TFile); ("ssl", TDir [("cert", TFile)])])].
Definition sample_root : gmap (list string) rnode := {[ ["etc"] := RDir; ["etc"; "hosts"] := RFile ]}.

Lemma sample_image_ok : names_ok (TDir sample_image).
Proof.
  assert (∀ n, bool_decide (norm_comp n) = true → norm_comp n) as Hn by (intros n; apply bool_decide_eq_true_1).
  repeat (constructor; [apply (bool_decide_unpack _); vm_compute; exact I|];
    intros name sub H; repeat (apply elem_of_cons in H as [[= -> ->]|H]; [split; [by apply Hn|]|]);
    try by apply elem_of_nil in H); constructor.
Qed.

Lemma LinkLowerDirToRoot_shows_witness :
  wp (guest_root (λ _, None)) (LinkLowerDirToRoot "/mnt/lower" sample_image) (λ r s',
    sample_root ⊆ root s' ∧
    (∀ q n, root s' !! q = Some n → sample_root !! q = Some n ∨ (n = RDir ∧ dir_at (TDir sample_image) q) ∨
       n = RLink (link_target (λ _, None) (["mnt"; "lower"] ++ q))) ∧
    (r = Ok tt ∨ failed s' = [["mnt"; "lower"]]) ∧
    ∀ name p, name ∉ skipped_names → file_at (TDir sample_image) (name :: p) → r = Ok tt →
      ∃ q, q ≠ [] ∧ q `prefix_of` name :: p ∧
        (root s' !! q = Some (RLink (link_target (λ _, None) (["mnt"; "lower"] ++ q))) ∨
         (∃ n, sample_root !! q = Some n ∧ (n ≠ RDir ∨ q = name :: p)) ∨
         q ∈ failed s' ∨ ["mnt"; "lower"] ++ q ∈ failed s')) {| root := sample_root; failed := [] |}.
Proof.
  apply (LinkLowerDirToRoot_shows (λ _, None) ["mnt"; "lower"] sample_image sample_root).
  - by apply (bool_decide_unpack _).
  - apply sample_image_ok.
Defined.
