(* ===== verification/Netd.v ===== *)
(** * The network daemon ([internal/netd/netd.go])

    The netlink messages as bytes, the wait for their acknowledgement, and the
    configuration of one interface.  The layouts of the messages are those of the
    kernel's [<linux/rtnetlink.h>]. *)

From Stdlib Require Import Ascii.
From S2P Require Import Prelude GoStrings GoStrconv GoPath GoNet Linux Prog Os.

Record NetworkConfig := {
  InterfaceName : string; IPAddress : string; NetmaskCIDR : Z; GatewayIP : string; DNSServers : list string }.

Definition DefaultConfig (ifaceName : string) : NetworkConfig := {|
  InterfaceName := if decide (ifaceName = "") then "eth0" else ifaceName;
  IPAddress := "10.0.2.15"; NetmaskCIDR := 24; GatewayIP := "10.0.2.2"; DNSServers := ["10.0.2.3"; "1.1.1.1"] |}.

(** What a socket receives before its deadline: datagrams and failed receives in order,
    and then the error of the read that hits the deadline. *)
Record arrivals := { received : list (string + string); deadline_error : string }.

Inductive net_ev : Type → Type :=
| NetOs {X} (e : os_ev X) : net_ev X
| InterfaceByName (name : string) : net_ev (Z + string)
| Socket (family type protocol : Z) : net_ev (Z + string)
| Bind (fd family : Z) : net_ev (option string)
| NewFile (fd : Z) : net_ev bool
| CloseFd (fd : Z) : net_ev unit
| Sendto (fd : Z) (msg : string) : net_ev (option string)
| SetReadDeadline (fd ms : Z) : net_ev (option string)
| SyscallConn (fd : Z) : net_ev (option string)
| Receive (fd : Z) : net_ev arrivals.

Definition net_say (text : string) : prog net_ev (outcome unit) := Vis (NetOs (Println text)) (λ _, Ret (Ok tt)).
Definition net_act (e : net_ev (option string)) : prog net_ev (outcome unit) :=
  Vis e (λ r, Ret match r with Some err => Err err | None => Ok tt end).

(** [defer file.Close()] *)
Definition closing {A} (fd : Z) (p : prog net_ev A) : prog net_ev A :=
  prog_bind (λ a, Vis (CloseFd fd) (λ _, Ret a)) p.

Section netd.
Context {U : Unix} {UT : UnicodeTables}.
(** The text of an error number, a table of Go's [syscall]. *)
Context (errno_text : Z → string).

(** ** Messages *)

Definition SizeofRtAttr : Z := 4.

(** [data] is copied into a buffer of zero bytes. *)
Definition encodeRtAttr (attrType : Z) (data : string) : string :=
  let attrLen := (SizeofRtAttr + Z.of_nat (String.length data))%Z in
  let alignedLen := Z.land (attrLen + 3) (Z.lnot 3) in
  le 2 attrLen +:+ le 2 attrType +:+ data +:+ zeros (Z.to_nat (alignedLen - attrLen)).

(** [unix.IfInfomsg], [unix.IfAddrmsg] and [unix.RtMsg] as they lie in memory. *)
Definition if_info (family type index flags change : Z) : string :=
  le 1 family +:+ zeros 1 +:+ le 2 type +:+ le 4 index +:+ le 4 flags +:+ le 4 change.
Definition if_addr (family prefixlen flags scope index : Z) : string :=
  le 1 family +:+ le 1 prefixlen +:+ le 1 flags +:+ le 1 scope +:+ le 4 index.
Definition rt_msg (family dst_len src_len tos table protocol scope type flags : Z) : string :=
  le 1 family +:+ le 1 dst_len +:+ le 1 src_len +:+ le 1 tos +:+ le 1 table +:+ le 1 protocol +:+
  le 1 scope +:+ le 1 type +:+ le 4 flags.

Definition request (type flags seq : Z) (payload : string) : string :=
  header_bytes {| Len := Z.of_nat (SizeofNlMsghdr + String.length payload); Type_ := type; Flags := flags;
                  Seq := seq; Pid := 0 |} +:+ payload.

Definition ack_flags : Z := Z.lor (unix "NLM_F_REQUEST") (unix "NLM_F_ACK").
Definition replace_flags : Z := Z.lor (Z.lor ack_flags (unix "NLM_F_CREATE")) (unix "NLM_F_REPLACE").

Definition link_msg (index : Z) : string :=
  request (unix "RTM_NEWLINK") ack_flags 1
    (if_info (unix "AF_UNSPEC") 0 index (unix "IFF_UP") (unix "IFF_UP")).

Definition addr_msg (index cidr : Z) (ip : string) : string :=
  request (unix "RTM_NEWADDR") replace_flags 2
    (if_addr (unix "AF_INET") cidr 0 (unix "RT_SCOPE_UNIVERSE") index +:+
     encodeRtAttr (unix "IFA_LOCAL") ip +:+ encodeRtAttr (unix "IFA_ADDRESS") ip).

Definition route_msg (index : Z) (gw : string) : string :=
  request (unix "RTM_NEWROUTE") replace_flags 3
    (rt_msg (unix "AF_INET") 0 0 0 (unix "RT_TABLE_MAIN") (unix "RTPROT_BOOT") (unix "RT_SCOPE_UNIVERSE")
       (unix "RTN_UNICAST") 0 +:+
     encodeRtAttr (unix "RTA_GATEWAY") gw +:+ encodeRtAttr (unix "RTA_OIF") (le 4 index)).

(** ** Acknowledgements *)

(** The loop over the messages of a datagram: [Some] when it returns. *)
Fixpoint ack_in (expectedSeq : Z) (msgs : list NetlinkMessage) : option (outcome unit) :=
  match msgs with
  | [] => None
  | msg :: msgs =>
      if negb (Seq (Header msg) =? expectedSeq)%Z then ack_in expectedSeq msgs
      else if (Type_ (Header msg) =? unix "NLMSG_ERROR")%Z then
        if (4 <=? String.length (Data msg))%nat then
          let errno := wrap_s 32 (le_at 0 4 (Data msg)) in
          if negb (errno =? 0)%Z
          then Some (Err ("netlink error: " +:+ errno_text (wrap_u 64 (wrap_s 32 (- errno)))))
          else Some (Ok tt)
        else Some (Ok tt)
      else ack_in expectedSeq msgs
  end.

(** The loop over the datagrams; the buffer holds 8192 bytes. *)
Fixpoint await_ack (expectedSeq : Z) (rs : list (string + string)) (late : string) : outcome unit :=
  match rs with
  | [] => Err ("netlink read timed out or failed: " +:+ late)
  | inr recvErr :: _ => Err ("recvfrom netlink ack failed: " +:+ recvErr)
  | inl d :: rs =>
      match ParseNetlinkMessage (str_take (Z.to_nat 8192) d) with
      | inr e => Err ("parse netlink msg failed: " +:+ e)
      | inl msgs =>
          match ack_in expectedSeq msgs with
          | Some r => r
          | None => await_ack expectedSeq rs late
          end
      end
  end.

Definition readNetlinkAckPersistent (fd expectedSeq timeout_ms : Z) : prog net_ev (outcome unit) :=
  _ ←! wrapping "failed to set netlink read deadline: " (net_act (SetReadDeadline fd timeout_ms));
  _ ←! wrapping "failed to get syscall conn: " (net_act (SyscallConn fd));
  Vis (Receive fd) (λ a, Ret (await_ack expectedSeq (received a) (deadline_error a))).

(** ** Sockets *)

Definition openNetlinkSocketNonBlock : prog net_ev (outcome Z) :=
  Vis (Socket (unix "AF_NETLINK") (Z.lor (Z.lor (unix "SOCK_RAW") (unix "SOCK_NONBLOCK")) (unix "SOCK_CLOEXEC"))
         (unix "NETLINK_ROUTE")) (λ r,
    match r with
    | inr e => throw ("failed to create non-blocking netlink socket: " +:+ e)
    | inl fd =>
        Vis (Bind fd (unix "AF_NETLINK")) (λ err,
          match err with
          | Some e => Vis (CloseFd fd) (λ _, throw ("failed to bind netlink socket: " +:+ e))
          | None =>
              Vis (NewFile fd) (λ ok,
                if ok : bool then Ret (Ok fd)
                else Vis (CloseFd fd) (λ _, throw "failed to wrap netlink socket in os.File"))
          end)
    end).

(** Send one message and wait for its acknowledgement. *)
Definition transact (fd seq : Z) (sending msg : string) : prog net_ev (outcome unit) :=
  _ ←! wrapping sending (net_act (Sendto fd msg));
  readNetlinkAckPersistent fd seq 2000.

Definition find_interface (ifaceName : string) : prog net_ev (outcome Z) :=
  Vis (InterfaceByName ifaceName) (λ r, Ret
    match r with
    | inl index => Ok index
    | inr e => Err ("interface " +:+ ifaceName +:+ " not found: " +:+ e)
    end).

(** ** Operations *)

Definition up_states : list string := ["up"; "unknown"; "lowerup"].

Definition VerifyInterfaceUp (ifaceName : string) : prog net_ev (outcome unit) :=
  Vis (NetOs (ReadFileAt ("/sys/class/net/" +:+ ifaceName +:+ "/operstate"))) (λ r,
    match r with
    | inr _ => done_
    | inl data =>
        let state := trim_space data in
        if decide (state ∈ up_states) then done_
        else throw ("interface " +:+ ifaceName +:+ " operstate is " +:+ quote state +:+
                    " (expected 'up', 'unknown', or 'lowerup')")
    end).

Definition SetLinkUp (ifaceName : string) : prog net_ev (outcome unit) :=
  index ←! find_interface ifaceName;
  fd ←! openNetlinkSocketNonBlock;
  closing fd (
    _ ←! transact fd 1 "netlink sendto failed: " (link_msg index);
    VerifyInterfaceUp ifaceName).

Definition SetInterfaceIP (ifaceName ipStr : string) (cidr : Z) : prog net_ev (outcome unit) :=
  index ←! find_interface ifaceName;
  match To4 (ParseIP ipStr) with
  | None => throw ("invalid IPv4 address: " +:+ ipStr)
  | Some ip =>
      fd ←! openNetlinkSocketNonBlock;
      closing fd (transact fd 2 "sendto RTM_NEWADDR failed: " (addr_msg index cidr ip))
  end.

Definition SetDefaultGateway (gatewayIP ifaceName : string) : prog net_ev (outcome unit) :=
  index ←! find_interface ifaceName;
  match To4 (ParseIP gatewayIP) with
  | None => throw ("invalid gateway IP: " +:+ gatewayIP)
  | Some gw =>
      fd ←! openNetlinkSocketNonBlock;
      closing fd (transact fd 3 "sendto RTM_NEWROUTE failed: " (route_msg index gw))
  end.

(** The loop that writes the directives. *)
Fixpoint nameservers (dnsServers : list string) : string :=
  match dnsServers with
  | [] => ""
  | dns :: rest =>
      let dns := trim_space dns in
      (if decide (dns = "") then "" else "nameserver " +:+ dns +:+ String "010" "") +:+ nameservers rest
  end.

Definition resolv_conf (dnsServers : list string) : string :=
  "# Generated by karim-netd" +:+ String "010" (nameservers dnsServers).

Definition WriteResolvConf (dnsServers : list string) (path : string) : prog net_ev (outcome unit) :=
  let path := if decide (path = "") then "/etc/resolv.conf" else path in
  _ ←! wrapping "failed to create directory for resolv.conf: " (net_act (NetOs (MkdirAll (Dir path) 0x1ED)));
  net_act (NetOs (WriteFileAt path (resolv_conf dnsServers) 0x1A4)).

(** A step whose failure is only printed. *)
Definition tolerate (p : prog net_ev (outcome unit)) (failing succeeded : string) : prog net_ev (outcome unit) :=
  prog_bind (λ r,
    match r with
    | Ok _ => net_say succeeded
    | Err e => net_say (failing +:+ e)
    | Panic => Ret Panic
    end) p.

Definition prefix_length (cidr : Z) : Z := if ((cidr <=? 0) || (32 <? cidr))%Z then 24 else cidr.

Definition AutoConfigure (cfg : NetworkConfig) : prog net_ev (outcome unit) :=
  let name := if decide (InterfaceName cfg = "") then "eth0" else InterfaceName cfg in
  _ ←! net_say ("[karim-netd] Configuring network interface " +:+ name +:+ "...");
  _ ←! wrapping ("failed to set link UP for " +:+ name +:+ ": ") (SetLinkUp name);
  _ ←! net_say ("[karim-netd] Interface " +:+ name +:+ " is UP");
  _ ←! (if decide (IPAddress cfg = "") then done_
        else
          let cidr := prefix_length (NetmaskCIDR cfg) in
          let shown := IPAddress cfg +:+ "/" +:+ itoa cidr +:+ " on " +:+ name in
          _ ←! wrapping ("failed to set IP " +:+ shown +:+ ": ") (SetInterfaceIP name (IPAddress cfg) cidr);
          net_say ("[karim-netd] Set IP address " +:+ shown));
  _ ←! (if decide (GatewayIP cfg = "") then done_
        else tolerate (SetDefaultGateway (GatewayIP cfg) name)
               ("[karim-netd] Warning: failed to set default gateway " +:+ GatewayIP cfg +:+ ": ")
               ("[karim-netd] Configured default gateway " +:+ GatewayIP cfg +:+ " via " +:+ name));
  if decide (DNSServers cfg = []) then done_
  else tolerate (WriteResolvConf (DNSServers cfg) "/etc/resolv.conf")
         "[karim-netd] Warning: failed to write /etc/resolv.conf: "
         ("[karim-netd] Wrote DNS configuration to /etc/resolv.conf (" +:+ str_join ", " (DNSServers cfg) +:+ ")").
End netd.

(** * Properties *)

(** ** The kernel's side

    How rtnetlink reads a message: the header, the fixed part of its type and the
    attributes that follow. *)

Fixpoint read_attrs (fuel : nat) (s : string) : option (list (Z * string)) :=
  match fuel, s with
  | _, "" => Some []
  | O, _ => None
  | S fuel, _ =>
      let len := le_at 0 2 s in
      if ((len <? 4) || (Z.of_nat (String.length s) <? len))%Z then None
      else
        attrs ← read_attrs fuel (str_drop (Z.to_nat (nlm_align len)) s);
        Some ((le_at 2 2 s, str_take (Z.to_nat len - 4) (str_drop 4 s)) :: attrs)
  end.

Inductive nl_request :=
| NewLink (index flags change : Z)
| NewAddr (family prefixlen index : Z) (attrs : list (Z * string))
| NewRoute (family dst_len table type : Z) (attrs : list (Z * string)).

(** The sequence number of a request and the request; [None] when it is malformed or asks
    for no acknowledgement. *)
Definition read_request (msg : string) : option (Z * nl_request) :=
  let h := read_header msg in
  let body := str_drop 16 msg in
  if negb (Len h =? Z.of_nat (String.length msg))%Z || negb (Z.land (Flags h) 5 =? 5)%Z then None
  else
    r ← (if (Type_ h =? 16)%Z then
           guard (String.length body = 16);; Some (NewLink (le_at 4 4 body) (le_at 8 4 body) (le_at 12 4 body))
         else if (Type_ h =? 20)%Z then
           NewAddr (le_at 0 1 body) (le_at 1 1 body) (le_at 4 4 body) <$> read_attrs (String.length body) (str_drop 8 body)
         else if (Type_ h =? 24)%Z then
           NewRoute (le_at 0 1 body) (le_at 1 1 body) (le_at 4 1 body) (le_at 7 1 body)
             <$> read_attrs (String.length body) (str_drop 12 body)
         else None);
    Some (Seq h, r).

Section kernel.
#[local] Existing Instance x86_64.
Context {UT : UnicodeTables} (errno_text : Z → string).

(** The requests the daemon means to make. *)
Definition link_up (index : Z) : nl_request := NewLink index 1 1.
Definition address (index cidr : Z) (ip : string) : nl_request := NewAddr 2 cidr index [(2%Z, ip); (1%Z, ip)].
Definition default_route (index : Z) (gw : string) : nl_request :=
  NewRoute 2 0 254 1 [(5%Z, gw); (4%Z, le 4 index)].

Definition ifindex (i : Z) : Prop := (0 ≤ i < 2 ^ 31)%Z.

Lemma le4_index i : ifindex i → un_le (le 4 i) = i.
Proof. intros Hi. unfold ifindex in Hi. apply un_le_small. change (8 * Z.of_nat 4)%Z with 32%Z. lia. Qed.

Lemma read_link_msg i : ifindex i → read_request (link_msg i) = Some (1%Z, link_up i).
Proof.
  intros Hi. transitivity (Some (1%Z, NewLink (un_le (le 4 i)) 1 1)); [reflexivity|]. by rewrite le4_index.
Qed.

Lemma length_4 s : String.length s = 4 → ∃ a b c d, s = String a (String b (String c (String d ""))).
Proof.
  destruct s as [|a [|b [|c [|d [|? ?]]]]]; try done. intros _. by exists a, b, c, d.
Qed.

Lemma read_addr_msg i cidr ip :
  ifindex i → (0 ≤ cidr < 256)%Z → String.length ip = 4 →
  read_request (addr_msg i cidr ip) = Some (2%Z, address i cidr ip).
Proof.
  intros Hi Hc (a & b & c & d & ->)%length_4.
  transitivity (let ip := String a (String b (String c (String d ""))) in
    Some (2%Z, NewAddr 2 (un_le (le 1 cidr)) (un_le (le 4 i)) [(2%Z, ip); (1%Z, ip)])); [reflexivity|].
  by rewrite le4_index, un_le_small.
Qed.

Lemma read_route_msg i gw :
  ifindex i → String.length gw = 4 → read_request (route_msg i gw) = Some (3%Z, default_route i gw).
Proof. by intros Hi (a & b & c & d & ->)%length_4. Qed.

(** The acknowledgement of a request: an error message with its sequence number, the
    negated error, and the header it answers. *)
Definition ack_bytes (seq pid errno : Z) (asked : NlMsghdr) : string :=
  header_bytes {| Len := 36; Type_ := 2; Flags := 256; Seq := seq; Pid := pid |} +:+
  le 4 (- errno) +:+ header_bytes asked.

Definition errno_range (errno : Z) : Prop := (0 ≤ errno < 4096)%Z.

Lemma signed_le4 x : (- 2 ^ 31 ≤ x < 2 ^ 31)%Z → wrap_s 32 (un_le (le 4 x)) = x.
Proof.
  intros Hx. rewrite un_le_le. change (8 * Z.of_nat 4)%Z with 32%Z. unfold wrap_s, wrap_u.
  change (2 ^ (32 - 1))%Z with (2 ^ 31)%Z. rewrite Z.add_mod_idemp_l by lia. rewrite Z.mod_small by lia. lia.
Qed.

(** An acknowledgement decides the wait for its sequence number. *)
Lemma await_ack_bytes seq pid errno asked rs late :
  (0 ≤ seq < 2 ^ 32)%Z → errno_range errno →
  await_ack errno_text seq (inl (ack_bytes seq pid errno asked) :: rs) late =
    if decide (errno = 0%Z) then Ok tt else Err ("netlink error: " +:+ errno_text errno).
Proof.
  intros Hs He. unfold errno_range in He. cbn [await_ack].
  change (ParseNetlinkMessage (str_take (Z.to_nat 8192) (ack_bytes seq pid errno asked)))
    with (@inl (list NetlinkMessage) string
            [{| Header := {| Len := 36; Type_ := 2; Flags := 256; Seq := un_le (le 4 seq); Pid := un_le (le 4 pid) |};
                Data := le 4 (- errno) +:+ header_bytes asked |}]).
  cbn [ack_in Header Seq Type_ Data]. rewrite un_le_small by lia. rewrite Z.eqb_refl. cbn [negb].
  change (2 =? unix "NLMSG_ERROR")%Z with true.
  change (4 <=? String.length (le 4 (- errno) +:+ header_bytes asked))%nat with true. cbv iota zeta.
  change (le_at 0 4 (le 4 (- errno) +:+ header_bytes asked)) with (un_le (le 4 (- errno))).
  rewrite signed_le4, Z.opp_involutive by lia.
  destruct (decide (errno = 0%Z)) as [->|Hne]; [done|].
  replace (- errno =? 0)%Z with false by lia. cbn [negb]. rewrite wrap_s_id, wrap_u_id by lia. done.
Qed.

(** A datagram that holds no message with the sequence number. *)
Definition quiet (seq : Z) (d : string) : Prop :=
  ∃ ms, ParseNetlinkMessage (str_take (Z.to_nat 8192) d) = inl ms ∧ Forall (λ m, Seq (Header m) ≠ seq) ms.

Lemma await_ack_quiet seq noise rs late :
  Forall (quiet seq) noise →
  await_ack errno_text seq (map inl noise ++ rs) late = await_ack errno_text seq rs late.
Proof.
  induction 1 as [|d noise (ms & Hd & Hms) _ IH]; [done|]. cbn [map app await_ack]. rewrite Hd.
  assert (ack_in errno_text seq ms = None) as ->; [|done].
  clear Hd. induction Hms as [|m ms Hm _ IHm]; [done|]. cbn [ack_in].
  by replace (Seq (Header m) =? seq)%Z with false by lia.
Qed.

(** What a socket may receive after a request the kernel answered with [errno]: any
    messages that are not the answer, then the answer, unless a receive fails or the
    deadline passes before. *)
Definition delivers (seq errno : Z) (a : arrivals) : Prop :=
  ∃ noise, Forall (quiet seq) noise ∧
    (received a = map inl noise ∨ (∃ e rs, received a = map inl noise ++ inr e :: rs) ∨
     ∃ pid asked rs, received a = map inl noise ++ inl (ack_bytes seq pid errno asked) :: rs).

Lemma await_ack_delivers seq errno a :
  (0 ≤ seq < 2 ^ 32)%Z → errno_range errno → delivers seq errno a →
  match await_ack errno_text seq (received a) (deadline_error a) with
  | Ok _ => errno = 0%Z
  | Err _ => True
  | Panic => False
  end.
Proof.
  intros Hs He (noise & Hn & [->|[(e & rs & ->)|(pid & asked & rs & ->)]]).
  - rewrite <-(app_nil_r (map _ _)). by rewrite await_ack_quiet.
  - by rewrite await_ack_quiet.
  - rewrite await_ack_quiet, await_ack_bytes by done. by case_decide.
Qed.

(** The kernel and the files: the requests it carried out, in order; the sockets open; the
    sequence number and answer each socket waits for; the files written. *)
Record kernel := {
  carried_out : list nl_request; sockets : gset Z; answers : gmap Z (Z * Z); written : gmap string string }.

Definition with_answer (fd : Z) (a : Z * Z) (rs : list nl_request) (k : kernel) : kernel := {|
  carried_out := carried_out k ++ rs; sockets := sockets k; answers := <[fd := a]> (answers k);
  written := written k |}.
Definition with_sockets (fds : gset Z) (k : kernel) : kernel := {|
  carried_out := carried_out k; sockets := fds; answers := answers k; written := written k |}.
Definition with_file (p d : string) (k : kernel) : kernel := {|
  carried_out := carried_out k; sockets := sockets k; answers := answers k; written := <[p := d]> (written k) |}.

Context (ifaces : gmap string Z) (Hifaces : map_Forall (λ _, ifindex) ifaces).

(** The kernel may refuse any request; what it acknowledges with no error it has done. *)
Definition net_env : env_rel net_ev kernel := λ X e k x k',
  match e in net_ev Y return Y → Prop with
  | NetOs e =>
      match e in os_ev Y return Y → Prop with
      | WriteFileAt p d _ => λ r, match r with None => k' = with_file p d k | Some _ => k' = k end
      | _ => λ _, k' = k
      end
  | InterfaceByName name => λ r, k' = k ∧
      match r with inl i => ifaces !! name = Some i | inr _ => True end
  | Socket _ _ _ => λ r,
      match r with inl fd => fd ∉ sockets k ∧ k' = with_sockets ({[fd]} ∪ sockets k) k | inr _ => k' = k end
  | CloseFd fd => λ _, k' = with_sockets (sockets k ∖ {[fd]}) k
  | Sendto fd msg => λ r,
      match r with
      | Some _ => k' = k
      | None =>
          match read_request msg with
          | None => ∃ seq errno, errno_range errno ∧ errno ≠ 0%Z ∧ k' = with_answer fd (seq, errno) [] k
          | Some (seq, rq) => ∃ errno, errno_range errno ∧
              k' = with_answer fd (seq, errno) (if decide (errno = 0%Z) then [rq] else []) k
          end
      end
  | Receive fd => λ a, k' = k ∧
      match answers k !! fd with Some (seq, errno) => delivers seq errno a | None => received a = [] end
  | _ => λ _, k' = k
  end x.

(** The effect of one transaction: [l] requests were carried out, exactly those of [rqs]
    when it succeeded, and the sockets and files are as before. *)
Definition did (rqs : list nl_request) (k : kernel) (r : outcome unit) (k' : kernel) : Prop :=
  sockets k' = sockets k ∧ written k' = written k ∧
  match r with
  | Ok _ => carried_out k' = carried_out k ++ rqs
  | Err _ => ∃ l, l `prefix_of` rqs ∧ carried_out k' = carried_out k ++ l
  | Panic => False
  end.

Lemma did_nothing rqs k e : did rqs k (Err e) k.
Proof. split_and!; [done..|]. exists []. split; [apply prefix_nil|by rewrite app_nil_r]. Qed.

Lemma wp_transact fd seq sending msg rq k :
  read_request msg = Some (seq, rq) → (0 ≤ seq < 2 ^ 32)%Z →
  wp net_env (transact errno_text fd seq sending msg) (did [rq] k) k.
Proof.
  intros Hrq Hseq. unfold transact. cbn [ebind wrapping net_act prog_bind wp net_env].
  rewrite Hrq. intros [e|] k1; cbn [wrap_err prog_bind wp].
  { intros ->. apply did_nothing. }
  intros (errno & He & ->).
  set (k1 := with_answer fd (seq, errno) (if decide (errno = 0%Z) then [rq] else []) k).
  assert (∀ e, did [rq] k (Err e) k1) as Herr.
  { intros e. split_and!; [done..|]. exists (if decide (errno = 0%Z) then [rq] else []).
    split; [|done]. case_decide; [done|apply prefix_nil]. }
  unfold readNetlinkAckPersistent. cbn [ebind wrapping net_act prog_bind wp net_env].
  intros [e|] k2 ->; cbn [wrap_err prog_bind wp net_env]; [apply Herr|].
  intros [e|] k2 ->; cbn [wrap_err prog_bind wp net_env]; [apply Herr|].
  intros a k2 [-> Ha]. unfold k1 in Ha at 1. cbn [answers with_answer] in Ha. rewrite lookup_insert_eq in Ha.
  pose proof (await_ack_delivers seq errno a Hseq He Ha) as Hr.
  destruct (await_ack _ _ _ _) as [[]|e|]; [|apply Herr|done].
  split_and!; [done..|]. unfold k1. by rewrite decide_True by done.
Qed.

Lemma wp_with_socket rqs (p : Z → prog net_ev (outcome unit)) k :
  (∀ fd k1, wp net_env (p fd) (did rqs k1) k1) →
  wp net_env (fd ←! openNetlinkSocketNonBlock; closing fd (p fd)) (did rqs k) k.
Proof.
  intros Hp. unfold openNetlinkSocketNonBlock. cbn [ebind prog_bind wp net_env].
  intros [fd|e] k1; [|intros ->; apply did_nothing]. intros [Hfd ->].
  assert (∀ S : gset Z, S = {[fd]} ∪ sockets k → S ∖ {[fd]} = sockets k) as Hclose by (intros S ->; set_solver).
  set (k1 := with_sockets ({[fd]} ∪ sockets k) k).
  assert (∀ e, did rqs k (Err e) (with_sockets (sockets k1 ∖ {[fd]}) k1)) as Herr.
  { intros e. split_and!; [by apply Hclose|done|]. exists []. split; [apply prefix_nil|by rewrite app_nil_r]. }
  cbn [prog_bind wp net_env]. intros [e|] k2 ->; cbn [prog_bind wp net_env].
  { intros _ k3 ->. apply Herr. }
  intros [|] k2 ->; cbn [prog_bind wp net_env]; [|intros _ k3 ->; apply Herr].
  unfold closing. rewrite wp_bind. eapply wp_mono; [|apply Hp]. intros r k2 (Hs & Hw & Hc) _ k3 ->.
  split_and!; [cbn; rewrite Hs; by apply Hclose|done|exact Hc].
Qed.

Lemma wp_find_interface name k (Q : outcome Z → kernel → Prop) :
  (∀ i, ifaces !! name = Some i → Q (Ok i) k) → (∀ e, Q (Err e) k) → wp net_env (find_interface name) Q k.
Proof. intros Hok Herr. cbn. intros [i|e] k' [-> Hi]; [by apply Hok|apply Herr]. Qed.

Lemma did_more rqs k r k' : is_ok r = true → did rqs k r k' → ∀ e, did rqs k (Err e) k'.
Proof.
  intros Hr (Hs & Hw & Hc) e. destruct r; [|done..]. split_and!; [done..|]. by exists rqs.
Qed.

(** The request of an operation on the interface [name]. *)
Definition on_iface (name : string) (rq : Z → nl_request) : list nl_request :=
  match ifaces !! name with Some i => [rq i] | None => [] end.

Lemma wp_SetLinkUp name k :
  wp net_env (SetLinkUp errno_text name)
    (λ r k', did (on_iface name link_up) k r k' ∧ (is_ok r = true → is_Some (ifaces !! name))) k.
Proof.
  unfold SetLinkUp. rewrite wp_ebind. apply wp_find_interface; [|split; [apply did_nothing|done]].
  intros i Hi. unfold on_iface. rewrite Hi. pose proof (Hifaces _ _ Hi) as Hix.
  eapply wp_mono; [intros r k' H; split; [exact H|by eexists]|]. apply wp_with_socket.
  intros fd k1. rewrite wp_ebind. eapply wp_mono; [|by apply wp_transact; [apply read_link_msg|lia]].
  intros [[]|e|] k2 H2; [|done..]. unfold VerifyInterfaceUp. cbn [wp net_env].
  intros [data|e] k3 ->; [|exact H2]. destruct (decide _); [exact H2|]. by apply (did_more _ _ (Ok tt)).
Qed.

Lemma wp_SetInterfaceIP name ip cidr k :
  (0 ≤ cidr < 256)%Z →
  wp net_env (SetInterfaceIP errno_text name ip cidr)
    (λ r k', did (match To4 (ParseIP ip) with
                  | Some b => on_iface name (λ i, address i cidr b) | None => [] end) k r k'
             ∧ (is_ok r = true → is_Some (To4 (ParseIP ip)))) k.
Proof.
  intros Hc. unfold SetInterfaceIP. rewrite wp_ebind.
  apply wp_find_interface; [|split; [apply did_nothing|done]]. intros i Hi.
  destruct (To4 (ParseIP ip)) as [b|] eqn:Hb; [|split; [apply did_nothing|done]].
  unfold on_iface. rewrite Hi. pose proof (Hifaces _ _ Hi) as Hix.
  eapply wp_mono; [intros r k' H; split; [exact H|by eexists]|]. apply wp_with_socket.
  intros fd k1. apply wp_transact; [|lia]. apply read_addr_msg; [done..|]. by apply (To4_length ip).
Qed.

Lemma wp_SetDefaultGateway gw name k :
  wp net_env (SetDefaultGateway errno_text gw name)
    (did (match To4 (ParseIP gw) with Some b => on_iface name (λ i, default_route i b) | None => [] end) k) k.
Proof.
  unfold SetDefaultGateway. rewrite wp_ebind. apply wp_find_interface; [|intros e; apply did_nothing].
  intros i Hi. destruct (To4 (ParseIP gw)) as [b|] eqn:Hb; [|apply did_nothing].
  unfold on_iface. rewrite Hi. pose proof (Hifaces _ _ Hi) as Hix. apply wp_with_socket.
  intros fd k1. apply wp_transact; [|lia]. apply read_route_msg; [done|]. by apply (To4_length gw).
Qed.

(** The requests a configuration stands for, on the interface with index [i]. *)
Definition wanted (cfg : NetworkConfig) (i : Z) : list nl_request :=
  link_up i ::
  match (if decide (IPAddress cfg = "") then None else To4 (ParseIP (IPAddress cfg))) with
  | Some b => [address i (prefix_length (NetmaskCIDR cfg)) b] | None => [] end.
Definition wanted_route (cfg : NetworkConfig) (i : Z) : list nl_request :=
  match (if decide (GatewayIP cfg = "") then None else To4 (ParseIP (GatewayIP cfg))) with
  | Some b => [default_route i b] | None => [] end.

Definition iface_of (cfg : NetworkConfig) : string :=
  if decide (InterfaceName cfg = "") then "eth0" else InterfaceName cfg.

Lemma wp_net_say text (Q : outcome unit → kernel → Prop) k : Q (Ok tt) k → wp net_env (net_say text) Q k.
Proof. intros H. by intros [] k' ->. Qed.

Lemma wp_tolerate p failing succeeded (Q : kernel → Prop) k :
  wp net_env p (λ r k', r ≠ Panic ∧ Q k') k →
  wp net_env (tolerate p failing succeeded) (λ r k', r = Ok tt ∧ Q k') k.
Proof.
  intros Hp. unfold tolerate. rewrite wp_bind. eapply wp_mono; [|exact Hp].
  intros [[]|e|] k' [Hr HQ]; [by apply wp_net_say..|done].
Qed.

Definition resolv_path : string := "/etc/resolv.conf".

(** What a configuration may leave behind. *)
Definition configured (cfg : NetworkConfig) (k : kernel) (r : outcome unit) (k' : kernel) : Prop :=
  sockets k' = sockets k ∧
  match r with
  | Ok _ => ∃ i route, ifaces !! iface_of cfg = Some i ∧ route `prefix_of` wanted_route cfg i ∧
      carried_out k' = carried_out k ++ wanted cfg i ++ route ∧
      (IPAddress cfg ≠ "" → is_Some (To4 (ParseIP (IPAddress cfg)))) ∧
      (written k' = written k ∨ written k' = <[resolv_path := resolv_conf (DNSServers cfg)]> (written k))
  | Err _ => written k' = written k ∧ ∃ l, carried_out k' = carried_out k ++ l ∧
      (l = [] ∨ ∃ i, ifaces !! iface_of cfg = Some i ∧ l `prefix_of` wanted cfg i)
  | Panic => False
  end.

(** Once the address is set, nothing that follows can fail. *)
Lemma wp_after_address cfg i k1 :
  ifaces !! iface_of cfg = Some i →
  wp net_env
    (_ ←! (if decide (GatewayIP cfg = "") then done_
           else tolerate (SetDefaultGateway errno_text (GatewayIP cfg) (iface_of cfg))
                  ("[karim-netd] Warning: failed to set default gateway " +:+ GatewayIP cfg +:+ ": ")
                  ("[karim-netd] Configured default gateway " +:+ GatewayIP cfg +:+ " via " +:+ iface_of cfg));
     if decide (DNSServers cfg = []) then done_
     else tolerate (WriteResolvConf (DNSServers cfg) "/etc/resolv.conf")
            "[karim-netd] Warning: failed to write /etc/resolv.conf: "
            ("[karim-netd] Wrote DNS configuration to /etc/resolv.conf (" +:+ str_join ", " (DNSServers cfg) +:+ ")"))
    (λ r k', r = Ok tt ∧ sockets k' = sockets k1 ∧
       (∃ route, route `prefix_of` wanted_route cfg i ∧ carried_out k' = carried_out k1 ++ route) ∧
       (written k' = written k1 ∨ written k' = <[resolv_path := resolv_conf (DNSServers cfg)]> (written k1)))
    k1.
Proof.
  intros Hi. rewrite wp_ebind.
  apply (wp_mono _ _ (λ r k', r = Ok tt ∧ sockets k' = sockets k1 ∧ written k' = written k1 ∧
    ∃ route, route `prefix_of` wanted_route cfg i ∧ carried_out k' = carried_out k1 ++ route)).
  - intros r k2 (-> & Hs & Hw & Hr). destruct (decide (DNSServers cfg = [])); [by split_and!; [..|left]|].
    apply wp_tolerate. unfold WriteResolvConf. cbn [ebind wrapping net_act prog_bind wp net_env].
    intros [e|] k3 ->; cbn [wrap_err prog_bind wp net_env]; [by split_and!; [..|left]|].
    intros [e|] k3 ->; [by split_and!; [..|left]|]. split_and!; [done..|]. right. cbn. by rewrite Hw.
  - destruct (decide (GatewayIP cfg = "")) as [Hg|Hg].
    + split_and!; [done..|]. exists []. by split; [apply prefix_nil|rewrite app_nil_r].
    + apply wp_tolerate. eapply wp_mono; [|apply wp_SetDefaultGateway]. intros r k2 (Hs & Hw & Hc).
      unfold wanted_route. rewrite decide_False by done. revert Hc. unfold on_iface. rewrite Hi.
      intros Hc. split; [by destruct r|]. split_and!; [done..|].
      destruct r as [|e|]; [|destruct Hc as (l' & Hl & Hc)|done].
      * eexists. split; [|exact Hc]. done.
      * by exists l'.
Qed.

Lemma prefix_length_range cidr : (1 ≤ prefix_length cidr ≤ 32)%Z.
Proof. unfold prefix_length. destruct (Z.leb_spec cidr 0); cbn; [lia|]. destruct (Z.ltb_spec 32 cidr); cbn; lia. Qed.

(** C5: Configuring an interface sends the kernel, in this order, the request to bring the
    link up, the one for the address with its prefix and the one for the default route, each
    exactly as the configuration says; it succeeds only when the kernel has carried out the
    first two, it never fails because of the route or of [resolv.conf], an error leaves a
    prefix of the first two, and every socket it opened is closed again. *)
Theorem AutoConfigure_configures cfg k :
  wp net_env (AutoConfigure errno_text cfg) (configured cfg k) k.
Proof.
  unfold AutoConfigure. fold (iface_of cfg). rewrite wp_ebind. apply wp_net_say. rewrite wp_ebind, wp_wrapping.
  eapply wp_mono; [|apply wp_SetLinkUp]. intros r k1 [(Hs & Hw & Hc) Hiface].
  destruct r as [[]|e|]; [|clear Hiface|done]; cbn [wrap_err].
  2: { split; [done|]. split; [done|]. destruct Hc as (l & Hl & Hc). exists l. split; [done|].
       unfold on_iface in Hl. destruct (ifaces !! iface_of cfg) as [i|] eqn:Hi.
       - right. exists i. split; [done|]. unfold wanted. trans [link_up i]; [done|]. by eexists.
       - left. by apply prefix_nil_inv. }
  destruct Hiface as [i Hi]; [done|]. unfold on_iface in Hc. rewrite Hi in Hc.
  rewrite wp_ebind. apply wp_net_say. rewrite wp_ebind.
  apply (wp_mono _ _ (λ r k2, sockets k2 = sockets k ∧ written k2 = written k ∧
    match r with
    | Ok _ => carried_out k2 = carried_out k ++ wanted cfg i ∧
              (IPAddress cfg ≠ "" → is_Some (To4 (ParseIP (IPAddress cfg))))
    | Err _ => ∃ l, l `prefix_of` wanted cfg i ∧ carried_out k2 = carried_out k ++ l
    | Panic => False
    end)).
  - intros [[]|e|] k2 (Hs2 & Hw2 & H2); [| |done].
    + destruct H2 as [Hc2 Hip]. eapply wp_mono; [|by apply (wp_after_address cfg i)].
      intros r k3 (-> & Hs3 & (route & Hr & Hc3) & Hw3). split; [by rewrite Hs3|].
      exists i, route. rewrite Hc3, Hc2, <-app_assoc, <-Hw2. done.
    + destruct H2 as (l & Hl & Hc2). split; [done|]. split; [done|]. exists l. split; [done|]. right. by exists i.
  - destruct (decide (IPAddress cfg = "")) as [Ha|Ha].
    + split; [exact Hs|]. split; [exact Hw|]. split; [|done].
      unfold wanted. by rewrite decide_True by done.
    + rewrite wp_ebind, wp_wrapping. eapply wp_mono; [|apply wp_SetInterfaceIP].
      2: { pose proof (prefix_length_range (NetmaskCIDR cfg)). lia. }
      intros r k2 [(Hs2 & Hw2 & Hc2) Hip]. unfold on_iface in Hc2. rewrite Hi in Hc2.
      rewrite Hs in Hs2. rewrite Hw in Hw2. unfold wanted. rewrite decide_False by done.
      destruct r as [[]|e|]; cbn [wrap_err]; [| |done].
      * apply wp_net_say. split_and!; [done..| |by intros _; apply Hip].
        rewrite Hc2, Hc, <-app_assoc. by destruct (To4 _).
      * split_and!; [done..|]. destruct Hc2 as (l & Hl & Hc2). exists (link_up i :: l). split.
        -- apply prefix_cons. by destruct (To4 _).
        -- by rewrite Hc2, Hc, <-app_assoc.
Qed.
End kernel.

(** ** A kernel that grants everything *)

Section witness.
#[local] Existing Instance x86_64.
#[local] Existing Instance no_tables.

Definition one_iface : gmap string Z := {["eth0" := 2%Z]}.

Definition granting : handler net_ev kernel := λ X e k,
  match e in net_ev Y return Y * kernel with
  | NetOs e =>
      match e in os_ev Y return Y * kernel with
      | MkdirAll _ _ => (None, k)
      | StatErrOf _ => (None, k)
      | StatDev _ => (inl 0%Z, k)
      | LstatAt _ => (NotExist, k)
      | ReadDirOk _ => (None, k)
      | ReadFileAt _ => (inl ("up" +:+ String "010" ""), k)
      | WriteFileAt p d _ => (None, with_file p d k)
      | EvalLinks p => (inl p, k)
      | SymlinkAt _ _ => (None, k)
      | CreateFile _ _ => (None, k)
      | CopyTo _ _ => (None, k)
      | Mount _ _ _ _ _ => (None, k)
      | Unmount _ _ => (None, k)
      | Sync => (tt, k)
      | Ioctl _ _ => (inl None, k)
      | Geteuid => (0%Z, k)
      | Getpid => (1%Z, k)
      | TimeNow => (0%Z, k)
      | SysinfoUptime => (None, k)
      | ReadDevice _ _ => (inl "", k)
      | WriteDevice _ _ => (None, k)
      | ReadRTC _ => (inr None, k)
      | ClockSet _ => (None, k)
      | TempDir => ("/tmp", k)
      | Println _ => (tt, k)
      end
  | InterfaceByName name => (match one_iface !! name with Some i => inl i | None => inr "no such network interface" end, k)
  | Socket _ _ _ => (inl 3%Z, with_sockets ({[3%Z]} ∪ sockets k) k)
  | Bind _ _ => (None, k)
  | NewFile _ => (true, k)
  | CloseFd fd => (tt, with_sockets (sockets k ∖ {[fd]}) k)
  | Sendto fd msg =>
      match read_request msg with
      | Some (seq, rq) => (None, with_answer fd (seq, 0%Z) [rq] k)
      | None => (Some "invalid argument", k)
      end
  | SetReadDeadline _ _ => (None, k)
  | SyscallConn _ => (None, k)
  | Receive fd =>
      ({| received := match answers k !! fd with
                      | Some (seq, errno) =>
                          [inl (ack_bytes seq 7 errno {| Len := 0; Type_ := 0; Flags := 0; Seq := seq; Pid := 0 |})]
                      | None => [] end;
          deadline_error := "i/o timeout" |}, k)
  end.

Definition idle_kernel : kernel := {| carried_out := []; sockets := ∅; answers := ∅; written := ∅ |}.

Lemma AutoConfigure_configures_witness :
  let r := exec granting (AutoConfigure (λ _, "") (DefaultConfig "")) idle_kernel in
  r.1 = Ok tt ∧
  carried_out r.2 = [link_up 2; address 2 24 (octets 10 0 2 15); default_route 2 (octets 10 0 2 2)] ∧
  wp (net_env one_iface) (AutoConfigure (λ _, "") (DefaultConfig ""))
     (configured one_iface (DefaultConfig "") idle_kernel) idle_kernel.
Proof.
  split; [by vm_compute|]. split; [by vm_compute|].
  apply (AutoConfigure_configures (λ _, "") one_iface).
  apply map_Forall_singleton. split; [done|reflexivity].
Defined.
End witness.
