(* ===== verification/Layers.v ===== *)
(** * Layers ([internal/pkgd/layer.go], [internal/pkgd/merger.go], [InspectOCIArchive])

    The layer configuration file, the unpacking of an OCI or Docker archive and the
    merging of all configured layers into a root. *)

From Stdlib Require Import Ascii.
From S2P Require Import Prelude GoStrings GoStrconv GoPath Prog Linux Extract.

(** ** Data *)

Definition LayerTypeOCIArchive : string := "oci-archive".
Definition LayerTypeTarball : string := "tarball".
Definition LayerTypeDirectory : string := "directory".
Definition LayerTypeBinary : string := "binary".

Record LayerSpec := {
  LayerName : string; LayerType : string; Path : string; TargetDir : string; SHA256 : string }.

(** [LayerConfig.Layers] *)
Abbreviation LayerConfig := (list LayerSpec).

Definition new_layer : LayerSpec :=
  {| LayerName := ""; LayerType := LayerTypeOCIArchive; Path := ""; TargetDir := ""; SHA256 := "" |}.

(** Docker's [manifest.json] *)
Record DockerManifestEntry := { Config : string; RepoTags : list string; DockerLayers : list string }.
Record OCIArchiveInfo := { InfoRepoTags : list string; LayerPaths : list string }.

(** What the standard library makes of bytes: JSON both ways, tar streams, plain or in a
    gzip stream, and the error of a gzip header. *)
Class LayerCodec := {
  decode_config : string → outcome LayerConfig;
  encode_config : LayerConfig → outcome string;
  decode_manifest : string → outcome (list DockerManifestEntry);
  untar : string → tar_archive;
  gzip_header : string → option string;
  untar_gz : string → tar_archive }.

(** ** Requests *)

Inductive config_read := ConfigMissing | ConfigErr (e : string) | ConfigData (data : string).

(** A path the walk reports, or the error it reports for it. *)
Record walked := { w_path : string; w_err : option string; w_dir : bool }.

Inductive layer_ev : Type → Type :=
| OnFs {X} (e : fs_ev X) : layer_ev X
| ReadConfig (path : string) : layer_ev config_read
| OpenLines (path : string) : layer_ev file_read
| SaveFile (path data : string) (mode : Z) : layer_ev (option string)
| StatLayer (path : string) : layer_ev (option string)
| OpenArchive (path : string) : layer_ev (string + string)
| ReadPayload (name : string) : layer_ev (option string)
| WalkTree (path : string) : layer_ev (list walked)
| OpenSource (path : string) : layer_ev (string + string)
| StatSource (path : string) : layer_ev (Z + string).

Definition layer_act (e : layer_ev (option string)) : prog layer_ev (outcome unit) :=
  Vis e (λ r, Ret match r with Some err => Err err | None => Ok tt end).
Definition on_fs {A} : prog fs_ev A → prog layer_ev A := translate (λ X e, OnFs e).

Section layers.
Context {U : Unix} {UT : UnicodeTables} {LC : LayerCodec} (cwd : outcome string).

(** ** The configuration file *)

(** [s[1:len(s)-1]] panics when the string is one quote. *)
Definition strip_ends (s : string) : outcome string :=
  if (String.length s <? 2)%nat then Panic
  else Ok (str_take (String.length s - 2) (str_drop 1 s)).

Definition unquote (s : string) : outcome string :=
  if (has_prefix s dq && has_suffix s dq) || (has_prefix s "'" && has_suffix s "'")
  then strip_ends s else Ok s.

(** [cfg.Layers] and [current]. *)
Record toml_state := { layers : LayerConfig; current : option LayerSpec }.

Definition apply_key (l : LayerSpec) (key val : string) : LayerSpec :=
  if decide (key = "name") then
    {| LayerName := val; LayerType := LayerType l; Path := Path l; TargetDir := TargetDir l; SHA256 := SHA256 l |}
  else if decide (key = "type") then
    {| LayerName := LayerName l; LayerType := val; Path := Path l; TargetDir := TargetDir l; SHA256 := SHA256 l |}
  else if decide (key = "path") then
    {| LayerName := LayerName l; LayerType := LayerType l; Path := val; TargetDir := TargetDir l; SHA256 := SHA256 l |}
  else if decide (key = "target_dir") then
    {| LayerName := LayerName l; LayerType := LayerType l; Path := Path l; TargetDir := val; SHA256 := SHA256 l |}
  else if decide (key = "sha256") then
    {| LayerName := LayerName l; LayerType := LayerType l; Path := Path l; TargetDir := TargetDir l; SHA256 := val |}
  else l.

(** One iteration of the scanning loop. *)
Definition layer_line (st : toml_state) (text : string) : outcome toml_state :=
  let line := trim_space text in
  if decide (line = "") then Ok st
  else if has_prefix line "#" then Ok st
  else if decide (line = "[[layer]]" ∨ line = "[layer]") then
    Ok {| layers := layers st ++ match current st with Some l => [l] | None => [] end;
          current := Some new_layer |}
  else
    match str_cut "=" line with
    | None => Ok st
    | Some (k, v) =>
        val ← unquote (trim_space v);
        Ok {| layers := layers st;
              current := Some (apply_key (default new_layer (current st)) (trim_space k) val) |}
    end.

Definition layer_init : toml_state := {| layers := []; current := None |}.

(** The layers once the lines are read: the last one only counts when it has a name. *)
Definition layer_result (st : toml_state) : LayerConfig :=
  layers st ++ match current st with
               | Some l => if decide (LayerName l = "") then [] else [l]
               | None => []
               end.

Definition parse_layer_lines (filePath data : string) (read_err : option string) : outcome LayerConfig :=
  let '(lines, too_long) := scan_lines data in
  st ← fold_m layer_line layer_init lines;
  match scanner_err too_long read_err with
  | Some e => Err ("error reading " +:+ filePath +:+ ": " +:+ e)
  | None => Ok (layer_result st)
  end.

Definition parseLayerTOML (filePath : string) : prog layer_ev (outcome LayerConfig) :=
  Vis (OpenLines filePath) (λ f,
    match f with
    | OpenFails e => throw e
    | FileData data read_err => Ret (parse_layer_lines filePath data read_err)
    end).

Definition LoadLayerConfig (filePath : string) : prog layer_ev (outcome LayerConfig) :=
  Vis (ReadConfig filePath) (λ r,
    match r with
    | ConfigMissing => Ret (Ok [])
    | ConfigErr e => throw ("failed reading layer config " +:+ filePath +:+ ": " +:+ e)
    | ConfigData data =>
        if has_suffix filePath ".json" || has_prefix (trim_space data) "{" then
          match decode_config data with
          | Ok cfg => Ret (Ok cfg)
          | _ => parseLayerTOML filePath
          end
        else parseLayerTOML filePath
    end).

Definition key_value (key val : string) : string := key +:+ " = " +:+ quote val.

Definition layer_lines (spec : LayerSpec) : list string :=
  ["[[layer]]"; key_value "name" (LayerName spec); key_value "type" (LayerType spec); key_value "path" (Path spec)]
  ++ (if decide (TargetDir spec = "") then [] else [key_value "target_dir" (TargetDir spec)])
  ++ (if decide (SHA256 spec = "") then [] else [key_value "sha256" (SHA256 spec)])
  ++ [""].

Definition config_title : string := "# Karim MicroVM OS — Layer Specification Config".

Definition layers_text (cfg : LayerConfig) : string :=
  document ([config_title; ""] ++ (cfg ≫= layer_lines)).

Definition SaveLayerConfig (cfg : LayerConfig) (filePath : string) : prog layer_ev (outcome unit) :=
  if has_suffix filePath ".json" then
    data ←! Ret (encode_config cfg);
    layer_act (SaveFile filePath data 0x1A4)
  else
    _ ←! layer_act (OnFs (MkdirAll (Dir filePath) 0x1ED));
    layer_act (SaveFile filePath (layers_text cfg) 0x1A4).

(** ** OCI archives *)

(** The name ends as that of a compressed file. *)
Definition gz_name (path : string) : bool := has_suffix path ".gz" || has_suffix path ".tgz".

(** Open an archive by its path: its entries. *)
Definition open_archive (opening uncompressing tarPath : string) : prog layer_ev (outcome tar_archive) :=
  Vis (OpenArchive tarPath) (λ r,
    match r with
    | inr e => throw (opening +:+ e)
    | inl data =>
        if gz_name tarPath then
          match gzip_header data with
          | Some e => throw (uncompressing +:+ e)
          | None => Ret (Ok (untar_gz data))
          end
        else Ret (Ok (untar data))
    end).

(** The loop of [InspectOCIArchive]. *)
Fixpoint find_manifest (tarPath : string) (es : list (tar_header * string)) (err : option string)
    : prog layer_ev (outcome OCIArchiveInfo) :=
  match es with
  | [] =>
      throw match err with
            | Some e => "tar read error in " +:+ tarPath +:+ ": " +:+ e
            | None => "no recognized manifest.json found in OCI archive " +:+ tarPath
            end
  | (hdr, data) :: es =>
      if decide (Clean (Name hdr) = "manifest.json") then
        _ ←! wrapping "failed reading manifest.json: " (layer_act (ReadPayload (Name hdr)));
        match decode_manifest data with
        | Ok (m :: _) => Ret (Ok {| InfoRepoTags := RepoTags m; LayerPaths := DockerLayers m |})
        | _ => find_manifest tarPath es err
        end
      else find_manifest tarPath es err
  end.

Definition InspectOCIArchive (tarPath : string) : prog layer_ev (outcome OCIArchiveInfo) :=
  archive ←! open_archive ("failed opening OCI tar " +:+ tarPath +:+ ": ")
               ("failed uncompressing gzip tar " +:+ tarPath +:+ ": ") tarPath;
  find_manifest tarPath (entries archive) (tar_err archive).

(** The loop that keeps the layer blobs, by clean name. *)
Fixpoint cache_layers (wanted : list string) (es : list (tar_header * string)) (err : option string)
    (layerData : gmap string string) : prog layer_ev (outcome (gmap string string)) :=
  match es with
  | [] =>
      match err with
      | Some e => throw ("failed reading archive tar entry: " +:+ e)
      | None => Ret (Ok layerData)
      end
  | (hdr, data) :: es =>
      let cleanName := Clean (Name hdr) in
      if decide (cleanName ∈ wanted) then
        _ ←! wrapping ("failed reading layer tar payload " +:+ cleanName +:+ ": ") (layer_act (ReadPayload (Name hdr)));
        cache_layers wanted es err (<[cleanName := data]> layerData)
      else cache_layers wanted es err layerData
  end.

(** The magic number of gzip, or a name that says so. *)
Definition is_gzip (data path : string) : bool :=
  has_prefix data (String "031" (String "139" "")) || gz_name path.

(** One layer; an error of the extraction carries its number, one of the gzip header does not. *)
Definition extract_layer (targetRoot : string) (idx : nat) (layerPath data : string) : prog layer_ev (outcome unit) :=
  let extract archive :=
    wrapping ("failed extracting layer " +:+ itoa (Z.of_nat idx) +:+ " (" +:+ layerPath +:+ "): ")
      (on_fs (ExtractLayerTarball cwd archive targetRoot)) in
  if is_gzip data layerPath then
    match gzip_header data with
    | Some e => throw ("failed uncompressing layer tar " +:+ layerPath +:+ ": " +:+ e)
    | None => extract (untar_gz data)
    end
  else extract (untar data).

Fixpoint extract_layers (targetRoot : string) (idx : nat) (paths : list string) (layerData : gmap string string)
    : prog layer_ev (outcome unit) :=
  match paths with
  | [] => done_
  | layerPath :: paths =>
      match layerData !! Clean layerPath with
      | None => throw ("layer payload " +:+ layerPath +:+ " missing from archive tarball")
      | Some data =>
          _ ←! extract_layer targetRoot idx layerPath data;
          extract_layers targetRoot (S idx) paths layerData
      end
  end.

Definition UnpackOCIArchive (tarPath targetRoot : string) : prog layer_ev (outcome unit) :=
  info ←! wrapping "failed inspecting OCI archive: " (InspectOCIArchive tarPath);
  if decide (LayerPaths info = []) then throw ("no layers found in OCI archive " +:+ tarPath)
  else
    archive ←! open_archive ("failed opening OCI tar " +:+ tarPath +:+ ": ") "failed uncompressing gzip tar: " tarPath;
    layerData ←! cache_layers (Clean <$> LayerPaths info) (entries archive) (tar_err archive) ∅;
    extract_layers targetRoot 0 (LayerPaths info) layerData.

(** ** Merging *)

(** Copy one file; 0755 when the source has an execute bit, else 0644. *)
Definition copyExecutableFile (srcPath destPath : string) : prog layer_ev (outcome unit) :=
  Vis (OpenSource srcPath) (λ r,
    match r with
    | inr e => throw e
    | inl data =>
        Vis (StatSource srcPath) (λ st,
          match st with
          | inr e => throw e
          | inl mode =>
              _ ←! layer_act (OnFs (MkdirAll (Dir destPath) 0x1ED));
              _ ←! layer_act (OnFs (OpenFile destPath create_flags (file_mode mode)));
              layer_act (OnFs (CopyData destPath data))
          end)
    end).

(** The function given to [filepath.Walk]. *)
Definition copy_walked (srcDir destDir : string) (w : walked) : prog layer_ev (outcome unit) :=
  match w_err w with
  | Some e => throw e
  | None =>
      rel ←! Ret (Rel srcDir (w_path w));
      if decide (rel = ".") then done_
      else
        let targetPath := Join [destDir; rel] in
        if w_dir w then layer_act (OnFs (MkdirAll targetPath 0x1ED))
        else copyExecutableFile (w_path w) targetPath
  end.

Definition copyDirectoryTree (srcDir destDir : string) : prog layer_ev (outcome unit) :=
  Vis (WalkTree srcDir) (λ ws, each (copy_walked srcDir destDir) ws).

(** The tarball layer: the file is opened, and extracted. *)
Definition merge_tarball (name layerPath targetDir : string) : prog layer_ev (outcome unit) :=
  archive ←! open_archive ("failed opening tarball layer " +:+ name +:+ ": ")
               ("failed uncompressing tarball " +:+ name +:+ ": ") layerPath;
  wrapping ("failed extracting tarball layer " +:+ name +:+ ": ")
    (on_fs (ExtractLayerTarball cwd archive targetDir)).

Definition layer_target (targetRoot : string) (spec : LayerSpec) : string :=
  if decide (TargetDir spec = "") then targetRoot else Join [targetRoot; TargetDir spec].

Definition layer_source (baseDir : string) (spec : LayerSpec) : string :=
  if is_abs (Path spec) then Path spec else Join [baseDir; Path spec].

(** One iteration of the loop of [MergeLayerConfig]. *)
Definition merge_layer (baseDir targetRoot : string) (idx : nat) (spec : LayerSpec) : prog layer_ev (outcome unit) :=
  let layerPath := layer_source baseDir spec in
  let targetDir := layer_target targetRoot spec in
  _ ←! wrapping ("layer " +:+ itoa (Z.of_nat idx) +:+ " (" +:+ LayerName spec +:+ ") source path missing: ")
         (layer_act (StatLayer layerPath));
  _ ←! wrapping "failed creating layer target dir: " (layer_act (OnFs (MkdirAll targetDir 0x1ED)));
  if decide (LayerType spec = LayerTypeOCIArchive) then
    wrapping ("failed merging OCI archive layer " +:+ LayerName spec +:+ ": ") (UnpackOCIArchive layerPath targetDir)
  else if decide (LayerType spec = LayerTypeTarball) then merge_tarball (LayerName spec) layerPath targetDir
  else if decide (LayerType spec = LayerTypeDirectory) then
    wrapping ("failed copying directory layer " +:+ LayerName spec +:+ ": ") (copyDirectoryTree layerPath targetDir)
  else if decide (LayerType spec = LayerTypeBinary) then
    wrapping ("failed copying binary layer " +:+ LayerName spec +:+ ": ")
      (copyExecutableFile layerPath (Join [targetDir; Base layerPath]))
  else throw ("unsupported layer type " +:+ quote (LayerType spec) +:+ " for layer " +:+ LayerName spec).

Fixpoint merge_layers (baseDir targetRoot : string) (idx : nat) (cfg : LayerConfig) : prog layer_ev (outcome unit) :=
  match cfg with
  | [] => done_
  | spec :: cfg => _ ←! merge_layer baseDir targetRoot idx spec; merge_layers baseDir targetRoot (S idx) cfg
  end.

Definition MergeLayerConfig (cfg : LayerConfig) (baseDir targetRoot : string) : prog layer_ev (outcome unit) :=
  merge_layers baseDir targetRoot 0 cfg.
End layers.

(** * Properties *)

(** ** The configuration file *)

(** What is between the quotes of [%q]. *)
Definition escape `{UnicodeTables} (s : string) : string := quote_go (String.length s) s.

Section config.
Context {UT : UnicodeTables}.

Definition escape_layer (l : LayerSpec) : LayerSpec := {|
  LayerName := escape (LayerName l); LayerType := escape (LayerType l); Path := escape (Path l);
  TargetDir := escape (TargetDir l); SHA256 := escape (SHA256 l) |}.

Lemma quote_escape s : quote s = dq +:+ escape s +:+ dq.
Proof. done. Qed.

Lemma escape_nonempty s : s ≠ "" → escape s ≠ "".
Proof.
  destruct s as [|a s]; [done|]. intros _. unfold escape. cbn [String.length quote_go].
  destruct (decode_rune a s) as [[[r enc] rest]|] eqn:Hd; [|done].
  assert (enc ≠ "") as He.
  { unfold decode_rune in Hd. repeat (case_match; try done); by simplify_eq. }
  unfold quote_rune. repeat (case_match; try done); by destruct enc.
Qed.

Lemma trimmed_quote s : trimmed (quote s) = true.
Proof. rewrite quote_escape. by apply trimmed_ends. Qed.

Lemma unquote_quote s : unquote (quote s) = Ok (escape s).
Proof.
  rewrite quote_escape. unfold unquote. rewrite has_prefix_app.
  replace (has_suffix (dq +:+ escape s +:+ dq) dq) with true
    by (rewrite <-str_app_assoc; by rewrite has_suffix_app).
  cbn [andb orb]. unfold strip_ends. rewrite !str_length_app. cbn [String.length dq].
  replace (1 + (String.length (escape s) + 1) <? 2)%nat with false by (symmetry; apply Nat.ltb_ge; lia).
  rewrite (str_drop_len 1 dq) by done. by rewrite str_take_len by lia.
Qed.

Definition layer_keys : list string := ["name"; "type"; "path"; "target_dir"; "sha256"].

Lemma layer_line_key st key val :
  key ∈ layer_keys →
  layer_line st (key_value key val) =
    Ok {| layers := layers st; current := Some (apply_key (default new_layer (current st)) key (escape val)) |}.
Proof.
  intros Hkey.
  assert (∃ a k b k', key = String a k ∧ k +:+ " = " = String b k' ∧ ascii_ns a = true ∧ trimmed key = true ∧
    str_free "=" (key +:+ " ") = true ∧ has_prefix key "#" = false ∧ has_prefix key "[" = false)
    as (a & k & b & k' & -> & Hb & Ha & Hk & Hfree & Hhash & Hopen).
  { unfold layer_keys in Hkey. repeat (apply elem_of_cons in Hkey as [->|Hkey]; [by eexists _, _, _, _|]).
    by apply elem_of_nil in Hkey. }
  unfold layer_line, key_value.
  assert (trim_space (String a k +:+ " = " +:+ quote val) = String a k +:+ " = " +:+ quote val) as ->.
  { apply trim_space_trimmed. rewrite quote_escape.
    replace (String a k +:+ " = " +:+ dq +:+ escape val +:+ dq)
      with (String a "" +:+ (k +:+ " = " +:+ dq +:+ escape val) +:+ dq); [by apply trimmed_ends|].
    by rewrite !str_app_assoc, !str_app_cons, str_app_nil_l. }
  rewrite (decide_False (P := String a k +:+ " = " +:+ quote val = "")) by done.
  assert (∀ c, has_prefix (String a k) (String c "") = false →
    has_prefix (String a k +:+ " = " +:+ quote val) (String c "") = false) as Hfirst.
  { intros c. unfold has_prefix. rewrite str_app_cons. cbn. by destruct (Ascii.eqb _ _); [destruct k|]. }
  rewrite Hfirst by done. rewrite decide_False.
  2: { intros [H|H]; apply (f_equal (λ s, has_prefix s "[")) in H; by rewrite Hfirst in H. }
  replace (String a k +:+ " = " +:+ quote val) with ((String a k +:+ " ") +:+ String "=" (" " +:+ quote val))
    by (rewrite str_app_assoc; done).
  rewrite str_cut_free by done. rewrite trim_space_sp_l by apply trimmed_quote.
  rewrite unquote_quote, trim_space_sp_r by done. done.
Qed.

Lemma layer_line_open st :
  layer_line st "[[layer]]" =
    Ok {| layers := layers st ++ match current st with Some l => [l] | None => [] end; current := Some new_layer |}.
Proof. done. Qed.

Lemma layer_line_blank st : layer_line st "" = Ok st.
Proof. done. Qed.

Lemma fold_m_app {A B} (f : A → B → outcome A) acc xs ys :
  fold_m f acc (xs ++ ys) = (acc ← fold_m f acc xs; fold_m f acc ys).
Proof.
  revert acc. induction xs as [|x xs IH]; intros acc; cbn; [done|]. destruct (f acc x); cbn; [apply IH|done..].
Qed.

Definition flush_layer (st : toml_state) : LayerConfig :=
  layers st ++ match current st with Some l => [l] | None => [] end.

Lemma fold_layer_lines st spec :
  fold_m layer_line st (layer_lines spec) =
    Ok {| layers := flush_layer st; current := Some (escape_layer spec) |}.
Proof.
  unfold layer_lines. cbn [fold_m app]. rewrite layer_line_open. cbn [mbind outcome_bind].
  rewrite layer_line_key by (unfold layer_keys; set_solver). cbn [mbind outcome_bind layers current default].
  rewrite layer_line_key by (unfold layer_keys; set_solver). cbn [mbind outcome_bind layers current default].
  rewrite layer_line_key by (unfold layer_keys; set_solver). cbn [mbind outcome_bind layers current default].
  destruct spec as [n t p d h]. unfold escape_layer, flush_layer. cbn [LayerName LayerType Path TargetDir SHA256].
  destruct (decide (d = "")) as [->|Hd]; destruct (decide (h = "")) as [->|Hh]; cbn [app fold_m];
    rewrite ?layer_line_key by (unfold layer_keys; set_solver); cbn [mbind outcome_bind layers current default];
    rewrite ?layer_line_key by (unfold layer_keys; set_solver); cbn [mbind outcome_bind layers current default];
    rewrite layer_line_blank; done.
Qed.

Lemma fold_all_layers st cfg :
  ∃ st', fold_m layer_line st ((cfg ≫= layer_lines)) = Ok st' ∧
    flush_layer st' = flush_layer st ++ (escape_layer <$> cfg) ∧
    (cfg ≠ [] → current st' = escape_layer <$> last cfg).
Proof.
  revert st. induction cfg as [|spec cfg IH]; intros st.
  { exists st. cbn. by rewrite app_nil_r. }
  rewrite bind_cons, fold_m_app, fold_layer_lines. cbn [mbind outcome_bind].
  destruct (IH {| layers := flush_layer st; current := Some (escape_layer spec) |}) as (st' & Hf & Hfl & Hc).
  exists st'. split; [done|]. split; [rewrite Hfl; unfold flush_layer at 1; cbn; by rewrite <-app_assoc|].
  intros _. destruct cfg as [|spec' cfg]; [|rewrite last_cons_cons; by apply Hc].
  cbn in Hf. injection Hf as <-. done.
Qed.

Lemma key_value_no_eol k v : str_forall no_eol k = true → str_forall no_eol (key_value k v) = true.
Proof.
  intros Hk. unfold key_value, escape. rewrite quote_escape, !str_forall_app, Hk. unfold escape.
  by rewrite quote_go_no_eol.
Qed.

Lemma layer_lines_no_eol spec : Forall (λ l, str_forall no_eol l = true) (layer_lines spec).
Proof.
  unfold layer_lines. repeat case_decide; cbn [app];
    repeat (apply Forall_cons; split; [first [done|by apply key_value_no_eol]|]); by apply Forall_nil.
Qed.

(** A configuration whose layers have a name where it is needed and short lines. *)
Definition config_ok (cfg : LayerConfig) : Prop :=
  (∀ l, last cfg = Some l → LayerName l ≠ "") ∧
  Forall (λ l, Z.of_nat (String.length l) < MaxScanTokenSize)%Z ((cfg ≫= layer_lines)).

Lemma parse_layers_text path cfg :
  config_ok cfg → parse_layer_lines path (layers_text cfg) None = Ok (escape_layer <$> cfg).
Proof.
  intros [Hname Hlen]. unfold parse_layer_lines, layers_text. rewrite scan_document.
  2: { apply Forall_app. split; [by repeat constructor|].
       apply Forall_forall. intros l Hl. rewrite Forall_forall in Hlen. specialize (Hlen l Hl).
       assert (str_forall no_eol l = true) as Hnl.
       { apply list_elem_of_bind in Hl as (spec & Hl & _). clear Hlen. revert l Hl. apply Forall_forall, layer_lines_no_eol. }
       unfold line_ok. rewrite (proj2 (Z.ltb_lt _ _)) by done. rewrite andb_true_r, andb_true_iff.
       split; eapply str_forall_impl; try exact Hnl; intros a; unfold no_eol; by rewrite andb_true_iff; intros [? ?]. }
  rewrite fold_m_app. cbn [fold_m]. change (layer_line layer_init config_title) with (Ok layer_init).
  cbn [mbind outcome_bind]. rewrite layer_line_blank. cbn [mbind outcome_bind].
  destruct (fold_all_layers layer_init cfg) as (st & -> & Hfl & Hc). cbn [mbind outcome_bind scanner_err].
  f_equal. unfold layer_result. unfold flush_layer in Hfl. cbn [layers layer_init current app] in Hfl.
  destruct (last cfg) as [l|] eqn:Hl.
  - rewrite Hc in * by by destruct cfg. cbn in *. rewrite decide_False; [done|].
    apply escape_nonempty. by apply Hname.
  - apply last_None in Hl. subst cfg. cbn in *. apply app_eq_nil in Hfl as [-> Hf]. by destruct (current st).
Qed.

(** A layer of plain texts is its own escaped form. *)
Definition plain_layer (l : LayerSpec) : Prop :=
  Forall (λ t, str_forall plain t = true) [LayerName l; LayerType l; Path l; TargetDir l; SHA256 l].

Lemma escape_plain cfg : Forall plain_layer cfg → escape_layer <$> cfg = cfg.
Proof.
  induction 1 as [|l cfg Hl _ IH]; [done|]. rewrite fmap_cons, IH. f_equal. unfold plain_layer in Hl.
  rewrite !Forall_cons in Hl. destruct Hl as (H1 & H2 & H3 & H4 & H5 & _), l. unfold escape_layer, escape.
  cbn [LayerName LayerType Path TargetDir SHA256] in *. by rewrite !quote_go_plain.
Qed.

(** Files by path: a save may fail, what was written is read back. *)
Definition store_env : env_rel layer_ev (gmap string string) := λ X e s x s',
  match e in layer_ev Y return Y → Prop with
  | SaveFile p d _ => λ r, s' = match r with None => <[p := d]> s | Some _ => s end
  | ReadConfig p => λ r, s' = s ∧ r = match s !! p with Some d => ConfigData d | None => ConfigMissing end
  | OpenLines p => λ r, s' = s ∧ ∀ d, s !! p = Some d → r = FileData d None
  | _ => λ _, s' = s
  end x.

(** What was saved is loaded. *)
Lemma load_saved `{LayerCodec} cfg path s :
  has_suffix path ".json" = false → config_ok cfg → s !! path = Some (layers_text cfg) →
  wp store_env (LoadLayerConfig path) (λ r s', r = Ok (escape_layer <$> cfg) ∧ s' = s) s.
Proof.
  intros Hpath Hcfg Hs. unfold LoadLayerConfig. rewrite Hpath. cbn [wp store_env].
  intros r s1 [-> ->]. rewrite Hs. cbn [orb].
  assert (has_prefix (trim_space (layers_text cfg)) "{" = false) as ->.
  { unfold layers_text. cbn [app document foldr]. unfold config_title at 1. rewrite !str_app_cons.
    edestruct trim_space_head as [t ->]; [|by destruct t]. done. }
  unfold parseLayerTOML. cbn [wp store_env]. intros f s2 [-> Hf]. rewrite (Hf _ Hs). cbn [wp].
  split; [by apply parse_layers_text|done].
Qed.

(** A save leaves its text, or fails. *)
Lemma wp_save `{LayerCodec} cfg path s :
  has_suffix path ".json" = false →
  wp store_env (SaveLayerConfig cfg path)
    (λ r s', r = Ok tt ∧ s' = <[path := layers_text cfg]> s ∨ (∃ e, r = Err e) ∧ s' = s) s.
Proof.
  intros Hpath. unfold SaveLayerConfig. rewrite Hpath. cbn [ebind layer_act prog_bind wp store_env].
  intros [e|] s1 ->; cbn [prog_bind wp store_env]; [right; split; [by eexists|done]|].
  intros [e|] s1 ->; cbn [prog_bind wp store_env]; [right; split; [by eexists|done]|]. by left.
Qed.

(** C17: what [SaveLayerConfig] writes as TOML [LoadLayerConfig] reads back as the same
    layers in the same order, except that each text comes back as [%q] escaped it: the
    reader drops the quotes but does not undo the escapes.  So a text of plain characters
    is restored, and one with a quote, a backslash or a byte outside ASCII that is not
    printable is not. *)
Theorem layers_saved_and_loaded `{LayerCodec} cfg path s :
  has_suffix path ".json" = false → config_ok cfg →
  (Forall plain_layer cfg → escape_layer <$> cfg = cfg) ∧
  wp store_env (_ ←! SaveLayerConfig cfg path; LoadLayerConfig path)
    (λ r s', r = Ok (escape_layer <$> cfg) ∨ (∃ e, r = Err e) ∧ s' = s) s.
Proof.
  intros Hpath Hcfg. split; [apply escape_plain|]. apply wp_ebind. eapply wp_mono; [|by apply wp_save].
  intros r s' [[-> ->]|[[e ->] ->]]; [|right; split; [by eexists|done]].
  eapply wp_mono; [|apply load_saved; [done..|apply lookup_insert_eq]]. intros r s'' [-> _]. by left.
Qed.
End config.

(** ** Archives *)

Section archives.
Context {U : Unix} {UT : UnicodeTables} {LC : LayerCodec} (cwd : outcome string).

(** The manifest of an archive: the first entry of that name that holds one. *)
Fixpoint manifest_of (es : list (tar_header * string)) : option DockerManifestEntry :=
  match es with
  | [] => None
  | (hdr, data) :: es =>
      if decide (Clean (Name hdr) = "manifest.json") then
        match decode_manifest data with Ok (m :: _) => Some m | _ => manifest_of es end
      else manifest_of es
  end.

(** The blob of a layer: the last entry of its name. *)
Definition named (p : string) (e : tar_header * string) : Prop := Clean (Name e.1) = Clean p.
#[local] Instance named_dec p e : Decision (named p e) := decide (Clean (Name e.1) = Clean p).

Definition blob_of (es : list (tar_header * string)) (p : string) : option string := snd <$> last (filter (named p) es).

(** What an archive asks for: its layers in the order of the manifest. *)
Fixpoint apply_layers (root : string) (idx : nat) (ls : list (string * option string)) : prog fs_ev (outcome unit) :=
  match ls with
  | [] => done_
  | (p, None) :: _ => throw ("layer payload " +:+ p +:+ " missing from archive tarball")
  | (p, Some data) :: ls =>
      let extract archive :=
        wrapping ("failed extracting layer " +:+ itoa (Z.of_nat idx) +:+ " (" +:+ p +:+ "): ")
          (ExtractLayerTarball cwd archive root) in
      _ ←! (if is_gzip data p then
              match gzip_header data with
              | Some e => throw ("failed uncompressing layer tar " +:+ p +:+ ": " +:+ e)
              | None => extract (untar_gz data)
              end
            else extract (untar data));
      apply_layers root (S idx) ls
  end.

Context {S : Type} (env : env_rel fs_ev S) (tarPath data : string).

(** The archive is the file [tarPath], and can be read; the rest is up to the file system. *)
Definition archive_env : env_rel layer_ev S := λ X e s x s',
  match e in layer_ev Y return Y → Prop with
  | OnFs e => λ x, env _ e s x s'
  | OpenArchive q => λ r, s' = s ∧ (q = tarPath → r = inl data)
  | ReadPayload _ => λ r, s' = s ∧ r = None
  | _ => λ _, s' = s
  end x.

Definition is_archive (a : tar_archive) : Prop :=
  (if gz_name tarPath then gzip_header data = None ∧ untar_gz data = a else untar data = a) ∧ tar_err a = None.

Lemma wp_open_archive opening uncompressing a (Q : outcome tar_archive → S → Prop) s :
  is_archive a → wp archive_env (open_archive opening uncompressing tarPath) Q s ↔ Q (Ok a) s.
Proof.
  intros [Ha _]. unfold open_archive. cbn [wp archive_env].
  assert (wp archive_env
    (if gz_name tarPath
     then match gzip_header data with Some e => throw (uncompressing +:+ e) | None => Ret (Ok (untar_gz data)) end
     else Ret (Ok (untar data))) Q s ↔ Q (Ok a) s) as Hd.
  { destruct (gz_name tarPath); [destruct Ha as [-> ->]|rewrite Ha]; done. }
  split.
  - intros H. by apply Hd, (H (inl data) s).
  - intros H r s' [-> Hr]. rewrite Hr by done. by apply Hd.
Qed.

Lemma wp_read_payload {A} name pre (p : prog layer_ev (outcome A)) Q s :
  wp archive_env (_ ←! wrapping pre (layer_act (ReadPayload name)); p) Q s ↔ wp archive_env p Q s.
Proof.
  rewrite wp_ebind, wp_wrapping. cbn [layer_act wp archive_env]. split.
  - intros H. by apply (H None s).
  - by intros H x s' [-> ->].
Qed.

Lemma wp_find_manifest es m (Q : outcome OCIArchiveInfo → S → Prop) s :
  manifest_of es = Some m →
  wp archive_env (find_manifest tarPath es None) Q s ↔
  Q (Ok {| InfoRepoTags := RepoTags m; LayerPaths := DockerLayers m |}) s.
Proof.
  induction es as [|[hdr d] es IH]; cbn [manifest_of find_manifest]; [done|].
  destruct (decide _); [|exact IH]. intros Hm. rewrite wp_read_payload.
  destruct (decode_manifest d) as [ms|err|]; [|by apply IH..]. destruct ms as [|m' ms]; [by apply IH|].
  by injection Hm as ->.
Qed.

(** The blobs that the second pass keeps. *)
Definition keep (wanted : list string) (m : gmap string string) (e : tar_header * string) : gmap string string :=
  if decide (Clean (Name e.1) ∈ wanted) then <[Clean (Name e.1) := e.2]> m else m.

Lemma wp_cache_layers wanted es m (Q : outcome (gmap string string) → S → Prop) s :
  wp archive_env (cache_layers wanted es None m) Q s ↔ Q (Ok (foldl (keep wanted) m es)) s.
Proof.
  revert m. induction es as [|[hdr d] es IH]; intros m; [done|]. cbn [cache_layers foldl].
  unfold keep at 2. cbn [fst snd]. destruct (decide _) as [Hin|Hin].
  - rewrite wp_read_payload. apply IH.
  - apply IH.
Qed.

Lemma kept wanted es m p :
  Clean p ∈ wanted →
  foldl (keep wanted) m es !! Clean p = match blob_of es p with Some d => Some d | None => m !! Clean p end.
Proof.
  intros Hp. revert m. induction es as [|e es IH]; intros m; [done|]. cbn [foldl]. rewrite IH.
  unfold blob_of. rewrite filter_cons. destruct (decide (named p e)) as [Hn|Hn].
  - rewrite last_cons. destruct (last (filter _ es)); [done|]. cbn. unfold keep. unfold named in Hn.
    rewrite Hn, decide_True by done. apply lookup_insert_eq.
  - destruct (last (filter _ es)); [done|]. cbn. unfold keep. case_decide; [|done].
    by rewrite lookup_insert_ne.
Qed.

Lemma wp_extract_layers root idx paths layerData es Q s :
  (∀ p, p ∈ paths → layerData !! Clean p = blob_of es p) →
  wp archive_env (extract_layers cwd root idx paths layerData) Q s ↔
  wp env (apply_layers root idx ((λ p, (p, blob_of es p)) <$> paths)) Q s.
Proof.
  revert idx Q s. induction paths as [|p paths IH]; intros idx Q s Hblob; [done|].
  rewrite fmap_cons. cbn [extract_layers apply_layers]. rewrite (Hblob p) by by left.
  destruct (blob_of es p) as [d|]; [|done]. rewrite !wp_ebind.
  assert (∀ Q', wp archive_env (extract_layer cwd root idx p d) Q' s ↔
    wp env (let extract archive :=
        wrapping ("failed extracting layer " +:+ itoa (Z.of_nat idx) +:+ " (" +:+ p +:+ "): ")
          (ExtractLayerTarball cwd archive root) in
      if is_gzip d p then
        match gzip_header d with
        | Some e => throw ("failed uncompressing layer tar " +:+ p +:+ ": " +:+ e)
        | None => extract (untar_gz d)
        end
      else extract (untar d)) Q' s) as ->.
  { intros Q'. unfold extract_layer. cbv zeta.
    destruct (is_gzip d p); [destruct (gzip_header d); [done|]|];
      rewrite !wp_wrapping; unfold on_fs; by rewrite (wp_translate _ env). }
  split; (eapply wp_mono; intros [[]|e|] s'; [|done..]); apply IH; intros q Hq; apply Hblob; by right.
Qed.

(** C16: unpacking an archive is, to the file system, exactly the extraction of the layers
    its manifest lists, in that order, each from the last entry of its name, whatever else
    the archive holds and wherever its entries are; a layer that is missing ends it with an
    error after the layers before it.  The contents of a layer are not compared with the
    digest in its name: the documentation of the layers says a layer stored as
    [blobs/sha256/<hex>] is verified to hash to it before anything is written. *)
Theorem UnpackOCIArchive_refines a m root Q s :
  is_archive a → manifest_of (entries a) = Some m → DockerLayers m ≠ [] →
  wp archive_env (UnpackOCIArchive cwd tarPath root) Q s ↔
  wp env (apply_layers root 0 ((λ p, (p, blob_of (entries a) p)) <$> DockerLayers m)) Q s.
Proof.
  intros Ha Hm Hne. pose proof Ha as [_ Herr]. unfold UnpackOCIArchive, InspectOCIArchive.
  rewrite wp_ebind, wp_wrapping, wp_ebind, wp_open_archive, Herr, wp_find_manifest by done.
  cbn [wrap_err LayerPaths]. rewrite decide_False by done.
  rewrite wp_ebind, wp_open_archive, Herr, wp_ebind, wp_cache_layers by done.
  apply wp_extract_layers. intros p Hp. rewrite kept by by apply list_elem_of_fmap_2.
  rewrite lookup_empty. by destruct (blob_of _ _).
Qed.
End archives.

(** ** Confinement *)

Section confined.
Context {U : Unix} {UT : UnicodeTables} {LC : LayerCodec} (cwd : outcome string).
Context (ds : list string) (Hds : Forall norm_comp ds) (Hne : ds ≠ []).

(** Every path that a request creates, changes or removes is the root or below it. *)
Definition layer_touches X (e : layer_ev X) : Prop :=
  match e with
  | OnFs e => touches_inside ds _ e
  | SaveFile _ _ _ => False
  | _ => True
  end.

(** Directory entries have proper names, and a walk reports its root and paths below it. *)
Definition proper_names : answer_rel layer_ev := λ X e x,
  match e in layer_ev Y return Y → Prop with
  | OnFs e => dir_names _ e
  | WalkTree p => λ ws, ∀ ss, Forall norm_comp ss → p = abs_path ss →
      Forall (λ w, ∃ cs, Forall norm_comp cs ∧ w_path w = abs_path (ss ++ cs)) ws
  | _ => λ _, True
  end x.

(** A path with more [..] than elements before them. *)
Definition climbs (p : string) : Prop := head (clean_comps false (str_split "/" p)) = Some "..".

(** A layer whose source is a clean absolute path and whose target, absolute or not, does
    not climb. *)
Definition layer_placed (baseDir : string) (spec : LayerSpec) : Prop :=
  (∃ ss, Forall norm_comp ss ∧ ss ≠ [] ∧ layer_source baseDir spec = abs_path ss) ∧ ¬ climbs (TargetDir spec).

Lemma inside_below cs p : Forall norm_comp cs → inside (ds ++ cs) p → inside ds p.
Proof.
  intros Hcs (es & Hes & ->). rewrite <-app_assoc. exists (cs ++ es). split; [|done]. by apply Forall_app.
Qed.

Lemma touches_below cs X (e : fs_ev X) : Forall norm_comp cs → touches_inside (ds ++ cs) X e → touches_inside ds X e.
Proof.
  intros Hcs. destruct e; cbn; try (done || by apply inside_below).
  - intros [H| ->]; [left; by apply (inside_below cs)|]. by apply (inside_parent ds).
  - intros [H1 H2]. split; by apply (inside_below cs).
  - intros [H1 H2]. split; by apply (inside_below cs).
Qed.

Lemma safe_layer_act e (Q : outcome unit → Prop) :
  layer_touches _ e → (∀ r, Q r) → safe proper_names layer_touches (layer_act e) Q.
Proof. intros He HQ. split; [done|]. intros [] _; apply HQ. Qed.

Lemma safe_on_fs cs archive :
  Forall norm_comp cs →
  safe proper_names layer_touches (on_fs (ExtractLayerTarball cwd archive (abs_path (ds ++ cs)))) (λ _, True).
Proof.
  intros Hcs. apply safe_translate.
  apply (safe_mono dir_names (touches_inside (ds ++ cs)) (touches_inside ds) _ (λ _, True)); [|done|].
  - intros X e. by apply touches_below.
  - apply ExtractLayerTarball_confined; [by apply Forall_app|]. intros [? ?]%app_eq_nil. done.
Qed.

Lemma safe_open_archive opening uncompressing p :
  safe proper_names layer_touches (open_archive opening uncompressing p) (λ _, True).
Proof.
  split; [done|]. intros [data|e] _; [|done]. destruct (gz_name p); [|done]. by destruct (gzip_header data).
Qed.

Lemma safe_find_manifest p es err : safe proper_names layer_touches (find_manifest p es err) (λ _, True).
Proof.
  induction es as [|[hdr data] es IH]; [done|]. cbn [find_manifest]. destruct (decide _); [|done].
  apply safe_ebind, safe_wrapping, safe_layer_act; [done|]. intros [[]|?|]; [|done..]. cbn.
  destruct (decode_manifest data) as [[|]|?|]; done.
Qed.

Lemma safe_cache_layers wanted es err m :
  safe proper_names layer_touches (cache_layers wanted es err m) (λ _, True).
Proof.
  revert m. induction es as [|[hdr data] es IH]; intros m; [by destruct err|]. cbn [cache_layers].
  destruct (decide _); [|done]. apply safe_ebind, safe_wrapping, safe_layer_act; [done|].
  intros [[]|?|]; [|done..]. apply IH.
Qed.

(** Run a step that is safe whatever its result, and go on. *)
Lemma safe_then {A B} (p : prog layer_ev (outcome A)) (f : A → prog layer_ev (outcome B)) :
  safe proper_names layer_touches p (λ _, True) →
  (∀ a, safe proper_names layer_touches (f a) (λ _, True)) →
  safe proper_names layer_touches (ebind p f) (λ _, True).
Proof.
  intros Hp Hf. apply safe_ebind. eapply safe_mono; [| |exact Hp]; [done|]. intros [a|e|] _; [apply Hf|done..].
Qed.

Lemma safe_extract_layers cs idx paths m :
  Forall norm_comp cs →
  safe proper_names layer_touches (extract_layers cwd (abs_path (ds ++ cs)) idx paths m) (λ _, True).
Proof.
  intros Hcs. revert idx. induction paths as [|p paths IH]; intros idx; [done|]. cbn [extract_layers].
  destruct (m !! Clean p) as [data|]; [|done]. apply safe_then; [|done]. unfold extract_layer.
  destruct (is_gzip data p); [destruct (gzip_header data); [done|]|]; by apply safe_wrapping, safe_on_fs.
Qed.

Lemma safe_UnpackOCIArchive cs p :
  Forall norm_comp cs →
  safe proper_names layer_touches (UnpackOCIArchive cwd p (abs_path (ds ++ cs))) (λ _, True).
Proof.
  intros Hcs. unfold UnpackOCIArchive. apply safe_then.
  { apply safe_wrapping. unfold InspectOCIArchive. apply safe_then; [apply safe_open_archive|].
    intros a. apply safe_find_manifest. }
  intros info. destruct (decide _); [done|]. apply safe_then; [apply safe_open_archive|]. intros a.
  apply safe_then; [apply safe_cache_layers|]. intros m. by apply safe_extract_layers.
Qed.

Lemma safe_copyExecutableFile src es :
  Forall norm_comp es → safe proper_names layer_touches (copyExecutableFile src (abs_path (ds ++ es))) (λ _, True).
Proof.
  intros Hes. split; [done|]. intros [data|e] _; [|done]. split; [done|]. intros [mode|e] _; [|done].
  apply safe_then; [apply safe_layer_act; [by apply inside_parent|done]|]. intros [].
  apply safe_then; [apply safe_layer_act; [by apply inside_path|done]|]. intros [].
  apply safe_layer_act; [by apply inside_path|done].
Qed.

Lemma safe_copyDirectoryTree ss cs :
  Forall norm_comp ss → Forall norm_comp cs →
  safe proper_names layer_touches (copyDirectoryTree (abs_path ss) (abs_path (ds ++ cs))) (λ _, True).
Proof.
  intros Hss Hcs. split; [done|]. intros ws Hws. cbn in Hws. specialize (Hws ss Hss eq_refl).
  apply safe_each. intros w Hw. rewrite Forall_forall in Hws. destruct (Hws w Hw) as (es & Hes & Hp).
  unfold copy_walked. destruct (w_err w); [done|]. rewrite Hp.
  destruct (decide (es = [])) as [->|Hne'].
  { rewrite app_nil_r. unfold Rel. by rewrite decide_True. }
  rewrite Rel_below by done. cbn [ebind prog_bind].
  rewrite decide_False.
  2: { intros H. apply (f_equal (str_split "/")) in H. rewrite str_split_join in H by (done || by apply Forall_norm_free).
       subst es. apply Forall_cons in Hes as [(_ & H & _) _]. done. }
  assert (Forall norm_comp (ds ++ cs)) as Hdc by by apply Forall_app.
  rewrite Join_abs_rel by done. rewrite <-app_assoc.
  assert (Forall norm_comp (cs ++ es)) as Hce by by apply Forall_app.
  destruct (w_dir w); [|by apply safe_copyExecutableFile].
  apply safe_layer_act; [|done]. left. by apply inside_path.
Qed.

Lemma layer_target_inside spec :
  ¬ climbs (TargetDir spec) →
  ∃ cs, Forall norm_comp cs ∧ layer_target (abs_path ds) spec = abs_path (ds ++ cs).
Proof.
  unfold layer_target, climbs. intros Ht. destruct (decide (TargetDir spec = "")) as [_|Hn].
  { exists []. by rewrite app_nil_r. }
  exists (clean_comps false (str_split "/" (TargetDir spec))).
  assert (Forall norm_comp (clean_comps false (str_split "/" (TargetDir spec)))) as Hcs.
  { destruct (clean_comps_shape false (str_split "/" (TargetDir spec))) as (n & es & Heq & Hes & _);
      [apply str_split_free_all|]. rewrite Heq in *. by destruct n. }
  split; [done|by apply Join_abs_inside].
Qed.

Lemma safe_merge_layer baseDir idx spec :
  layer_placed baseDir spec →
  safe proper_names layer_touches (merge_layer cwd baseDir (abs_path ds) idx spec) (λ _, True).
Proof.
  intros [(ss & Hss & Hsne & Hsrc) Ht]. destruct (layer_target_inside spec Ht) as (cs & Hcs & Htgt).
  unfold merge_layer. rewrite Hsrc, Htgt.
  apply safe_then; [by apply safe_wrapping, safe_layer_act|]. intros [].
  apply safe_then; [apply safe_wrapping, safe_layer_act; [left; by apply inside_path|done]|]. intros [].
  destruct (decide _); [apply safe_wrapping; by apply safe_UnpackOCIArchive|].
  destruct (decide _).
  { unfold merge_tarball. apply safe_then; [apply safe_open_archive|]. intros a. by apply safe_wrapping, safe_on_fs. }
  destruct (decide _); [apply safe_wrapping; by apply safe_copyDirectoryTree|].
  destruct (decide _); [|done]. apply safe_wrapping.
  destruct ss as [|c ss _] using rev_ind; [done|].
  assert (Base (abs_path (ss ++ [c])) = c) as -> by by apply Base_abs_snoc.
  apply Forall_app in Hss as [_ Hc]. assert (Forall norm_comp (ds ++ cs)) as Hdc by by apply Forall_app.
  assert (Join [abs_path (ds ++ cs); c] = abs_path (ds ++ cs ++ [c])) as ->.
  { rewrite app_assoc. by apply (Join_abs_rel (ds ++ cs) [c]). }
  apply safe_copyExecutableFile. by apply Forall_app.
Qed.

Lemma safe_MergeLayerConfig cfg baseDir :
  Forall (layer_placed baseDir) cfg →
  safe proper_names layer_touches (MergeLayerConfig cwd cfg baseDir (abs_path ds)) (λ _, True).
Proof.
  unfold MergeLayerConfig. generalize 0. induction cfg as [|spec cfg IH]; intros idx Hcfg; [done|].
  apply Forall_cons in Hcfg as [Hspec Hcfg]. cbn [merge_layers].
  apply safe_then; [by apply safe_merge_layer|]. intros []. by apply IH.
Qed.
End confined.

(** ** A file system with symbolic links

    What is at a path, by its elements.  The kernel follows the symbolic links on the way
    to the last element of a path, and the last one too when a file is opened.  [crossed]
    records that a request was led through a link, after which anything may have changed
    anywhere; [linked], that a link was made.  Files are by path: one with a second name
    elsewhere is not considered. *)
Inductive fsnode := FDir | FFile (data : string) | FLink (target : string).
Record host := { nodes : gmap (list string) fsnode; crossed : bool; linked : bool }.

(** A request for the path [cs] meets a link; [last] says whether it follows the last one. *)
Definition meets (last : bool) (n : gmap (list string) fsnode) (cs : list string) : Prop :=
  ∃ q t, n !! q = Some (FLink t) ∧ q `prefix_of` cs ∧ (q ≠ cs ∨ last = true).

(** Only what is at [cs] or below changes. *)
Definition changes_below (cs : list string) (n n' : gmap (list string) fsnode) : Prop :=
  ∀ q, ¬ cs `prefix_of` q → n' !! q = n !! q.
(** Only directories are made, on the way to [cs]. *)
Definition makes_dirs (cs : list string) (n n' : gmap (list string) fsnode) : Prop :=
  ∀ q, n' !! q = n !! q ∨ (q `prefix_of` cs ∧ n !! q = None ∧ n' !! q = Some FDir).
Definition no_new_link (n n' : gmap (list string) fsnode) : Prop :=
  ∀ q t, n' !! q = Some (FLink t) → n !! q = Some (FLink t).

(** What a request may do that meets a link when [met], and otherwise changes the nodes
    as [how] says; [sym]: it makes a link.  It may also have no effect. *)
Definition mutates (met : Prop) (sym : bool) (how : gmap (list string) fsnode → gmap (list string) fsnode → Prop)
    (s s' : host) : Prop :=
  s' = s ∨
  (met ∧ crossed s' = true ∧ linked s' = linked s || sym) ∨
  (¬ met ∧ crossed s' = crossed s ∧ linked s' = linked s || sym ∧ how (nodes s) (nodes s')).

(** A hard link is to what its old name leads to; [openat2] with [RESOLVE_BENEATH] does not
    leave its directory, whatever links there are. *)
Definition host_env : env_rel fs_ev host := λ X e s x s',
  match e in fs_ev Y return Y → Prop with
  | RemoveAll p | Remove p => λ _,
      mutates (meets false (nodes s) (comps p)) false
        (λ n n', changes_below (comps p) n n' ∧ no_new_link n n') s s'
  | Symlink _ p => λ _,
      mutates (meets false (nodes s) (comps p)) true (λ n n', changes_below (comps p) n n') s s'
  | Link old p => λ _,
      mutates (meets true (nodes s) (comps old) ∨ meets false (nodes s) (comps p)) false
        (λ n n', changes_below (comps p) n n' ∧ no_new_link n n') s s'
  | OpenFile p _ _ | CopyData p _ => λ _,
      mutates (meets true (nodes s) (comps p)) false
        (λ n n', changes_below (comps p) n n' ∧ no_new_link n n') s s'
  | MkdirAll p _ => λ _,
      mutates (meets false (nodes s) (comps p)) false (λ n n', makes_dirs (comps p) n n') s s'
  | Openat2 dir _ _ _ => λ _,
      mutates (meets true (nodes s) (comps dir)) false
        (λ n n', changes_below (comps dir) n n' ∧ no_new_link n n') s s'
  | ReadDir p => λ r, s' = s ∧ dir_names _ (ReadDir p) r
  | Lstat _ | EvalSymlinks _ | OpenDir _ => λ _, s' = s
  end x.

Definition merge_env : env_rel layer_ev host := λ X e s x s',
  match e in layer_ev Y return Y → Prop with
  | OnFs e => λ x, host_env _ e s x s'
  | WalkTree p => λ ws, s' = s ∧ proper_names _ (WalkTree p) ws
  | SaveFile _ _ _ => λ _, True
  | _ => λ _, s' = s
  end x.

Section merging.
Context {U : Unix} {UT : UnicodeTables} {LC : LayerCodec} (cwd : outcome string).
Context (ds : list string) (Hds : Forall norm_comp ds) (Hne : ds ≠ []).

(** No symbolic link on the way to the root, at it or below it. *)
Definition link_free (n : gmap (list string) fsnode) : Prop :=
  ∀ q t, n !! q = Some (FLink t) → ¬ q `prefix_of` ds ∧ ¬ ds `prefix_of` q.

(** Outside the root nothing changed, except that directories on the way to it were made. *)
Definition outside_kept (n n' : gmap (list string) fsnode) : Prop :=
  ∀ q, ¬ ds `prefix_of` q →
    n' !! q = n !! q ∨ (q `prefix_of` ds ∧ n !! q = None ∧ n' !! q = Some FDir).

Lemma outside_kept_trans n1 n2 n3 : outside_kept n1 n2 → outside_kept n2 n3 → outside_kept n1 n3.
Proof.
  intros H1 H2 q Hq. destruct (H2 q Hq) as [E2|(P2 & N2 & E2)], (H1 q Hq) as [E1|(P1 & N1 & E1)].
  - left. congruence.
  - right. split_and!; [done..|congruence].
  - right. split_and!; [done|congruence|done].
  - congruence.
Qed.

(** Where the requests are made: at or below the root, or on the way to it. *)
Definition near_root (cs : list string) : Prop := ds `prefix_of` cs ∨ cs `prefix_of` ds.

Lemma meets_not_free last n cs : near_root cs → meets last n cs → ¬ link_free n.
Proof.
  intros Hcs (q & t & Hq & Hp & _) Hf. destruct (Hf q t Hq) as [H1 H2]. destruct Hcs as [Hcs|Hcs].
  - destruct (prefix_weak_total q ds cs Hp Hcs); done.
  - apply H1. by trans cs.
Qed.

(** What holds at every moment. *)
Definition merge_ok (s0 s : host) : Prop :=
  (crossed s = false → outside_kept (nodes s0) (nodes s)) ∧
  (link_free (nodes s0) → linked s = false → crossed s = false ∧ link_free (nodes s)).

Lemma merge_ok_mutates s0 s s' met sym how :
  merge_ok s0 s → mutates met sym how s s' → (met → ¬ link_free (nodes s)) →
  (how (nodes s) (nodes s') → outside_kept (nodes s) (nodes s') ∧ (sym = false → no_new_link (nodes s) (nodes s'))) →
  merge_ok s0 s'.
Proof.
  intros [H1 H2] [->|[(Hm & Hc & Hl)|(_ & Hc & Hl & Hh)]] Hmet Hhow; [done| |].
  - split; [by rewrite Hc|]. intros Hf Hl'. rewrite Hl in Hl'. apply orb_false_iff in Hl' as [Hls _].
    destruct (H2 Hf Hls) as [_ Hf']. by destruct (Hmet Hm).
  - destruct (Hhow Hh) as [Ho Hn]. split.
    + intros Hc'. eapply outside_kept_trans; [apply H1; congruence|exact Ho].
    + intros Hf Hl'. rewrite Hl in Hl'. apply orb_false_iff in Hl' as [Hls Hsym].
      destruct (H2 Hf Hls) as [Hcs Hf']. split; [congruence|]. intros q t Hq. apply (Hf' q t). by apply Hn.
Qed.

Lemma changes_below_kept cs n n' : ds `prefix_of` cs → changes_below cs n n' → outside_kept n n'.
Proof. intros Hcs Hch q Hq. left. apply Hch. intros H. apply Hq. by trans cs. Qed.

Lemma makes_dirs_kept cs n n' :
  near_root cs → makes_dirs cs n n' → outside_kept n n' ∧ no_new_link n n'.
Proof.
  intros Hcs Hm. split.
  - intros q Hq. destruct (Hm q) as [H|(Hp & H1 & H2)]; [by left|right]. split_and!; [|done..].
    destruct Hcs as [Hcs|Hcs]; [|by trans cs]. by destruct (prefix_weak_total q ds cs Hp Hcs).
  - intros q t Hq. destruct (Hm q) as [H|(_ & _ & H)]; congruence.
Qed.

Lemma inside_comps p : inside ds p → ds `prefix_of` comps p.
Proof.
  intros (cs & Hcs & ->). rewrite comps_abs_path by by apply Forall_app. by apply prefix_app_r.
Qed.

Lemma parent_comps : near_root (comps (Dir (abs_path ds))).
Proof.
  right. destruct ds as [|c cs _] using rev_ind; [done|]. rewrite Dir_abs_snoc by done.
  rewrite comps_abs_path by by apply Forall_app in Hds as [? _]. by apply prefix_app_r.
Qed.

Lemma merge_ok_host s0 X (e : fs_ev X) s x s' :
  touches_inside ds _ e → merge_ok s0 s → host_env X e s x s' → dir_names _ e x ∧ merge_ok s0 s'.
Proof.
  intros He Hs Henv.
  assert (∀ p last, inside ds p → meets last (nodes s) (comps p) → ¬ link_free (nodes s)) as Hmeet.
  { intros p last Hp. apply meets_not_free. left. by apply inside_comps. }
  assert (∀ p n n', inside ds p → changes_below (comps p) n n' → outside_kept n n') as Hchange.
  { intros p n n' Hp. apply changes_below_kept. by apply inside_comps. }
  destruct e; cbn in He, Henv; try (by subst s'); try (destruct Henv as [-> ?]; done); (split; [done|]).
  - eapply merge_ok_mutates; [exact Hs|exact Henv| |].
    + apply meets_not_free. destruct He as [He| ->]; [left; by apply inside_comps|apply parent_comps].
    + intros Hh. eapply makes_dirs_kept in Hh as [H1 H2]; [done|].
      destruct He as [He| ->]; [left; by apply inside_comps|apply parent_comps].
  - eapply merge_ok_mutates; [exact Hs|exact Henv|by apply Hmeet|]. intros [H1 H2]. split; [by eapply Hchange|done].
  - eapply merge_ok_mutates; [exact Hs|exact Henv|by apply Hmeet|]. intros [H1 H2]. split; [by eapply Hchange|done].
  - eapply merge_ok_mutates; [exact Hs|exact Henv|by apply Hmeet|]. intros H1. split; [by eapply Hchange|done].
  - destruct He as [He1 He2]. eapply merge_ok_mutates; [exact Hs|exact Henv| |].
    + intros [H|H]; [exact (Hmeet _ _ He1 H)|exact (Hmeet _ _ He2 H)].
    + intros [H1 H2]. split; [exact (Hchange _ _ _ He2 H1)|done].
  - destruct He as [He _]. eapply merge_ok_mutates; [exact Hs|exact Henv|by apply Hmeet|].
    intros [H1 H2]. split; [by eapply Hchange|done].
  - eapply merge_ok_mutates; [exact Hs|exact Henv|by apply Hmeet|]. intros [H1 H2]. split; [by eapply Hchange|done].
  - eapply merge_ok_mutates; [exact Hs|exact Henv|by apply Hmeet|]. intros [H1 H2]. split; [by eapply Hchange|done].
Qed.

(** C4: merging the layers of a configuration changes nothing outside the root, as long as no
    request is led through a symbolic link: whatever the archives hold and whichever kinds
    the layers are of, when the sources are clean absolute paths and no target directory climbs,
    everything outside stays as it was, except that missing directories on the way to the root are
    made.  And no request is led through a link when there is none on the way to the root
    or below it and no layer brings one.  A layer that does bring one can lead a later entry out:
    [symlink_then_file_escapes] has such an archive, and the documentation of the layers says
    that the kernel keeps every change inside the root. *)
Theorem MergeLayerConfig_confined cfg baseDir s :
  Forall (layer_placed baseDir) cfg → crossed s = false → linked s = false →
  wp merge_env (MergeLayerConfig cwd cfg baseDir (abs_path ds)) (λ _ s',
    (crossed s' = false → ∀ q, ¬ ds `prefix_of` q →
       nodes s' !! q = nodes s !! q ∨ (q `prefix_of` ds ∧ nodes s !! q = None ∧ nodes s' !! q = Some FDir)) ∧
    (link_free (nodes s) → linked s' = false → crossed s' = false)) s.
Proof.
  intros Hcfg Hc Hl. eapply wp_mono; [|apply (wp_safe merge_env proper_names (layer_touches ds) (merge_ok s) _ (λ _, True))].
  - intros r s' (_ & H1 & H2). split; [exact H1|]. intros Hf Hl'. by apply H2.
  - by apply safe_MergeLayerConfig.
  - intros X e s1 x s2 He Hok Henv. destruct e; cbn in He, Henv; try (by subst s2); try done.
    + by eapply merge_ok_host.
    + by destruct Henv as [-> ?].
  - split; [intros _ q _; by left|by intros].
Qed.
End merging.

(** ** Samples *)

Section samples.
#[local] Existing Instance x86_64.
#[local] Existing Instance no_tables.

Definition file_entry (name data : string) : tar_header * string :=
  ({| Name := name; Typeflag := TypeReg; Mode := 0; Linkname := "" |}, data).

(** An image whose layers come after and before its manifest, with a stray entry. *)
Definition sample_image : tar_archive :=
  archive_of [file_entry "b/layer.tar" "B"; file_entry "README" "x"; file_entry "./manifest.json" "manifest";
              file_entry "a/layer.tar" "A"].

Definition sample_manifest : DockerManifestEntry :=
  {| Config := "c.json"; RepoTags := ["app:latest"]; DockerLayers := ["a/layer.tar"; "b/layer.tar"] |}.

Definition sample_layer_codec : LayerCodec := {|
  decode_config := λ _, Err "unexpected end of JSON input";
  encode_config := λ _, Ok "{}";
  decode_manifest := λ d, if decide (d = "manifest") then Ok [sample_manifest] else Err "invalid character";
  untar := λ d, if decide (d = "image") then sample_image
                else archive_of [file_entry ("etc/" +:+ d) d];
  gzip_header := λ _, Some "gzip: invalid header";
  untar_gz := λ _, archive_of [] |}.
#[local] Existing Instance sample_layer_codec.

Definition layer (name type path target : string) : LayerSpec :=
  {| LayerName := name; LayerType := type; Path := path; TargetDir := target; SHA256 := "" |}.

Definition sample_config : LayerConfig :=
  [layer "base" "oci-archive" "/images/base.tar" ""; layer "tool" "binary" "/images/tool" "/usr/bin"].

(** A path with a double quote comes back with a backslash before it. *)
Definition quoted_config : LayerConfig := [layer "base" "tarball" ("/images/" +:+ dq +:+ ".tar") ""].

Lemma config_short cfg :
  forallb (λ l, Z.of_nat (String.length l) <? MaxScanTokenSize)%Z (cfg ≫= layer_lines) = true →
  Forall (λ l, Z.of_nat (String.length l) < MaxScanTokenSize)%Z (cfg ≫= layer_lines).
Proof.
  intros H. apply Forall_forall. intros l Hl. rewrite forallb_forall in H. apply Z.ltb_lt, H.
  by apply list_elem_of_In.
Qed.

Lemma layers_saved_and_loaded_witness :
  (escape_layer <$> quoted_config = [layer "base" "tarball" ("/images/\" +:+ dq +:+ ".tar") ""]) ∧
  (Forall plain_layer sample_config → escape_layer <$> sample_config = sample_config) ∧
  wp store_env (_ ←! SaveLayerConfig sample_config "/etc/karim/layers.toml"; LoadLayerConfig "/etc/karim/layers.toml")
    (λ r s', r = Ok (escape_layer <$> sample_config) ∨ (∃ e, r = Err e) ∧ s' = ∅) ∅.
Proof.
  split; [by vm_compute|]. apply layers_saved_and_loaded; [done|]. split; [by intros l [= <-]|].
  apply config_short. by vm_compute.
Defined.

Definition posix_env : env_rel fs_ev posix_state := λ X e s x s', posix X e s = (x, s').

Lemma UnpackOCIArchive_refines_witness :
  (λ p, (p, blob_of (entries sample_image) p)) <$> DockerLayers sample_manifest =
    [("a/layer.tar", Some "A"); ("b/layer.tar", Some "B")] ∧
  (wp (archive_env posix_env "/images/base.tar" "image") (UnpackOCIArchive (Ok "/") "/images/base.tar" "/target")
     (λ r s, r = Ok tt ∧ written s = ["/target/etc/A"; "/target/etc/B"]) empty_fs ↔
   wp posix_env (apply_layers (Ok "/") "/target" 0
       ((λ p, (p, blob_of (entries sample_image) p)) <$> DockerLayers sample_manifest))
     (λ r s, r = Ok tt ∧ written s = ["/target/etc/A"; "/target/etc/B"]) empty_fs).
Proof.
  split; [by vm_compute|].
  apply (UnpackOCIArchive_refines (Ok "/") posix_env "/images/base.tar" "image" sample_image sample_manifest).
  - by split.
  - by vm_compute.
  - done.
Defined.

Lemma MergeLayerConfig_confined_witness :
  let s := {| nodes := {[["target"] := FDir; ["etc"] := FLink "/usr/etc"]}; crossed := false; linked := false |} in
  wp merge_env (MergeLayerConfig (Ok "/") sample_config "/work" "/target") (λ _ s',
    (crossed s' = false → ∀ q, ¬ ["target"] `prefix_of` q →
       nodes s' !! q = nodes s !! q ∨ (q `prefix_of` ["target"] ∧ nodes s !! q = None ∧ nodes s' !! q = Some FDir)) ∧
    (link_free ["target"] (nodes s) → linked s' = false → crossed s' = false)) s.
Proof.
  intros s. apply (MergeLayerConfig_confined (Ok "/") ["target"]).
  - by apply (bool_decide_unpack _).
  - done.
  - apply Forall_cons. split; [|apply Forall_singleton].
    + split; [|by vm_compute]. exists ["images"; "base.tar"]. split; [by apply (bool_decide_unpack _)|done].
    + split; [|by vm_compute]. exists ["images"; "tool"]. split; [by apply (bool_decide_unpack _)|done].
  - done.
  - done.
Defined.
End samples.
