(* ===== verification/GoCrypto.v ===== *)
(** * SHA-256 and times

    [crypto/sha256] with [encoding/hex], and the RFC 3339 text of a time in UTC, as the
    build manifest uses them. *)

From Stdlib Require Import Ascii.
From S2P Require Import Prelude GoStrings GoStrconv GoNet.

(** ** SHA-256 *)

Section sha256.
Local Open Scope Z_scope.

(** The constants of the standard are the first 32 bits of the fractional parts of the roots
    of the first primes: cube roots for the rounds, square roots for the initial state. *)
Definition prime (n : Z) : bool :=
  (1 <? n) && forallb (λ d, negb (n mod Z.of_nat d =? 0)) (seq 2 (Z.to_nat (Z.sqrt n) - 1)).
Definition primes : list Z := Eval vm_compute in filter prime (Z.of_nat <$> seq 2 310).

(** The largest number of [n] bits whose cube is at most [x], bit by bit. *)
Fixpoint cube_root (n : nat) (acc x : Z) : Z :=
  match n with
  | O => acc
  | S n =>
      let next := acc + Z.shiftl 1 (Z.of_nat n) in
      cube_root n (if next * next * next <=? x then next else acc) x
  end.

Definition round_constants : list Z :=
  (λ p, wrap_u 32 (cube_root 40 0 (Z.shiftl p 96))) <$> primes.

Definition initial_state : list Z :=
  (λ p, wrap_u 32 (Z.sqrt (Z.shiftl p 64))) <$> take 8 primes.

Definition add32 (x y : Z) : Z := wrap_u 32 (x + y).
Definition rotr (n x : Z) : Z := Z.lor (Z.shiftr x n) (wrap_u 32 (Z.shiftl x (32 - n))).

(** Big-endian words of a block. *)
Fixpoint words (n : nat) (s : string) : list Z :=
  match n, s with
  | S n, String a (String b (String c (String d s))) =>
      (byte_of a * 0x1000000 + byte_of b * 0x10000 + byte_of c * 0x100 + byte_of d) :: words n s
  | _, _ => []
  end.

(** The message schedule, the last word first. *)
Fixpoint schedule (n : nat) (w : list Z) : list Z :=
  match n with
  | O => w
  | S n =>
      let at_ i := nth i w 0 in
      let s0 := Z.lxor (rotr 7 (at_ 14%nat)) (Z.lxor (rotr 18 (at_ 14%nat)) (Z.shiftr (at_ 14%nat) 3)) in
      let s1 := Z.lxor (rotr 17 (at_ 1%nat)) (Z.lxor (rotr 19 (at_ 1%nat)) (Z.shiftr (at_ 1%nat) 10)) in
      schedule n (add32 (add32 (at_ 15%nat) s0) (add32 (at_ 6%nat) s1) :: w)
  end.

Definition round (st : list Z) (kw : Z * Z) : list Z :=
  match st with
  | [a; b; c; d; e; f; g; h] =>
      let s1 := Z.lxor (rotr 6 e) (Z.lxor (rotr 11 e) (rotr 25 e)) in
      let ch := Z.lxor (Z.land e f) (Z.land (Z.lxor e 0xffffffff) g) in
      let t1 := add32 (add32 h s1) (add32 ch (add32 (fst kw) (snd kw))) in
      let s0 := Z.lxor (rotr 2 a) (Z.lxor (rotr 13 a) (rotr 22 a)) in
      let maj := Z.lxor (Z.land a b) (Z.lxor (Z.land a c) (Z.land b c)) in
      [add32 t1 (add32 s0 maj); a; b; c; add32 d t1; e; f; g]
  | _ => st
  end.

Definition compress (st : list Z) (block : string) : list Z :=
  let w := reverse (schedule 48 (reverse (words 16 block))) in
  zip_with add32 st (foldl round st (combine round_constants w)).

Fixpoint blocks (n : nat) (st : list Z) (s : string) : list Z :=
  match n with
  | O => st
  | S n => blocks n (compress st (str_take 64 s)) (str_drop 64 s)
  end.

(** One bit, zeros, and the length in bits: a multiple of 64 bytes. *)
Definition be64 (x : Z) : string := String.rev (le 8 x).

Definition padded (s : string) : string :=
  let n := Z.of_nat (String.length s) in
  s +:+ String (of_byte 0x80) (zeros (Z.to_nat ((55 - n) mod 64))) +:+ be64 (8 * n).

Definition sum_words (s : string) : list Z :=
  let p := padded s in blocks (String.length p / 64) initial_state p.

(** [hex.EncodeToString(h.Sum(nil))] *)
Fixpoint hex_words (ws : list Z) : string :=
  match ws with [] => "" | w :: ws => hex_n false 8 w +:+ hex_words ws end.
Definition sha256_hex (s : string) : string := hex_words (sum_words s).
End sha256.

(** The vectors of the standard. *)
Example sha256_empty : sha256_hex "" = "e3b0c44298fc1c149afbf4c8996fb92427ae41e4649b934ca495991b7852b855".
Proof. by vm_compute. Qed.
Example sha256_abc : sha256_hex "abc" = "ba7816bf8f01cfea414140de5dae2223b00361a396177a9cb410ff61f20015ad".
Proof. by vm_compute. Qed.
Example sha256_two_blocks :
  sha256_hex "abcdbcdecdefdefgefghfghighijhijkijkljklmklmnlmnomnopnopq" =
    "248d6a61d20638b8e5c026930c3e6039a33ce45964ff2167f6ecedd419db06c1".
Proof. by vm_compute. Qed.

Lemma round_length st kw : length (round st kw) = length st.
Proof. destruct st as [|? [|? [|? [|? [|? [|? [|? [|? [|? ?]]]]]]]]]; done. Qed.

Lemma compress_length st block : length (compress st block) = length st.
Proof.
  unfold compress. rewrite length_zip_with_l_eq; [done|].
  generalize (combine round_constants (reverse (schedule 48 (reverse (words 16 block))))). intros kws.
  assert (∀ st', length (foldl round st' kws) = length st') as H; [|by rewrite H].
  induction kws as [|kw kws IH]; intros st'; [done|]. cbn [foldl]. by rewrite IH, round_length.
Qed.

(** A digest has 64 hexadecimal digits. *)
Lemma sha256_length s : String.length (sha256_hex s) = 64.
Proof.
  unfold sha256_hex. assert (length (sum_words s) = 8) as H.
  { unfold sum_words. generalize (padded s). intros p.
    assert (∀ n st q, length (blocks n st q) = length st) as Hb.
    { intros n. induction n as [|n IH]; intros st q; [done|]. cbn [blocks]. by rewrite IH, compress_length. }
    by rewrite Hb. }
  destruct (sum_words s) as [|? [|? [|? [|? [|? [|? [|? [|? [|? ?]]]]]]]]]; done.
Qed.

(** ** Times *)

(** The civil date of a day counted from 1 January 1970. *)
Definition civil_from_days (days : Z) : Z * Z * Z :=
  (let z := days + 719468 in
   let era := z / 146097 in
   let doe := z mod 146097 in
   let yoe := (doe - doe / 1460 + doe / 36524 - doe / 146096) / 365 in
   let doy := doe - (365 * yoe + yoe / 4 - yoe / 100) in
   let mp := (5 * doy + 2) / 153 in
   let d := doy - (153 * mp + 2) / 5 + 1 in
   let m := if mp <? 10 then mp + 3 else mp - 9 in
   (yoe + era * 400 + (if m <=? 2 then 1 else 0), m, d))%Z.

(** An integer with at least [w] digits. *)
Definition pad_int (w : nat) (x : Z) : string :=
  let digits := itoa (Z.abs x) in
  (if (x <? 0)%Z then "-" else "") +:+ str_repeat (w - String.length digits) "0" +:+ digits.

(** [time.Unix(epoch, 0).UTC().Format(time.RFC3339)] *)
Definition rfc3339 (epoch : Z) : string :=
  let '(y, m, d) := civil_from_days (epoch / 86400) in
  let s := (epoch mod 86400)%Z in
  pad_int 4 y +:+ "-" +:+ pad_int 2 m +:+ "-" +:+ pad_int 2 d +:+ "T" +:+
  pad_int 2 (s / 3600) +:+ ":" +:+ pad_int 2 (s / 60 mod 60) +:+ ":" +:+ pad_int 2 (s mod 60) +:+ "Z".

Example rfc3339_epoch : rfc3339 0 = "1970-01-01T00:00:00Z".
Proof. by vm_compute. Qed.
Example rfc3339_leap : rfc3339 951827696 = "2000-02-29T12:34:56Z".
Proof. by vm_compute. Qed.
