(* ===== verification/Obsd.v ===== *)
(** * The observability manager ([internal/obsd/obsd.go], [ebpf/*.bpf.c])

    The probes that fill the latency histograms, the manager that reads them or simulates
    them, the stream of exec events and the metrics page.  A read or write of the manager
    under its lock is one request, since no other goroutine interferes there; [bpf2go]
    objects and the ring-buffer reader are requests too.  The goroutine that closes the
    reader when its context ends is part of the environment: [ReadRecord] answers
    [inr None] once the reader is closed. *)

From Stdlib Require Import Ascii.
From S2P Require Import Prelude GoStrings GoStrconv GoNet Prog.

(** ** The kernel side

    [runqlat.bpf.c] and [biolatency.bpf.c]: a map of start times and the slots of the
    histogram; all integers are unsigned of 64 bits. *)
Section probes.
Local Open Scope Z_scope.

Definition MAX_SLOTS : nat := 20.

(** [while (v >>= 1) r++]; 64 rounds empty any [__u64]. *)
Fixpoint log2u_go (fuel : nat) (v r : Z) : Z :=
  match fuel with
  | O => r
  | S fuel => let v := Z.shiftr v 1 in if v =? 0 then r else log2u_go fuel v (r + 1)
  end.
Definition log2u (v : Z) : Z := log2u_go 64 v 0.

Definition slot_of (delta : Z) : nat :=
  let slot := Z.to_nat (log2u delta) in
  if decide (MAX_SLOTS ≤ slot)%nat then (MAX_SLOTS - 1)%nat else slot.

(** [__sync_fetch_and_add(&histp->slots[slot], 1)] *)
Definition count_slot (slot : nat) (slots : list Z) : list Z :=
  alter (λ n, wrap_u 64 (n + 1)) slot slots.

Record probe := { started : gmap Z Z; slots : list Z }.

Definition new_probe : probe := {| started := ∅; slots := replicate MAX_SLOTS 0 |}.

(** [max_entries] of the maps of start times; an update with [BPF_ANY] of a hash map that
    is full fails for a new key, and the programs ignore that. *)
Definition max_entries : nat := 10240.

Definition bpf_map_update_elem (key ts : Z) (m : gmap Z Z) : gmap Z Z :=
  if decide (is_Some (m !! key) ∨ (size m < max_entries)%nat) then <[key := ts]> m else m.

Definition handle_sched_wakeup (pid ts : Z) (p : probe) : probe :=
  if pid =? 0 then p else {| started := bpf_map_update_elem pid ts (started p); slots := slots p |}.

(** The end of an interval that is keyed by [key]. *)
Definition measured (key now : Z) (p : probe) : probe :=
  match started p !! key with
  | None => p
  | Some ts =>
      {| started := delete key (started p);
         slots := if ts <? now then count_slot (slot_of ((now - ts) / 1000)) (slots p) else slots p |}
  end.

Definition handle_sched_switch (next_pid now : Z) (p : probe) : probe :=
  if next_pid =? 0 then p else measured next_pid now p.

(** [biolatency.bpf.c] keys every request by device 0 and sector 0. *)
Definition handle_block_rq_issue (ts : Z) (p : probe) : probe :=
  {| started := bpf_map_update_elem 0 ts (started p); slots := slots p |}.
Definition handle_block_rq_complete (now : Z) (p : probe) : probe := measured 0 now p.
End probes.

(** ** The manager *)

Record ExecEvent := { PID : Z; PPID : Z; Comm : string; Filename : string; Timestamp : Z }.

Record Histogram := { h_Name : string; Slots : list Z; TotalCount : Z; LastUpdated : Z }.

Record Manager := {
  isLoaded : bool;
  fallbackMode : bool;
  execCount : Z;
  simRunqLat : list Z;
  simBioLat : list Z;
  lastUpdated : Z
}.

Definition seed (l : list (nat * Z)) : list Z :=
  foldl (λ s '(i, n), <[i := n]> s) (replicate MAX_SLOTS 0%Z) l.

Definition NewManager (now : Z) : Manager := {|
  isLoaded := false; fallbackMode := false; execCount := 0;
  simRunqLat := seed [(2, 45%Z); (3, 120%Z); (4, 85%Z); (5, 12%Z)];
  simBioLat := seed [(5, 30%Z); (6, 95%Z); (7, 40%Z); (8, 10%Z)];
  lastUpdated := now |}.

Inductive obs_ev : Type → Type :=
| ReadManager : obs_ev Manager
| Update (f : Manager → Manager) : obs_ev unit
| LoadObjects (probe : string) : obs_ev (option string)
| CloseObjects (probe : string) : obs_ev unit
| LookupSlots (map : string) : obs_ev (list Z + string)
| TimeNow : obs_ev Z
| Intn (n : Z) : obs_ev Z
| Tick : obs_ev bool
| Send (ev : ExecEvent) : obs_ev unit
| SendOrDone (ev : ExecEvent) : obs_ev bool
| OpenRingbuf : obs_ev (option string)
| ReadRecord : obs_ev (string + option string)
| CloseRingbuf : obs_ev unit
| Println (text : string) : obs_ev unit.

Definition set_mode (loaded fallback : bool) (m : Manager) : Manager := {|
  isLoaded := loaded; fallbackMode := fallback; execCount := execCount m;
  simRunqLat := simRunqLat m; simBioLat := simBioLat m; lastUpdated := lastUpdated m |}.

(** One probe: the errors so far with its own, if any. *)
Definition load_probe (name : string) (errs : list string) : prog obs_ev (list string) :=
  Vis (LoadObjects name) (λ r, Ret match r with
                                   | Some e => errs ++ [name +:+ ": " +:+ e]
                                   | None => errs
                                   end).

Definition LoadProbes : prog obs_ev (outcome unit) :=
  prog_bind (λ errs,
    match errs with
    | _ :: _ =>
        Vis (Update (set_mode false true)) (λ _,
        Vis (Println ("[obsd] Notice: eBPF probe load fallback mode active (" +:+ str_join "; " errs +:+ ")"))
          (λ _, done_))
    | [] =>
        Vis (Update (set_mode true false)) (λ _,
        Vis (Println "[obsd] eBPF probes successfully loaded into Linux kernel.") (λ _, done_))
    end)
  (prog_bind (λ errs, prog_bind (λ errs, load_probe "biolatency" errs) (load_probe "runqlat" errs))
     (load_probe "execsnoop" [])).

Definition IsFallback : prog obs_ev bool := Vis ReadManager (λ m, Ret (fallbackMode m)).
Definition IsLoaded : prog obs_ev bool := Vis ReadManager (λ m, Ret (isLoaded m)).

(** [for _, v := range slots { total += v }] *)
Definition total (slots : list Z) : Z := foldl (λ t v, wrap_u 64 (t + v)) 0%Z slots.

Definition histogram (name : string) (now : Z) (slots : list Z) : Histogram :=
  {| h_Name := name; Slots := slots; TotalCount := total slots; LastUpdated := now |}.

Definition latency (name map : string) (sim : Manager → list Z) : prog obs_ev Histogram :=
  Vis ReadManager (λ m,
  Vis TimeNow (λ now,
    if fallbackMode m || negb (isLoaded m) then Ret (histogram name now (sim m))
    else Vis (LookupSlots map) (λ r,
      match r with
      | inr _ => Ret (histogram name now (sim m))
      | inl kernel => Ret (histogram name now kernel)
      end))).

Definition GetRunQueueLatency : prog obs_ev Histogram :=
  latency "sched_runq_latency_microseconds" "runq_lat" simRunqLat.
Definition GetBioLatency : prog obs_ev Histogram :=
  latency "block_io_latency_microseconds" "io_lat" simBioLat.

Definition Close : prog obs_ev (outcome unit) :=
  Vis (CloseObjects "execsnoop") (λ _, Vis (CloseObjects "runqlat") (λ _, Vis (CloseObjects "biolatency") (λ _,
  Vis (Update (λ m, set_mode false (fallbackMode m) m)) (λ _, done_)))).

(** ** The metrics page *)

(** The label of a bucket; [math.Pow(2, i)] is exact. *)
Definition le_label (i : nat) : string :=
  if decide (i = MAX_SLOTS - 1) then "+Inf" else itoa (2 ^ Z.of_nat i).

Definition bucket_line (name : string) (i : nat) (cumulative : Z) : string :=
  name +:+ "_bucket{le=" +:+ dq +:+ le_label i +:+ dq +:+ "} " +:+ itoa cumulative.

Fixpoint bucket_lines (name : string) (i : nat) (cumulative : Z) (slots : list Z) : list string * Z :=
  match slots with
  | [] => ([], cumulative)
  | count :: slots =>
      let c := wrap_u 64 (cumulative + count) in
      let '(ls, last) := bucket_lines name (S i) c slots in
      (bucket_line name i c :: ls, last)
  end.

Definition histogram_lines (name help : string) (scale : Z) (h : Histogram) : list string :=
  let '(ls, cumulative) := bucket_lines name 0 0%Z (Slots h) in
  ["# HELP " +:+ name +:+ " " +:+ help; "# TYPE " +:+ name +:+ " histogram"] ++ ls ++
  [name +:+ "_sum " +:+ itoa (wrap_u 64 (cumulative * scale)); name +:+ "_count " +:+ itoa (TotalCount h)].

Definition page (fallback : bool) (exec : Z) (runq bio : Histogram) : string :=
  document
    (["# HELP karim_obsd_probe_info Information about eBPF probes status";
      "# TYPE karim_obsd_probe_info gauge";
      "karim_obsd_probe_info{fallback=" +:+ dq +:+ (if fallback then "true" else "false") +:+ dq +:+ "} 1";
      "# HELP karim_obsd_exec_events_total Total process executions traced";
      "# TYPE karim_obsd_exec_events_total counter";
      "karim_obsd_exec_events_total " +:+ itoa exec] ++
     histogram_lines "karim_obsd_runq_latency_microseconds" "CPU run-queue latency histogram in microseconds" 16 runq ++
     histogram_lines "karim_obsd_bio_latency_microseconds" "Block I/O completion latency histogram in microseconds" 64 bio).

Definition ExportPrometheusMetrics : prog obs_ev string :=
  prog_bind (λ runq,
  prog_bind (λ bio,
  Vis ReadManager (λ m, Ret (page (fallbackMode m) (execCount m) runq bio)))
  GetBioLatency) GetRunQueueLatency.

(** ** Exec events *)

Definition sampleProcs : list (string * string) :=
  [("karim-svcd", "/sbin/karim-svcd"); ("karim-secd", "/sbin/karim-secd"); ("sample_app", "/bin/sample_app");
   ("karim-vsockd", "/sbin/karim-vsockd"); ("cat", "/bin/cat")].

Definition bump (i : Z) (slots : list Z) : list Z :=
  alter (λ n, wrap_u 64 (n + 1)) (Z.to_nat i) slots.

Definition counted (now : Z) (m : Manager) : Manager := {|
  isLoaded := isLoaded m; fallbackMode := fallbackMode m; execCount := wrap_u 64 (execCount m + 1);
  simRunqLat := simRunqLat m; simBioLat := simBioLat m; lastUpdated := now |}.

Definition simulated (i j now : Z) (m : Manager) : Manager := {|
  isLoaded := isLoaded m; fallbackMode := fallbackMode m; execCount := wrap_u 64 (execCount m + 1);
  simRunqLat := bump i (simRunqLat m); simBioLat := bump (4 + j) (simBioLat m); lastUpdated := now |}.

(** The generator of fallback mode; [None] is a stream that still runs after [fuel] rounds. *)
Fixpoint stream_simulated (fuel : nat) (pidCounter : Z) : prog obs_ev (option (outcome unit)) :=
  match fuel with
  | O => Ret None
  | S fuel =>
      Vis Tick (λ on,
        if on : bool then
          let pid := wrap_u 32 (pidCounter + 1) in
          Vis (Intn 5) (λ idx,
          let proc := nth (Z.to_nat idx) sampleProcs ("", "") in
          Vis (Intn 6) (λ i,
          Vis (Intn 5) (λ j,
          Vis TimeNow (λ now,
          Vis (Update (simulated i j now)) (λ _,
          Vis TimeNow (λ t,
          Vis (Send {| PID := pid; PPID := 1; Comm := proc.1; Filename := proc.2; Timestamp := t |})
            (λ _, stream_simulated fuel pid)))))))
        else Ret (Some (Ok tt)))
  end.

(** [struct exec_event] in little-endian order; [binary.Read] wants all of it. *)
Definition sizeof_exec_event : nat := 280.

Definition trim_nul (s : string) : string := trim_right_set s nul.

Definition decode_record (raw : string) : option (Z * Z * string * string) :=
  if decide (sizeof_exec_event ≤ String.length raw) then
    Some (le_at 0 4 raw, le_at 4 4 raw,
          trim_nul (str_take 16 (str_drop 8 raw)), trim_nul (str_take 256 (str_drop 24 raw)))
  else None.

Fixpoint stream_kernel (fuel : nat) : prog obs_ev (option (outcome unit)) :=
  match fuel with
  | O => Ret None
  | S fuel =>
      Vis ReadRecord (λ r,
        match r with
        | inr None => Ret (Some (Ok tt))
        | inr (Some e) => Ret (Some (Err e))
        | inl raw =>
            match decode_record raw with
            | None => stream_kernel fuel
            | Some (pid, ppid, comm, filename) =>
                Vis TimeNow (λ now,
                Vis (Update (counted now)) (λ _,
                Vis TimeNow (λ t,
                Vis (SendOrDone {| PID := pid; PPID := ppid; Comm := comm; Filename := filename; Timestamp := t |})
                  (λ sent, if sent : bool then stream_kernel fuel else Ret (Some (Ok tt))))))
            end
        end)
  end.

Definition StreamExecEvents (fuel : nat) : prog obs_ev (option (outcome unit)) :=
  Vis ReadManager (λ m,
    if fallbackMode m || negb (isLoaded m) then stream_simulated fuel 100
    else Vis OpenRingbuf (λ r,
      match r with
      | Some e => Ret (Some (Err ("failed to open ringbuf reader: " +:+ e)))
      | None => prog_bind (λ r, Vis CloseRingbuf (λ _, Ret r)) (stream_kernel fuel)
      end)).

(** * Properties *)

(** ** Buckets *)

Section buckets.
Local Open Scope Z_scope.

Definition sumZ : list Z → Z := foldr Z.add 0.

Lemma sumZ_app xs ys : sumZ (xs ++ ys) = sumZ xs + sumZ ys.
Proof. induction xs as [|x xs IH]; cbn; [done|]. rewrite IH. lia. Qed.

Lemma sumZ_nonneg xs : Forall (λ x, 0 ≤ x) xs → 0 ≤ sumZ xs.
Proof. induction 1; cbn; lia. Qed.

Lemma count_ext {A} (P Q : A → Prop) `{!∀ x, Decision (P x), !∀ x, Decision (Q x)} xs :
  Forall (λ x, P x ↔ Q x) xs → length (filter P xs) = length (filter Q xs).
Proof.
  induction 1 as [|x xs Hx _ IH]; [done|]. rewrite !filter_cons.
  repeat case_decide; cbn [length]; [by rewrite IH|tauto..|done].
Qed.

Lemma count_true {A} (P : A → Prop) `{!∀ x, Decision (P x)} xs : Forall P xs → length (filter P xs) = length xs.
Proof. induction 1 as [|x xs Hx _ IH]; [done|]. rewrite filter_cons_True by done. cbn. by rewrite IH. Qed.

Lemma log2u_go_log2 fuel v r : 0 ≤ v < 2 ^ Z.of_nat fuel → log2u_go fuel v r = r + Z.log2 v.
Proof.
  revert v r. induction fuel as [|fuel IH]; intros v r Hv.
  { cbn. assert (v = 0) as -> by lia. cbn. lia. }
  cbn [log2u_go]. rewrite Z.shiftr_div_pow2 by lia. change (2 ^ 1) with 2.
  rewrite Nat2Z.inj_succ, Z.pow_succ_r in Hv by lia. case (Z.eqb_spec (v / 2) 0) as [H0|H0].
  - assert (v = 0 ∨ v = 1) as [->| ->] by (pose proof (Z.div_mod v 2); pose proof (Z.mod_pos_bound v 2); lia);
      cbn; lia.
  - rewrite IH by (split; [apply Z.div_pos; lia|apply Z.div_lt_upper_bound; lia]).
    assert (1 < v) by (destruct (Z.lt_ge_cases 1 v); [done|]; destruct H0; apply Z.div_small; lia).
    rewrite <-Z.div2_div, Z.div2_spec, Z.log2_shiftr by lia. pose proof (Z.log2_pos v). lia.
Qed.

Lemma slot_of_lt d : (slot_of d < MAX_SLOTS)%nat.
Proof. unfold slot_of. case_decide; unfold MAX_SLOTS in *; lia. Qed.

(** Slot [i] is the first whose upper bound [2^(i+1)] is above the value. *)
Lemma slot_of_le d i :
  0 ≤ d < 2 ^ 64 → (i < MAX_SLOTS)%nat →
  (slot_of d ≤ i)%nat ↔ i = (MAX_SLOTS - 1)%nat ∨ d < 2 ^ (Z.of_nat i + 1).
Proof.
  intros Hd Hi. unfold slot_of, log2u. rewrite log2u_go_log2 by (cbn; lia).
  rewrite Z.add_0_l. pose proof (Z.log2_nonneg d).
  destruct (decide (d = 0)) as [->|Hnz].
  { change (Z.to_nat (Z.log2 0)) with 0%nat. rewrite decide_False by (unfold MAX_SLOTS; lia).
    split; [right; apply Z.pow_pos_nonneg; lia|lia]. }
  pose proof (Z.log2_lt_pow2 d (Z.of_nat i + 1) ltac:(lia)) as Hlog.
  case_decide; unfold MAX_SLOTS in *; rewrite Hlog; lia.
Qed.

(** The slots after some latencies: how many fell into each. *)
Definition in_slot (ds : list Z) (k : nat) : Z := Z.of_nat (length (filter (λ d, slot_of d = k) ds)).
Definition fill (ds : list Z) : list Z :=
  foldl (λ s d, count_slot (slot_of d) s) (replicate MAX_SLOTS 0) ds.

Lemma in_slot_bound ds k : 0 ≤ in_slot ds k ≤ Z.of_nat (length ds).
Proof. unfold in_slot. pose proof (length_filter (λ d, slot_of d = k) ds). lia. Qed.

Lemma in_slot_snoc ds d k : in_slot (ds ++ [d]) k = in_slot ds k + (if decide (slot_of d = k) then 1 else 0).
Proof.
  unfold in_slot. rewrite filter_app, length_app. case_decide.
  - rewrite (filter_cons_True _ d) by done. cbn. lia.
  - rewrite (filter_cons_False _ d) by done. cbn. lia.
Qed.

Lemma fill_in_slot ds :
  Z.of_nat (length ds) < 2 ^ 64 → fill ds = in_slot ds <$> seq 0 MAX_SLOTS.
Proof.
  unfold fill. induction ds as [|d ds IH] using rev_ind; intros Hlen; [done|].
  rewrite length_app in Hlen. cbn [length] in Hlen. rewrite foldl_app, IH by lia. cbn [foldl].
  apply list_eq. intros k. unfold count_slot. destruct (decide (slot_of d = k)) as [<-|Hk].
  - rewrite list_lookup_alter_eq, !list_lookup_fmap, lookup_seq_lt by apply slot_of_lt. cbn. f_equal.
    pose proof (in_slot_bound ds (slot_of d)).
    rewrite in_slot_snoc, decide_True by done. apply wrap_u_id. lia.
  - rewrite list_lookup_alter_ne, !list_lookup_fmap by done.
    destruct (seq 0 MAX_SLOTS !! k) as [j|] eqn:Hj; [|done]. apply lookup_seq in Hj as [-> _]. cbn.
    by rewrite in_slot_snoc, decide_False, Z.add_0_r.
Qed.

Lemma fill_nonneg ds : Z.of_nat (length ds) < 2 ^ 64 → Forall (λ x, 0 ≤ x) (fill ds).
Proof.
  intros H. rewrite fill_in_slot by done. apply Forall_fmap, Forall_forall. intros k _. cbn.
  pose proof (in_slot_bound ds k). lia.
Qed.

Lemma slots_upto ds n :
  sumZ (in_slot ds <$> seq 0 n) = Z.of_nat (length (filter (λ d, slot_of d < n)%nat ds)).
Proof.
  induction n as [|n IH].
  { cbn. induction ds as [|d ds IH]; [done|]. by rewrite filter_cons_False by lia. }
  rewrite seq_S, fmap_app, sumZ_app, IH. cbn. unfold in_slot. rewrite Z.add_0_r. clear IH.
  induction ds as [|d ds IHd]; [done|]. rewrite !filter_cons.
  repeat case_decide; cbn [length]; lia.
Qed.

(** The cumulative counts, and what is left after the last bucket. *)
Lemma bucket_lines_at name i c slots k :
  Forall (λ x, 0 ≤ x) slots → 0 ≤ c → c + sumZ slots < 2 ^ 64 → (k < length slots)%nat →
  (bucket_lines name i c slots).1 !! k = Some (bucket_line name (i + k) (c + sumZ (take (S k) slots))) ∧
  (bucket_lines name i c slots).2 = c + sumZ slots.
Proof.
  intros Hs. revert i c k. induction Hs as [|x slots Hx Hs IH]; intros i c k Hc Hlt Hk; cbn in *; [lia|].
  pose proof (sumZ_nonneg _ Hs). unfold wrap_u. rewrite Z.mod_small by lia.
  destruct (bucket_lines name (S i) (c + x) slots) as [ls last] eqn:E. cbn.
  assert (last = c + (x + sumZ slots)) as ->.
  { destruct slots as [|y slots]; [cbn in E; simplify_eq; cbn; lia|].
    specialize (IH (S i) (c + x) 0%nat). rewrite E in IH. cbn in IH. destruct IH; cbn in *; lia. }
  split; [|done]. destruct k as [|k]; cbn.
  - rewrite Nat.add_0_r. do 2 f_equal. destruct slots; cbn; lia.
  - specialize (IH (S i) (c + x) k). rewrite E in IH. cbn in IH. destruct IH as [IH _]; [lia..|].
    etrans; [exact IH|]. do 2 f_equal; [lia|]. cbn. lia.
Qed.

Lemma total_from t slots :
  Forall (λ x, 0 ≤ x) slots → 0 ≤ t → t + sumZ slots < 2 ^ 64 →
  foldl (λ t v, wrap_u 64 (t + v)) t slots = t + sumZ slots.
Proof.
  intros Hs. revert t. induction Hs as [|x slots Hx Hs IH]; intros t Ht Hlt; cbn in *; [lia|].
  pose proof (sumZ_nonneg _ Hs). rewrite wrap_u_id, IH by lia. lia.
Qed.

Lemma total_sum slots : Forall (λ x, 0 ≤ x) slots → sumZ slots < 2 ^ 64 → total slots = sumZ slots.
Proof. intros Hs Hlt. apply total_from; [done|lia|lia]. Qed.

(** ** Scheduler events *)

Inductive sched_ev := Wakeup (pid ts : Z) | Switch (next_pid now : Z).

Definition sched (p : probe) (e : sched_ev) : probe :=
  match e with
  | Wakeup pid ts => handle_sched_wakeup pid ts p
  | Switch pid now => handle_sched_switch pid now p
  end.

Definition on (pid : Z) (e : sched_ev) : Prop :=
  match e with Wakeup p _ | Switch p _ => p = pid end.
#[export] Instance on_dec pid e : Decision (on pid e).
Proof. destruct e; cbn; apply _. Defined.

(** When [pid] was woken up, if that is the last that happened to it. *)
Definition woken (pid : Z) (before : list sched_ev) : option Z :=
  match last (filter (on pid) before) with Some (Wakeup _ ts) => Some ts | _ => None end.

(** The latency in microseconds that a switch to a woken thread ends. *)
Definition ended (before : list sched_ev) (e : sched_ev) : option Z :=
  match e with
  | Switch pid now =>
      ts ← (if pid =? 0 then None else woken pid before); if ts <? now then Some ((now - ts) / 1000) else None
  | Wakeup _ _ => None
  end.

Fixpoint latencies (before after : list sched_ev) : list Z :=
  match after with
  | [] => []
  | e :: after => option_list (ended before e) ++ latencies (before ++ [e]) after
  end.

Lemma woken_snoc pid before e :
  woken pid (before ++ [e]) =
    if decide (on pid e) then match e with Wakeup _ ts => Some ts | Switch _ _ => None end
    else woken pid before.
Proof.
  unfold woken. rewrite filter_app. case_decide.
  - rewrite (filter_cons_True _ e) by done. rewrite filter_nil. by rewrite last_snoc.
  - by rewrite (filter_cons_False _ e), filter_nil, app_nil_r.
Qed.

(** The latency the probe itself sees. *)
Definition seen (p : probe) (e : sched_ev) : option Z :=
  match e with
  | Switch pid now =>
      ts ← (if pid =? 0 then None else started p !! pid); if ts <? now then Some ((now - ts) / 1000) else None
  | Wakeup _ _ => None
  end.

Fixpoint seen_all (p : probe) (tr : list sched_ev) : list Z :=
  match tr with
  | [] => []
  | e :: tr => option_list (seen p e) ++ seen_all (sched p e) tr
  end.

Lemma sched_slots p e :
  slots (sched p e) = foldl (λ s d, count_slot (slot_of d) s) (slots p) (option_list (seen p e)).
Proof.
  destruct e as [q ts|q now]; cbn [sched seen]; unfold handle_sched_wakeup, handle_sched_switch, measured.
  - by case (q =? 0).
  - case (Z.eqb_spec q 0) as [->|Hq]; [done|].
    destruct (started p !! q) as [ts|]; [|done]. cbn. by destruct (ts <? now).
Qed.

(** The histogram of a run of scheduler events is that of what the probe saw. *)
Lemma run_fill tr p :
  slots (foldl sched p tr) = foldl (λ s d, count_slot (slot_of d) s) (slots p) (seen_all p tr).
Proof.
  revert p. induction tr as [|e tr IH]; intros p; [done|]. cbn [foldl seen_all].
  by rewrite foldl_app, IH, sched_slots.
Qed.

(** The starts a probe holds are those of threads that wait. *)
Definition holds (before : list sched_ev) (p : probe) : Prop :=
  ∀ pid ts, started p !! pid = Some ts → pid ≠ 0 ∧ woken pid before = Some ts.

(** It holds those of all of them. *)
Definition tracks (before : list sched_ev) (p : probe) : Prop :=
  ∀ pid, pid ≠ 0 → started p !! pid = woken pid before.

Lemma update_lookup key ts m k x :
  bpf_map_update_elem key ts m !! k = Some x → (k = key ∧ x = ts) ∨ (k ≠ key ∧ m !! k = Some x).
Proof.
  unfold bpf_map_update_elem. destruct (decide (k = key)) as [->|Hk]; case_decide as Hd.
  - rewrite lookup_insert_eq. intros [= ->]. by left.
  - intros H. destruct Hd. left. by exists x.
  - rewrite lookup_insert_ne by done. by right.
  - by right.
Qed.

Lemma sched_holds before p e : holds before p → holds (before ++ [e]) (sched p e).
Proof.
  intros Hh pid x. rewrite woken_snoc.
  destruct e as [q ts|q now]; cbn [sched on]; unfold handle_sched_wakeup, handle_sched_switch, measured.
  - case (Z.eqb_spec q 0) as [->|Hq]; cbn [started].
    + intros Hx. destruct (Hh _ _ Hx) as [Hne Hw]. by rewrite decide_False by congruence.
    + intros [[-> ->]|[Hne Hx]]%update_lookup; [by rewrite decide_True|].
      rewrite decide_False by congruence. by apply Hh.
  - case (Z.eqb_spec q 0) as [->|Hq].
    + intros Hx. destruct (Hh _ _ Hx) as [Hne Hw]. by rewrite decide_False by congruence.
    + destruct (started p !! q) as [ts|] eqn:E; cbn [started].
      * intros [Hne Hx]%lookup_delete_Some. rewrite decide_False by congruence. by apply Hh.
      * intros Hx. rewrite decide_False by congruence. by apply Hh.
Qed.

Lemma seen_sublist before p tr : holds before p → seen_all p tr `sublist_of` latencies before tr.
Proof.
  revert before p. induction tr as [|e tr IH]; intros before p Hh; [done|]. cbn [seen_all latencies].
  apply sublist_app; [|by apply IH, sched_holds]. destruct e as [q ts|q now]; cbn [seen ended]; [done|].
  destruct (q =? 0); [done|]. cbn [mbind option_bind]. destruct (started p !! q) as [ts|] eqn:E; cbn; [|apply sublist_nil_l].
  by destruct (Hh _ _ E) as [_ ->].
Qed.

(** The threads that wait for a processor. *)
Definition pid_of (e : sched_ev) : Z := match e with Wakeup p _ | Switch p _ => p end.
Definition waiting (before : list sched_ev) : gset Z :=
  list_to_set (filter (λ pid, pid ≠ 0 ∧ is_Some (woken pid before)) (pid_of <$> before)).

(** At no moment of the run do more threads wait than the map has entries. *)
Definition roomy (before tr : list sched_ev) : Prop :=
  ∀ k, (size (waiting (before ++ take k tr)) ≤ max_entries)%nat.

Lemma elem_of_waiting pid before : pid ∈ waiting before ↔ pid ≠ 0 ∧ is_Some (woken pid before).
Proof.
  unfold waiting. rewrite elem_of_list_to_set, list_elem_of_filter. split; [tauto|]. intros [H0 Hw].
  split; [done|]. destruct Hw as [ts Hw]. unfold woken in Hw.
  destruct (last (filter (on pid) before)) as [e|] eqn:Hl; [|done].
  apply last_Some in Hl as [l Hl]. assert (e ∈ filter (on pid) before) as [Hon Hin]%list_elem_of_filter.
  { rewrite Hl. apply elem_of_app. right. by apply list_elem_of_singleton. }
  apply list_elem_of_fmap. exists e. split; [by destruct e|done].
Qed.

Lemma tracks_dom before p : holds before p → tracks before p → dom (started p) = waiting before.
Proof.
  intros Hh Ht. apply leibniz_equiv. intros pid. rewrite elem_of_dom, elem_of_waiting. split.
  - intros [ts E]. destruct (Hh _ _ E) as [H0 ->]. by split.
  - intros [H0 [ts Hw]]. rewrite Ht by done. by exists ts.
Qed.

Lemma sched_tracks before p e :
  holds before p → tracks before p → (size (waiting (before ++ [e])) ≤ max_entries)%nat →
  tracks (before ++ [e]) (sched p e).
Proof.
  intros Hh Ht Hroom pid Hpid. pose proof (woken_snoc pid before e) as ->.
  destruct e as [q ts|q now]; cbn [sched on]; unfold handle_sched_wakeup, handle_sched_switch, measured.
  - case (Z.eqb_spec q 0) as [->|Hq]; [by rewrite decide_False by congruence; apply Ht|]. cbn [started].
    unfold bpf_map_update_elem. rewrite decide_True.
    + case_decide; subst; [by rewrite lookup_insert_eq|]. rewrite lookup_insert_ne by congruence. by apply Ht.
    + destruct (started p !! q) as [x|] eqn:E; [left; by exists x|]. right.
      assert ({[q]} ∪ waiting before ⊆ waiting (before ++ [Wakeup q ts])) as Hsub.
      { intros k [->%elem_of_singleton|[H0 Hw]%elem_of_waiting]%elem_of_union; apply elem_of_waiting.
        - split; [done|]. rewrite woken_snoc, decide_True by done. by exists ts.
        - split; [done|]. rewrite woken_snoc. case_decide; [by exists ts|done]. }
      apply subseteq_size in Hsub. rewrite size_union, size_singleton in Hsub.
      * rewrite <-(tracks_dom before p), size_dom in Hsub by done. lia.
      * intros k ->%elem_of_singleton [H0 [x Hw]]%elem_of_waiting. rewrite <-Ht, E in Hw by done. done.
  - case (Z.eqb_spec q 0) as [->|Hq]; [by rewrite decide_False by congruence; apply Ht|].
    destruct (started p !! q) as [ts|] eqn:E; case_decide; subst; cbn [started].
    + apply lookup_delete_eq.
    + rewrite lookup_delete_ne by congruence. by apply Ht.
    + done.
    + by apply Ht.
Qed.

Lemma seen_tracked before p tr :
  holds before p → tracks before p → roomy before tr → seen_all p tr = latencies before tr.
Proof.
  revert before p. induction tr as [|e tr IH]; intros before p Hh Ht Hroom; [done|]. cbn [seen_all latencies].
  f_equal.
  - destruct e as [q ts|q now]; cbn [seen ended]; [done|].
    case (Z.eqb_spec q 0) as [->|Hq]; [done|]. by rewrite Ht.
  - apply IH; [by apply sched_holds| |].
    + apply sched_tracks; [done..|]. apply (Hroom 1%nat).
    + intros k. rewrite <-app_assoc. apply (Hroom (S k)).
Qed.

(** C35: the run-queue histogram counts latencies: after any sequence of scheduler events,
    each handled before the next, bucket [i] of the metrics page holds how many of the
    counted latencies were below [2^(i+1)] microseconds, the last bucket and the count hold
    all of them, and no two slots count the same one.  The counted latencies are among the
    latencies of the threads, in order, none twice; and they are all of them when never more
    than 10240 threads wait at a time, the entries of the map of starts.  (The page labels
    bucket [i] with [le = 2^i] and not with the [2^(i+1)] below which its counts are.) *)
Theorem runq_page_counts tr name :
  let h := slots (foldl sched new_probe tr) in
  Z.of_nat (length (latencies [] tr)) < 2 ^ 64 → Forall (λ d, 0 ≤ d < 2 ^ 64) (latencies [] tr) →
  ∃ ds, ds `sublist_of` latencies [] tr ∧ (roomy [] tr → ds = latencies [] tr) ∧
  (∀ i, (i < MAX_SLOTS)%nat →
     (bucket_lines name 0 0 h).1 !! i =
       Some (bucket_line name i (Z.of_nat (length
         (filter (λ d, i = (MAX_SLOTS - 1)%nat ∨ d < 2 ^ (Z.of_nat i + 1)) ds))))) ∧
  (bucket_lines name 0 0 h).2 = Z.of_nat (length ds) ∧ total h = Z.of_nat (length ds).
Proof.
  intros h Hlen0 Hds0. assert (holds [] new_probe) as Hh by (intros pid ts H; cbn in H; by rewrite lookup_empty in H).
  exists (seen_all new_probe tr). unfold h. rewrite run_fill. set (ds := seen_all new_probe tr).
  change (foldl _ (slots new_probe) ds) with (fill ds).
  assert (ds `sublist_of` latencies [] tr) as Hsub by by apply seen_sublist.
  pose proof (sublist_length _ _ Hsub). assert (Z.of_nat (length ds) < 2 ^ 64) as Hlen by lia.
  assert (Forall (λ d, 0 ≤ d < 2 ^ 64) ds) as Hds by (rewrite Forall_forall in *; intros d Hd; apply Hds0; by eapply elem_of_submseteq, sublist_submseteq).
  assert (length (fill ds) = MAX_SLOTS) as HL by (rewrite fill_in_slot by done; by rewrite length_fmap, length_seq).
  assert (sumZ (fill ds) = Z.of_nat (length ds)) as Hsum.
  { rewrite fill_in_slot, slots_upto by done. f_equal. apply count_true, Forall_forall.
    intros d _. apply slot_of_lt. }
  pose proof (fill_nonneg ds Hlen) as Hpos.
  split_and!; [done| | | |].
  - intros Hroom. apply seen_tracked; [done| |done]. intros pid _. apply lookup_empty.
  - intros i Hi. destruct (bucket_lines_at name 0 0 (fill ds) i) as [-> _]; [done|lia|lia|lia|].
    do 2 f_equal. rewrite fill_in_slot by done. rewrite <-fmap_take, take_seq.
    replace (S i `min` MAX_SLOTS)%nat with (S i) by lia. rewrite slots_upto, Z.add_0_l. f_equal.
    apply count_ext. eapply Forall_impl; [exact Hds|]. intros d Hd. cbn.
    rewrite Nat.lt_succ_r. by apply slot_of_le.
  - destruct (bucket_lines_at name 0 0 (fill ds) 0) as [_ ->]; [done|lia|lia|rewrite HL; unfold MAX_SLOTS; lia|lia].
  - rewrite total_sum; [done..|lia].
Qed.

(** A latency of 3 microseconds is in the bucket labelled 2. *)
Lemma runq_page_counts_witness :
  let tr := [Wakeup 7 1000; Wakeup 9 1500; Switch 7 4000; Switch 7 9000] in
  latencies [] tr = [3] ∧ roomy [] tr ∧
  (bucket_lines "runq" 0 0 (slots (foldl sched new_probe tr))).1 !! 1%nat =
    Some ("runq_bucket{le=" +:+ dq +:+ "2" +:+ dq +:+ "} 1").
Proof.
  intros tr. split; [by vm_compute|].
  assert (roomy [] tr) as Hroom.
  { intros k. destruct k as [|[|[|[|k]]]]; [..|replace (take _ tr) with tr by by destruct k];
      apply (bool_decide_unpack _); by vm_compute. }
  split; [done|].
  destruct (runq_page_counts tr "runq") as (ds & _ & Hds & H & _); [by vm_compute|by apply (bool_decide_unpack _)|].
  rewrite (H 1%nat) by (unfold MAX_SLOTS; lia). rewrite Hds by done. by vm_compute.
Defined.

(** Once the map is full, the start of one more thread is not kept and its latency is lost. *)
Lemma full_map_loses pid ts now p :
  pid ≠ 0 → started p !! pid = None → (max_entries ≤ size (started p))%nat →
  handle_sched_switch pid now (handle_sched_wakeup pid ts p) = p.
Proof.
  intros Hpid Hnone Hfull. unfold handle_sched_switch, handle_sched_wakeup, bpf_map_update_elem, measured.
  rewrite (proj2 (Z.eqb_neq pid 0)) by done. rewrite decide_False.
  - destruct p as [st sl]. cbn [started slots] in *. by rewrite Hnone.
  - intros [[x E]|]; [by rewrite E in Hnone|lia].
Qed.

(** Requests in flight at the same time share one start: of two that took a millisecond
    each, one is counted with the time between the second start and the first end, the
    other not at all. *)
Lemma overlapping_requests_lost :
  slots (handle_block_rq_complete 1900000 (handle_block_rq_complete 1000000
    (handle_block_rq_issue 900000 (handle_block_rq_issue 0 new_probe)))) = fill [100].
Proof. by vm_compute. Qed.
End buckets.

(** ** Records of the ring buffer *)

(** A record as [execsnoop.bpf.c] lays it out, the rest of a buffer being zero. *)
Definition buffer (n : nat) (s : string) : string := s +:+ zeros (n - String.length s).
Definition record_bytes (pid ppid : Z) (comm filename : string) : string :=
  le 4 pid +:+ le 4 ppid +:+ buffer 16 comm +:+ buffer 256 filename.

(** The last byte of a text is not NUL. *)
Definition trimmed (s : string) : Prop := ∀ a r, String.rev s = String a r → in_set nul a = false.

Lemma zeros_nul n : str_forall (in_set nul) (zeros n) = true.
Proof. induction n as [|n IH]; [done|]. exact IH. Qed.

Lemma buffer_length n s : String.length s ≤ n → String.length (buffer n s) = n.
Proof. intros H. unfold buffer. rewrite str_length_app, zeros_length. lia. Qed.

Lemma trim_buffer n s : trimmed s → trim_nul (buffer n s) = s.
Proof. intros H. apply trim_right_set_app; [apply zeros_nul|done]. Qed.

(** C39: a record of the exec probe is read back as the event it was written for, whatever
    follows it, for texts that do not end in NUL: only the zeros at the end of a field are
    trimmed, so an interior NUL and what follows it stay in the text.  What an earlier
    record left behind the terminator of a name thus becomes part of the name, while
    the documentation of the probes says stale bytes are never interpreted as part of
    a file name. *)
Theorem exec_record_decoded pid ppid comm filename rest :
  (0 ≤ pid < 2 ^ 32)%Z → (0 ≤ ppid < 2 ^ 32)%Z →
  String.length comm ≤ 16 → String.length filename ≤ 256 → trimmed comm → trimmed filename →
  decode_record (record_bytes pid ppid comm filename +:+ rest) = Some (pid, ppid, comm, filename).
Proof.
  intros Hpid Hppid Hc Hf Htc Htf. unfold decode_record, record_bytes. rewrite !str_app_assoc.
  pose proof (le_length 4 pid) as La. pose proof (le_length 4 ppid) as Lb.
  pose proof (buffer_length 16 comm Hc) as Lc. pose proof (buffer_length 256 filename Hf) as Lf.
  rewrite decide_True.
  2:{ rewrite !str_length_app, La, Lb, Lc, Lf. unfold sizeof_exec_event. lia. }
  f_equal. f_equal; [f_equal; [f_equal|]|].
  - exact (le_at_app 0 "" pid _ eq_refl (proj1 Hpid) 4 (proj2 Hpid)).
  - exact (le_at_app 4 _ ppid _ La (proj1 Hppid) 4 (proj2 Hppid)).
  - rewrite <-(str_app_assoc (le 4 pid)), str_drop_len by (rewrite str_length_app; lia).
    rewrite str_take_len by done. by apply trim_buffer.
  - rewrite <-(str_app_assoc (le 4 pid)), <-(str_app_assoc _ (buffer 16 comm)).
    rewrite str_drop_len by (rewrite !str_length_app; lia). rewrite str_take_len by done. by apply trim_buffer.
Qed.

(** The terminator and what is behind it are part of what is shown. *)
Lemma exec_record_decoded_witness :
  let shown := "/bin/ls" +:+ nul +:+ "in/sh" in
  decode_record (record_bytes 149 60 "ls" shown) = Some (149%Z, 60%Z, "ls", shown).
Proof.
  intros shown.
  assert (∀ s c, in_set nul c = false → trimmed (s +:+ String c "")) as Htrim.
  { intros s c Hc a r. rewrite str_rev_app. cbn. by intros [= <- _]. }
  rewrite <-(str_app_nil_r (record_bytes _ _ _ _)).
  apply (exec_record_decoded 149 60 "ls" shown ""); [lia|lia|vm_compute; lia|vm_compute; lia|..].
  - by apply (Htrim "l" "s"%char).
  - by apply (Htrim ("/bin/ls" +:+ nul +:+ "in/s") "h"%char).
Defined.

(** ** The simulated telemetry

    The goroutines that stream to other clients run at any time. *)
Section telemetry.
Local Open Scope Z_scope.

Definition generated (m m' : Manager) : Prop :=
  ∃ i j now, 0 ≤ i < 6 ∧ 0 ≤ j < 5 ∧ execCount m < 2 ^ 63 ∧ m' = simulated i j now m.

Definition interfere : Manager → Manager → Prop := rtc generated.

(** Fewer than [2^63] events are generated. *)
Definition obs_env : env_rel obs_ev Manager := λ X e m x m',
  match e in obs_ev Y return Y → Prop with
  | ReadManager => λ r, r = m ∧ interfere m m'
  | Update f => λ _, execCount m < 2 ^ 63 ∧ interfere (f m) m'
  | Intn n => λ r, 0 ≤ r < n ∧ interfere m m'
  | _ => λ _, interfere m m'
  end x.

(** Every event has added one to each histogram. *)
Record telemetry (m : Manager) : Prop := {
  t_mode : fallbackMode m || negb (isLoaded m) = true;
  t_runq : length (simRunqLat m) = MAX_SLOTS ∧ Forall (λ x, 0 ≤ x) (simRunqLat m);
  t_bio : length (simBioLat m) = MAX_SLOTS ∧ Forall (λ x, 0 ≤ x) (simBioLat m);
  t_runq_sum : sumZ (simRunqLat m) = 262 + execCount m;
  t_bio_sum : sumZ (simBioLat m) = 175 + execCount m;
  t_count : 0 ≤ execCount m ≤ 2 ^ 63
}.

Lemma sumZ_lookup slots i x : Forall (λ x, 0 ≤ x) slots → slots !! i = Some x → 0 ≤ x ≤ sumZ slots.
Proof.
  intros Hs. revert i. induction Hs as [|y slots Hy Hs IH]; intros [|i] H; simplify_eq/=.
  - pose proof (sumZ_nonneg _ Hs). lia.
  - specialize (IH _ H). lia.
Qed.

Lemma bump_sum i slots :
  (Z.to_nat i < length slots)%nat → Forall (λ x, 0 ≤ x) slots → sumZ slots < 2 ^ 64 - 1 →
  length (bump i slots) = length slots ∧ Forall (λ x, 0 ≤ x) (bump i slots) ∧ sumZ (bump i slots) = sumZ slots + 1.
Proof.
  unfold bump. generalize (Z.to_nat i). intros k Hk Hs Hlt. rewrite length_alter. split; [done|].
  split.
  - apply Forall_alter; [done|]. intros x _ _. apply Z.mod_pos_bound. lia.
  - revert k Hk. induction Hs as [|x slots Hx Hs IH]; intros k Hk; cbn in *; [lia|].
    pose proof (sumZ_nonneg _ Hs). destruct k as [|k]; cbn.
    + rewrite wrap_u_id by lia. lia.
    + change (list_alter (λ n, wrap_u 64 (n + 1)) k slots) with (alter (λ n, wrap_u 64 (n + 1)) k slots).
      rewrite IH by lia. lia.
Qed.

Lemma simulated_telemetry i j now m :
  0 ≤ i < 6 → 0 ≤ j < 5 → execCount m < 2 ^ 63 → telemetry m →
  telemetry (simulated i j now m) ∧ execCount (simulated i j now m) = execCount m + 1.
Proof.
  intros Hi Hj Hn [Hm [Hl1 Hp1] [Hl2 Hp2] Hs1 Hs2 Hc].
  destruct (bump_sum i (simRunqLat m)) as (Hl1' & Hp1' & Hs1'); [rewrite Hl1; unfold MAX_SLOTS; lia|done|lia|].
  destruct (bump_sum (4 + j) (simBioLat m)) as (Hl2' & Hp2' & Hs2'); [rewrite Hl2; unfold MAX_SLOTS; lia|done|lia|].
  assert (execCount (simulated i j now m) = execCount m + 1) as He by (cbn; apply wrap_u_id; lia).
  split; [|done]. constructor; rewrite ?He; cbn [fallbackMode isLoaded simRunqLat simBioLat simulated];
    [done|split; congruence|split; congruence|lia..].
Qed.

(** What the others do keeps the telemetry and only adds events. *)
Lemma interfere_telemetry m m' : interfere m m' → telemetry m → telemetry m' ∧ execCount m ≤ execCount m'.
Proof.
  induction 1 as [m|m m1 m2 (i & j & now & Hi & Hj & Hn & ->) _ IH]; intros Ht; [done|].
  destruct (simulated_telemetry i j now m Hi Hj Hn Ht) as [Ht1 He].
  destruct (IH Ht1) as [Ht2 Hle]. split; [done|lia].
Qed.

(** A read of one histogram: its counts are those of one moment. *)
Lemma wp_latency name map sim off Q m :
  telemetry m →
  (∀ m, telemetry m → Forall (λ x, 0 ≤ x) (sim m) ∧ sumZ (sim m) = off + execCount m) → 0 ≤ off ≤ 262 →
  (∀ h m', telemetry m' → h_Name h = name → TotalCount h = sumZ (Slots h) →
     execCount m ≤ TotalCount h - off ≤ execCount m' → Q h m') →
  wp obs_env (latency name map sim) Q m.
Proof.
  intros Ht Hsim Hoff HQ. unfold latency. cbn [wp]. intros r m1 [-> Hi1] now m2 Hi2.
  rewrite (t_mode _ Ht).
  destruct (interfere_telemetry _ _ Hi1 Ht) as [Ht1 Hle1], (interfere_telemetry _ _ Hi2 Ht1) as [Ht2 Hle2].
  destruct (Hsim _ Ht) as [Hp Hs]. pose proof (t_count _ Ht).
  apply HQ; [done|done| |]; unfold histogram; cbn [TotalCount Slots]; rewrite total_sum by (done || lia); lia.
Qed.

Lemma wp_page m :
  telemetry m →
  wp obs_env ExportPrometheusMetrics (λ text m', telemetry m' ∧ ∃ fallback e runq bio,
    text = page fallback e runq bio ∧
    TotalCount runq = sumZ (Slots runq) ∧ TotalCount bio = sumZ (Slots bio) ∧
    execCount m ≤ TotalCount runq - 262 ≤ TotalCount bio - 175 ∧
    TotalCount bio - 175 ≤ e ≤ execCount m') m.
Proof.
  intros Ht. unfold ExportPrometheusMetrics. apply wp_bind.
  apply (wp_latency _ _ _ 262); [done| |lia|].
  { intros m0 H0. split; [apply (t_runq _ H0)|apply (t_runq_sum _ H0)]. }
  intros runq m1 Ht1 _ Hr1 Hr. apply wp_bind.
  apply (wp_latency _ _ _ 175); [done| |lia|].
  { intros m0 H0. split; [apply (t_bio _ H0)|apply (t_bio_sum _ H0)]. }
  intros bio m2 Ht2 _ Hb1 Hb. cbn [wp]. intros r m3 [-> Hi].
  destruct (interfere_telemetry _ _ Hi Ht2) as [Ht3 Hle]. split; [done|].
  exists (fallbackMode m2), (execCount m2), runq, bio. split_and!; try done; lia.
Qed.

Lemma interfere_mode m m' : interfere m m' → isLoaded m' = isLoaded m ∧ fallbackMode m' = fallbackMode m.
Proof.
  induction 1 as [|m m1 m2 (i & j & now & _ & _ & _ & ->) _ [-> ->]]; by split.
Qed.

(** Whatever became of the probes: they are all loaded, or the telemetry is simulated. *)
Lemma wp_LoadProbes m :
  telemetry m → wp obs_env LoadProbes (λ _ m', telemetry m' ∨ isLoaded m' = true ∧ fallbackMode m' = false) m.
Proof.
  intros Ht. unfold LoadProbes, load_probe. cbn [prog_bind wp].
  intros r1 m1 Hi1 r2 m2 Hi2 r3 m3 Hi3.
  assert (telemetry m3) as Ht3.
  { apply (interfere_telemetry m2); [done|]. apply (interfere_telemetry m1); [done|]. by apply (interfere_telemetry m). }
  set (errs := match r3 with Some _ => _ | None => _ end). clearbody errs.
  destruct errs as [|e errs]; cbn [wp].
  - intros [] m4 [_ Hi4] [] m5 Hi5. right.
    apply interfere_mode in Hi4 as [Hl4 Hf4], Hi5 as [-> ->]. by rewrite Hl4, Hf4.
  - intros [] m4 [_ Hi4] [] m5 Hi5. left.
    apply (interfere_telemetry m4); [done|]. apply (interfere_telemetry (set_mode false true m3)); [done|].
    by destruct Ht3.
Qed.

(** C34: the numbers that the daemon makes up are consistent however many clients stream at
    the same time.  They are what a page shows before the probes are loaded and, without any
    flag that asks for it, after one of them could not be: on such a page both histograms
    and the number of events are read under the lock at three moments, every count equals
    the sum of its slots, no event is in the first histogram that is not in the second,
    nor in the second that is not in the number of events, and the counts include 262 and
    175 that no event caused.  Streaming keeps it so, and so does loading the probes unless
    all of them load.  (The documentation of the probes says that synthetic data exists
    only behind [-simulate], a flag that there is not.) *)
Theorem metrics_consistent m fuel :
  telemetry m →
  wp obs_env ExportPrometheusMetrics (λ text m', telemetry m' ∧ ∃ fallback e runq bio,
    text = page fallback e runq bio ∧
    TotalCount runq = sumZ (Slots runq) ∧ TotalCount bio = sumZ (Slots bio) ∧
    execCount m ≤ TotalCount runq - 262 ≤ TotalCount bio - 175 ∧
    TotalCount bio - 175 ≤ e ≤ execCount m') m ∧
  wp obs_env (StreamExecEvents fuel) (λ _ m', telemetry m') m ∧
  wp obs_env LoadProbes (λ _ m', telemetry m' ∨ isLoaded m' = true ∧ fallbackMode m' = false) m.
Proof.
  intros Ht. split; [by apply wp_page|]. split; [|by apply wp_LoadProbes].
  unfold StreamExecEvents. cbn [wp]. intros r m1 [-> Hi].
    rewrite (t_mode _ Ht). destruct (interfere_telemetry _ _ Hi Ht) as [Ht1 _].
    clear Ht Hi m. revert m1 Ht1. generalize 100. induction fuel as [|fuel IH]; intros pid m Ht; [done|].
    cbn [stream_simulated wp]. intros on m1 Hi. apply interfere_telemetry in Hi as [H1 _]; [|done].
    destruct on; [|done]. cbn [wp]. intros idx m2 [_ Hi]. apply interfere_telemetry in Hi as [H2 _]; [|done].
    intros i m3 [Hi0 Hi]. apply interfere_telemetry in Hi as [H3 _]; [|done].
    intros j m4 [Hj0 Hi]. apply interfere_telemetry in Hi as [H4 _]; [|done].
    intros now m5 Hi. apply interfere_telemetry in Hi as [H5 _]; [|done].
    intros [] m6 [Hlt Hi]. apply interfere_telemetry in Hi as [H6 _];
      [|by apply simulated_telemetry].
    intros t m7 Hi. apply interfere_telemetry in Hi as [H7 _]; [|done].
    intros [] m8 Hi. apply interfere_telemetry in Hi as [H8 _]; [|done].
    by apply IH.
Qed.

Lemma NewManager_telemetry now : telemetry (NewManager now).
Proof.
  constructor; cbn [fallbackMode isLoaded execCount simRunqLat simBioLat NewManager];
    [done|split..|done|done|lia]; try done; by apply (bool_decide_unpack _).
Qed.

(** A fresh manager, one event of another client before the page. *)
Lemma metrics_consistent_witness :
  telemetry (NewManager 0) ∧ wp obs_env (StreamExecEvents 3) (λ _ m', telemetry m') (NewManager 0).
Proof.
  split; [apply NewManager_telemetry|]. by apply (metrics_consistent (NewManager 0) 3), NewManager_telemetry.
Defined.
End telemetry.
