(* ===== verification/ObsdMain.v ===== *)
(** * The observability daemon ([cmd/karim-obsd/main.go])

    One connection of the daemon, the goroutines of a trace session, and [main].  What the
    control plane makes of the daemon's answers is proved here too. *)

From S2P Require Import Prelude GoStrings GoStrconv GoPath GoFlag Prog Protocol Server Obsd.

(** What the answer to [get_metrics] holds. *)
Record obsd_data := {
  is_loaded : bool;
  fallback_mode : bool;
  runq_latency : Histogram;
  bio_latency : Histogram;
  prom_metrics : string
}.

(** [encoding/json] on the daemon's own values; [partial_id] is the identifier that a
    request which could not be decoded has left behind. *)
Class ObsdCodec := {
  metrics_json : obsd_data → string;
  event_json : ExecEvent → string;
  partial_id : string → string
}.

Inductive od_ev : Type → Type :=
| OnObs {X} (e : obs_ev X) : od_ev X
| ConnData (data : string) : od_ev (option string)
| SpawnStream : od_ev unit
| CancelStream : od_ev unit
| Receive : od_ev ExecEvent
| MkdirAll (path : string) (mode : Z) : od_ev unit
| Remove (path : string) : od_ev unit
| ListenUnix (path : string) : od_ev (option string)
| CloseListener : od_ev unit
| SpawnAccept : od_ev unit
| ServeMetrics (addr : string) : od_ev unit
| WaitSignal : od_ev string
| Stderr (text : string) : od_ev unit.

Definition on_obs {A} : prog obs_ev A → prog od_ev A := translate (λ X e, OnObs e).
Definition conn_write (X : Type) (e : write_ev X) : od_ev X :=
  match e with Write data => ConnData data end.
Definition conn_frame (payload : string) : prog od_ev (outcome unit) := translate conn_write (WriteFrame payload).
Definition od_println (text : string) : prog od_ev unit := Vis (OnObs (Println text)) Ret.

Section daemon.
Context {UT : UnicodeTables} {J : JsonCodec} {OC : ObsdCodec}.

(** [resp, _ := EncodeJSON(...); _ = WriteFrame(conn, resp)] *)
Definition od_reply (resp : RPCResponse) : prog od_ev unit :=
  prog_bind (λ _, Ret tt) (conn_frame (encoded (encode_response resp))).

Definition od_metrics (id : string) : prog od_ev unit :=
  prog_bind (λ runq, prog_bind (λ bio, prog_bind (λ loaded, prog_bind (λ fallback, prog_bind (λ text,
    od_reply (ok_resp id (DAny (metrics_json {| is_loaded := loaded; fallback_mode := fallback;
      runq_latency := runq; bio_latency := bio; prom_metrics := text |}))))
  (on_obs ExportPrometheusMetrics)) (on_obs IsFallback)) (on_obs IsLoaded))
  (on_obs GetBioLatency)) (on_obs GetRunQueueLatency).

(** [for { ev := <-eventChan; WriteFrame(conn, ev) }] until a write fails; [fuel] bounds the
    number of events. *)
Fixpoint od_pump (fuel : nat) : prog od_ev unit :=
  match fuel with
  | O => Ret tt
  | S fuel =>
      Vis Receive (λ ev,
        prog_bind (λ w, match w with Ok _ => od_pump fuel | _ => Ret tt end) (conn_frame (event_json ev)))
  end.

Definition od_stream (fuel : nat) (id : string) : prog od_ev unit :=
  prog_bind (λ w,
    match w with
    | Ok _ => Vis SpawnStream (λ _, prog_bind (λ _, Vis CancelStream Ret) (od_pump fuel))
    | _ => Ret tt
    end) (conn_frame (encoded (encode_response (ok_resp id (DText "STREAM_START"))))).

Definition handleConn (fuel : nat) (conn : reader) : prog od_ev unit :=
  match ReadFrame conn with
  | Ok (frame, _) =>
      match decode_request frame with
      | inr e => od_reply (err_resp (partial_id frame) ("invalid json request: " +:+ e))
      | inl req =>
          if decide (Command req = "ping") then od_reply (ok_resp (ID req) (DText "PONG from karim-obsd"))
          else if decide (Command req ∈ ["get_metrics"; "get_obsd"; "obsd"]) then od_metrics (ID req)
          else if decide (Command req ∈ ["stream_exec"; "trace"]) then od_stream fuel (ID req)
          else od_reply (err_resp (ID req) ("unknown command " +:+ quote (Command req)))
      end
  | _ => Ret tt
  end.

(** ** Start and shutdown *)

Record obsd_flags := { socket : string; promPort : Z }.
Definition default_obsd_flags : obsd_flags := {| socket := "/run/karim/obsd.sock"; promPort := 9100 |}.

Definition obsd_is_bool (name : string) : option bool :=
  if decide (name ∈ ["socket"; "prom-port"]) then Some false else None.

Definition obsd_set (name v : string) (f : obsd_flags) : option obsd_flags :=
  if decide (name = "socket") then Some {| socket := v; promPort := promPort f |}
  else n ← parse_int0 v; Some {| socket := socket f; promPort := n |}.

(** The exit code; [os.Exit] runs no deferred call. *)
Definition obsd_main (args : list string) : prog od_ev Z :=
  match parse_flags obsd_is_bool obsd_set args default_obsd_flags with
  | None => Ret (parse_exit obsd_is_bool obsd_set args default_obsd_flags)
  | Some (f, _) =>
      prog_bind (λ _,
      prog_bind (λ r,
      prog_bind (λ _,
        Vis (MkdirAll (Dir (socket f)) 0x1ED) (λ _,
        Vis (Remove (socket f)) (λ _,
        Vis (ListenUnix (socket f)) (λ err,
          match err with
          | Some e =>
              Vis (Stderr ("[karim-obsd] Failed to listen on Unix socket " +:+ socket f +:+ ": " +:+ e)) (λ _, Ret 1%Z)
          | None =>
              Vis SpawnAccept (λ _,
              prog_bind (λ _,
              prog_bind (λ _,
                Vis WaitSignal (λ sig,
                prog_bind (λ _,
                  Vis CloseListener (λ _,
                  Vis (Remove (socket f)) (λ _,
                  prog_bind (λ _, Ret 0%Z) (on_obs Close))))
                (od_println ("[karim-obsd] Shutdown signal received (" +:+ sig +:+ "). Exiting..."))))
              (if (0 <? promPort f)%Z then Vis (ServeMetrics (":" +:+ itoa (promPort f))) Ret else Ret tt))
              (od_println ("[karim-obsd] Listening for telemetry RPCs on " +:+ socket f)))
          end))))
      (match r with
       | Err e => od_println ("[karim-obsd] Warning during eBPF probe load: " +:+ e)
       | _ => Ret tt
       end))
      (on_obs LoadProbes))
      (od_println "[karim-obsd] Guest Observability Daemon starting...")
  end.
End daemon.

(** ** A trace session

    The connection's goroutine takes events from the channel and writes them; the
    generator puts them in.  [queued] are the events in the channel of capacity 20. *)

Inductive generator := Waiting | Sending | Ended.

Record session := { gen : generator; queued : nat; pumping : bool; cancelled : bool }.

Definition channel_capacity : nat := 20.
Definition session_start : session := {| gen := Waiting; queued := 0; pumping := true; cancelled := false |}.

Definition set_gen (g : generator) (n : nat) (s : session) : session :=
  {| gen := g; queued := n; pumping := pumping s; cancelled := cancelled s |}.

(** [kernel] tells the real ring buffer from the simulation: only the former selects
    between sending and the end of its context. *)
Inductive session_step (kernel : bool) (s : session) : session → Prop :=
| s_event : gen s = Waiting → session_step kernel s (set_gen Sending (queued s) s)
| s_done : gen s = Waiting → cancelled s = true → session_step kernel s (set_gen Ended (queued s) s)
| s_send : gen s = Sending → queued s < channel_capacity →
    session_step kernel s (set_gen Waiting (S (queued s)) s)
| s_send_done : gen s = Sending → kernel = true → cancelled s = true →
    session_step kernel s (set_gen Ended (queued s) s)
| s_written n : pumping s = true → queued s = S n → session_step kernel s (set_gen (gen s) n s)
| s_failed n : pumping s = true → queued s = S n →
    session_step kernel s {| gen := gen s; queued := n; pumping := false; cancelled := true |}.

(** * Properties *)

(** A trace session of the kernel's events can always end: once its context is
    cancelled, the generator can end in one step, whatever it is doing.  A simulated
    session cannot: when the channel is full as the client goes away, the generator stays
    in its send forever, with no step left to any goroutine. *)
Theorem trace_session_ends :
  (∀ s, rtc (session_step true) session_start s → cancelled s = true → gen s ≠ Ended →
     ∃ s', session_step true s s' ∧ gen s' = Ended) ∧
  ∃ s, rtc (session_step false) session_start s ∧ cancelled s = true ∧ gen s = Sending ∧
     ∀ s', ¬ session_step false s s'.
Proof.
  split.
  - intros s _ Hc Hg. exists (set_gen Ended (queued s) s). split; [|done].
    destruct (gen s) eqn:E; [by apply s_done|by apply s_send_done|done].
  - exists {| gen := Sending; queued := 20; pumping := false; cancelled := true |}. split_and!; [|done..|].
    + assert (∀ n, n ≤ 20 → rtc (session_step false) session_start (set_gen Waiting n session_start)) as Hfill.
      { induction n as [|n IH]; intros Hn; [by apply rtc_refl|].
        trans (set_gen Waiting n session_start); [apply IH; lia|].
        eapply rtc_l; [by apply s_event|]. apply rtc_once.
        apply (s_send false (set_gen Sending n session_start)); [done|cbn; unfold channel_capacity; lia]. }
      trans (set_gen Waiting 20 session_start); [apply (Hfill 20); lia|].
      eapply rtc_l; [by apply (s_failed _ _ 19)|]. eapply rtc_l; [by apply s_event|].
      eapply rtc_l; [by apply s_send; [|cbn; unfold channel_capacity; lia]|]. eapply rtc_once. by apply s_event.
    + intros s' Hs. inversion Hs; cbn in *; simplify_eq. unfold channel_capacity in *. lia.
Qed.

(** ** Metrics through the control plane *)

(** The client reads everything that is sent; the manager is shared with other sessions. *)
Definition od_env : env_rel od_ev (Manager * string) := λ X e s x s',
  match e in od_ev Y return Y → Prop with
  | OnObs e => λ x, obs_env _ e s.1 x s'.1 ∧ s'.2 = s.2
  | ConnData d => λ r, r = None ∧ s' = (s.1, s.2 +:+ d)
  | _ => λ _, s' = s
  end x.

Lemma wp_on_obs {A} (p : prog obs_ev A) (Q : A → Manager * string → Prop) m sent :
  wp obs_env p (λ a m', Q a (m', sent)) m → wp od_env (on_obs p) Q (m, sent).
Proof.
  revert m. induction p as [a|X e k IH]; intros m H; [done|]. cbn [on_obs translate wp] in *.
  intros x [m' sent'] [He Hs]. cbn in He, Hs. subst sent'. by apply IH, H.
Qed.

Lemma wp_conn_frame payload (Q : outcome unit → Manager * string → Prop) m sent :
  Q (Ok tt) (m, sent +:+ wire_frame payload) → wp od_env (conn_frame payload) Q (m, sent).
Proof.
  intros HQ. unfold conn_frame, WriteFrame, wire_frame in *. cbn. intros r s1 [-> ->]. cbn.
  destruct (0 <? frame_length payload)%Z; cbn.
  - intros r s2 [-> ->]. cbn. by rewrite str_app_assoc.
  - by rewrite str_app_nil_r in HQ.
Qed.

(** The supervisor's side of the connection: it reads [r]. *)
Definition obsd_link (r : reader) : env_rel srv_ev unit := λ X e _ x _,
  match e in srv_ev Y return Y → Prop with
  | DialObsd => λ c, c = inl r
  | ObsdWrite _ => λ e, e = None
  | _ => λ _, True
  end x.

(** What was measured when [m] became [m']: each part is of one moment in between, in the
    order in which the daemon asks. *)
Definition measured_between (m : Manager) (d : obsd_data) (m' : Manager) : Prop :=
  TotalCount (runq_latency d) = sumZ (Slots (runq_latency d)) ∧
  TotalCount (bio_latency d) = sumZ (Slots (bio_latency d)) ∧
  (execCount m ≤ TotalCount (runq_latency d) - 262 ≤ TotalCount (bio_latency d) - 175)%Z ∧
  ∃ fallback e runq bio, prom_metrics d = page fallback e runq bio ∧
    (TotalCount (bio_latency d) - 175 ≤ TotalCount runq - 262 ≤ TotalCount bio - 175)%Z ∧
    (TotalCount bio - 175 ≤ e ≤ execCount m')%Z.

Lemma wire_frame_encoded s : fits s → wire_frame s = encode_frame s.
Proof.
  unfold fits, MaxFrameSize, wire_frame, frame_length, encode_frame. intros Hf.
  rewrite wrap_u_id by lia. destruct (Z.ltb_spec 0 (Z.of_nat (String.length s))); [done|].
  by destruct s; [|cbn in *; lia].
Qed.

Lemma wp_obsd_write r payload (Q : outcome unit → unit → Prop) :
  Q (Ok tt) tt → wp (obsd_link r) (send_frame ObsdWrite payload) Q tt.
Proof.
  intros HQ. unfold send_frame. cbn. intros e [] ->. cbn.
  destruct (0 <? frame_length payload)%Z; cbn; [|done]. by intros e [] ->.
Qed.

Section served.
Context {UT : UnicodeTables} {J : JsonCodec} {OC : ObsdCodec}.

Lemma wp_od_metrics id m :
  telemetry m →
  wp od_env (od_metrics id) (λ _ s', ∃ d, measured_between m d s'.1 ∧
    s'.2 = wire_frame (encoded (encode_response (ok_resp id (DAny (metrics_json d)))))) (m, "").
Proof.
  intros Ht. unfold od_metrics.
  apply wp_bind, wp_on_obs. apply (wp_latency _ _ _ 262); [done| |lia|].
  { intros m0 H0. split; [apply (t_runq _ H0)|apply (t_runq_sum _ H0)]. }
  intros runq m1 Ht1 _ Hr1 Hr. apply wp_bind, wp_on_obs. apply (wp_latency _ _ _ 175); [done| |lia|].
  { intros m0 H0. split; [apply (t_bio _ H0)|apply (t_bio_sum _ H0)]. }
  intros bio m2 Ht2 _ Hb1 Hb. apply wp_bind, wp_on_obs. cbn [IsLoaded wp]. intros r m3 [-> Hi3].
  destruct (interfere_telemetry _ _ Hi3 Ht2) as [Ht3 Hle3].
  apply wp_bind, wp_on_obs. cbn [IsFallback wp]. intros r m4 [-> Hi4].
  destruct (interfere_telemetry _ _ Hi4 Ht3) as [Ht4 Hle4].
  apply wp_bind, wp_on_obs. eapply wp_mono; [|apply (wp_page m4 Ht4)].
  intros text m5 (Ht5 & fb & e & runq' & bio' & -> & _ & _ & H1 & H2).
  apply wp_bind, wp_conn_frame. cbn [wp].
  eexists {| is_loaded := _; fallback_mode := _; runq_latency := runq; bio_latency := bio; prom_metrics := _ |}.
  split; [|by rewrite str_app_nil_l]. split_and!; cbn; [done|done|lia|lia|].
  exists fb, e, runq', bio'. split_and!; [done|lia..].
Qed.

(** The answer to [get_metrics] is always made of some data, whatever the probes. *)
Lemma wp_od_metrics_some id m sent :
  wp od_env (od_metrics id) (λ _ s', ∃ d,
    s'.2 = sent +:+ wire_frame (encoded (encode_response (ok_resp id (DAny (metrics_json d)))))) (m, sent).
Proof.
  assert (∀ {A} (p : prog obs_ev A) (k : A → prog od_ev unit) (Q : unit → Manager * string → Prop) m,
    (∀ a m', wp od_env (k a) Q (m', sent)) → wp od_env (prog_bind k (on_obs p)) Q (m, sent)) as Hany.
  { intros A p k Q m0 Hk. apply wp_bind, wp_on_obs. revert m0. induction p as [a|X e k' IH]; intros m0; [apply Hk|].
    cbn [wp]. intros x s' _. apply IH. }
  unfold od_metrics. apply Hany. intros runq m1. apply Hany. intros bio m2. apply Hany. intros loaded m3.
  apply Hany. intros fallback m4. apply Hany. intros text m5. apply wp_bind, wp_conn_frame. cbn [wp].
  by eexists.
Qed.

(** What the control plane makes of an answer that is encoded as [s]: one that fits a frame
    and is decoded as what was encoded gives its data; one that does not fit is refused. *)
Definition passes_through (sent : string) (d : obsd_data) : Prop :=
  let resp := ok_resp "obsd-1" (DAny (metrics_json d)) in
  ∀ s r, encode_response resp = inl s → bytes r = sent →
    wp (obsd_link r) fetchObsdMetrics (λ res _,
      (fits s → decode_response s = inl resp → res = Ok (DAny (metrics_json d))) ∧
      (¬ fits s → (Z.of_nat (String.length s) < 2 ^ 32)%Z → ∃ e, res = Err e)) tt.

Lemma sent_passes_through d :
  passes_through (wire_frame (encoded (encode_response (ok_resp "obsd-1" (DAny (metrics_json d)))))) d.
Proof.
  intros s r Henc Hr. rewrite Henc in Hr. cbn [encoded] in Hr. unfold fetchObsdMetrics.
  apply wp_vis. intros c [] ->. apply wp_ebind, wp_obsd_write.
  destruct (decide (MaxFrameSize < Z.of_nat (String.length s))%Z) as [Hlong|Hshort].
  - destruct (decide (Z.of_nat (String.length s) < 2 ^ 32)%Z) as [H32|H32].
    + pose proof (proj1 (ReadFrame_rejects r)) as Hbig.
      assert (bytes r = be32 (Z.of_nat (String.length s)) +:+ s) as Hb.
      { rewrite Hr. unfold wire_frame, frame_length. rewrite wrap_u_id by lia.
        unfold MaxFrameSize in Hlong. by destruct (Z.ltb_spec 0 (Z.of_nat (String.length s))); [|lia]. }
      destruct (Hbig _ _ (conj Hlong H32) Hb) as [e ->]. cbn. split; [|by eexists].
      intros Hfit. unfold fits in Hfit. lia.
    + apply wp_always. intros res s0. split; [intros Hfit; unfold fits in Hfit; lia|lia].
  - assert (fits s) as Hfit by (unfold fits; lia). rewrite wire_frame_encoded in Hr by done.
    destruct (ReadFrame_encoded s "" r Hfit) as (r' & -> & _); [by rewrite str_app_nil_r|]. cbn.
    destruct (decode_response s) as [resp|e] eqn:Hd; cbn; [|by split].
    destruct (Success resp) eqn:Hs; cbn; (split; [|done]); intros _ [= ->]; [done|discriminate Hs].
Qed.

(** C33: metrics pass through the control plane unchanged: when the daemon gets the request
    the control plane sends for [get_metrics], it answers with its data, and that answer,
    in whatever pieces it arrives, is what [fetchObsdMetrics] returns if it is decoded as what
    was encoded and fits the 10 MiB of a frame; a longer one is refused.  As long as the
    telemetry is not the kernel's the data was measured between the request and the answer. *)
Theorem obsd_served fuel conn rest m :
  let request := obsd_request "obsd-1" "get_metrics" in
  ReadFrame conn = Ok (request, rest) →
  decode_request request =
    inl {| ID := "obsd-1"; Command := "get_metrics"; Service := ""; Args := []; Payload := "" |} →
  wp od_env (handleConn fuel conn) (λ _ s', ∃ d, passes_through s'.2 d) (m, "") ∧
  (telemetry m →
   wp od_env (handleConn fuel conn) (λ _ s', ∃ d, passes_through s'.2 d ∧ measured_between m d s'.1) (m, "")).
Proof.
  intros request Hread Hreq. unfold handleConn. rewrite Hread, Hreq. cbn [Command ID].
  rewrite decide_False, decide_True by (done || by apply (bool_decide_unpack _)). split; [|intros Ht].
  - eapply wp_mono; [|apply wp_od_metrics_some]. intros _ [m' sent] (d & Hsent). cbn [fst snd] in *.
    rewrite str_app_nil_l in Hsent. exists d. rewrite Hsent. apply sent_passes_through.
  - eapply wp_mono; [|by apply wp_od_metrics]. intros _ [m' sent] (d & Hd & Hsent). cbn [fst snd] in *.
    exists d. split; [rewrite Hsent; apply sent_passes_through|done].
Qed.
End served.

Section witness.
(** A codec that sends the page as it is. *)
Local Definition plain_codec : JsonCodec := {|
  encode_request req := Command req;
  decode_request s := inl {| ID := "obsd-1"; Command := s; Service := ""; Args := []; Payload := "" |};
  encode_response resp := inl match Data resp with DAny s => s | _ => "" end;
  decode_response s := inl (ok_resp "obsd-1" (DAny s))
|}.
Local Definition plain_obsd : ObsdCodec := {|
  metrics_json d := prom_metrics d; event_json ev := Filename ev; partial_id s := "" |}.

Lemma obsd_served_witness :
  wp od_env
    (@handleConn no_tables plain_codec plain_obsd 0
       {| chunks := [encode_frame "get_metrics"]; stream_ends := EOF |})
    (λ _ s', ∃ d, @passes_through plain_codec plain_obsd s'.2 d ∧ measured_between (NewManager 0) d s'.1) (NewManager 0, "") ∧
  ∀ d, @passes_through plain_codec plain_obsd (encode_frame "page") d → prom_metrics d = "page" →
    wp (obsd_link {| chunks := [encode_frame "page"]; stream_ends := EOF |}) (@fetchObsdMetrics plain_codec)
      (λ res _, res = Ok (DAny "page")) tt.
Proof.
  split.
  - apply (@obsd_served no_tables plain_codec plain_obsd 0 _ {| chunks := [""]; stream_ends := EOF |} (NewManager 0));
      [reflexivity|reflexivity|apply NewManager_telemetry].
  - intros d Hp Hd.
    eapply wp_mono; [|apply (Hp "page" {| chunks := [encode_frame "page"]; stream_ends := EOF |})];
      [|cbn; by rewrite Hd|done].
    intros res _ [H _]. change (@metrics_json plain_obsd d) with (prom_metrics d) in H. rewrite Hd in H.
    apply H; [unfold fits, MaxFrameSize; cbn; lia|reflexivity].
Defined.
End witness.
