(* ===== verification/Manifest.v ===== *)
(** * The build manifest ([internal/builder/manifest.go])

    Checksums of the inputs and outputs of a build, and the comparison of two builds. *)

From Stdlib Require Import Ascii.
From S2P Require Import Prelude GoStrings GoStrconv GoCrypto Prog.

Record ArtifactChecksum := { ArtifactName : string; ArtifactPath : string; SizeBytes : Z; ArtifactSHA256 : string }.

Record BuildManifest := {
  ProjectName : string; Version : string; BuildTimestamp : string; Hermetic : bool; SourceDateEpoch : Z;
  InputArtifacts : gmap string ArtifactChecksum; OutputArtifacts : gmap string ArtifactChecksum;
  CombinedBuildHash : string }.

(** [encoding/json] on manifests. *)
Class ManifestCodec := {
  encode_build : BuildManifest → outcome string;
  decode_build : string → outcome BuildManifest }.

(** Opening a file: an error, or its bytes and the error that ended the reading, if any. *)
Inductive manifest_ev : Type → Type :=
| HashFile (path : string) : manifest_ev file_read
| WriteManifest (path data : string) (mode : Z) : manifest_ev (option string)
| ReadManifest (path : string) : manifest_ev (string + string).

Definition CalculateFileSHA256 (filePath : string) : prog manifest_ev (outcome (string * Z)) :=
  Vis (HashFile filePath) (λ f, Ret
    match f with
    | OpenFails e => Err ("failed to open file " +:+ filePath +:+ ": " +:+ e)
    | FileData _ (Some e) => Err ("failed hashing " +:+ filePath +:+ ": " +:+ e)
    | FileData data None => Ok (sha256_hex data, Z.of_nat (String.length data))
    end).

Definition NewArtifactChecksum (name path : string) : prog manifest_ev (outcome ArtifactChecksum) :=
  '(hash, size) ←! CalculateFileSHA256 path;
  Ret (Ok {| ArtifactName := name; ArtifactPath := path; SizeBytes := size; ArtifactSHA256 := hash |}).

(** The hash is fed the hash of each output, in the order of the names. *)
Definition output_hashes (m : BuildManifest) : list string :=
  omap (λ k, ArtifactSHA256 <$> OutputArtifacts m !! k) (sort_strings (fst <$> map_to_list (OutputArtifacts m))).

Definition CalculateCombinedBuildHash (m : BuildManifest) : string :=
  sha256_hex (str_join "" (output_hashes m)).

Definition with_combined (m : BuildManifest) : BuildManifest := {|
  ProjectName := ProjectName m; Version := Version m; BuildTimestamp := BuildTimestamp m;
  Hermetic := Hermetic m; SourceDateEpoch := SourceDateEpoch m; InputArtifacts := InputArtifacts m;
  OutputArtifacts := OutputArtifacts m; CombinedBuildHash := CalculateCombinedBuildHash m |}.

Section manifest.
Context {MC : ManifestCodec}.

(** The manifest with its combined hash, which the caller sees too, and the result. *)
Definition SaveManifest (m : BuildManifest) (destPath : string) : prog manifest_ev (BuildManifest * outcome unit) :=
  let m := with_combined m in
  match encode_build m with
  | Ok data =>
      Vis (WriteManifest destPath data 0x1A4) (λ err, Ret (m,
        match err with
        | Some e => Err ("failed writing manifest to " +:+ destPath +:+ ": " +:+ e)
        | None => Ok tt
        end))
  | Err e => Ret (m, Err ("failed encoding build manifest: " +:+ e))
  | Panic => Ret (m, Panic)
  end.

Definition LoadManifest (srcPath : string) : prog manifest_ev (outcome BuildManifest) :=
  Vis (ReadManifest srcPath) (λ r, Ret
    match r with
    | inr e => Err ("failed reading manifest " +:+ srcPath +:+ ": " +:+ e)
    | inl data => wrap_err "failed parsing manifest JSON: " (decode_build data)
    end).
End manifest.

(** The loop of [CompareManifests] over the outputs of the first build, in map order. *)
Fixpoint compare_outputs (m1 m2 : BuildManifest) (order : list string) : outcome unit :=
  match order with
  | [] => Ok tt
  | k :: order =>
      match OutputArtifacts m1 !! k with
      | None => compare_outputs m1 m2 order
      | Some a1 =>
          match OutputArtifacts m2 !! k with
          | None => Err ("missing artifact " +:+ k +:+ " in second build manifest")
          | Some a2 =>
              if decide (ArtifactSHA256 a1 = ArtifactSHA256 a2) then compare_outputs m1 m2 order
              else Err ("REPRODUCIBILITY FAILURE for artifact " +:+ k +:+ ": build 1 hash = " +:+
                        ArtifactSHA256 a1 +:+ ", build 2 hash = " +:+ ArtifactSHA256 a2)
          end
      end
  end.

Definition CompareManifests (m1 m2 : BuildManifest) (order : list string) : outcome unit :=
  let n1 := size (OutputArtifacts m1) in
  let n2 := size (OutputArtifacts m2) in
  if decide (n1 = n2) then compare_outputs m1 m2 order
  else Err ("output artifact count mismatch (" +:+ itoa (Z.of_nat n1) +:+ " vs " +:+ itoa (Z.of_nat n2) +:+ ")").

Definition FormatFixedTimestamp (epoch : Z) : string := rfc3339 epoch.

(** * Properties *)

(** The order of a Go map iteration: its keys, each once. *)
Definition map_order {A} (m : gmap string A) (order : list string) : Prop := order ≡ₚ fst <$> map_to_list m.

Lemma map_order_elem {A} (m : gmap string A) order k : map_order m order → k ∈ order ↔ is_Some (m !! k).
Proof.
  intros ->. rewrite list_elem_of_fmap. split.
  - intros ([k' a] & -> & H%elem_of_map_to_list). by exists a.
  - intros [a H%elem_of_map_to_list]. by exists (k, a).
Qed.

(** The hashes of the outputs, by name. *)
Definition hashes (m : BuildManifest) : gmap string string := ArtifactSHA256 <$> OutputArtifacts m.

Lemma compare_outputs_ok m1 m2 order :
  compare_outputs m1 m2 order = Ok tt ↔
  ∀ k a1, k ∈ order → OutputArtifacts m1 !! k = Some a1 → hashes m2 !! k = Some (ArtifactSHA256 a1).
Proof.
  induction order as [|k order IH]; cbn [compare_outputs]; [split; [by intros _ k a1 ?%elem_of_nil|done]|].
  setoid_rewrite elem_of_cons. unfold hashes in *. setoid_rewrite lookup_fmap. setoid_rewrite lookup_fmap in IH.
  destruct (OutputArtifacts m1 !! k) as [a1|] eqn:H1.
  2: { rewrite IH. split; [intros H k' a' [->|Hk] Ha; [congruence|by eauto]|by eauto]. }
  destruct (OutputArtifacts m2 !! k) as [a2|] eqn:H2.
  2: { split; [done|]. intros H. specialize (H k a1 (or_introl eq_refl) H1). by rewrite H2 in H. }
  destruct (decide _) as [Heq|Hneq].
  - rewrite IH. split; [|by eauto]. intros H k' a' [->|Hk] Ha; [|by eauto]. rewrite H2. simplify_eq. cbn. by f_equal.
  - split; [done|]. intros H. specialize (H k a1 (or_introl eq_refl) H1). rewrite H2 in H. cbn in H. congruence.
Qed.

Lemma size_hashes m : size (hashes m) = size (OutputArtifacts m).
Proof. apply map_size_fmap. Qed.

(** The combined hash is a function of the hashes by name. *)
Lemma output_hashes_hashes m :
  output_hashes m = omap (λ k, hashes m !! k) (sort_strings (fst <$> map_to_list (hashes m))).
Proof.
  assert (fst <$> map_to_list (hashes m) ≡ₚ fst <$> map_to_list (OutputArtifacts m)) as Hp.
  { unfold hashes. rewrite map_to_list_fmap, <-list_fmap_compose.
    by apply Permutation_refl', list_fmap_ext; intros ? []. }
  rewrite (sort_strings_perm _ _ Hp). unfold output_hashes, hashes.
  apply list_omap_ext. apply Forall2_same_length_lookup_2; [done|].
  intros i k k' Hk Hk'. simplify_eq. by rewrite lookup_fmap.
Qed.

(** C18: the comparison of two builds succeeds exactly when they have the same outputs with
    the same hashes, in whatever order the map is iterated; the combined hash then agrees
    too, whatever the inputs were: it is over the outputs alone, while its comment says
    it covers all input and output artifacts. *)
Theorem CompareManifests_exact m1 m2 order :
  map_order (OutputArtifacts m1) order →
  (CompareManifests m1 m2 order = Ok tt ↔ hashes m1 = hashes m2) ∧
  (hashes m1 = hashes m2 → CalculateCombinedBuildHash m1 = CalculateCombinedBuildHash m2).
Proof.
  intros Ho. split.
  - unfold CompareManifests. destruct (decide (size _ = size _)) as [Hsize|Hsize].
    + rewrite compare_outputs_ok. split.
      * intros H. apply map_subseteq_size_eq; [|by rewrite !size_hashes; lia].
        intros k. unfold hashes at 1. rewrite lookup_fmap.
        destruct (OutputArtifacts m1 !! k) as [a1|] eqn:H1; [|by destruct (hashes m2 !! k)].
        cbn. rewrite (H k a1); [done| |done]. apply (map_order_elem _ _ _ Ho). by eexists.
      * intros <- k a1 _ H1. unfold hashes. by rewrite lookup_fmap, H1.
    + split; [done|]. intros H. destruct Hsize. by rewrite <-(size_hashes m1), H, size_hashes.
  - intros H. unfold CalculateCombinedBuildHash. by rewrite !output_hashes_hashes, H.
Qed.

(** Two builds whose outputs sit at different paths are still the same build. *)
Definition artifact (name path hash : string) : ArtifactChecksum :=
  {| ArtifactName := name; ArtifactPath := path; SizeBytes := 3; ArtifactSHA256 := hash |}.
Definition sample_build (dir : string) : BuildManifest := {|
  ProjectName := "karim-microvm-os"; Version := "1.0.0-hermetic"; BuildTimestamp := FormatFixedTimestamp 0;
  Hermetic := true; SourceDateEpoch := 0; InputArtifacts := ∅;
  OutputArtifacts := {["initramfs.cpio" := artifact "initramfs.cpio" (dir +:+ "/initramfs.cpio") (sha256_hex "abc");
                       "rootfs.sqsh" := artifact "rootfs.sqsh" (dir +:+ "/rootfs.sqsh") (sha256_hex "")]};
  CombinedBuildHash := "" |}.

Lemma CompareManifests_exact_witness :
  (CompareManifests (sample_build "/a") (sample_build "/b") ["rootfs.sqsh"; "initramfs.cpio"] = Ok tt ↔
   hashes (sample_build "/a") = hashes (sample_build "/b")) ∧
  (hashes (sample_build "/a") = hashes (sample_build "/b") →
   CalculateCombinedBuildHash (sample_build "/a") = CalculateCombinedBuildHash (sample_build "/b")).
Proof.
  apply CompareManifests_exact. unfold map_order.
  apply (bool_decide_unpack _). by vm_compute.
Defined.
