(* ===== verification/Builder.v ===== *)
(** * The image builder ([internal/builder/builder.go], [internal/builder/squashfs.go])

    Staging of the two trees, packing of the initramfs and of the root file system, and
    the manifest, as one program of requests. *)

From Stdlib Require Import Ascii.
From S2P Require Import Prelude GoStrings GoStrconv GoPath GoCrypto Linux Prog Protocol Cpio Extract Layers Manifest.

Record BuildConfig := {
  InitBinPath : string; SvcdBinPath : string; ServicesDir : string; LayersFile : string;
  KernelPath : string; OutputDir : string; BuildEpoch : Z }.

Definition DefaultBuildConfig (workDir : string) : BuildConfig := {|
  InitBinPath := Join [workDir; "build"; "init"];
  SvcdBinPath := Join [workDir; "build"; "karim-svcd"];
  ServicesDir := Join [workDir; "config"; "services"];
  LayersFile := Join [workDir; "config"; "layers.toml"];
  KernelPath := Join [workDir; "dist"; "bzImage"];
  OutputDir := Join [workDir; "dist"];
  BuildEpoch := 0 |}.

Record SquashFSOptions := {
  Compression : string; SourceDir : string; OutputFile : string; FixedTime : Z; EnableFragments : bool }.

Definition DefaultSquashFSOptions (sourceDir outputFile : string) : SquashFSOptions := {|
  Compression := "xz"; SourceDir := sourceDir; OutputFile := outputFile; FixedTime := 0; EnableFragments := false |}.

(** ** Requests *)

Inductive stat_answer := Exists | Missing | StatFails.

(** What running a command gives: its output, and the error when it failed. *)
Record command_result := { output : string; failure : option string }.

Inductive build_ev : Type → Type :=
| OnLayer {X} (e : layer_ev X) : build_ev X
| OnManifest {X} (e : manifest_ev X) : build_ev X
| MkdirTemp (pattern : string) : build_ev (string + string)
| RemoveTemp (path : string) : build_ev unit
| StatPath (path : string) : build_ev stat_answer
| CreateCpio (path : string) : build_ev (option string)
| WriteCpio (path data : string) : build_ev (option string)
| WalkStaging (path : string) : build_ev (outcome (list walk_entry))
| LookPath (name : string) : build_ev (string + string)
| Environ : build_ev (list string)
| RunCommand (path : string) (args env : list string) : build_ev command_result.

Definition fs {X} (e : fs_ev X) : build_ev X := OnLayer (OnFs e).
Definition fs_act (e : fs_ev (option string)) : prog build_ev (outcome unit) :=
  Vis (fs e) (λ r, Ret match r with Some err => Err err | None => Ok tt end).
Definition on_layer {A} : prog layer_ev A → prog build_ev A := translate (λ X e, OnLayer e).
Definition on_manifest {A} : prog manifest_ev A → prog build_ev A := translate (λ X e, OnManifest e).
Definition to_cpio {A} (path : string) : prog write_ev A → prog build_ev A :=
  translate (λ X e, match e in write_ev Y return build_ev Y with Write data => WriteCpio path data end).

(** [_ = f()] *)
Definition regardless {A} (p : prog build_ev (outcome A)) : prog build_ev (outcome unit) :=
  prog_bind (λ _, Ret (Ok tt)) p.

(** ** Copying *)

Definition copyFileWithPerm (src dst : string) (perm : Z) : prog build_ev (outcome unit) :=
  Vis (OnLayer (OpenSource src)) (λ r,
    match r with
    | inr e => throw e
    | inl data =>
        _ ←! fs_act (MkdirAll (Dir dst) 0x1ED);
        _ ←! fs_act (OpenFile dst create_flags perm);
        fs_act (CopyData dst data)
    end).

Definition copyFileExecutable (src dst : string) : prog build_ev (outcome unit) := copyFileWithPerm src dst 0x1ED.
Definition copyFileRegular (src dst : string) : prog build_ev (outcome unit) := copyFileWithPerm src dst 0x1A4.

(** Do something when a path can be inspected. *)
Definition if_exists (path : string) (p : prog build_ev (outcome unit)) : prog build_ev (outcome unit) :=
  Vis (StatPath path) (λ r, match r with Exists => p | _ => done_ end).

(** ** Staging *)

Definition stage_dirs (what staging : string) (dirs : list string) : prog build_ev (outcome unit) :=
  each (λ d, wrapping ("failed staging " +:+ what +:+ " dir " +:+ d +:+ ": ")
               (fs_act (MkdirAll (Join [staging; d]) 0x1ED))) dirs.

Definition dirsToCreateInit : list string :=
  ["dev"; "proc"; "sys"; "etc"; "bin"; "sbin"; "etc/karim/services"].
Definition dirsToCreateRoot : list string :=
  ["bin"; "sbin"; "etc/karim/services"; "run/karim"; "var"; "tmp"; "proc"; "sys"; "dev"].

Definition daemons : list string := ["karim-svcd"; "karim-secd"; "karim-vsockd"; "karim-obsd"].

Definition stage_daemon (cfg : BuildConfig) (initramfsStaging d : string) : prog build_ev (outcome unit) :=
  let srcD :=
    if decide (d = "karim-svcd" ∧ SvcdBinPath cfg ≠ "") then SvcdBinPath cfg
    else Join [Dir (InitBinPath cfg); d] in
  if_exists srcD (regardless (copyFileExecutable srcD (Join [initramfsStaging; "sbin"; d]))).

(** The function given to [filepath.Walk] over the service definitions. *)
Definition stage_service (servicesDir staging : string) (w : walked) : prog build_ev (outcome unit) :=
  match w_err w with
  | Some e => throw e
  | None =>
      if w_dir w then done_
      else
        let rel := match Rel servicesDir (w_path w) with Ok rel => rel | _ => "" end in
        copyFileRegular (w_path w) (Join [staging; "etc/karim/services"; rel])
  end.

Definition stage_services (servicesDir staging : string) : prog build_ev (outcome unit) :=
  Vis (OnLayer (WalkTree servicesDir)) (λ ws, each (stage_service servicesDir staging) ws).

Definition workloads : list string := ["sample_app"; "httpd"; "kv_store"; "sh"].

Definition stage_workload (buildDir initramfsStaging rootfsStaging binName : string) : prog build_ev (outcome unit) :=
  let srcBin := Join [buildDir; binName] in
  if_exists srcBin (
    _ ←! regardless (copyFileExecutable srcBin (Join [initramfsStaging; "bin"; binName]));
    regardless (copyFileExecutable srcBin (Join [rootfsStaging; "bin"; binName]))).

Definition applets : list string :=
  ["sh"; "ls"; "cat"; "cp"; "mv"; "rm"; "mkdir"; "rmdir"; "grep"; "sed"; "awk"; "find"; "ps"; "top"; "ip"; "ping";
   "vi"; "tar"; "gzip"; "head"; "tail"; "wc"; "chmod"; "chown"].

Definition stage_applet (staging applet : string) : prog build_ev (outcome unit) :=
  let linkPath := Join [staging; "bin"; applet] in
  _ ←! regardless (fs_act (Remove linkPath));
  regardless (fs_act (Symlink "/bin/busybox" linkPath)).

Definition stage_busybox (busyboxSrc staging : string) : prog build_ev (outcome unit) :=
  _ ←! regardless (copyFileExecutable busyboxSrc (Join [staging; "bin"; "busybox"]));
  each (stage_applet staging) applets.

Definition passwdContent : string :=
  document ["root:x:0:0:root:/root:/bin/sh"; "nginx:x:101:101:nginx:/var/cache/nginx:/sbin/nologin";
            "nobody:x:65534:65534:nobody:/:/sbin/nologin"].
Definition groupContent : string := document ["root:x:0:"; "nginx:x:101:"; "nobody:x:65534:"].

(** Write a file that is missing; the error is ignored. *)
Definition write_missing (path content : string) : prog build_ev (outcome unit) :=
  Vis (StatPath path) (λ r,
    match r with
    | Missing => regardless (on_layer (layer_act (SaveFile path content 0x1A4)))
    | _ => done_
    end).

Section build.
Context {U : Unix} {UT : UnicodeTables} {LC : LayerCodec} {MC : ManifestCodec} (cwd : outcome string).

Definition merge_config (cfg : BuildConfig) (rootfsStaging : string) : prog build_ev (outcome unit) :=
  if decide (LayersFile cfg = "") then done_
  else
    if_exists (LayersFile cfg) (
      layerCfg ←! wrapping "failed loading layers config: " (on_layer (LoadLayerConfig (LayersFile cfg)));
      wrapping "failed merging package layers into rootfs: "
        (on_layer (MergeLayerConfig cwd layerCfg (Dir (LayersFile cfg)) rootfsStaging))).

(** Steps 2 and 3: both trees. *)
Definition stage_trees (cfg : BuildConfig) (initramfsStaging rootfsStaging : string) : prog build_ev (outcome unit) :=
  let buildDir := Dir (InitBinPath cfg) in
  let busyboxSrc := Join [buildDir; "busybox"] in
  _ ←! stage_dirs "initramfs" initramfsStaging dirsToCreateInit;
  _ ←! wrapping "failed staging init binary: " (copyFileExecutable (InitBinPath cfg) (Join [initramfsStaging; "init"]));
  _ ←! each (stage_daemon cfg initramfsStaging) daemons;
  _ ←! if_exists (ServicesDir cfg) (regardless (stage_services (ServicesDir cfg) initramfsStaging));
  _ ←! stage_dirs "rootfs" rootfsStaging dirsToCreateRoot;
  _ ←! wrapping "failed staging karim-svcd binary: "
         (copyFileExecutable (SvcdBinPath cfg) (Join [rootfsStaging; "sbin"; "karim-svcd"]));
  _ ←! each (stage_workload buildDir initramfsStaging rootfsStaging) workloads;
  _ ←! if_exists busyboxSrc (each (stage_busybox busyboxSrc) [initramfsStaging; rootfsStaging]);
  _ ←! if_exists (ServicesDir cfg)
         (wrapping "failed copying service configs: " (stage_services (ServicesDir cfg) rootfsStaging));
  _ ←! merge_config cfg rootfsStaging;
  _ ←! write_missing (Join [rootfsStaging; "etc/passwd"]) passwdContent;
  _ ←! write_missing (Join [rootfsStaging; "etc/group"]) groupContent;
  _ ←! write_missing (Join [initramfsStaging; "etc/passwd"]) passwdContent;
  write_missing (Join [initramfsStaging; "etc/group"]) groupContent.

(** ** Packing *)

Definition squashfs_args (opts : SquashFSOptions) : list string :=
  [SourceDir opts; OutputFile opts; "-noappend"; "-comp"; Compression opts; "-all-root"; "-no-recovery"; "-no-exports"]
  ++ (if EnableFragments opts then [] else ["-no-fragments"]).

Definition BuildHermeticSquashFS (opts : SquashFSOptions) : prog build_ev (outcome unit) :=
  Vis (LookPath "mksquashfs") (λ r,
    match r with
    | inr e => throw ("mksquashfs utility not found in PATH: " +:+ e)
    | inl mksquashfsPath =>
        _ ←! regardless (fs_act (Remove (OutputFile opts)));
        _ ←! wrapping "failed creating output directory: " (fs_act (MkdirAll (Dir (OutputFile opts)) 0x1ED));
        Vis Environ (λ env,
          Vis (RunCommand mksquashfsPath (squashfs_args opts)
                 (env ++ ["SOURCE_DATE_EPOCH=" +:+ itoa (FixedTime opts)])) (λ c,
            match failure c with
            | Some e => throw ("mksquashfs failed (" +:+ e +:+ "): " +:+ output c)
            | None => done_
            end))
    end).

Definition pack_initramfs (cpioPath initramfsStaging : string) (epoch : Z) : prog build_ev (outcome unit) :=
  Vis (CreateCpio cpioPath) (λ err,
    match err with
    | Some e => throw ("failed creating cpio output file: " +:+ e)
    | None =>
        Vis (WalkStaging initramfsStaging) (λ walk,
          wrapping "failed packing CPIO initramfs: "
            (to_cpio cpioPath (PackCPIOInitramfs initramfsStaging walk epoch)))
    end).

(** ** The manifest *)

Definition new_manifest (epoch : Z) : BuildManifest := {|
  ProjectName := "karim-microvm-os"; Version := "1.0.0-hermetic"; BuildTimestamp := FormatFixedTimestamp epoch;
  Hermetic := true; SourceDateEpoch := epoch; InputArtifacts := ∅; OutputArtifacts := ∅; CombinedBuildHash := "" |}.

Definition add_input (key : string) (chk : ArtifactChecksum) (m : BuildManifest) : BuildManifest := {|
  ProjectName := ProjectName m; Version := Version m; BuildTimestamp := BuildTimestamp m; Hermetic := Hermetic m;
  SourceDateEpoch := SourceDateEpoch m; InputArtifacts := <[key := chk]> (InputArtifacts m);
  OutputArtifacts := OutputArtifacts m; CombinedBuildHash := CombinedBuildHash m |}.

Definition add_output (key : string) (chk : ArtifactChecksum) (m : BuildManifest) : BuildManifest := {|
  ProjectName := ProjectName m; Version := Version m; BuildTimestamp := BuildTimestamp m; Hermetic := Hermetic m;
  SourceDateEpoch := SourceDateEpoch m; InputArtifacts := InputArtifacts m;
  OutputArtifacts := <[key := chk]> (OutputArtifacts m); CombinedBuildHash := CombinedBuildHash m |}.

(** The loop over the inputs; one that cannot be read is left out. *)
Fixpoint hash_inputs (inputs : list (string * string)) (m : BuildManifest) : prog build_ev BuildManifest :=
  match inputs with
  | [] => Ret m
  | (key, p) :: inputs =>
      prog_bind (λ r, hash_inputs inputs match r with Ok chk => add_input key chk m | _ => m end)
        (on_manifest (NewArtifactChecksum key p))
  end.

(** [order] puts the inputs in the order of the map iteration. *)
Definition build_inputs (order : list (string * string) → list (string * string)) (cfg : BuildConfig)
    (kernel : stat_answer) : list (string * string) :=
  order ([("init_binary", InitBinPath cfg); ("svcd_binary", SvcdBinPath cfg)]
         ++ match kernel with Exists => [("kernel_bzimage", KernelPath cfg)] | _ => [] end).

Definition write_manifest (order : list (string * string) → list (string * string)) (cfg : BuildConfig)
    (cpioPath squashPath : string) : prog build_ev (outcome BuildManifest) :=
  Vis (StatPath (KernelPath cfg)) (λ kernel,
    m ←! prog_bind (λ m, Ret (Ok m)) (hash_inputs (build_inputs order cfg kernel) (new_manifest (BuildEpoch cfg)));
    cpioChk ←! wrapping "failed computing initramfs checksum: "
                 (on_manifest (NewArtifactChecksum "initramfs.cpio" cpioPath));
    sqshChk ←! wrapping "failed computing rootfs checksum: "
                 (on_manifest (NewArtifactChecksum "rootfs.sqsh" squashPath));
    let m := add_output "rootfs.sqsh" sqshChk (add_output "initramfs.cpio" cpioChk m) in
    prog_bind (λ '(m, r), Ret (wrap_err "failed saving build manifest: " (_ ← r; Ok m)))
      (on_manifest (SaveManifest m (Join [OutputDir cfg; "manifest.json"])))).

(** ** The pipeline *)

(** Steps 4 to 6: packing of the staged trees and the manifest. *)
Definition pack_trees (order : list (string * string) → list (string * string)) (cfg : BuildConfig)
    (initramfsStaging rootfsStaging : string) : prog build_ev (outcome BuildManifest) :=
  let cpioPath := Join [OutputDir cfg; "initramfs.cpio"] in
  let squashPath := Join [OutputDir cfg; "rootfs.sqsh"] in
  _ ←! pack_initramfs cpioPath initramfsStaging (BuildEpoch cfg);
  _ ←! wrapping "failed packing SquashFS rootfs: "
         (BuildHermeticSquashFS {| Compression := "xz"; SourceDir := rootfsStaging; OutputFile := squashPath;
                                   FixedTime := BuildEpoch cfg; EnableFragments := false |});
  write_manifest order cfg cpioPath squashPath.

(** Everything between the creation and the removal of the temporary directory. *)
Definition assemble (order : list (string * string) → list (string * string)) (cfg : BuildConfig) (tmpBuild : string)
    : prog build_ev (outcome BuildManifest) :=
  let initramfsStaging := Join [tmpBuild; "initramfs_root"] in
  let rootfsStaging := Join [tmpBuild; "rootfs_tree"] in
  _ ←! stage_trees cfg initramfsStaging rootfsStaging;
  pack_trees order cfg initramfsStaging rootfsStaging.

Definition BuildImagePipeline (order : list (string * string) → list (string * string)) (cfg : BuildConfig)
    : prog build_ev (outcome BuildManifest) :=
  _ ←! wrapping "failed creating output dir: " (fs_act (MkdirAll (OutputDir cfg) 0x1ED));
  Vis (MkdirTemp "karim-build-*") (λ r,
    match r with
    | inr e => throw ("failed creating temp build dir: " +:+ e)
    | inl tmpBuild =>
        prog_bind (λ r, Vis (RemoveTemp tmpBuild) (λ _, Ret r)) (assemble order cfg tmpBuild)
    end).

(** [compare] is the order in which the outputs of the first build are iterated. *)
Definition VerifyReproducibility (order : list (string * string) → list (string * string)) (compare : list string)
    (cfg : BuildConfig) : prog build_ev (outcome unit) :=
  m1 ←! wrapping "build 1 failed: " (BuildImagePipeline order cfg);
  _ ←! regardless (fs_act (Remove (Join [OutputDir cfg; "initramfs.cpio"])));
  _ ←! regardless (fs_act (Remove (Join [OutputDir cfg; "rootfs.sqsh"])));
  m2 ←! wrapping "build 2 failed: " (BuildImagePipeline order cfg);
  Ret (wrap_err "reproducibility check failed: " (CompareManifests m1 m2 compare)).
End build.

(** * Properties *)

(** ** Reproducible builds *)

(** An entry without the place it was found at. *)
Definition strip (e : Cpio.entry) : Cpio.entry := {| relPath := relPath e; e_full := ""; e_info := e_info e |}.

Lemma members_strip ino mtime es : members ino mtime (strip <$> es) = members ino mtime es.
Proof. revert ino. induction es as [|e es IH]; intros ino; [done|]. rewrite fmap_cons. cbn [members]. by rewrite IH. Qed.

Lemma Sorted_strip es : Sorted path_le es → Sorted path_le (strip <$> es).
Proof.
  induction 1 as [|e es _ IH Hd]; [constructor|]. rewrite fmap_cons. constructor; [done|].
  destruct Hd as [|e' es Hle]; constructor. exact Hle.
Qed.

Lemma sort_entries_strip es : NoDup (relPath <$> es) → strip <$> sort_entries es = sort_entries (strip <$> es).
Proof.
  intros Hnd.
  assert (strip <$> sort_entries es ≡ₚ strip <$> es) as Hp
    by (unfold sort_entries; by rewrite (merge_sort_Permutation path_le)).
  apply (Sorted_unique_strong path_le).
  - intros x y Hx Hy H1 H2. assert (relPath x = relPath y) as Heq by by apply String.leb_antisym.
    rewrite Hp in Hx. unfold sort_entries in Hy. rewrite (merge_sort_Permutation path_le) in Hy.
    apply list_elem_of_lookup in Hx as [i Hi], Hy as [j Hj].
    assert (i = j) as ->; [|by simplify_eq].
    rewrite list_lookup_fmap_Some in Hi. destruct Hi as (e1 & -> & Hi).
    rewrite list_lookup_fmap_Some in Hj. destruct Hj as (e2 & -> & Hj).
    apply (NoDup_lookup _ i j (relPath e1) Hnd); rewrite list_lookup_fmap; [by rewrite Hi|].
    rewrite Hj. cbn in *. by rewrite Heq.
  - apply Sorted_strip, (Sorted_merge_sort path_le); apply _.
  - apply (Sorted_merge_sort path_le); apply _.
  - rewrite Hp. unfold sort_entries. by rewrite (merge_sort_Permutation path_le).
Qed.

(** What is staged below a directory: the entries by relative path, each with the time it was
    last modified. *)
Record staged_node := { n_info : Cpio.node; n_mtime : Z }.
Definition staged_tree := gmap string staged_node.

(** Two trees that only differ in times. *)
Definition same_content (T T' : staged_tree) : Prop := n_info <$> T = n_info <$> T'.

Definition dated_since (epoch : Z) (T : staged_tree) : Prop := map_Forall (λ _ n, epoch ≤ n_mtime n)%Z T.

(** Times after [epoch] become [epoch]. *)
Definition clamp (epoch : Z) (T : staged_tree) : staged_tree :=
  (λ n, {| n_info := n_info n; n_mtime := Z.min epoch (n_mtime n) |}) <$> T.

Lemma clamp_same epoch T T' :
  same_content T T' → dated_since epoch T → dated_since epoch T' → clamp epoch T = clamp epoch T'.
Proof.
  intros Hs Hd Hd'.
  assert (∀ T, dated_since epoch T → clamp epoch T = (λ i, {| n_info := i; n_mtime := epoch |}) <$> (n_info <$> T)) as Hc.
  { intros T0 H0. unfold clamp. rewrite <-map_fmap_compose. apply map_fmap_ext. intros p [i t] Hp. cbn.
    specialize (H0 p _ Hp). cbn in H0. by rewrite Z.min_l by lia. }
  by rewrite !Hc, Hs.
Qed.

(** The tree as the walk shows it. *)
Definition tree_entries (T : staged_tree) : list Cpio.entry :=
  (λ '(p, n), {| relPath := p; e_full := ""; e_info := n_info n |}) <$> map_to_list T.

(** Sizes and numbers of files that the format of the archive can express. *)
Definition packable (T : staged_tree) : Prop := Forall entry_fits (tree_entries T) ∧ (Z.of_nat (size T) + 1 < 2 ^ 32)%Z.

Lemma entries_names T : NoDup (relPath <$> tree_entries T).
Proof.
  unfold tree_entries. rewrite <-list_fmap_compose. rewrite (list_fmap_ext _ fst).
  - apply NoDup_fst_map_to_list.
  - by intros ? [] ?.
Qed.

Lemma entries_length T : length (tree_entries T) = size T.
Proof. unfold tree_entries. rewrite length_fmap. apply length_map_to_list. Qed.

Lemma entries_same T T' : same_content T T' → tree_entries T = tree_entries T'.
Proof.
  assert (∀ T, tree_entries T = (λ '(p, i), {| relPath := p; e_full := ""; e_info := i |}) <$> map_to_list (n_info <$> T)) as He.
  { intros T0. unfold tree_entries. rewrite map_to_list_fmap, <-list_fmap_compose.
    apply list_fmap_ext. by intros ? [] ?. }
  intros Hs. by rewrite !He, Hs.
Qed.

(** The machine that builds: its files, the trees below the directories, and the trees that
    were packed, in order, with the directories they were in. *)
Record builder_host := {
  files : gmap string string; staged : gmap string staged_tree; packed : list (string * staged_tree) }.

(** [p] is [r] or lies below it. *)
Definition below (r p : string) : Prop :=
  ∃ rs ps, Forall norm_comp rs ∧ Forall norm_comp ps ∧ r = abs_path rs ∧ p = abs_path ps ∧ rs `prefix_of` ps.

(** A request that acts on the path [p] leaves the trees that do not hold it alone. *)
Definition acts_on (p : string) (s s' : builder_host) : Prop :=
  packed s' = packed s ∧ ∀ r, ¬ below r p → staged s' !! r = staged s !! r.

Section reproducible.
Context {U : Unix} {UT : UnicodeTables} {LC : LayerCodec} {MC : ManifestCodec} (cwd : outcome string).

(** The output directory. *)
Context (od : list string) (Hod : Forall norm_comp od).

(** The image that [mksquashfs] makes of a tree with given flags and the last variable of its
    environment: as its documentation says of [SOURCE_DATE_EPOCH], times after it are clamped
    to it. *)
Context (image : list string → option string → staged_tree → string).
Context (Himage : ∀ flags epoch T T', clamp epoch T = clamp epoch T' →
  image flags (Some ("SOURCE_DATE_EPOCH=" +:+ itoa epoch)) T = image flags (Some ("SOURCE_DATE_EPOCH=" +:+ itoa epoch)) T').

(** A walk of [root] reports the entries of the tree, in any order. *)
Definition sees (root : string) (ws : list walk_entry) (T : staged_tree) : Prop :=
  Forall (related root) ws ∧ strip <$> omap (entry_of root) ws ≡ₚ tree_entries T.

(** A new directory holds none that is there already. *)
Definition new_dir (d : string) : Prop := ∃ ts, Forall norm_comp ts ∧ d = abs_path ts ∧ ¬ ts `prefix_of` od.

(** Any request may fail, and staging may change any file and any tree.  A new temporary
    directory does not hold the output directory.  A walk shows the tree that is there, and
    [mksquashfs], when it succeeds, writes the image of the tree that is there. *)
Definition build_env : env_rel build_ev builder_host := λ X e s x s',
  match e in build_ev Y return Y → Prop with
  | OnLayer e =>
      match e in layer_ev Y return Y → Prop with
      | OnFs e =>
          match e in fs_ev Y return Y → Prop with
          | MkdirAll p _ => λ _, files s' = files s ∧ acts_on p s s'
          | Remove p => λ _, (files s' = files s ∨ files s' = delete p (files s)) ∧ acts_on p s s'
          | _ => λ _, packed s' = packed s
          end
      | _ => λ _, packed s' = packed s
      end
  | OnManifest e =>
      match e in manifest_ev Y return Y → Prop with
      | HashFile p => λ f, s' = s ∧ match f with FileData d None => files s !! p = Some d | _ => True end
      | _ => λ _, packed s' = packed s
      end
  | MkdirTemp _ => λ r, packed s' = packed s ∧
      match r with inl d => new_dir d | inr _ => True end
  | RemoveTemp _ => λ _, packed s' = packed s
  | CreateCpio p => λ r, acts_on p s s' ∧ match r with None => files s' = <[p := ""]> (files s) | Some _ => True end
  | WriteCpio p d => λ r, acts_on p s s' ∧
      match r with None => files s' = <[p := default "" (files s !! p) +:+ d]> (files s) | Some _ => True end
  | WalkStaging root => λ r, files s' = files s ∧ staged s' = staged s ∧
      match r with
      | Ok ws => ∃ T, staged s !! root = Some T ∧ sees root ws T ∧ packed s' = packed s ++ [(root, T)]
      | _ => packed s' = packed s
      end
  | RunCommand _ args env => λ c,
      match failure c with
      | None => ∃ T, staged s !! nth 0 args "" = Some T ∧ packed s' = packed s ++ [(nth 0 args "", T)] ∧
          files s' = <[nth 1 args "" := image (drop 2 args) (last env) T]> (files s)
      | Some _ => True
      end
  | _ => λ _, s' = s
  end x.

(** The host after a request, as far as packing is concerned. *)
Definition not_packing X (e : build_ev X) : Prop :=
  match e with WalkStaging _ | RunCommand _ _ _ => False | _ => True end.

Lemma wp_unpacked {A} (p : prog build_ev A) s :
  issues not_packing p → wp build_env p (λ _ s', packed s' = packed s) s.
Proof.
  intros Hp. apply (wp_issues build_env not_packing (λ s', packed s' = packed s) p s Hp); [|done].
  intros X e s1 x s2 He Hs1 Hx. rewrite <-Hs1. clear Hs1. destruct e as [Y e|Y e| | | | | | | | |]; try done; cbn in Hx.
  - destruct e as [Z e| | | | | | | | |]; try done. destruct e; try done; unfold acts_on in Hx; tauto.
  - destruct e; [by destruct Hx as [-> _]|done..].
  - by destruct Hx.
  - by rewrite Hx.
  - by destruct Hx as [[] _].
  - by destruct Hx as [[] _].
  - by rewrite Hx.
  - by rewrite Hx.
Qed.

Definition archive (epoch : Z) (T : staged_tree) : string :=
  archive_bytes (members 1 (mtime_sec epoch) (sort_entries (tree_entries T))) +:+ member_bytes trailer_header "".

Lemma strip_fits es : Forall entry_fits (strip <$> es) → Forall entry_fits es.
Proof. rewrite Forall_fmap. intros H. eapply Forall_impl; [exact H|]. by intros []. Qed.

Lemma wp_pack_sees root ws T epoch w :
  sees root ws T → packable T →
  wp wire (PackCPIOInitramfs root (Ok ws) epoch) (λ r s', r = Ok tt → s' = w +:+ archive epoch T) w.
Proof.
  intros [Hrel Hp] [HTfits HTlen]. pose proof (entries_names T) as HTnd.
  assert (NoDup (relPath <$> omap (entry_of root) ws)) as Hnd.
  { assert (relPath <$> (strip <$> omap (entry_of root) ws) ≡ₚ relPath <$> tree_entries T) as H by by rewrite Hp.
    rewrite <-list_fmap_compose in H. by rewrite H. }
  eapply wp_mono; [|apply wp_Pack].
  - intros r s' H Hr. destruct (H Hr) as [-> _]. unfold archive. do 3 f_equal.
    rewrite <-members_strip, sort_entries_strip by done. f_equal. apply sort_entries_perm; [|done].
    by rewrite <-list_fmap_compose.
  - done.
  - apply strip_fits. by rewrite Hp.
  - apply Permutation_length in Hp. rewrite length_fmap, entries_length in Hp. by rewrite Hp.
Qed.

Lemma acts_on_trans p s1 s2 s3 : acts_on p s1 s2 → acts_on p s2 s3 → acts_on p s1 s3.
Proof. intros [H1 H2] [H3 H4]. split; [by rewrite H3|]. intros r Hr. by rewrite H4, H2. Qed.

(** Writing to the archive, seen as a wire. *)
Lemma wp_to_cpio {A} path (p : prog write_ev A) Q s :
  wp wire p Q (default "" (files s !! path)) →
  wp build_env (to_cpio path p) (λ r s', acts_on path s s' ∧ Q r (default "" (files s' !! path))) s.
Proof.
  revert s. induction p as [a|X e k IH]; intros s; [done|]. unfold to_cpio. cbn [translate wp].
  intros H x s1 Hx. destruct e as [data]. cbn in Hx. destruct Hx as [Hact Hx].
  eapply wp_mono; [|apply IH, H].
  - intros r s' [Hact' HQ]. split; [by eapply acts_on_trans|exact HQ].
  - cbn. destruct x as [err|]; [done|]. by rewrite Hx, lookup_insert_eq.
Qed.

Lemma wp_pack_initramfs path root epoch s :
  ¬ below root path →
  wp build_env (pack_initramfs path root epoch) (λ r s', is_ok r = true → ∃ T,
    staged s !! root = Some T ∧ packed s' = packed s ++ [(root, T)] ∧
    (∀ r, ¬ below r path → staged s' !! r = staged s !! r) ∧
    (packable T → default "" (files s' !! path) = archive epoch T)) s.
Proof.
  intros Hb. unfold pack_initramfs. cbn [wp build_env]. intros [e|] s1 [Ha1 Hf1]; [done|].
  cbn [wp build_env]. intros walk s2 (Hf2 & Hst2 & Hw). rewrite wp_wrapping.
  destruct walk as [ws|e|]; [|done..]. destruct Hw as (T & HT & Hsees & Hpk2).
  eapply wp_mono; [|apply (wp_to_cpio path _ (λ r w, r = Ok tt → packable T → w = archive epoch T))].
  - intros [[]|e|] s3 [[Hpk3 Hst3] H]; cbn; [|done..]. intros _. exists T. destruct Ha1 as [Hpk1 Hst1]. split_and!.
    + by rewrite <-Hst1.
    + by rewrite Hpk3, Hpk2, Hpk1.
    + intros r Hr. by rewrite Hst3, Hst2, Hst1.
    + by apply H.
  - rewrite Hf2, Hf1, lookup_insert_eq. cbn [default from_option id].
    apply wp_runs. intros r w Hr Hok Hpack. pose proof (wp_pack_sees root ws T epoch "" Hsees Hpack) as Hw.
    rewrite wp_runs in Hw. by apply (Hw r w).
Qed.

Lemma wp_BuildHermeticSquashFS opts s :
  ¬ below (SourceDir opts) (OutputFile opts) → ¬ below (SourceDir opts) (Dir (OutputFile opts)) →
  wp build_env (BuildHermeticSquashFS opts) (λ r s', is_ok r = true → ∃ T,
    staged s !! SourceDir opts = Some T ∧ packed s' = packed s ++ [(SourceDir opts, T)] ∧
    (∀ other, other ≠ OutputFile opts → files s' !! other = files s !! other) ∧
    default "" (files s' !! OutputFile opts) =
      image (drop 2 (squashfs_args opts)) (Some ("SOURCE_DATE_EPOCH=" +:+ itoa (FixedTime opts))) T) s.
Proof.
  intros Hb1 Hb2. unfold BuildHermeticSquashFS. cbn [wp build_env]. intros [q|e] s1 ->; [|done].
  rewrite wp_ebind. unfold regardless. rewrite wp_bind. cbn [fs_act wp build_env fs].
  intros r s1 [Hs1 [Hpk1 Hst1]].
  assert (∀ other, other ≠ OutputFile opts → files s1 !! other = files s !! other) as H1.
  { intros other Hne. destruct Hs1 as [-> | ->]; [done|]. by rewrite lookup_delete_ne. }
  clear Hs1. rewrite wp_ebind, wp_wrapping. cbn [fs_act wp build_env fs].
  intros [e|] s2 [Hs2 [Hpk2 Hst2]]; [done|]. cbn [wrap_err wp build_env]. intros env s2' -> c s3.
  destruct (failure c); [done|]. cbn [wp squashfs_args app nth]. intros (T & HT & Hpk3 & Hf3) _. exists T. split_and!.
  - by rewrite <-Hst1, <-Hst2.
  - by rewrite Hpk3, Hpk2, Hpk1.
  - intros other Hne. by rewrite Hf3, lookup_insert_ne, Hs2, H1.
  - rewrite Hf3, lookup_insert_eq, last_snoc. done.
Qed.

Lemma wp_NewArtifactChecksum name path s :
  wp build_env (on_manifest (NewArtifactChecksum name path)) (λ r s', s' = s ∧
    match r with Ok c => ArtifactSHA256 c = sha256_hex (default "" (files s !! path)) | _ => True end) s.
Proof.
  cbn. intros f s' [-> Hf]. destruct f as [e|d [e|]]; cbn; [done..|]. split; [done|]. by rewrite Hf.
Qed.

Lemma wp_hash_inputs inputs m s :
  wp build_env (hash_inputs inputs m) (λ m' s', s' = s ∧ OutputArtifacts m' = OutputArtifacts m) s.
Proof.
  revert m. induction inputs as [|[key p] inputs IH]; intros m; [done|]. cbn [hash_inputs].
  rewrite wp_bind. eapply wp_mono; [|apply wp_NewArtifactChecksum]. intros r s' [-> _].
  eapply wp_mono; [|apply IH]. intros m' s' [-> Hm]. split; [done|]. rewrite Hm. by destruct r.
Qed.

(** The image of the root file system, and the hashes that a successful build records for
    the two trees it packs. *)
Definition root_image (epoch : Z) (T : staged_tree) : string :=
  image (drop 2 (squashfs_args {| Compression := "xz"; SourceDir := ""; OutputFile := ""; FixedTime := epoch;
                                  EnableFragments := false |})) (Some ("SOURCE_DATE_EPOCH=" +:+ itoa epoch)) T.
Definition expected (epoch : Z) (Ti Tr : staged_tree) : gmap string string :=
  {["initramfs.cpio" := sha256_hex (archive epoch Ti); "rootfs.sqsh" := sha256_hex (root_image epoch Tr)]}.

Lemma wp_write_manifest order cfg cpioPath squashPath s :
  wp build_env (write_manifest order cfg cpioPath squashPath)
    (λ r s', packed s' = packed s ∧ ∀ m, r = Ok m → hashes m =
       {["initramfs.cpio" := sha256_hex (default "" (files s !! cpioPath));
         "rootfs.sqsh" := sha256_hex (default "" (files s !! squashPath))]}) s.
Proof.
  unfold write_manifest. cbn [wp build_env]. intros kernel s1 ->.
  rewrite wp_ebind, wp_bind. eapply wp_mono; [|apply wp_hash_inputs]. intros m s1 [-> Hm]. cbn [wp].
  rewrite wp_ebind, wp_wrapping. eapply wp_mono; [|apply wp_NewArtifactChecksum].
  intros [c1|e|] s1 [-> H1]; [|done..]. cbn [wrap_err].
  rewrite wp_ebind, wp_wrapping. eapply wp_mono; [|apply wp_NewArtifactChecksum].
  intros [c2|e|] s1 [-> H2]; [|done..]. cbn [wrap_err].
  set (m' := add_output _ c2 (add_output _ c1 m)).
  assert (hashes (with_combined m') =
    {["initramfs.cpio" := sha256_hex (default "" (files s !! cpioPath));
      "rootfs.sqsh" := sha256_hex (default "" (files s !! squashPath))]}) as Hh.
  { unfold hashes, m', with_combined, add_output. cbn [OutputArtifacts]. rewrite Hm. cbn [OutputArtifacts new_manifest].
    rewrite !fmap_insert, fmap_empty, H1, H2. by rewrite insert_insert_ne, insert_empty. }
  rewrite wp_bind. unfold on_manifest, SaveManifest. destruct (encode_build (with_combined m')) as [d|e|]; cbn; [|done..].
  intros [e|] s2 Hpk; cbn; (split; [done|]); [done|]. by intros ? [= <-].
Qed.

(** Paths of the output directory. *)
Lemma Join_one ds c : Forall norm_comp ds → norm_comp c → Join [abs_path ds; c] = abs_path (ds ++ [c]).
Proof. intros Hds Hc. by apply (Join_abs_rel ds [c]); [|apply Forall_singleton|]. Qed.

Lemma out_paths_differ : Join [abs_path od; "initramfs.cpio"] ≠ Join [abs_path od; "rootfs.sqsh"].
Proof.
  rewrite !Join_one by (done || by apply (bool_decide_unpack _)).
  intros H%abs_path_inj; [by apply app_inv_head in H| |];
    (apply Forall_app; split; [done|by apply (bool_decide_unpack _)]).
Qed.

(** They are not below a new directory's subdirectory of another name. *)
Lemma out_not_below d c ps :
  new_dir d → norm_comp c → Forall norm_comp (od ++ ps) → c ∉ ps → length ps ≤ 1 →
  ¬ below (Join [d; c]) (abs_path (od ++ ps)).
Proof.
  intros (ts & Hts & -> & Hnew) Hc Hps Hcps Hlen (rs & qs & Hrs & Hqs & Hr & Hq & Hpre).
  rewrite Join_one in Hr by done.
  apply abs_path_inj in Hr; [|apply Forall_app; split; [done|by apply Forall_singleton]|done].
  apply abs_path_inj in Hq; [|done..]. subst rs qs. destruct Hpre as [k Hk]. apply Hnew.
  destruct ps as [|p ps]; [rewrite app_nil_r, <-app_assoc in Hk; by eexists|].
  destruct ps; [|cbn in Hlen; lia].
  destruct k as [|x k _] using rev_ind.
  - rewrite app_nil_r in Hk. apply app_inj_tail in Hk as [_ ->]. set_solver.
  - rewrite app_assoc in Hk. apply app_inj_tail in Hk as [-> _]. rewrite <-app_assoc. by eexists.
Qed.

Lemma wp_pack_trees order cfg tmp s :
  OutputDir cfg = abs_path od → new_dir tmp →
  let root1 := Join [tmp; "initramfs_root"] in
  let root2 := Join [tmp; "rootfs_tree"] in
  wp build_env (pack_trees order cfg root1 root2) (λ r s', ∀ m, r = Ok m → ∃ Ti Tr,
    staged s !! root1 = Some Ti ∧ staged s !! root2 = Some Tr ∧
    packed s' = packed s ++ [(root1, Ti); (root2, Tr)] ∧
    (packable Ti → hashes m = expected (BuildEpoch cfg) Ti Tr)) s.
Proof.
  intros Hout Hnew root1 root2. unfold pack_trees. rewrite Hout. pose proof out_paths_differ as Hne.
  assert (∀ r c, r = "initramfs_root" ∨ r = "rootfs_tree" → c = "initramfs.cpio" ∨ c = "rootfs.sqsh" →
    ¬ below (Join [tmp; r]) (Join [abs_path od; c])) as Hbelow.
  { intros r c Hr Hc. assert (norm_comp r) by (destruct Hr as [-> | ->]; by apply (bool_decide_unpack _)).
    assert (norm_comp c) by (destruct Hc as [-> | ->]; by apply (bool_decide_unpack _)).
    rewrite Join_one by done. apply out_not_below; [done|done| | |cbn; lia].
    - apply Forall_app. split; [done|by apply Forall_singleton].
    - destruct Hr as [-> | ->], Hc as [-> | ->]; by intros ?%list_elem_of_singleton. }
  rewrite wp_ebind. eapply wp_mono; [|apply wp_pack_initramfs, Hbelow; by left].
  intros [[]|e|] s1 H1; [|done..]. destruct (H1 eq_refl) as (Ti & HTi & Hpk1 & Hst1 & Hc). clear H1. rewrite wp_ebind, wp_wrapping.
  eapply wp_mono; [|apply wp_BuildHermeticSquashFS]; cbn [SourceDir OutputFile FixedTime].
  - intros [[]|e|] s2 H2; [|done..]. destruct (H2 eq_refl) as (Tr & HTr & Hpk2 & Hother & Hs). cbn [wrap_err].
    eapply wp_mono; [|apply wp_write_manifest]. intros r s3 [Hpk3 Hm] m Hr. exists Ti, Tr. split_and!.
    + done.
    + rewrite <-HTr. symmetry. apply Hst1, Hbelow; [by right|by left].
    + by rewrite Hpk3, Hpk2, Hpk1, <-app_assoc.
    + intros Hpack. rewrite (Hm m Hr), Hother by done. unfold expected. by rewrite Hc, Hs by done.
  - apply Hbelow; by right.
  - rewrite Join_one by (done || by apply (bool_decide_unpack _)).
    rewrite Dir_abs_snoc by (apply Forall_app; split; [done|by apply (bool_decide_unpack _)]).
    pose proof (out_not_below tmp "rootfs_tree" [] Hnew) as H. rewrite app_nil_r in H.
    apply H; [by apply (bool_decide_unpack _)|done|set_solver|cbn; lia].
Qed.

(** The two trees of a build. *)
Definition packed_from (tmp : string) (Ti Tr : staged_tree) : list (string * staged_tree) :=
  [(Join [tmp; "initramfs_root"], Ti); (Join [tmp; "rootfs_tree"], Tr)].

Lemma unpacked_services dir staging : issues not_packing (stage_services dir staging).
Proof. unfold stage_services, stage_service, copyFileRegular, copyFileWithPerm, fs_act. issues_tac. Qed.

Lemma unpacked_stage_trees cfg i r : issues not_packing (stage_trees cwd cfg i r).
Proof.
  unfold stage_trees, stage_dirs, stage_daemon, stage_workload, stage_busybox, stage_applet, merge_config,
    write_missing, if_exists, regardless, copyFileExecutable, copyFileWithPerm, fs_act, on_layer.
  issues_tac; apply unpacked_services.
Qed.

Lemma wp_BuildImagePipeline order cfg s :
  OutputDir cfg = abs_path od →
  wp build_env (BuildImagePipeline cwd order cfg) (λ r s', ∀ m, r = Ok m → ∃ tmp Ti Tr,
    packed s' = packed s ++ packed_from tmp Ti Tr ∧
    (packable Ti → hashes m = expected (BuildEpoch cfg) Ti Tr)) s.
Proof.
  intros Hout. unfold BuildImagePipeline. rewrite wp_ebind, wp_wrapping.
  eapply wp_mono; [|apply wp_unpacked; unfold fs_act; issues_tac].
  intros [[]|e|] s1 Hpk1; [|done..]. cbn [wrap_err wp build_env].
  intros [tmp|e] s2 [Hpk2 Hnew]; [|done]. rewrite wp_bind. unfold assemble. rewrite wp_ebind.
  eapply wp_mono; [|apply wp_unpacked, unpacked_stage_trees]. intros [[]|e|] s3 Hpk3; [|by intros [] s4 _..].
  eapply wp_mono; [|by apply wp_pack_trees]. cbn beta. intros r s4 H [] s5 Hpk5. cbn [wp] in *.
  intros m Hr. destruct (H m Hr) as (Ti & Tr & _ & _ & Hpk4 & Hh). exists tmp, Ti, Tr. split; [|done].
  cbn in Hpk5. by rewrite Hpk5, Hpk4, Hpk3, Hpk2, Hpk1.
Qed.

Lemma expected_same epoch Ti Tr Ti' Tr' :
  same_content Ti Ti' → same_content Tr Tr' → dated_since epoch Tr → dated_since epoch Tr' →
  expected epoch Ti Tr = expected epoch Ti' Tr'.
Proof.
  intros Hi Hr Hd Hd'. unfold expected, archive, root_image. rewrite (entries_same Ti Ti') by done.
  by rewrite (Himage _ epoch Tr Tr') by by apply clamp_same.
Qed.

Lemma packable_same T T' : same_content T T' → packable T → packable T'.
Proof.
  intros Hs [Hf Hl]. split; [by rewrite <-(entries_same T T')|].
  by rewrite <-(entries_length T'), <-(entries_same T T'), entries_length.
Qed.

(** C15: what is built is a function of what is staged.  However the temporary directory is
    called, in whatever order the file system lists the trees, whatever their times of
    modification and whatever else goes on: a build that succeeds has packed the tree of the
    initramfs and the tree of the root file system, as they were when staging ended, and
    records the hashes of one archive and one image, which depend on these two trees and on
    the epoch only.  So [VerifyReproducibility] reports a difference only when its two builds
    staged different trees, or trees with files dated before the epoch, which [mksquashfs]
    does not clamp, or with sizes that the archive cannot express. *)
Theorem builds_reproducible order compare cfg tmp s :
  OutputDir cfg = abs_path od → new_dir tmp →
  wp build_env (pack_trees order cfg (Join [tmp; "initramfs_root"]) (Join [tmp; "rootfs_tree"]))
    (λ r s', ∀ m, r = Ok m → ∃ Ti Tr,
       staged s !! Join [tmp; "initramfs_root"] = Some Ti ∧ staged s !! Join [tmp; "rootfs_tree"] = Some Tr ∧
       packed s' = packed s ++ packed_from tmp Ti Tr ∧
       (packable Ti → hashes m = expected (BuildEpoch cfg) Ti Tr)) s ∧
  wp build_env (BuildImagePipeline cwd order cfg) (λ r s', ∀ m, r = Ok m → ∃ tmp Ti Tr,
    packed s' = packed s ++ packed_from tmp Ti Tr ∧
    (packable Ti → hashes m = expected (BuildEpoch cfg) Ti Tr)) s ∧
  wp build_env (VerifyReproducibility cwd order compare cfg) (λ r s', ∀ e,
    r = Err e → has_prefix e "reproducibility" = true →
    ∃ tmp tmp' Ti Tr Ti' Tr', packed s' = packed s ++ packed_from tmp Ti Tr ++ packed_from tmp' Ti' Tr' ∧
      ¬ (same_content Ti Ti' ∧ same_content Tr Tr' ∧ packable Ti ∧
         dated_since (BuildEpoch cfg) Tr ∧ dated_since (BuildEpoch cfg) Tr')) s.
Proof.
  intros Hout Hnew. split; [by apply wp_pack_trees|]. split; [by apply wp_BuildImagePipeline|].
  unfold VerifyReproducibility, regardless, fs_act. rewrite wp_ebind, wp_wrapping.
  eapply wp_mono; [|by apply wp_BuildImagePipeline].
  intros [m1|e|] s1 H1; [|by intros e' [= <-]|done]. destruct (H1 m1 eq_refl) as (tmp1 & Ti & Tr & Hpk1 & Hh1).
  cbn [wrap_err]. rewrite wp_ebind, wp_bind. eapply wp_mono; [|apply wp_unpacked; issues_tac]. intros r2 s2 Hpk2. cbn beta in Hpk2. cbn [wp].
  rewrite wp_ebind, wp_bind. eapply wp_mono; [|apply wp_unpacked; issues_tac]. intros r3 s3 Hpk3. cbn beta in Hpk3. cbn [wp].
  rewrite wp_ebind, wp_wrapping. eapply wp_mono; [|by apply wp_BuildImagePipeline].
  intros [m2|e|] s4 H2; [|by intros e' [= <-]|done]. destruct (H2 m2 eq_refl) as (tmp2 & Ti' & Tr' & Hpk4 & Hh2).
  cbn [wrap_err wp]. intros e He _. exists tmp1, tmp2, Ti, Tr, Ti', Tr'. split.
  { by rewrite Hpk4, Hpk3, Hpk2, Hpk1, <-app_assoc. }
  intros (Hsi & Hsr & Hp & Hd & Hd').
  assert (hashes m2 = hashes m1) as Hh.
  { rewrite Hh1 by done. rewrite Hh2 by by apply (packable_same Ti). symmetry. by apply expected_same. }
  revert He. unfold CompareManifests. rewrite <-(size_hashes m1), <-(size_hashes m2), Hh, decide_True by done.
  assert (compare_outputs m1 m2 compare = Ok tt) as ->; [|done].
  apply compare_outputs_ok. intros k a _ Ha. rewrite Hh. unfold hashes. by rewrite lookup_fmap, Ha.
Qed.
End reproducible.

(** ** Temporary directories *)

(** Everything but creating and removing one. *)
Definition not_temp X (e : build_ev X) : Prop :=
  match e with MkdirTemp _ | RemoveTemp _ => False | _ => True end.

Lemma not_temp_copy src dst perm : issues not_temp (copyFileWithPerm src dst perm).
Proof. unfold copyFileWithPerm, fs_act. issues_tac. Qed.

Lemma not_temp_squashfs opts : issues not_temp (BuildHermeticSquashFS opts).
Proof. unfold BuildHermeticSquashFS, regardless, fs_act. issues_tac. Qed.

Section temporary.
Context {U : Unix} {UT : UnicodeTables} {LC : LayerCodec} {MC : ManifestCodec} (cwd : outcome string).

Lemma not_temp_services dir staging : issues not_temp (stage_services dir staging).
Proof. unfold stage_services, stage_service. issues_tac; apply not_temp_copy. Qed.

Lemma not_temp_stage_trees cfg i r : issues not_temp (stage_trees cwd cfg i r).
Proof.
  unfold stage_trees, stage_dirs, stage_daemon, stage_workload, stage_busybox, stage_applet, merge_config,
    write_missing, if_exists, regardless, fs_act, on_layer, copyFileExecutable.
  issues_tac; first [apply not_temp_copy|apply not_temp_services].
Qed.

Lemma not_temp_hash_inputs inputs m : issues not_temp (hash_inputs inputs m).
Proof.
  revert m. induction inputs as [|[key p] inputs IH]; intros m; [done|]. cbn [hash_inputs]. unfold on_manifest.
  issues_tac. apply IH.
Qed.

Lemma not_temp_assemble order cfg tmp : issues not_temp (assemble cwd order cfg tmp).
Proof.
  unfold assemble, pack_trees, pack_initramfs, write_manifest, to_cpio, on_manifest.
  issues_tac; first [apply not_temp_stage_trees|apply not_temp_squashfs|apply not_temp_hash_inputs].
Qed.

(** The temporary directories that exist. *)
Definition temp_env : env_rel build_ev (gset string) := λ X e s x s',
  match e in build_ev Y return Y → Prop with
  | MkdirTemp _ => λ r, match r with inl d => d ∉ s ∧ s' = {[d]} ∪ s | inr _ => s' = s end
  | RemoveTemp d => λ _, s' = s ∖ {[d]}
  | _ => λ _, s' = s
  end x.

Lemma wp_not_temp {A} (p : prog build_ev A) s : issues not_temp p → wp temp_env p (λ _ s', s' = s) s.
Proof.
  intros Hp. apply (wp_issues temp_env not_temp (λ s', s' = s) p s Hp); [|done].
  intros X e s1 x s2 He -> Hx. by destruct e.
Qed.

Lemma wp_temp_pipeline order cfg s : wp temp_env (BuildImagePipeline cwd order cfg) (λ _ s', s' = s) s.
Proof.
  unfold BuildImagePipeline. rewrite wp_ebind. eapply wp_mono; [|apply wp_not_temp; unfold fs_act; issues_tac].
  intros [[]|e|] s1 ->; [|done..]. intros [d|e] s1; [|by intros ->]. intros [Hd ->]. rewrite wp_bind.
  eapply wp_mono; [|apply wp_not_temp, not_temp_assemble]. intros r s1 -> [] s2 ->. set_solver.
Qed.

(** C19: on every path, successful or not, the builder removes the staging directory it made
    and no other. *)
Theorem staging_removed order compare cfg s :
  wp temp_env (BuildImagePipeline cwd order cfg) (λ _ s', s' = s) s ∧
  wp temp_env (VerifyReproducibility cwd order compare cfg) (λ _ s', s' = s) s.
Proof.
  split; [apply wp_temp_pipeline|]. unfold VerifyReproducibility, regardless, fs_act.
  rewrite wp_ebind, wp_wrapping. eapply wp_mono; [|apply wp_temp_pipeline]. intros [m1|e|] s1 ->; [|done..].
  cbn [wrap_err].
  rewrite wp_ebind. eapply wp_mono; [|apply wp_not_temp; issues_tac]. intros [[]|e|] s1 ->; [|done..].
  rewrite wp_ebind. eapply wp_mono; [|apply wp_not_temp; issues_tac]. intros [[]|e|] s1 ->; [|done..].
  rewrite wp_ebind, wp_wrapping. eapply wp_mono; [|apply wp_temp_pipeline]. by intros [m2|e|] s1 ->.
Qed.
End temporary.

(** ** Applets and layers *)

Section applets.
Context {U : Unix} {UT : UnicodeTables} {LC : LayerCodec} (cwd : outcome string).

(** The small POSIX file system of [Extract]; sources can be read, nothing else is there. *)
Definition host : handler build_ev posix_state := λ X e s,
  match e in build_ev Y return Y * posix_state with
  | OnLayer e =>
      match e in layer_ev Y return Y * posix_state with
      | OnFs e => posix _ e s
      | ReadConfig _ => (ConfigMissing, s)
      | OpenLines _ => (OpenFails "no such file or directory", s)
      | SaveFile _ _ _ => (None, s)
      | StatLayer _ => (None, s)
      | OpenArchive _ => (inr "no such file or directory", s)
      | ReadPayload _ => (None, s)
      | WalkTree _ => ([], s)
      | OpenSource _ => (inl "#!/bin/sh", s)
      | StatSource _ => (inl 0x1ED%Z, s)
      end
  | OnManifest e =>
      match e in manifest_ev Y return Y * posix_state with
      | HashFile _ => (OpenFails "no such file or directory", s)
      | WriteManifest _ _ _ => (None, s)
      | ReadManifest _ => (inr "no such file or directory", s)
      end
  | MkdirTemp _ => (inl "/tmp/karim-build-1", s)
  | RemoveTemp _ => (tt, s)
  | StatPath _ => (Exists, s)
  | CreateCpio _ => (None, s)
  | WriteCpio _ _ => (None, s)
  | WalkStaging _ => (Ok [], s)
  | LookPath n => (inl n, s)
  | Environ => ([], s)
  | RunCommand _ _ _ => ({| output := ""; failure := None |}, s)
  end.

Lemma applets_norm : Forall norm_comp applets.
Proof. by apply (bool_decide_unpack _). Qed.

(** The applet links point at the absolute path of BusyBox and layers are merged after
    them: a binary layer for [bin] with the name of an applet is written through the link,
    to [/bin/busybox] of the machine that builds. *)
Theorem applet_layer_overwrites_host ds ss a spec baseDir s :
  Forall norm_comp ds → ds ≠ [] → Forall norm_comp ss → a ∈ applets →
  LayerType spec = LayerTypeBinary → Path spec = abs_path (ss ++ [a]) → TargetDir spec = "bin" →
  let r := exec host (_ ←! stage_applet (abs_path ds) a;
                      on_layer (MergeLayerConfig cwd [spec] baseDir (abs_path ds))) s in
  r.1 = Ok tt ∧ written r.2 = written s ++ ["/bin/busybox"].
Proof.
  intros Hds Hne Hss Ha Htype Hpath Htarget.
  pose proof applets_norm as Hn. rewrite Forall_forall in Hn. specialize (Hn a Ha).
  assert (norm_comp "bin") as Hb by by apply (bool_decide_unpack _).
  assert (Join [abs_path ds; "bin"; a] = abs_path (ds ++ ["bin"; a])) as Hlink
    by (apply (Join_abs_rel ds ["bin"; a]); [done| |done]; apply Forall_cons; split; [done|by apply Forall_singleton]).
  assert (Join [abs_path ds; "bin"] = abs_path (ds ++ ["bin"])) as Hbin
    by (apply (Join_abs_rel ds ["bin"]); [done| |done]; by apply Forall_singleton).
  assert (Join [abs_path (ds ++ ["bin"]); a] = abs_path (ds ++ ["bin"; a])) as Hdest.
  { change (ds ++ ["bin"; a]) with (ds ++ ["bin"] ++ [a]). rewrite app_assoc.
    apply (Join_abs_rel (ds ++ ["bin"]) [a]); [|by apply Forall_singleton|done].
    apply Forall_app. split; [done|by apply Forall_singleton]. }
  unfold stage_applet, MergeLayerConfig, merge_layers, merge_layer, layer_source, layer_target.
  rewrite Htype, Hpath, Htarget, Hlink, is_abs_abs_path, Base_abs_snoc.
  2: { apply Forall_app. split; [done|by apply Forall_singleton]. }
  rewrite (decide_False (P := "bin" = "")) by done. rewrite Hbin, Hdest.
  rewrite (decide_False (P := LayerTypeBinary = LayerTypeOCIArchive)),
    (decide_False (P := LayerTypeBinary = LayerTypeTarball)),
    (decide_False (P := LayerTypeBinary = LayerTypeDirectory)),
    (decide_True (P := LayerTypeBinary = LayerTypeBinary)) by done.
  unfold on_layer, copyExecutableFile. cbn -[abs_path Dir app]. by rewrite lookup_insert_eq.
Qed.
End applets.

(** ** Samples *)

Section samples.
#[local] Existing Instance x86_64.
#[local] Existing Instance no_tables.
#[local] Existing Instance sample_layer_codec.

Definition text_codec : ManifestCodec := {|
  encode_build := λ m, Ok (CombinedBuildHash m); decode_build := λ _, Err "unexpected end of JSON input" |}.
#[local] Existing Instance text_codec.

Definition sample_file : source := {| content := "#!/bin/sh"; read_err := None |}.
(** An image of the names in a tree. *)
Definition names_image (flags : list string) (epoch : option string) (T : staged_tree) : string :=
  str_join " " (flags ++ (map_to_list T).*1).

(** A machine that builds: sources exist, each walk lists the tree in the other order. *)
Record lab_state := { disk : gmap string string; walks : nat }.
Definition with_disk (p d : string) (s : lab_state) : lab_state := {| disk := <[p := d]> (disk s); walks := walks s |}.

Definition listing (root : string) (n : nat) : list walk_entry :=
  let es := [{| fullPath := root +:+ "/etc"; info := NDir |};
             {| fullPath := root +:+ "/init"; info := NFile 9 0x1ED (Ok sample_file) |}] in
  {| fullPath := root; info := NDir |} :: (if Nat.even n then es else reverse es).

Definition lab : handler build_ev lab_state := λ X e s,
  match e in build_ev Y return Y * lab_state with
  | OnLayer e => ((host _ (OnLayer e) empty_fs).1, s)
  | OnManifest e =>
      match e in manifest_ev Y return Y * lab_state with
      | HashFile p => (match disk s !! p with Some d => FileData d None | None => OpenFails "no such file or directory" end, s)
      | WriteManifest p d _ => (None, with_disk p d s)
      | ReadManifest _ => (inr "no such file or directory", s)
      end
  | MkdirTemp _ => (inl ("/tmp/karim-build-" +:+ itoa (Z.of_nat (walks s))), s)
  | RemoveTemp _ => (tt, s)
  | StatPath _ => (Missing, s)
  | CreateCpio p => (None, with_disk p "" s)
  | WriteCpio p d => (None, with_disk p (default "" (disk s !! p) +:+ d) s)
  | WalkStaging root => (Ok (listing root (walks s)), {| disk := disk s; walks := S (walks s) |})
  | LookPath n => (inl ("/usr/bin/" +:+ n), s)
  | Environ => (["LANG=C"], s)
  | RunCommand _ args _ => ({| output := ""; failure := None |}, with_disk (nth 1 args "") "hsqs" s)
  end.

Definition by_name (l : list (string * string)) : list (string * string) := l.

Lemma names_image_clamp flags epoch T T' :
  clamp epoch T = clamp epoch T' →
  names_image flags (Some ("SOURCE_DATE_EPOCH=" +:+ itoa epoch)) T =
    names_image flags (Some ("SOURCE_DATE_EPOCH=" +:+ itoa epoch)) T'.
Proof.
  assert (∀ T, (map_to_list T).*1 = (map_to_list (clamp epoch T)).*1) as Hn.
  { intros T0. unfold clamp, staged_tree in *. rewrite map_to_list_fmap, <-list_fmap_compose. apply list_fmap_ext. by intros ? [] ?. }
  intros Hc. unfold names_image. by rewrite (Hn T), (Hn T'), Hc.
Qed.

(** In the laboratory both builds succeed and agree; and a difference that is reported is one
    of the trees that were packed. *)
Lemma builds_reproducible_witness :
  (exec lab (VerifyReproducibility (Ok "/") by_name ["rootfs.sqsh"; "initramfs.cpio"] (DefaultBuildConfig "/work"))
     {| disk := ∅; walks := 0 |}).1 = Ok tt ∧
  wp (build_env ["work"; "dist"] names_image)
    (VerifyReproducibility (Ok "/") by_name ["rootfs.sqsh"; "initramfs.cpio"] (DefaultBuildConfig "/work"))
    (λ r s', packed s' = [] → ∀ e, r = Err e → has_prefix e "reproducibility" = false)
    {| files := ∅; staged := ∅; packed := [] |}.
Proof.
  split; [by vm_compute|].
  assert (new_dir ["work"; "dist"] "/tmp/karim-build-7") as Hnew.
  { exists ["tmp"; "karim-build-7"]. split_and!; [by apply (bool_decide_unpack _)|done|].
    intros [k Hk]. discriminate Hk. }
  destruct (builds_reproducible (Ok "/") ["work"; "dist"] ltac:(by apply (bool_decide_unpack _)) names_image names_image_clamp
    by_name ["rootfs.sqsh"; "initramfs.cpio"] (DefaultBuildConfig "/work") "/tmp/karim-build-7"
    {| files := ∅; staged := ∅; packed := [] |} eq_refl Hnew) as (_ & _ & H).
  eapply wp_mono; [|exact H]. intros r s' Hr Hpk e He.
  destruct (has_prefix e "reproducibility") eqn:Hp; [|done].
  destruct (Hr e He Hp) as (? & ? & ? & ? & ? & ? & Heq & _). rewrite Hpk in Heq. discriminate Heq.
Defined.

Lemma applet_layer_overwrites_host_witness :
  let r := exec host (_ ←! stage_applet "/tmp/build/rootfs_tree" "ls";
                      on_layer (MergeLayerConfig (Ok "/") [layer "tool" "binary" "/images/ls" "bin"] "/work"
                                  "/tmp/build/rootfs_tree")) empty_fs in
  r.1 = Ok tt ∧ written r.2 = written empty_fs ++ ["/bin/busybox"].
Proof.
  apply (applet_layer_overwrites_host (Ok "/") ["tmp"; "build"; "rootfs_tree"] ["images"] "ls").
  - by apply (bool_decide_unpack _).
  - done.
  - by apply (bool_decide_unpack _).
  - by apply (bool_decide_unpack _).
  - done.
  - done.
  - done.
Defined.
End samples.
