(* ===== verification/Bundle.v ===== *)
(** * Container bundles ([internal/svcd/bundle.go], [internal/pkgd/oci_spec.go])

    The payload of [apply_bundle]: a runtime spec, lower directories and the bytes of a
    root file system, turned into a service.  [encoding/json] and the reading of tar
    bytes are a codec. *)

From Stdlib Require Import Ascii SpecFloat.
From S2P Require Import Prelude GoStrings GoStrconv GoPath GoFloat Linux Prog Os Stored SvcConfig.

(** ** The runtime spec *)

Record Root := { Root_Path : string; Readonly : bool }.
Record User := { UID : Z; GID : Z }.
Record POSIXRlimit := { Rlimit_Type : string; Hard : Z; Soft : Z }.
Record LinuxCapabilities := {
  Bounding : list string; Effective : list string; Inheritable : list string;
  Permitted : list string; Ambient : list string }.
Record Process := {
  Terminal : bool; Process_User : User; Process_Args : list string; Process_Env : list string; Cwd : string;
  Capabilities : option LinuxCapabilities; Rlimits : list POSIXRlimit; NoNewPrivileges : bool }.
Record OCIMount := {
  Destination : string; Mount_Type : string; Source : string; Options : list string }.
Record LinuxNamespace := { Namespace_Type : string; Namespace_Path : string }.
Record LinuxSeccomp := { DefaultAction : string; ProfileName : string }.
Record LinuxMemory := { Limit : option Z }.
Record LinuxCPU := { Quota : option Z }.
Record LinuxResources := { Memory : option LinuxMemory; CPU : option LinuxCPU }.
Record OCILinux := {
  Namespaces : list LinuxNamespace; Seccomp : option LinuxSeccomp; Resources : option LinuxResources }.
Record OCISpec := {
  OCIVersion : option string; OCIRoot : option Root; OCIProcess : option Process; Hostname : string;
  Mounts : list OCIMount; OCILinuxPart : option OCILinux }.

Record OCIContainerBundle := {
  BundleID : string; BundleSpec : option OCISpec; LowerDirs : list string; RootfsTar : string;
  BundleRestart : string }.

(** ** Archives of a root file system *)

Inductive entry_type := TypeDir | TypeReg | TypeOther.
Record tar_entry := { EntryName : string; EntryMode : Z; Type_ : entry_type; EntryData : string }.

(** The entries up to the end of the archive, or up to an error. *)
Record tar_stream := { tar_entries : list tar_entry; tar_error : option string }.

Class BundleCodec := {
  unmarshal_bundle : string → OCIContainerBundle + string;
  read_tar : string → tar_stream
}.

(** One entry of [extractTarBytes]. *)
Definition extract_tar_entry (destDir : string) (e : tar_entry) : prog os_ev (outcome unit) :=
  let target := Join [destDir; EntryName e] in
  match Type_ e with
  | TypeDir => act (MkdirAll target (EntryMode e))
  | TypeReg =>
      _ ←! act (MkdirAll (Dir target) 0x1ED);
      _ ←! act (CreateFile target (EntryMode e));
      act (CopyTo target (EntryData e))
  | TypeOther => done_
  end.

Definition extractTarBytes (archive : tar_stream) (destDir : string) : prog os_ev (outcome unit) :=
  _ ←! each (extract_tar_entry destDir) (tar_entries archive);
  match tar_error archive with
  | Some e => throw e
  | None => done_
  end.

(** ** The service of a bundle *)

Definition container_env : list string :=
  ["PATH=/usr/local/sbin:/usr/local/bin:/usr/sbin:/usr/bin:/sbin:/bin"; "TERM=xterm"].

Definition bundle_defaults (containerID targetRootfs restart : string) : ServiceSpec := {|
  Name := containerID; Exec := "/bin/sh"; Args := []; Env := container_env; Directory := "/";
  RootDir := targetRootfs; After := []; MemoryLimit := 0; CPUQuota := S754_zero false;
  Restart := if decide (restart = "") then "on-failure" else restart; MaxRestarts := 0;
  SeccompProfile := "app-default"; CapabilitiesAdd := []; CapabilitiesDrop := []; NoNewPrivs := true |}.

(** What [Process] sets. *)
Definition apply_process (p : Process) (spec : ServiceSpec) : ServiceSpec :=
  let spec := match Process_Args p with
              | [] => spec
              | [exec] => set_Exec spec exec
              | exec :: args => set_Args (set_Exec spec exec) args
              end in
  let spec := if decide (Process_Env p = []) then spec else set_Env spec (Process_Env p) in
  let spec := if decide (Cwd p = "") then spec else set_Directory spec (Cwd p) in
  match Capabilities p with
  | Some c => set_CapabilitiesDrop (set_CapabilitiesAdd spec (Permitted c)) ["ALL"]
  | None => spec
  end.

(** What [Linux] sets. *)
Definition apply_linux (l : OCILinux) (spec : ServiceSpec) : ServiceSpec :=
  let spec := match Seccomp l with
              | Some s => if decide (ProfileName s = "") then spec else set_SeccompProfile spec (ProfileName s)
              | None => spec
              end in
  match r ← Resources l; m ← Memory r; Limit m with
  | Some limit => set_MemoryLimit spec limit
  | None => spec
  end.

Definition spec_of_bundle (bundle : OCIContainerBundle) (targetRootfs : string) : ServiceSpec :=
  let spec := bundle_defaults (BundleID bundle) targetRootfs (BundleRestart bundle) in
  match BundleSpec bundle with
  | None => spec
  | Some s =>
      let spec := match OCIProcess s with Some p => apply_process p spec | None => spec end in
      match OCILinuxPart s with Some l => apply_linux l spec | None => spec end
  end.

Section bundle.
Context {C : BundleCodec}.

(** The lower directories: those of the bundle, then the extracted tar. *)
Definition unpack_rootfs (base : string) (bundle : OCIContainerBundle) : prog os_ev (outcome (list string)) :=
  if decide (RootfsTar bundle = "") then Ret (Ok (LowerDirs bundle))
  else
    let layerDir := Join [base; BundleID bundle; "extracted"] in
    _ ←! wrapping ("failed creating layer dir " +:+ layerDir +:+ ": ") (act (MkdirAll layerDir 0x1ED));
    _ ←! wrapping ("failed extracting rootfs tarball for container " +:+ BundleID bundle +:+ ": ")
           (extractTarBytes (read_tar (RootfsTar bundle)) layerDir);
    Ret (Ok (LowerDirs bundle ++ [layerDir])).

Definition ParseAndPrepareOCIBundle (bundleJSON : string) : prog os_ev (outcome ServiceSpec) :=
  match unmarshal_bundle bundleJSON with
  | inr e => throw ("failed to unmarshal OCI bundle JSON: " +:+ e)
  | inl bundle =>
      if decide (BundleID bundle = "") then throw "bundle_id cannot be empty"
      else
        base ←! container_base;
        let targetRootfs := Join [base; BundleID bundle; "rootfs"] in
        lowerDirs ←! unpack_rootfs base bundle;
        let lowerDirs := if decide (lowerDirs = []) then ["/mnt/lower"] else lowerDirs in
        _ ←! wrapping ("failed mounting dynamic overlay for bundle " +:+ BundleID bundle +:+ ": ")
               (MountDynamicOverlay (BundleID bundle) lowerDirs targetRootfs);
        Ret (Ok (spec_of_bundle bundle targetRootfs))
  end.
End bundle.

(** * Properties *)

Section properties.
Context {C : BundleCodec}.

(** ** Where a bundle may write *)

(** The path a request creates, mounts on or writes. *)
Definition writes_to {X} (e : os_ev X) : option string :=
  match e with
  | MkdirAll p _ | CreateFile p _ | CopyTo p _ | SymlinkAt _ p | WriteFileAt p _ _ => Some p
  | Mount _ p _ _ _ => Some p
  | _ => None
  end.

Definition below (ds : list string) (p : string) : Prop :=
  ∃ cs, Forall norm_comp cs ∧ p = abs_path (ds ++ cs).

Definition writes_below (ds : list string) X (e : os_ev X) : Prop :=
  ∀ p, writes_to e = Some p → below ds p.

Definition base_comps : list string := ["run"; "karim"; "containers"].
Definition base_dir : string := abs_path base_comps.

(** The directory for containers can be created. *)
Definition base_available : answer_rel os_ev := λ X e x,
  match e in os_ev Y return Y → Prop with
  | MkdirAll p _ => λ r, p = base_dir → r = None
  | _ => λ _, True
  end x.

Lemma base_norm : Forall norm_comp base_comps.
Proof. by apply (bool_decide_unpack _). Qed.

Lemma Join_base id x : norm_comp id → norm_comp x → Join [base_dir; id; x] = abs_path (base_comps ++ [id; x]).
Proof.
  intros Hi Hx. change (Join [base_dir; id; x]) with (Join [abs_path base_comps; str_join slash [id; x]]).
  apply Join_abs_rel; [apply base_norm|repeat (constructor; [done|]); constructor|done].
Qed.

(** The places a bundle may touch: its own directory, and the one all containers share. *)
Definition own_dir (id : string) (p : string) : Prop := p = base_dir ∨ below (base_comps ++ [id]) p.
Definition writes_own (id : string) X (e : os_ev X) : Prop := ∀ p, writes_to e = Some p → own_dir id p.

Section confined.
Context (id : string) (Hid : norm_comp id).

Ltac norms :=
  repeat apply Forall_app_2; first [done|apply base_norm|repeat (apply Forall_cons; split; [assumption|]); by apply Forall_nil].

Lemma own_join x : norm_comp x → own_dir id (Join [base_dir; id; x]).
Proof.
  intros Hx. right. exists [x]. split; [by apply Forall_singleton|]. rewrite Join_base by done. by rewrite <-app_assoc.
Qed.

Lemma own_below cs : Forall norm_comp cs → own_dir id (abs_path (base_comps ++ [id] ++ cs)).
Proof. intros Hcs. right. exists cs. split; [done|]. by rewrite <-app_assoc. Qed.

Lemma safe_act_own e (Q : outcome unit → Prop) :
  writes_own id _ e → Q (Ok tt) → (∀ err, Q (Err err)) → safe base_available (writes_own id) (act e) Q.
Proof. intros He H1 H2. split; [done|]. intros [err|] _; [apply H2|apply H1]. Qed.

Lemma safe_say text (Q : outcome unit → Prop) : Q (Ok tt) → safe base_available (writes_own id) (say text) Q.
Proof. intros H. by split. Qed.

Lemma safe_container_base (Q : outcome string → Prop) :
  Q (Ok base_dir) → safe base_available (writes_own id) container_base Q.
Proof.
  intros H. split; [intros p [= <-]; by left|]. intros r Hr. rewrite (Hr eq_refl). exact H.
Qed.

Lemma own_path p X (e : os_ev X) : own_dir id p → writes_to e = Some p → writes_own id X e.
Proof. intros Hp He q Hq. congruence. Qed.

Lemma safe_extract_tar_entry ds e :
  Forall norm_comp ds → (∃ cs, cs ≠ [] ∧ Forall norm_comp cs ∧ EntryName e = str_join slash cs) →
  safe base_available (writes_own id) (extract_tar_entry (abs_path (base_comps ++ [id] ++ ds)) e) (λ _, True).
Proof.
  intros Hds (cs & Hne & Hcs & Hn). unfold extract_tar_entry. rewrite Hn.
  rewrite Join_abs_rel by (done || norms). rewrite <-!app_assoc.
  destruct (Type_ e); [|..|done].
  - apply safe_act_own; [|done..]. eapply own_path; [|done]. apply own_below. norms.
  - destruct cs as [|c cs _] using rev_ind; [done|].
    replace (base_comps ++ [id] ++ ds ++ cs ++ [c]) with ((base_comps ++ [id] ++ ds ++ cs) ++ [c])
      by by rewrite <-!app_assoc.
    apply Forall_app in Hcs as [Hcs Hc]. rewrite Dir_abs_snoc by norms.
    apply safe_ebind, safe_act_own; [eapply own_path; [|done]; apply own_below; by apply Forall_app| |done].
    rewrite <-!app_assoc.
    assert (own_dir id (abs_path (base_comps ++ [id] ++ ds ++ cs ++ [c]))) as Ho
      by (apply own_below; norms).
    apply safe_ebind, safe_act_own; [by eapply own_path| |done].
    apply safe_act_own; [by eapply own_path|done..].
Qed.

Lemma safe_extract ds archive :
  Forall norm_comp ds →
  (∀ e, e ∈ tar_entries archive → ∃ cs, cs ≠ [] ∧ Forall norm_comp cs ∧ EntryName e = str_join slash cs) →
  safe base_available (writes_own id) (extractTarBytes archive (abs_path (base_comps ++ [id] ++ ds))) (λ _, True).
Proof.
  intros Hds Hns. unfold extractTarBytes. apply safe_ebind.
  eapply safe_mono; [done| |apply safe_each; intros e He; by apply safe_extract_tar_entry, Hns].
  intros [[]|err|] _; [|done..]. by destruct (tar_error archive).
Qed.

Lemma safe_MountOverlay cfg :
  own_dir id (TargetDir cfg) → safe base_available (writes_own id) (MountOverlay cfg) (λ _, True).
Proof.
  intros Ht. unfold MountOverlay. case_decide; [done|].
  apply safe_ebind, safe_wrapping, safe_act_own; [by eapply own_path| |done].
  apply safe_ebind, safe_say. split; [by eapply own_path|]. intros [e|] _; [|done].
  split; [done|]. intros uid _. destruct (uid =? 0)%Z; [done|by apply safe_say].
Qed.

Lemma safe_MountDynamicOverlay lowers target :
  own_dir id target →
  safe base_available (writes_own id) (MountDynamicOverlay id lowers target) (λ _, True).
Proof.
  intros Ht. unfold MountDynamicOverlay. case_decide; [done|]. case_decide; [done|].
  apply safe_ebind, safe_container_base.
  rewrite (Join_base id "overlay") by (done || by apply (bool_decide_unpack _)).
  assert (own_dir id (if decide (target = "") then Join [base_dir; id; "rootfs"] else target)) as Ht'.
  { case_decide; [|done]. apply own_join. by apply (bool_decide_unpack _). }
  assert (∀ x, norm_comp x → own_dir id (Join [abs_path (base_comps ++ [id; "overlay"]); x])) as Hov.
  { intros x Hx. change x with (str_join slash [x]) at 1.
    assert (norm_comp "overlay") as Ho by by apply (bool_decide_unpack _).
    rewrite Join_abs_rel; [|norms|by apply Forall_singleton|done].
    right. exists ["overlay"; x]. split; [norms|]. by rewrite <-!app_assoc. }
  apply safe_ebind, safe_wrapping. unfold PrepareOverlayDirectories.
  apply safe_ebind, safe_wrapping, safe_act_own; [|cbn [wrap_err]|done].
  { eapply own_path; [apply (Hov "upper"); by apply (bool_decide_unpack _)|done]. }
  apply safe_ebind, safe_wrapping, safe_act_own; [|cbn [wrap_err]|done].
  { eapply own_path; [apply (Hov "work"); by apply (bool_decide_unpack _)|done]. }
  cbn [safe wrap_err]. apply safe_ebind, safe_wrapping, safe_act_own; [by eapply own_path|cbn [wrap_err]|done].
  apply safe_ebind, safe_wrapping. eapply safe_mono; [done| |by apply safe_MountOverlay].
  intros [[]|err|] _; [|done..]. cbn [wrap_err]. by apply safe_ebind, safe_say.
Qed.
End confined.

(** What the spec of a bundle can and cannot change. *)
Lemma spec_of_bundle_facts bundle root :
  let spec := spec_of_bundle bundle root in
  Name spec = BundleID bundle ∧ RootDir spec = root ∧ NoNewPrivs spec = true ∧
  SeccompProfile spec =
    match s ← BundleSpec bundle; l ← OCILinuxPart s; Seccomp l with
    | Some sc => if decide (ProfileName sc = "") then "app-default" else ProfileName sc
    | None => "app-default"
    end.
Proof.
  unfold spec_of_bundle. destruct (BundleSpec bundle) as [s|]; [|done]. cbn.
  assert (∀ sp, let sp' := match OCIProcess s with Some p => apply_process p sp | None => sp end in
    Name sp' = Name sp ∧ RootDir sp' = RootDir sp ∧ NoNewPrivs sp' = NoNewPrivs sp ∧
    SeccompProfile sp' = SeccompProfile sp) as Hproc.
  { intros sp. destruct (OCIProcess s) as [p|]; [|done]. unfold apply_process.
    destruct (Process_Args p) as [|x [|y l]], (decide (Process_Env p = [])), (decide (Cwd p = "")),
      (Capabilities p); done. }
  destruct (Hproc (bundle_defaults (BundleID bundle) root (BundleRestart bundle))) as (H1 & H2 & H3 & H4).
  destruct (OCILinuxPart s) as [l|]; [|done]. unfold apply_linux. cbn.
  destruct (Seccomp l) as [sc|]; [destruct (decide (ProfileName sc = ""))|];
    destruct (Resources l ≫= λ r, Memory r ≫= Limit); done.
Qed.

(** C28: preparing a bundle whose id is one path element and whose archive holds plain
    relative names touches nothing but its own directory below [/run/karim/containers];
    the specification it gives is named after it, has that directory as its [RootDir],
    asks for no new privileges, and has the [app-default] profile unless the bundle names
    another.  This is what the supervisor is asked for, not what the process gets:
    [RootDir] is a [chroot], where the documentation speaks of a mount namespace
    and [pivot_root], and under a profile named [unrestricted], [none] or
    [disabled] the wrapper that would set [no_new_privs] is not run. *)
Theorem bundle_confined bundleJSON bundle :
  unmarshal_bundle bundleJSON = inl bundle → norm_comp (BundleID bundle) →
  (∀ e, e ∈ tar_entries (read_tar (RootfsTar bundle)) →
     ∃ cs, cs ≠ [] ∧ Forall norm_comp cs ∧ EntryName e = str_join slash cs) →
  safe base_available (writes_own (BundleID bundle)) (ParseAndPrepareOCIBundle bundleJSON) (λ r, ∀ spec, r = Ok spec →
    Name spec = BundleID bundle ∧ RootDir spec = abs_path (base_comps ++ [BundleID bundle; "rootfs"]) ∧
    NoNewPrivs spec = true ∧
    SeccompProfile spec =
      match s ← BundleSpec bundle; l ← OCILinuxPart s; Seccomp l with
      | Some sc => if decide (ProfileName sc = "") then "app-default" else ProfileName sc
      | None => "app-default"
      end).
Proof.
  intros Hu Hid Hns. unfold ParseAndPrepareOCIBundle. rewrite Hu. case_decide; [done|].
  assert (norm_comp "rootfs" ∧ norm_comp "extracted") as [Hr He] by (split; by apply (bool_decide_unpack _)).
  apply safe_ebind, safe_container_base. apply safe_ebind.
  eapply safe_mono with (Q := λ _, True); [done| |].
  - intros [lowers|err|] _; [|done..]. apply safe_ebind, safe_wrapping.
    eapply safe_mono; [done| |by apply safe_MountDynamicOverlay, own_join].
    intros [cfg|err|] _; [|done..]. cbn [wrap_err safe]. intros spec [= <-].
    rewrite <-Join_base by done. apply spec_of_bundle_facts.
  - unfold unpack_rootfs. case_decide; [done|].
    apply safe_ebind, safe_wrapping, safe_act_own; [by eapply own_path; [apply own_join|]| |done].
    apply safe_ebind, safe_wrapping. rewrite Join_base by done.
    eapply safe_mono; [done| |by apply (safe_extract (BundleID bundle) Hid ["extracted"]);
      [apply Forall_singleton|]]. by intros [[]|err|] _.
Qed.

(** ** What the extraction lets through *)

(** A guest on which everything succeeds; the state is the files written. *)
Definition obliging : handler os_ev (gmap string string) := λ X e s,
  match e in os_ev Y return Y * gmap string string with
  | MkdirAll _ _ | StatErrOf _ | ReadDirOk _ | SymlinkAt _ _ | CreateFile _ _ => (None, s)
  | StatDev _ => (inl 0%Z, s)
  | LstatAt _ => (NotExist, s)
  | ReadFileAt _ | EvalLinks _ => (inr "", s)
  | WriteFileAt p d _ | CopyTo p d => (None, <[p := d]> s)
  | Mount _ _ _ _ _ | Unmount _ _ => (None, s)
  | Sync => (tt, s)
  | Ioctl _ _ => (inl None, s)
  | Geteuid | Getpid | TimeNow => (0%Z, s)
  | SysinfoUptime => (None, s)
  | ReadDevice _ _ => (inr "", s)
  | WriteDevice p d => (None, <[p := d]> s)
  | ReadRTC _ => (inr None, s)
  | ClockSet _ => (None, s)
  | TempDir => ("/tmp", s)
  | Println _ => (tt, s)
  end.

Lemma exec_ebind {A B S} (h : handler os_ev S) (p : prog os_ev (outcome A)) (f : A → prog os_ev (outcome B)) s :
  exec h (ebind p f) s =
    match exec h p s with
    | (Ok a, s) => exec h (f a) s
    | (Err e, s) => (Err e, s)
    | (Panic, s) => (Panic, s)
    end.
Proof. unfold ebind. rewrite exec_bind. by destruct (exec h p s) as [[a|e|] s']. Qed.
Lemma exec_wrapping {A S} (h : handler os_ev S) pre (p : prog os_ev (outcome A)) s :
  exec h (wrapping pre p) s = (wrap_err pre (exec h p s).1, (exec h p s).2).
Proof. unfold wrapping. by rewrite exec_bind. Qed.

Lemma abs_path_nonempty cs : abs_path cs ≠ "".
Proof. done. Qed.

Lemma str_join_snoc_nonempty sep l x : x ≠ "" → str_join sep (l ++ [x]) ≠ "".
Proof.
  intros Hx. induction l as [|y l IH]; [done|]. cbn [app].
  assert (∀ y z l', str_join sep (y :: z :: l') = y +:+ sep +:+ str_join sep (z :: l')) as Hc by done.
  destruct (l ++ [x]) as [|z l'] eqn:Hl; [by destruct l|]. rewrite Hc.
  intros Hn. apply IH. apply (f_equal String.length) in Hn. rewrite !str_length_app in Hn.
  destruct (str_join sep (z :: l')) as [|a r]; [done|]. exfalso. change (String.length "") with 0 in Hn.
  change (String.length (String a r)) with (S (String.length r)) in Hn. lia.
Qed.

Lemma exec_dynamic id lowers target s :
  norm_comp id → str_join ":" lowers ≠ "" → target ≠ "" →
  ∃ cfg, exec obliging (MountDynamicOverlay id lowers target) s = (Ok cfg, s).
Proof.
  intros Hid Hl Ht. unfold MountDynamicOverlay.
  rewrite (decide_False (P := id = "")) by apply Hid. rewrite decide_False by by intros ->.
  rewrite exec_ebind. cbn [container_base exec obliging]. change "/run/karim/containers" with base_dir.
  assert (norm_comp "overlay" ∧ norm_comp "upper" ∧ norm_comp "work") as (H1 & H2 & H3)
    by (split_and!; by apply (bool_decide_unpack _)).
  rewrite (decide_False (P := target = "")) by done. rewrite (Join_base id "overlay") by done.
  rewrite exec_ebind, exec_wrapping. unfold PrepareOverlayDirectories.
  rewrite exec_ebind, exec_wrapping. cbn [act exec obliging wrap_err fst snd].
  rewrite exec_ebind, exec_wrapping. cbn [act exec obliging wrap_err fst snd].
  rewrite exec_ebind, exec_wrapping. cbn [act exec obliging wrap_err fst snd].
  rewrite exec_ebind, exec_wrapping. unfold MountOverlay. cbn [LowerDir UpperDir WorkDir TargetDir].
  assert (∀ x, norm_comp x → Join [abs_path (base_comps ++ [id; "overlay"]); x] ≠ "") as Hne.
  { intros x Hx. change x with (str_join slash [x]) at 1.
    rewrite Join_abs_rel; [done| |by apply Forall_singleton|done].
    repeat (apply Forall_cons; split; [done|]). apply Forall_nil. done. }
  rewrite decide_False.
  - rewrite exec_ebind, exec_wrapping. cbn [act exec obliging wrap_err fst snd].
    rewrite exec_ebind. cbn. by eexists.
  - pose proof (Hne "upper" H2). pose proof (Hne "work" H3). tauto.
Qed.

(** The archive of a bundle can write any file of the guest: its names are joined to
    the layer directory without the checks layers get, so one regular entry whose name
    climbs far enough is written at its path from the root, and the bundle is accepted. *)
Theorem bundle_tar_escapes bundleJSON bundle mode data k cs s :
  unmarshal_bundle bundleJSON = inl bundle → norm_comp (BundleID bundle) → RootfsTar bundle ≠ "" →
  Forall norm_comp cs → cs ≠ [] → 5 ≤ k →
  read_tar (RootfsTar bundle) =
    {| tar_entries := [{| EntryName := str_join slash (replicate k ".." ++ cs); EntryMode := mode;
                          Type_ := TypeReg; EntryData := data |}]; tar_error := None |} →
  ∃ spec, exec obliging (ParseAndPrepareOCIBundle bundleJSON) s = (Ok spec, <[abs_path cs := data]> s).
Proof.
  intros Hu Hid Ht Hcs Hne Hk Htar. unfold ParseAndPrepareOCIBundle. rewrite Hu.
  assert (BundleID bundle ≠ "") as Hid0 by apply Hid.
  rewrite (decide_False (P := BundleID bundle = "")) by done.
  assert (norm_comp "extracted") as Hx by by apply (bool_decide_unpack _).
  rewrite exec_ebind. cbn [container_base exec obliging]. rewrite exec_ebind. unfold unpack_rootfs.
  rewrite (decide_False (P := RootfsTar bundle = "")) by done. change "/run/karim/containers" with base_dir. rewrite Join_base by done.
  rewrite exec_ebind, exec_wrapping. cbn [act exec obliging wrap_err fst snd].
  rewrite exec_ebind, exec_wrapping. unfold extractTarBytes. rewrite Htar. cbn [tar_entries tar_error each].
  rewrite exec_ebind, exec_ebind. unfold extract_tar_entry. cbn [EntryName Type_ EntryMode EntryData].
  rewrite Join_climb.
  2: { apply Forall_app; split; [apply base_norm|repeat (apply Forall_cons; split; [done|]); by apply Forall_nil]. }
  2: done.
  2: { intros [_ ?]%app_nil. done. }
  2: { cbn. lia. }
  rewrite exec_ebind. cbn [act exec obliging]. rewrite exec_ebind. cbn [act exec obliging done_ wrap_err fst snd].
  rewrite (Join_base _ "rootfs") by (done || by apply (bool_decide_unpack _)).
  rewrite (decide_False (P := _ = [])) by by destruct (LowerDirs bundle).
  match goal with |- context [MountDynamicOverlay ?i ?l ?t] =>
    destruct (exec_dynamic i l t (<[abs_path cs := data]> s)) as [cfg Hcfg]; [done|by apply str_join_snoc_nonempty|done|] end.
  rewrite exec_ebind, exec_wrapping, Hcfg. cbn. by eexists.
Qed.
End properties.

(** ** Witnesses *)

Definition plain_entry (name : string) : tar_entry :=
  {| EntryName := name; EntryMode := 0x1ED; Type_ := TypeReg; EntryData := "data" |}.

Definition sample_bundle (tar : string) : OCIContainerBundle :=
  {| BundleID := "web"; BundleSpec := None; LowerDirs := []; RootfsTar := tar; BundleRestart := "" |}.

(** A payload is the name of the only entry of its archive. *)
Definition sample_bundles : BundleCodec := {|
  unmarshal_bundle s := inl (sample_bundle s);
  read_tar s := {| tar_entries := [plain_entry s]; tar_error := None |}
|}.

Lemma bundle_confined_witness :
  safe base_available (writes_own "web") (@ParseAndPrepareOCIBundle sample_bundles "bin/sh") (λ r, ∀ spec, r = Ok spec →
    Name spec = "web" ∧ RootDir spec = abs_path (base_comps ++ ["web"; "rootfs"]) ∧
    NoNewPrivs spec = true ∧ SeccompProfile spec = "app-default").
Proof.
  apply (@bundle_confined sample_bundles "bin/sh" (sample_bundle "bin/sh")); [done| |].
  - by apply (bool_decide_unpack _).
  - intros e He. exists ["bin"; "sh"]. split_and!; [done|by apply (bool_decide_unpack _)|].
    apply list_elem_of_singleton in He. by subst e.
Defined.

Lemma bundle_tar_escapes_witness :
  ∃ spec, exec obliging (@ParseAndPrepareOCIBundle sample_bundles "../../../../../etc/passwd") ∅ =
    (Ok spec, <["/etc/passwd" := "data"]> ∅).
Proof.
  apply (@bundle_tar_escapes sample_bundles "../../../../../etc/passwd" (sample_bundle "../../../../../etc/passwd")
    0x1ED "data" 5 ["etc"; "passwd"] ∅); [done| |done| |done|lia|done].
  - by apply (bool_decide_unpack _).
  - by apply (bool_decide_unpack _).
Defined.
