(* ===== verification/System.v ===== *)
(** * The guest system ([internal/system/system.go])

    Status, freezing and thawing of file systems, reseeding and the clock.  A time is
    the number of nanoseconds since 1970. *)

From Stdlib Require Import Ascii.
From S2P Require Import Prelude GoStrings GoStrconv Prog Os Stored.

Definition procEntropyPath : string := "/proc/sys/kernel/random/entropy_avail".
Definition procCmdlinePath : string := "/proc/cmdline".
Definition rtcDevPath : string := "/dev/rtc0".

(** ** Status *)

(** [UptimeSeconds] is a whole number of seconds. *)
Record SystemStatus := {
  EntropyAvail : Z; RTCSynced : bool; CurrentTime : Z; DebugMode : bool; KernelCmdline : string;
  UptimeSeconds : Z }.

Section status.
Context {UT : UnicodeTables}.

Definition GetEntropyAvailable : prog os_ev (outcome Z) :=
  Vis (ReadFileAt procEntropyPath) (λ r,
    match r with
    | inr e => throw ("failed reading " +:+ procEntropyPath +:+ ": " +:+ e)
    | inl data =>
        let valStr := trim_space data in
        Ret (wrap_err ("invalid entropy value " +:+ quote valStr +:+ ": ") (Atoi valStr))
    end).

Definition debug_line (line : string) : bool :=
  str_contains line "karim.debug=1" || str_contains line "karim.debug=shell".

Definition IsDebugEnabled : prog os_ev bool :=
  Vis (ReadFileAt procCmdlinePath) (λ r, Ret match r with inl line => debug_line line | inr _ => false end).

Definition ReadKernelCmdline : prog os_ev string :=
  Vis (ReadFileAt procCmdlinePath) (λ r, Ret match r with inl data => trim_space data | inr _ => "" end).

Definition IsRTCAvailable : prog os_ev bool :=
  Vis (StatErrOf rtcDevPath) (λ err,
    match err with
    | None => Ret true
    | Some _ => Vis (StatErrOf "/dev/rtc") (λ err, Ret match err with None => true | Some _ => false end)
    end).

Definition GetUptimeSeconds : prog os_ev Z :=
  Vis SysinfoUptime (λ r, Ret (default 0%Z r)).

(** [GetSystemStatus] never fails. *)
Definition GetSystemStatus : prog os_ev SystemStatus :=
  prog_bind (λ entropy,
  prog_bind (λ rtc,
  Vis TimeNow (λ now,
  prog_bind (λ debug,
  prog_bind (λ cmdline,
  prog_bind (λ uptime,
    Ret {| EntropyAvail := match entropy with Ok n => n | _ => -1 end; RTCSynced := rtc; CurrentTime := now;
           DebugMode := debug; KernelCmdline := cmdline; UptimeSeconds := uptime |})
  GetUptimeSeconds) ReadKernelCmdline) IsDebugEnabled)) IsRTCAvailable) GetEntropyAvailable.
End status.

(** ** Freezing *)

Definition FIFREEZE : Z := 0xc0045877.
Definition FITHAW : Z := 0xc0045878.
Definition ENOTTY : Z := 25.

Definition freeze_tolerated (e : errno) : bool :=
  ((code e =? EBUSY) || (code e =? EINVAL) || (code e =? ENOTTY))%Z.
Definition thaw_tolerated (e : errno) : bool := ((code e =? EINVAL) || (code e =? ENOTTY))%Z.

(** Open, issue one ioctl, close. *)
Definition fs_ioctl (mountPath verb ioctl_name : string) (request : Z) (tolerated : errno → bool)
    : prog os_ev (outcome unit) :=
  Vis (Ioctl mountPath request) (λ r,
    match r with
    | inr e => throw ("failed opening mount " +:+ mountPath +:+ " for " +:+ verb +:+ ": " +:+ e)
    | inl None => done_
    | inl (Some e) =>
        if tolerated e then done_
        else throw (ioctl_name +:+ " ioctl failed on " +:+ mountPath +:+ ": " +:+ text e)
    end).

Definition or_root (mountPath : string) : string := if decide (mountPath = "") then "/" else mountPath.

Definition FreezeFilesystem (mountPath : string) : prog os_ev (outcome unit) :=
  Vis Sync (λ _, fs_ioctl (or_root mountPath) "freeze" "FIFREEZE" FIFREEZE freeze_tolerated).

Definition ThawFilesystem (mountPath : string) : prog os_ev (outcome unit) :=
  fs_ioctl (or_root mountPath) "thaw" "FITHAW" FITHAW thaw_tolerated.

(** ** Entropy *)

(** [byte((nowNano >> (i % 8 * 8)) ^ int64(pid+i))] *)
Definition fallback_byte (nowNano pid i : Z) : ascii :=
  of_byte (Z.lxor (Z.shiftr nowNano (i mod 8 * 8)) (wrap_s 64 (pid + i))).

Fixpoint fallback_bytes (n : nat) (nowNano pid i : Z) : string :=
  match n with
  | O => ""
  | S n => String (fallback_byte nowNano pid i) (fallback_bytes n nowNano pid (i + 1))
  end.

(** What [hwrng] yields, or 64 bytes from the clock and the process number. *)
Definition reseed_bytes : prog os_ev string :=
  let fallback := Vis TimeNow (λ now, Vis Getpid (λ pid, Ret (fallback_bytes 64 now pid 0))) in
  Vis (ReadDevice "/dev/hwrng" 512) (λ r,
    match r with
    | inl data => if decide (data = "") then fallback else Ret data
    | inr _ => fallback
    end).

Definition ReseedEntropy : prog os_ev (outcome unit) :=
  prog_bind (λ randBuf, Vis (WriteDevice "/dev/urandom" randBuf) (λ _, done_)) reseed_bytes.

(** ** The clock *)

(** Days from 1 January 1970 to day [d] of month [m] of year [y] in the Gregorian
    calendar, for [1 <= m <= 12] and any [d]. *)
Definition days_from_civil (y m d : Z) : Z :=
  let y' := (if m <=? 2 then y - 1 else y)%Z in
  let era := (y' / 400)%Z in
  let yoe := (y' - era * 400)%Z in
  let mp := ((m + 9) mod 12)%Z in
  let doy := ((153 * mp + 2) / 5 + d - 1)%Z in
  let doe := (yoe * 365 + yoe / 4 - yoe / 100 + doy)%Z in
  (era * 146097 + doe - 719468)%Z.

(** [time.Date] in UTC, in seconds: a month out of range moves the year. *)
Definition date_seconds (year month day hour min sec : Z) : Z :=
  let m := (month - 1)%Z in
  (days_from_civil (year + m / 12) (m mod 12 + 1) day * 86400 + hour * 3600 + min * 60 + sec)%Z.

(** The time of the [rtc_time] fields, as [UnixNano] gives it. *)
Definition rtc_nanoseconds (tm : list Z) : Z :=
  match tm with
  | sec :: min :: hour :: mday :: mon :: year :: _ =>
      wrap_s 64 (date_seconds (year + 1900) (mon + 1) mday hour min sec * 1000000000)
  | _ => 0%Z
  end.

(** The device is [/dev/rtc0], or else [/dev/rtc]; without one nothing is done. *)
Definition SyncRTCTime : prog os_ev (outcome unit) :=
  let set r :=
    match r with
    | inr None => done_
    | inr (Some e) => throw ("RTC_RD_TIME ioctl failed: " +:+ text e)
    | inl tm => Vis (ClockSet (rtc_nanoseconds tm)) (λ err, Ret match err with Some e => Err (text e) | None => Ok tt end)
    end in
  Vis (ReadRTC rtcDevPath) (λ r,
    match r with
    | inr None => Vis (ReadRTC "/dev/rtc") set
    | r => set r
    end).
