(* ===== verification/Bridge.v ===== *)
(** * The supervisor ([cmd/karim-svcd/main.go])

    The registry behind the control plane, one request at a time, and the boot and
    shutdown of the process.  Services are those of [Service]; what happens when
    requests overlap with monitors and exits is [SvcRun]. *)

From Stdlib Require Import Ascii SpecFloat.
From S2P Require Import Prelude GoStrings GoStrconv GoPath GoFloat Prog Protocol SvcConfig SvcGraph Service Os Stored Netd System Bundle.

(** [supervisorBridge.managedServices] *)
Abbreviation registry := (gmap string ManagedService).

Definition defaultServiceDir : string := "/etc/karim/services".

(** The requests of the parts the supervisor is made of, and its own. *)
Inductive sup_ev : Type → Type :=
| OnSvc {X} (e : svc_ev X) : sup_ev X
| OnOs {X} (e : os_ev X) : sup_ev X
| Serve (address : string) : sup_ev (option string)
| OnNet {X} (e : net_ev X) : sup_ev X
| ReadServiceDir (dir : string) : sup_ev dir_read
| Getenv (name : string) : sup_ev string
| VSockSupported : sup_ev bool
| Sleep (ms : Z) : sup_ev unit.

Definition on_svc {A} : prog svc_ev A → prog sup_ev A := translate (λ X e, OnSvc e).
Definition on_os {A} : prog os_ev A → prog sup_ev A := translate (λ X e, OnOs e).
Definition on_net {A} : prog net_ev A → prog sup_ev A := translate (λ X e, OnNet e).
Definition println (text : string) : prog sup_ev unit := Vis (OnOs (Println text)) Ret.

(** ** The control plane *)

Section bridge.
Context {UT : UnicodeTables}.

Definition service_info (ms : ManagedService) : ServiceInfo := {|
  si_Name := Name (Spec ms); si_State := ProcessState_String (State ms); si_PID := default 0%Z (Cmd ms);
  si_Exec := Exec (Spec ms); si_MemoryLimit := MemoryLimit (Spec ms); si_CPUQuota := CPUQuota (Spec ms);
  si_Restart := Restart (Spec ms); si_SeccompProfile := SvcConfig.SeccompProfile (Spec ms);
  si_After := After (Spec ms) |}.

(** [order] is the order in which the map is iterated. *)
Definition ListServices (reg : registry) (order : list string) : list ServiceInfo :=
  omap (λ name, service_info <$> reg !! name) order.

Definition not_found {A} (name : string) : outcome A := Err ("service " +:+ name +:+ " not found").

Definition StartService (reg : registry) (name : string) : prog sup_ev (outcome unit * registry) :=
  match reg !! name with
  | None => Ret (not_found name, reg)
  | Some ms => prog_bind (λ '(ms, r), Ret (r, <[name := ms]> reg)) (on_svc (Start ms))
  end.

Definition StopService (reg : registry) (name : string) : prog sup_ev (outcome unit * registry) :=
  match reg !! name with
  | None => Ret (not_found name, reg)
  | Some ms => prog_bind (λ ms, Ret (Ok tt, <[name := ms]> reg)) (on_svc (Service.Stop ms))
  end.

Definition GetServiceLogs (reg : registry) (name : string) : outcome string :=
  match reg !! name with
  | None => not_found name
  | Some ms => Ok ("[karim-svcd | " +:+ name +:+ "] Active service status: " +:+
                   ProcessState_String (State ms) +:+ String "010" "")
  end.

(** A warning for the error of a call that is otherwise ignored. *)
Definition warn {A} (pre : string) (p : prog os_ev (outcome A)) : prog sup_ev unit :=
  prog_bind (λ r, match r with Err e => println (pre +:+ e) | _ => Ret tt end) (on_os p).

Definition Quiesce : prog sup_ev (outcome unit) :=
  prog_bind (λ _,
  prog_bind (λ _, done_) (warn "[karim-svcd] Notice: VFS freeze warning: " (FreezeFilesystem "/")))
  (println "[karim-svcd] Guest snapshot quiesce requested: issuing syscall.Sync() & FIFREEZE ioctl...").

Definition Unquiesce : prog sup_ev (outcome unit) :=
  prog_bind (λ _,
  prog_bind (λ _,
  prog_bind (λ r,
  prog_bind (λ _,
  prog_bind (λ _, done_)
    (warn "[karim-svcd] Notice: RTC time sync warning: " SyncRTCTime))
    (match r with
     | Err e => println ("[karim-svcd] Notice: CSPRNG entropy reseed warning: " +:+ e)
     | _ => println "[karim-svcd] Re-seeded /dev/urandom CSPRNG pool after snapshot restore (nonce reuse mitigation active)."
     end))
    (on_os ReseedEntropy))
    (warn "[karim-svcd] Notice: VFS thaw warning: " (ThawFilesystem "/")))
  (println "[karim-svcd] Guest snapshot thaw requested: issuing FITHAW ioctl, reseeding CSPRNG entropy, and syncing RTC time...").

(** A manager of control groups, or the warning that there is none. *)
Definition cgroup_manager (pre : string) : prog sup_ev bool :=
  prog_bind (λ r, match r with
                  | Ok _ => Ret true
                  | Err e => prog_bind (λ _, Ret false) (println (pre +:+ e))
                  | Panic => Ret false
                  end) (on_svc NewCGroupManager).

(** Stop what is registered under the name, register the new service instead. *)
Definition replace (replacing : string) (reg : registry) (ms : ManagedService) : prog sup_ev registry :=
  let name := Name (Spec ms) in
  match reg !! name with
  | Some existing =>
      prog_bind (λ _, prog_bind (λ _, Ret (<[name := ms]> reg)) (on_svc (Service.Stop existing))) (println replacing)
  | None => Ret (<[name := ms]> reg)
  end.

(** [filepath.Join(serviceDir, spec.Name+".toml")] *)
Definition dest_path (name : string) : string := Join [defaultServiceDir; name +:+ ".toml"].

Definition persist (name configTOML : string) : prog sup_ev unit :=
  Vis (OnOs (MkdirAll defaultServiceDir 0x1ED)) (λ _,
  Vis (OnOs (WriteFileAt (dest_path name) configTOML 0x1A4)) (λ err,
    match err with
    | Some e => println ("[karim-svcd] Notice: could not persist service config to " +:+ dest_path name +:+ ": " +:+ e)
    | None => println ("[karim-svcd] Persisted service config to " +:+ dest_path name)
    end)).

(** [LoadService] and [ApplyBundle] once there is a specification: replace, start,
    and [after] on success. *)
Definition launch (spec : ServiceSpec) (cgm : bool) (replacing failing : string) (reg : registry)
    (after : ManagedService → prog sup_ev unit) : prog sup_ev (outcome unit * registry) :=
  prog_bind (λ reg,
  prog_bind (λ '(ms, r),
    let reg := <[Name spec := ms]> reg in
    match r with
    | Err e => Ret (Err (failing +:+ Name spec +:+ ": " +:+ e), reg)
    | Panic => Ret (Panic, reg)
    | Ok _ => prog_bind (λ _, Ret (Ok tt, reg)) (after ms)
    end) (on_svc (Start (NewManagedService spec cgm))))
  (replace replacing reg (NewManagedService spec cgm)).

(** [ms.Cmd.Process.Pid] *)
Definition pid_text (ms : ManagedService) : string := itoa (default 0%Z (Cmd ms)).

Definition LoadService (reg : registry) (configTOML : string) : prog sup_ev (outcome unit * registry) :=
  match ParseServiceSpecFromBytes configTOML with
  | Err e => Ret (Err ("failed to parse service TOML payload: " +:+ e), reg)
  | Panic => Ret (Panic, reg)
  | Ok spec =>
      prog_bind (λ _,
      prog_bind (λ cgm,
        launch spec cgm ("[karim-svcd] Replacing existing service " +:+ quote (Name spec) +:+ " (rolling update)...")
          "failed to start hot-loaded service " reg (λ ms,
            prog_bind (λ _, println ("[karim-svcd] Service " +:+ quote (Name spec) +:+
                                     " hot-loaded and running (PID: " +:+ pid_text ms +:+ ")"))
              (persist (Name spec) configTOML)))
        (cgroup_manager ("[karim-svcd] Warning: cgroup manager init failed for " +:+ Name spec +:+ ": ")))
      (println ("[karim-svcd] Hot-loading service " +:+ quote (Name spec) +:+ " from VSOCK payload..."))
  end.

Definition ApplyBundle {C : BundleCodec} (reg : registry) (bundleJSON : string)
    : prog sup_ev (outcome unit * registry) :=
  prog_bind (λ r,
    match r with
    | Err e => Ret (Err ("failed to prepare OCI bundle: " +:+ e), reg)
    | Panic => Ret (Panic, reg)
    | Ok spec =>
        prog_bind (λ _,
        prog_bind (λ cgm,
          launch spec cgm ("[karim-svcd] Replacing existing container " +:+ quote (Name spec) +:+ "...")
            "failed to start dynamic OCI container bundle " reg (λ ms,
              println ("[karim-svcd] Dynamic OCI container bundle " +:+ quote (Name spec) +:+
                       " running successfully (PID: " +:+ pid_text ms +:+ ")")))
          (cgroup_manager ("[karim-svcd] Warning: cgroup manager init failed for OCI bundle " +:+ Name spec +:+ ": ")))
        (println ("[karim-svcd] Executing dynamic OCI container bundle " +:+ quote (Name spec) +:+ " (rootfs: " +:+
                  RootDir spec +:+ ")..."))
    end) (on_os (ParseAndPrepareOCIBundle bundleJSON)).

(** ** Boot *)

Record sup_flags := { configDir : string; enableNet : bool; enableOverlay : bool; enableVsockd : bool }.

(** Step 7: the services in their order; one that cannot be started is reported. *)
Fixpoint start_services (cgm : bool) (ordered : list ServiceSpec) (reg : registry) : prog sup_ev registry :=
  match ordered with
  | [] => Ret reg
  | spec :: ordered =>
      prog_bind (λ _,
      prog_bind (λ '(ms, r),
      prog_bind (λ _,
        Vis (Sleep 100) (λ _, start_services cgm ordered (<[Name spec := ms]> reg)))
      (match r with
       | Err e => println ("[karim-svcd] ERROR starting service " +:+ Name spec +:+ ": " +:+ e)
       | _ => Ret tt
       end))
      (on_svc (Start (NewManagedService spec cgm))))
      (println ("[karim-svcd] Starting service " +:+ Name spec +:+ " (depends on: [" +:+
                str_join " " (After spec) +:+ "])..."))
  end.

(** Steps 6 and 7: the registry, or the exit code (2 is the run-time's, for a panic). *)
Definition start_all (cgm : bool) (specs : list ServiceSpec) (o1 o2 o3 : list string)
    : prog sup_ev (registry + Z) :=
  match specs with
  | [] => prog_bind (λ _, Ret (inl ∅))
            (println "[karim-svcd] No service definitions found. Running empty supervisor loop.")
  | _ =>
      prog_bind (λ _,
        match ResolveTopologicalSort (NewDependencyGraph specs) o1 o2 o3 with
        | Some (Ok orderedSpecs) => prog_bind (λ reg, Ret (inl reg)) (start_services cgm orderedSpecs ∅)
        | Some (Err e) =>
            prog_bind (λ _, Ret (inr 1%Z)) (println ("[karim-svcd] ERROR resolving service dependency graph: " +:+ e))
        | _ => Ret (inr 2%Z)
        end)
      (println ("[karim-svcd] Loaded " +:+ itoa (Z.of_nat (length specs)) +:+ " service specification(s)."))
  end.

(** Step 5: the listeners. *)
Definition serve_control_plane : prog sup_ev unit :=
  prog_bind (λ _,
  Vis (Getenv "KARIM_UNIX_SOCKET") (λ envSock,
    let socketPath := if decide (envSock = "") then "/run/karim/vsock.sock" else envSock in
    Vis (OnOs (MkdirAll (Dir socketPath) 0x1ED)) (λ _,
    Vis VSockSupported (λ supported,
    prog_bind (λ _,
      Vis (Serve socketPath) (λ err,
        match err with
        | None => println ("[karim-svcd] Control Plane Unix fallback active on " +:+ socketPath)
        | Some e => println ("[karim-svcd] Warning: failed to listen on Unix control socket " +:+ socketPath +:+ ": " +:+ e)
        end))
    (if supported : bool then
       Vis (Serve "vsock:1024") (λ err,
         match err with
         | Some e => println ("[karim-svcd] Notice: ListenVSock failed on port 1024: " +:+ e)
         | None => println "[karim-svcd] Host-Guest Control Plane active on AF_VSOCK (Port 1024)"
         end)
     else println "[karim-svcd] Notice: AF_VSOCK not supported in guest kernel (CONFIG_VIRTIO_VSOCK=y required).")))))
  (println "[karim-svcd] Initializing vsockd host-guest control plane RPC server...").

Definition on_flag (b : bool) (p : prog sup_ev unit) : prog sup_ev unit := if b then p else Ret tt.

(** Steps 1 and 2: storage and network. *)
Definition setup_overlay `{Linux.Unix} (image : list (string * tree)) : prog sup_ev unit :=
  prog_bind (λ _,
  prog_bind (λ r,
    match r with
    | Ok cfg => println ("[karim-svcd] OverlayFS mounted successfully: lower=" +:+ LowerDir cfg +:+ " -> target=" +:+ TargetDir cfg)
    | Err e => println ("[karim-svcd] Storage overlay notice/warning: " +:+ e)
    | Panic => Ret tt
    end) (on_os (PrepareAndMountRootOverlay image "/mnt/lower" "/run/karim/overlay" "/")))
  (println "[karim-svcd] Initializing OverlayFS storage subsystem...").

Definition setup_network `{Linux.Unix} (errno_text : Z → string) : prog sup_ev unit :=
  prog_bind (λ _,
  prog_bind (λ r,
    match r with
    | Err e => println ("[karim-svcd] Network configuration notice: " +:+ e)
    | _ => Ret tt
    end) (on_net (AutoConfigure errno_text (DefaultConfig "eth0"))))
  (println "[karim-svcd] Initializing network subsystem (netd)...").

Definition show_bool (b : bool) : string := if b then "true" else "false".

(** Everything before the signal loop. *)
Definition boot `{Linux.Unix} (errno_text : Z → string) (flags : sup_flags) (image : list (string * tree)) (o1 o2 o3 : list string)
    : prog sup_ev (registry + Z) :=
  prog_bind (λ _,
  prog_bind (λ st,
  prog_bind (λ _,
  prog_bind (λ _,
  prog_bind (λ _,
  prog_bind (λ cgm,
  prog_bind (λ _,
  Vis (ReadServiceDir (configDir flags)) (λ d,
    let go_on specs :=
      prog_bind (λ _, start_all cgm specs o1 o2 o3) (on_flag (enableVsockd flags) serve_control_plane) in
    match LoadServiceDir (configDir flags) d with
    | Ok specs => go_on specs
    | Err e => prog_bind (λ _, go_on []) (println ("[karim-svcd] Error loading service configurations: " +:+ e))
    | Panic => Ret (inr 2%Z)
    end))
  (println ("[karim-svcd] Scanning service configurations in " +:+ configDir flags +:+ "...")))
  (cgroup_manager "[karim-svcd] Warning: failed to initialize cgroup manager: "))
  (on_flag (enableNet flags) (setup_network errno_text)))
  (on_flag (enableOverlay flags) (setup_overlay image)))
  (println ("[karim-svcd] System status verified: entropy=" +:+ itoa (EntropyAvail st) +:+ " bits, rtc=" +:+
            show_bool (RTCSynced st) +:+ ", debug=" +:+ show_bool (DebugMode st))))
  (on_os GetSystemStatus))
  (println "[karim-svcd] Karim MicroVM Supervisor (karim-svcd) starting...").

(** ** Shutdown *)

(** The loop over the registry in the order [order]; the process then exits with 0. *)
Fixpoint shutdown (reg : registry) (order : list string) : prog sup_ev (registry * Z) :=
  match order with
  | [] => Ret (reg, 0%Z)
  | name :: order =>
      match reg !! name with
      | None => shutdown reg order
      | Some ms =>
          prog_bind (λ _, prog_bind (λ ms, shutdown (<[name := ms]> reg) order) (on_svc (Service.Stop ms)))
            (println ("[karim-svcd] Stopping service " +:+ name +:+ "..."))
      end
  end.
End bridge.

(** * Properties *)

(** The processes and monitors started, the files written, and whether a write failed. *)
Record sup_state := { children : list Z * nat; files : gmap string string; write_failed : bool }.
Definition with_children (c : list Z * nat) (s : sup_state) : sup_state :=
  {| children := c; files := files s; write_failed := write_failed s |}.

Definition sup_env : env_rel sup_ev sup_state := λ X e s x s',
  match e in sup_ev Y return Y → Prop with
  | OnSvc e => λ x, ∃ c, spawn_env _ e (children s) x c ∧ s' = with_children c s
  | OnOs e =>
      match e in os_ev Y return Y → Prop with
      | WriteFileAt p d _ => λ r, s' =
          match r with
          | None => {| children := children s; files := <[p := d]> (files s); write_failed := write_failed s |}
          | Some _ => {| children := children s; files := files s; write_failed := true |}
          end
      | _ => λ _, s' = s
      end
  | _ => λ _, s' = s
  end x.

Lemma wp_on_svc {A} (p : prog svc_ev A) (Q : A → list Z * nat → Prop) s :
  wp spawn_env p Q (children s) → wp sup_env (on_svc p) (λ a s', ∃ c, s' = with_children c s ∧ Q a c) s.
Proof.
  intros Hp. cut (∀ c, wp spawn_env p Q c →
    wp sup_env (on_svc p) (λ a s', ∃ c, s' = with_children c s ∧ Q a c) (with_children c s)).
  { intros H. specialize (H _ Hp). by destruct s. }
  clear Hp. unfold on_svc. induction p as [a|X e k IH]; intros c Hp; cbn; [by exists c|].
  intros x s' (c' & He & ->). cbn in He. change (with_children c' (with_children c s)) with (with_children c' s).
  by apply IH, Hp.
Qed.

Lemma wp_println text (Q : unit → sup_state → Prop) s : Q tt s → wp sup_env (println text) Q s.
Proof. by intros H [] s' ->. Qed.

Section facts.
Context {UT : UnicodeTables}.

(** [Start] of a service that is not running, as its theorem states it. *)
Lemma wp_Start_new spec cgm c :
  wp spawn_env (Start (NewManagedService spec cgm)) (λ '(ms, r) c',
    Spec ms = spec ∧
    match r with
    | Ok _ => State ms = StateRunning ∧ ∃ pid, Cmd ms = Some pid ∧ c' = (c.1 ++ [pid], S c.2)
    | Err _ => State ms = StateStopped ∧ Cmd ms = None ∧ c' = c
    | Panic => False
    end) c.
Proof.
  unfold Start. rewrite decide_False by done.
  apply wp_bind. eapply wp_mono; [|apply wp_resolve_exec]. cbn beta.
  intros [p|e|] s1 [Hp ->]; [|done..]. apply wp_find_secd. intros secdBin.
  intros [e|] s2 ->; [done|]. intros [e|] s3 ->; [done|]. intros [pid|e] s4 ->; [|done].
  eapply wp_mono; [|apply wp_after_start]. intros [ms' r] s5 [[= -> ->] ->].
  split_and!; [done..|]. by exists pid.
Qed.

Lemma wp_cgroup_manager pre s : wp sup_env (cgroup_manager pre) (λ _ s', s' = s) s.
Proof.
  unfold cgroup_manager. apply wp_bind.
  eapply wp_mono; [|apply (wp_on_svc _ (λ _ c, c = children s))].
  - cbn beta. intros r s' (c & -> & ->). replace (with_children (children s) s) with s by by destruct s.
    destruct r as [|e|]; [done| |done]. apply wp_bind, wp_println. done.
  - apply wp_quiet. unfold NewCGroupManager, act, try_act.
    apply issues_ebind; [by apply issues_wrapping, issues_vis|intros _].
    by apply issues_ebind; [apply issues_vis|].
Qed.

Lemma wp_Stop ms c : wp spawn_env (Service.Stop ms) (λ ms' c', c' = c ∧ Spec ms' = Spec ms ∧ Cmd ms' = Cmd ms) c.
Proof.
  unfold Service.Stop. destruct (State ms) eqn:Hs, (Cmd ms) as [pid|] eqn:Hc; try (cbn; by rewrite Hc).
  intros [e|] s1 ->; [|cbn; by rewrite Hc]. intros x s2 ->. cbn. by rewrite Hc.
Qed.

Lemma wp_replace text reg ms s :
  wp sup_env (replace text reg ms) (λ reg' s', reg' = <[Name (Spec ms) := ms]> reg ∧ s' = s) s.
Proof.
  unfold replace. destruct (reg !! Name (Spec ms)) as [old|]; [|done].
  apply wp_bind, wp_println, wp_bind.
  eapply wp_mono; [|apply (wp_on_svc _ (λ ms' c', c' = children s ∧ Spec ms' = Spec old ∧ Cmd ms' = Cmd old)), wp_Stop].
  cbn beta. intros ms' s' (c & -> & -> & _). split; [done|by destruct s].
Qed.

(** What launching does, on every run. *)
Definition launched (spec : ServiceSpec) (reg : registry) (s : sup_state) (Q : sup_state → Prop)
    (r : outcome unit) (reg' : registry) (s' : sup_state) : Prop :=
  ∃ ms, reg' = <[Name spec := ms]> reg ∧ Spec ms = spec ∧
    match r with
    | Ok _ => State ms = StateRunning ∧
        (∃ pid, Cmd ms = Some pid ∧ children s' = ((children s).1 ++ [pid], S (children s).2)) ∧ Q s'
    | Err _ => State ms = StateStopped ∧ Cmd ms = None ∧ s' = s
    | Panic => False
    end.

Lemma wp_launch spec cgm replacing failing reg after Q s :
  (∀ ms c, wp sup_env (after ms) (λ _ s', children s' = c ∧ Q s') (with_children c s)) →
  wp sup_env (launch spec cgm replacing failing reg after) (λ rr s', launched spec reg s Q rr.1 rr.2 s') s.
Proof.
  intros Ha. unfold launch. apply wp_bind. eapply wp_mono; [|apply wp_replace]. cbn beta.
  intros reg1 s1 [-> ->]. apply wp_bind.
  eapply wp_mono; [|apply wp_on_svc, wp_Start_new]. cbn beta. intros [ms r] s1 (c & -> & Hspec & Hr).
  cbn [Spec NewManagedService]. rewrite insert_insert_eq. destruct r as [[]|e|]; [..|done].
  - destruct Hr as (Hst & pid & Hpid & ->). apply wp_bind. eapply wp_mono; [|apply Ha]. cbn beta.
    intros _ s2 [Hc HQ]. exists ms. split_and!; [done..|]. split_and!; [done| |done]. by exists pid.
  - destruct Hr as (Hst & Hcmd & ->). exists ms. split_and!; [done..|]. split_and!; [done..|]. by destruct s.
Qed.

Lemma wp_persist name toml s :
  wp sup_env (persist name toml) (λ _ s', children s' = children s ∧
    (files s' = <[dest_path name := toml]> (files s) ∨ files s' = files s ∧ write_failed s' = true)) s.
Proof.
  unfold persist. intros r s1 ->. intros [e|] s2 ->; apply wp_println; cbn; [by split; [|right]|by split; [|left]].
Qed.

(** The place a service of a plain name is kept at. *)
Definition service_file (name : string) : string := abs_path ["etc"; "karim"; "services"; name +:+ ".toml"].

Lemma norm_toml c : norm_comp c → norm_comp (c +:+ ".toml").
Proof.
  intros (Hne & _ & _ & Hf). destruct c as [|a c]; [done|]. split_and!.
  - by rewrite str_app_cons.
  - rewrite str_app_cons. intros [= -> H]. by destruct c.
  - rewrite str_app_cons. intros [= -> H]. destruct c as [|b c]; [done|]. rewrite str_app_cons in H.
    injection H as -> H. by destruct c.
  - rewrite str_forall_app. by rewrite Hf.
Qed.

Lemma service_dir_norm : Forall norm_comp ["etc"; "karim"; "services"].
Proof. by apply (bool_decide_unpack _). Qed.

Lemma dest_path_norm name : norm_comp name → dest_path name = service_file name.
Proof.
  intros Hn. apply (Join_abs_rel ["etc"; "karim"; "services"] [name +:+ ".toml"]); [apply service_dir_norm| |done].
  by apply Forall_singleton, norm_toml.
Qed.

(** A payload is read at boot as it was over the socket. *)
Lemma boot_reads data spec path :
  ParseServiceSpecFromBytes data = Ok spec → ParseServiceConfig path (FileData data None) = Ok spec.
Proof.
  unfold ParseServiceConfig, ParseServiceSpecFromBytes.
  destruct (scan_lines data) as [ls e]. destruct (fold_m _ _ _) as [st|err|]; cbn; [|done..].
  destruct e; cbn; [done|].
  destruct (decide (Exec (p_spec st) = "")) as [_|_]; [done|].
  destruct (decide (Name (p_spec st) = "")) as [Hn|_]; [done|done].
Qed.

(** C25: hot loading, on every branch.  A payload that does not parse changes nothing; a
    service that does not start is an error and is registered, stopped, in place of
    what was there; otherwise the service is registered under its name and runs as one
    new process.  Then, unless the write failed, its text is at its own file in the
    service directory, where the next boot reads the same specification.  The documentation
    says the old instance must be seen to exit before the new one is registered, and that a
    launch error marks the service [FAILED]: the code only signals the old process, goes
    on at once, and has no such state. *)
Theorem LoadService_outcome reg toml s :
  wp sup_env (LoadService reg toml) (λ '(r, reg') s',
    match ParseServiceSpecFromBytes toml with
    | Ok spec =>
        launched spec reg s (λ s', write_failed s' = write_failed s → norm_comp (Name spec) →
          write_failed s = false →
          files s' = <[service_file (Name spec) := toml]> (files s) ∧
          ParseServiceConfig (service_file (Name spec)) (FileData toml None) = Ok spec) r reg' s'
    | Err _ => is_ok r = false ∧ reg' = reg ∧ s' = s
    | Panic => r = Panic ∧ reg' = reg ∧ s' = s
    end) s.
Proof.
  unfold LoadService. destruct (ParseServiceSpecFromBytes toml) as [spec|e|] eqn:Hp; [|done..].
  apply wp_bind, wp_println, wp_bind. eapply wp_mono; [|apply wp_cgroup_manager]. cbn beta.
  intros cgm s1 ->. eapply wp_mono; [|apply wp_launch].
  - intros [r reg'] s'. exact id.
  - intros ms c. apply wp_bind. eapply wp_mono; [|apply wp_persist]. cbn beta.
    intros _ s1 [Hc Hf]. apply wp_println. split; [done|]. intros Hw Hn Hs.
    destruct Hf as [Hf|[_ Hf]]; [|congruence]. rewrite Hf, dest_path_norm by done.
    split; [done|by apply boot_reads].
Qed.

(** ** Boot *)

(** The state a service is in once the boot has come to it, with its process. *)
Definition attempted (spec : ServiceSpec) (c : list Z * nat) (ms : ManagedService) : Prop :=
  Spec ms = spec ∧
  ((State ms = StateRunning ∧ ∃ pid, Cmd ms = Some pid ∧ pid ∈ c.1) ∨ (State ms = StateStopped ∧ Cmd ms = None)).

Lemma attempted_mono spec c c' ms : c.1 ⊆ c'.1 → attempted spec c ms → attempted spec c' ms.
Proof.
  intros Hc [Hs [(Hr & pid & Hp & Hin)|H]]; split; [done|left|done|by right].
  split; [done|]. exists pid. split; [done|by apply Hc].
Qed.

Definition count_running (reg : registry) : nat :=
  size (filter (λ kv : string * ManagedService, State kv.2 = StateRunning) reg).

Lemma count_running_insert reg name ms :
  reg !! name = None →
  count_running (<[name := ms]> reg) = (if decide (State ms = StateRunning) then 1 else 0) + count_running reg.
Proof.
  intros Hn. unfold count_running. destruct (decide (State ms = StateRunning)) as [Hr|Hr].
  - rewrite map_filter_insert_True by done. rewrite map_size_insert_None; [done|].
    apply map_lookup_filter_None. by left.
  - rewrite map_filter_insert_False by done. by rewrite delete_id.
Qed.

Lemma wp_start_services cgm ordered reg s :
  NoDup (Name <$> ordered) → Forall (λ spec, reg !! Name spec = None) ordered →
  wp sup_env (start_services cgm ordered reg) (λ reg' s',
    (∀ name, name ∉ (Name <$> ordered) → reg' !! name = reg !! name) ∧
    Forall (λ spec, ∃ ms, reg' !! Name spec = Some ms ∧ attempted spec (children s') ms) ordered ∧
    ∃ pids, (children s').1 = (children s).1 ++ pids ∧ (children s').2 = (children s).2 + length pids ∧
      count_running reg' = length pids + count_running reg) s.
Proof.
  revert reg s. induction ordered as [|spec ordered IH]; intros reg s Hnd Hfresh.
  { cbn. split_and!; [done|by constructor|]. exists []. by rewrite app_nil_r, Nat.add_0_r. }
  cbn [fmap list_fmap] in Hnd. apply NoDup_cons in Hnd as [Hnotin Hnd].
  inversion_clear Hfresh as [|? ? Hf Hfs]. cbn [start_services].
  apply wp_bind, wp_println, wp_bind. eapply wp_mono; [|apply wp_on_svc, wp_Start_new]. cbn beta.
  intros [ms r] s1 (c & -> & Hspec & Hr). apply wp_bind.
  assert (∃ pids, c.1 = (children s).1 ++ pids ∧ c.2 = (children s).2 + length pids ∧
    length pids = (if decide (State ms = StateRunning) then 1 else 0) ∧ attempted spec c ms) as
    (pids & Hc1 & Hc2 & Hl & Hat).
  { destruct r as [[]|e|]; [..|done].
    - destruct Hr as (Hst & pid & Hp & ->). exists [pid]. rewrite decide_True by done.
      split_and!; [done|cbn; lia|done|]. split; [done|]. left. split; [done|]. exists pid.
      split; [done|]. cbn. apply elem_of_app. right. by apply list_elem_of_singleton.
    - destruct Hr as (Hst & Hcmd & ->). exists []. rewrite app_nil_r, Nat.add_0_r, Hst.
      split_and!; [done..|]. split; [done|by right]. }
  assert (∀ s2, s2 = with_children c s → wp sup_env (Vis (Sleep 100)
    (λ _, start_services cgm ordered (<[Name spec := ms]> reg))) (λ reg' s',
      (∀ name, name ∉ Name spec :: (Name <$> ordered) → reg' !! name = reg !! name) ∧
      Forall (λ spec, ∃ ms, reg' !! Name spec = Some ms ∧ attempted spec (children s') ms) (spec :: ordered) ∧
      ∃ pids, (children s').1 = (children s).1 ++ pids ∧ (children s').2 = (children s).2 + length pids ∧
        count_running reg' = length pids + count_running reg) s2) as Hrest.
  { intros s2 -> [] s3 ->. eapply wp_mono; [|apply IH; [done|]].
    - cbn beta. intros reg' s' (Hout & Hall & pids' & H1 & H2 & H3). cbn [children with_children] in *.
      assert (reg' !! Name spec = Some ms) as Hms by (rewrite Hout by done; apply lookup_insert_eq).
      split_and!.
      + intros name Hn. rewrite Hout by by (intros Hi; apply Hn; right). apply lookup_insert_ne.
        intros <-. apply Hn. by left.
      + constructor; [|done]. exists ms. split; [done|]. eapply attempted_mono; [|exact Hat].
        rewrite H1. by apply list_subseteq_app_l.
      + exists (pids ++ pids'). rewrite length_app. split_and!.
        * by rewrite H1, Hc1, <-app_assoc.
        * rewrite H2, Hc2. lia.
        * rewrite H3, count_running_insert by done. rewrite Hl. lia.
    - apply Forall_forall. intros sp Hin. rewrite lookup_insert_ne.
      + rewrite Forall_forall in Hfs. by apply Hfs.
      + intros Heq. apply Hnotin. rewrite Heq. by apply list_elem_of_fmap_2. }
  destruct r as [[]|e|]; [..|done].
  - by apply Hrest.
  - by apply wp_println, Hrest.
Qed.

(** C26: the boot is all or nothing about cycles and fail-operational about services:
    either the graph of the services has a cycle and the supervisor exits with 1 without
    having started anything, or every service of the directory is registered under its
    name, was tried exactly once, and runs as a process of its own or is stopped; no
    other process was started, and each has its monitor.  The supervisor documentation, the
    reference of the service definitions and post-mortem PM-002 say that only the
    services of a cycle are marked [FAILED] and everything else still starts. *)
Theorem boot_tries_every_service cgm specs o1 o2 o3 s :
  let g := NewDependencyGraph specs in
  specs ≠ [] → o2 ≡ₚ names g → o3 ≡ₚ names g →
  wp sup_env (start_all cgm specs o1 o2 o3) (λ r s',
    match r with
    | inl reg =>
        (∀ name, is_Some (reg !! name) ↔ is_Some (services g !! name)) ∧
        (∀ name spec, services g !! name = Some spec → ∃ ms, reg !! name = Some ms ∧ attempted spec (children s') ms) ∧
        ∃ pids, (children s').1 = (children s).1 ++ pids ∧ (children s').2 = (children s).2 + length pids ∧
          count_running reg = length pids
    | inr code => code = 1%Z ∧ s' = s ∧ ∃ e, ResolveTopologicalSort g o1 o2 o3 = Some (Err e)
    end) s.
Proof.
  intros g Hne Ho2 Ho3. unfold start_all. destruct specs as [|spec0 specs0]; [done|].
  remember (spec0 :: specs0) as specs eqn:Heq. clear Heq. apply wp_bind, wp_println. fold g.
  destruct (sort_result specs o1 o2 o3 Ho2 Ho3) as [(l & Hl & HP & Hself & _)|[e He]].
  - fold g in Hl, HP, Hself. rewrite Hl. apply wp_bind.
    assert (NoDup (names g)) as Hnd by apply NoDup_fst_map_to_list.
    eapply wp_mono; [|apply wp_start_services; [by rewrite HP|by apply Forall_true]]. cbn beta.
    intros reg s' (Hout & Hall & pids & H1 & H2 & H3). rewrite Forall_forall in Hall.
    assert (∀ name spec, services g !! name = Some spec → spec ∈ l ∧ Name spec = name) as Hin.
    { intros name spec Hs. assert (name ∈ (Name <$> l)) as (sp & -> & Hsp)%list_elem_of_fmap.
      { rewrite HP. apply (proj2 (elem_of_names g name)). by eexists. }
      rewrite (Hself sp Hsp) in Hs. by simplify_eq. }
    cbn. split_and!.
    + intros name. split.
      * intros [ms Hms]. destruct (decide (name ∈ (Name <$> l))) as [Hn|Hn].
        -- rewrite HP in Hn. by apply (proj1 (elem_of_names g name)).
        -- rewrite Hout in Hms by done. by rewrite lookup_empty in Hms.
      * intros [spec Hs]. destruct (Hin _ _ Hs) as [Hl' <-]. destruct (Hall _ Hl') as (ms & Hms & _).
        by eexists.
    + intros name spec Hs. destruct (Hin _ _ Hs) as [Hl' <-]. by apply Hall.
    + exists pids. split_and!; [done..|]. rewrite H3. unfold count_running.
      rewrite map_filter_empty, map_size_empty. lia.
  - fold g in He. rewrite He. apply wp_bind, wp_println. cbn. split_and!; [done..|]. by exists e.
Qed.

(** Whether the root file system is frozen. *)
Definition freezer : env_rel sup_ev bool := λ X e frozen x frozen',
  match e in sup_ev Y return Y → Prop with
  | OnOs e =>
      match e in os_ev Y return Y → Prop with
      | Ioctl _ request => λ r, frozen' =
          match r with inl None => if (request =? FIFREEZE)%Z then true else false | _ => frozen end
      | _ => λ _, frozen' = frozen
      end
  | _ => λ _, frozen' = frozen
  end x.

(** A quiesce never fails: on every run the control plane answers success, also on
    the runs on which the kernel refuses the freeze, which leave the file system as it
    was; so a snapshot can be marked as quiesced although nothing was frozen. *)
Theorem Quiesce_hides_failure (err : errno) :
  wp freezer Quiesce (λ r _, r = Ok tt) false ∧
  (freeze_tolerated err = false → runs freezer Quiesce false (Ok tt) false).
Proof.
  split.
  - intros [] s1 _ [] s2 _ r s3 _. destruct r as [[e|]|e]; cbn; [|done|by intros [] s4 _].
    destruct (freeze_tolerated e); [done|]. by intros [] s4 _.
  - intros Herr. exists tt, false. split; [done|]. exists tt, false. split; [done|].
    exists (inl (Some err)), false. split; [done|]. cbn. rewrite Herr. cbn. exists tt, false. by split.
Qed.

(** The name of a hot-loaded service is a path: nothing checks it, so the text of a
    service whose name climbs out of the service directory is written wherever it
    leads. *)
Theorem LoadService_writes_anywhere toml spec k cs c reg s :
  ParseServiceSpecFromBytes toml = Ok spec → Forall norm_comp cs → norm_comp c → 3 ≤ k →
  Name spec = str_join slash (replicate k ".." ++ cs ++ [c]) →
  wp sup_env (LoadService reg toml) (λ '(r, _) s', r = Ok tt → write_failed s' = false →
    files s' = <[abs_path (cs ++ [c +:+ ".toml"]) := toml]> (files s)) s.
Proof.
  intros Hp Hcs Hc Hk Hn. unfold LoadService. rewrite Hp.
  apply wp_bind, wp_println, wp_bind. eapply wp_mono; [|apply wp_cgroup_manager]. cbn beta.
  intros cgm s1 ->. eapply wp_mono; [|apply (wp_launch _ _ _ _ _ _ (λ s', write_failed s' = false →
    files s' = <[abs_path (cs ++ [c +:+ ".toml"]) := toml]> (files s)))].
  - cbn. intros [r reg'] s' (ms & _ & _ & Hr) Hok. cbn in *. subst r. by destruct Hr as (_ & _ & Hr).
  - intros ms c'. apply wp_bind. eapply wp_mono; [|apply wp_persist]. cbn beta.
    intros _ s1 [Hch Hf]. apply wp_println. split; [done|]. intros Hw.
    destruct Hf as [->|[_ Hf]]; [|congruence]. cbn [files with_children]. f_equal. unfold dest_path. rewrite Hn.
    assert (str_join slash (replicate k ".." ++ cs ++ [c]) +:+ ".toml" =
      str_join slash (replicate k ".." ++ cs ++ [c +:+ ".toml"])) as ->.
    { rewrite !app_assoc. generalize (replicate k ".." ++ cs). clear. intros l.
      induction l as [|x [|y l] IH]; [done| |].
      - cbn. by rewrite !str_app_assoc.
      - change (str_join slash ((x :: y :: l) ++ ?z)) with (x +:+ slash +:+ str_join slash ((y :: l) ++ z)).
        by rewrite !str_app_assoc, IH. }
    apply (Join_climb ["etc"; "karim"; "services"]); [apply service_dir_norm| | |done].
    + apply Forall_app. split; [done|]. by apply Forall_singleton, norm_toml.
    + destruct k; [lia|done].
Qed.
End facts.

(** ** Witnesses *)

Definition fresh_state : sup_state := {| children := ([], 0); files := ∅; write_failed := false |}.

Lemma boot_tries_every_service_witness :
  let g := NewDependencyGraph sample_specs in
  wp sup_env (@start_all no_tables false sample_specs (names g) (names g) (names g)) (λ r s',
    match r with
    | inl reg =>
        (∀ name, is_Some (reg !! name) ↔ is_Some (services g !! name)) ∧
        (∀ name spec, services g !! name = Some spec → ∃ ms, reg !! name = Some ms ∧ attempted spec (children s') ms) ∧
        ∃ pids, (children s').1 = [] ++ pids ∧ (children s').2 = 0 + length pids ∧ count_running reg = length pids
    | inr code => code = 1%Z ∧ s' = fresh_state ∧
        ∃ e, ResolveTopologicalSort g (names g) (names g) (names g) = Some (Err e)
    end) fresh_state.
Proof. apply (@boot_tries_every_service no_tables false sample_specs); done. Defined.

Definition unsupported : errno := {| code := 95; text := "operation not supported" |}.

Lemma Quiesce_hides_failure_witness :
  freeze_tolerated unsupported = false ∧ runs freezer Quiesce false (Ok tt) false.
Proof. split; [done|]. apply (Quiesce_hides_failure unsupported). done. Defined.

Definition climbing_toml : string :=
  "name = ../../../tmp/x" +:+ String "010" ("exec = /bin/sh" +:+ String "010" "").

Lemma LoadService_writes_anywhere_witness :
  wp sup_env (@LoadService no_tables ∅ climbing_toml) (λ '(r, _) s', r = Ok tt → write_failed s' = false →
    files s' = <["/tmp/x.toml" := climbing_toml]> ∅) fresh_state.
Proof.
  apply (@LoadService_writes_anywhere no_tables climbing_toml
    (set_Exec (set_Name default_spec "../../../tmp/x") "/bin/sh") 3 ["tmp"] "x" ∅ fresh_state).
  - by vm_compute.
  - by apply (bool_decide_unpack _).
  - by apply (bool_decide_unpack _).
  - lia.
  - done.
Defined.
