(* ===== verification/VsockdMain.v ===== *)
(** * The stand-alone control plane ([cmd/karim-vsockd/main.go])

    The daemon with a registry of its own, which it reads again from the service directory
    before every listing.  Services are those of [Service], requests those of [Bridge]. *)

From Stdlib Require Import Ascii SpecFloat.
From S2P Require Import Prelude GoStrings GoStrconv GoPath GoFlag Prog Linux Protocol SvcConfig Service Os Bundle Bridge.

Section bridge.
Context {UT : UnicodeTables}.

(** [b.services[spec.Name].Spec = spec] *)
Definition with_spec (spec : ServiceSpec) (ms : ManagedService) : ManagedService := {|
  Spec := spec; State := State ms; Cmd := Cmd ms; CGroupMgr := CGroupMgr ms; restartCount := restartCount ms;
  exitCodeRecorded := exitCodeRecorded ms; recordedExitCode := recordedExitCode ms |}.

Definition reload_spec (cgm : bool) (reg : registry) (spec : ServiceSpec) : registry :=
  match reg !! Name spec with
  | None => <[Name spec := NewManagedService spec cgm]> reg
  | Some ms => <[Name spec := with_spec spec ms]> reg
  end.

Definition reload (cgm : bool) (specs : outcome (list ServiceSpec)) (reg : registry) : registry :=
  match specs with
  | Ok specs => foldl (reload_spec cgm) reg specs
  | _ => reg
  end.

(** A panic of the reader ends the daemon. *)
Definition reloadSpecs (serviceDir : string) (cgm : bool) (reg : registry) : prog sup_ev (outcome registry) :=
  Vis (ReadServiceDir serviceDir) (λ d,
    let specs := LoadServiceDir serviceDir d in
    if is_panic specs then Ret Panic else Ret (Ok (reload cgm specs reg))).

Definition newSvcdBridge (serviceDir : string) : prog sup_ev (bool * outcome registry) :=
  prog_bind (λ r, let cgm := is_ok r in prog_bind (λ reg, Ret (cgm, reg)) (reloadSpecs serviceDir cgm ∅))
    (on_svc NewCGroupManager).

Section provider.
Context (serviceDir : string) (cgm : bool).

(** [order] is the order in which the map is iterated. *)
Definition ListServices (order : registry → list string) (reg : registry)
    : prog sup_ev (outcome (list ServiceInfo) * registry) :=
  prog_bind (λ r, Ret match r with
                      | Ok reg => (Ok (omap (λ name, service_info <$> reg !! name) (order reg)), reg)
                      | Err e => (Err e, reg)
                      | Panic => (Panic, reg)
                      end) (reloadSpecs serviceDir cgm reg).

Definition not_found {A} (name : string) : outcome A := Err ("service " +:+ quote name +:+ " not found").

Definition StartService (reg : registry) (name : string) : prog sup_ev (outcome unit * registry) :=
  match reg !! name with
  | None => Ret (not_found name, reg)
  | Some ms => prog_bind (λ '(ms, r), Ret (r, <[name := ms]> reg)) (on_svc (Start ms))
  end.

Definition StopService (reg : registry) (name : string) : prog sup_ev (outcome unit * registry) :=
  match reg !! name with
  | None => Ret (not_found name, reg)
  | Some ms => prog_bind (λ ms, Ret (Ok tt, <[name := ms]> reg)) (on_svc (Service.Stop ms))
  end.

Definition GetServiceLogs (reg : registry) (name : string) : outcome string :=
  match reg !! name with
  | None => not_found name
  | Some _ => Ok ("[vsockd] Active service telemetry log buffer for " +:+ name +:+ String "010" "")
  end.

Definition Quiesce : prog sup_ev (outcome unit) :=
  prog_bind (λ _, Vis (OnOs Sync) (λ _, done_))
    (println "[karim-vsockd] Guest snapshot quiesce requested: flushing filesystem buffers via syscall.Sync()...").

Definition Unquiesce : prog sup_ev (outcome unit) :=
  prog_bind (λ _, done_)
    (println "[karim-vsockd] Guest snapshot thaw requested: microVM state restored and active.").

(** Stop what has the name, register the new service, start it. *)
Definition launch (reg : registry) (spec : ServiceSpec) : prog sup_ev (outcome unit * registry) :=
  let ms := NewManagedService spec cgm in
  prog_bind (λ reg, prog_bind (λ '(ms, r), Ret (r, <[Name spec := ms]> reg)) (on_svc (Start ms)))
    match reg !! Name spec with
    | Some existing => prog_bind (λ _, Ret (<[Name spec := ms]> reg)) (on_svc (Service.Stop existing))
    | None => Ret (<[Name spec := ms]> reg)
    end.

Definition LoadService (reg : registry) (configTOML : string) : prog sup_ev (outcome unit * registry) :=
  match ParseServiceSpecFromBytes configTOML with
  | Err e => Ret (Err ("failed to parse service TOML payload: " +:+ e), reg)
  | Panic => Ret (Panic, reg)
  | Ok spec =>
      prog_bind (λ _, launch reg spec)
        (println ("[karim-vsockd] Hot-loading service " +:+ quote (Name spec) +:+ " from VSOCK payload..."))
  end.

Definition ApplyBundle {C : BundleCodec} (reg : registry) (bundleJSON : string)
    : prog sup_ev (outcome unit * registry) :=
  prog_bind (λ r,
    match r with
    | Err e => Ret (Err ("failed to prepare OCI bundle: " +:+ e), reg)
    | Panic => Ret (Panic, reg)
    | Ok spec =>
        prog_bind (λ _, launch reg spec)
          (println ("[karim-vsockd] Executing dynamic OCI container bundle " +:+ quote (Name spec) +:+ " (rootfs: " +:+
                    RootDir spec +:+ ")..."))
    end) (on_os (ParseAndPrepareOCIBundle bundleJSON)).
End provider.

(** ** Start and shutdown *)

Record vsockd_flags := { port : Z; socket : string; configDir : string }.
Definition default_vsockd_flags : vsockd_flags :=
  {| port := 1024; socket := "/run/karim/vsock.sock"; configDir := "/etc/karim/services" |}.

Definition vsockd_is_bool (name : string) : option bool :=
  if decide (name ∈ ["port"; "socket"; "config-dir"]) then Some false else None.

Definition vsockd_set (name v : string) (f : vsockd_flags) : option vsockd_flags :=
  if decide (name = "port") then n ← parse_uint0 v; Some {| port := n; socket := socket f; configDir := configDir f |}
  else if decide (name = "socket") then Some {| port := port f; socket := v; configDir := configDir f |}
  else Some {| port := port f; socket := socket f; configDir := v |}.

Inductive vd_ev : Type → Type :=
| OnSup {X} (e : sup_ev X) : vd_ev X
| ListenVSockPort (port : Z) : vd_ev (option string)
| ListenUnixAt (path : string) : vd_ev (option string)
| SpawnServe (what : string) : vd_ev unit
| WaitSignal : vd_ev string
| CloseServer : vd_ev unit
| RemoveFile (path : string) : vd_ev unit.

Definition on_sup {A} : prog sup_ev A → prog vd_ev A := translate (λ X e, OnSup e).
Definition say (text : string) : prog vd_ev unit := on_sup (println text).

(** One listener, with the notices for its error and its success. *)
Definition listen (e : vd_ev (option string)) (what failed active : string) : prog vd_ev unit :=
  Vis e (λ err, match err with
                | Some e => say (failed +:+ e)
                | None => prog_bind (λ _, Vis (SpawnServe what) Ret) (say active)
                end).

(** The exit code. *)
Definition vsockd_main (args : list string) : prog vd_ev Z :=
  match parse_flags vsockd_is_bool vsockd_set args default_vsockd_flags with
  | None => Ret (parse_exit vsockd_is_bool vsockd_set args default_vsockd_flags)
  | Some (f, _) =>
      prog_bind (λ _,
      prog_bind (λ '(cgm, reg),
        if is_panic reg then Ret 2%Z
        else
          Vis (OnSup (OnOs (MkdirAll (Dir (socket f)) 0x1ED))) (λ _,
          Vis (OnSup VSockSupported) (λ supported,
          prog_bind (λ _,
          prog_bind (λ _,
            Vis WaitSignal (λ sig,
            prog_bind (λ _, Vis CloseServer (λ _, Vis (RemoveFile (socket f)) (λ _, Ret 0%Z)))
              (say ("[karim-vsockd] Shutdown signal received (" +:+ sig +:+ "). Exiting..."))))
            (listen (ListenUnixAt (socket f)) "Unix"
               ("[karim-vsockd] Warning: failed to listen on Unix socket " +:+ socket f +:+ ": ")
               ("[karim-vsockd] Listening on Unix Domain Socket (" +:+ socket f +:+ ")")))
            (if supported : bool then
               listen (ListenVSockPort (wrap_u 32 (port f))) "VSock" "[karim-vsockd] VSock listener notice: "
                 ("[karim-vsockd] Listening on AF_VSOCK (CID ANY, Port " +:+ itoa (port f) +:+ ")")
             else say "[karim-vsockd] Notice: AF_VSOCK transport not available on host/guest kernel."))))
      (on_sup (newSvcdBridge (configDir f))))
      (say "[karim-vsockd] Guest Control Plane Daemon starting...")
  end.
End bridge.

(** * Properties *)

(** ** Reading the directory again *)

(** The specification of a name in the directory: the last one read. *)
Definition listed (specs : list ServiceSpec) (name : string) : option ServiceSpec :=
  last (filter (λ s, Name s = name) specs).

Lemma reload_lookup cgm specs reg name :
  foldl (reload_spec cgm) reg specs !! name =
    match listed specs name with
    | None => reg !! name
    | Some spec => Some (match reg !! name with
                         | Some ms => with_spec spec ms
                         | None => with_spec spec (NewManagedService spec cgm)
                         end)
    end.
Proof.
  unfold listed. induction specs as [|spec specs IH] using rev_ind; [done|].
  rewrite foldl_app. cbn [foldl]. rewrite filter_app. unfold reload_spec at 1.
  destruct (decide (Name spec = name)) as [Heq|Hne].
  - rewrite (filter_cons_True _ spec), filter_nil, last_snoc by done. rewrite Heq, IH.
    destruct (last _) as [spec'|]; destruct (reg !! name) as [ms|]; by rewrite lookup_insert_eq.
  - rewrite (filter_cons_False _ spec), filter_nil, app_nil_r, <-IH by done.
    by destruct (_ !! Name spec); rewrite lookup_insert_ne.
Qed.

(** What the daemon does with a process: state, command, counters. *)
Definition runtime (ms : ManagedService) : ProcessState * option Z * Z * bool * Z :=
  (State ms, Cmd ms, restartCount ms, exitCodeRecorded ms, recordedExitCode ms).

(** Reading the directory again neither starts, stops nor forgets a service: every
    registered one keeps its process and its counters; the services of the directory that
    were not registered are, stopped; and each service of the directory has the
    specification of the directory, so what was hot-loaded over one of them is undone,
    although its process still runs what was loaded. *)
Theorem reload_keeps_processes cgm specs reg name :
  let reg' := reload cgm (Ok specs) reg in
  (∀ ms, reg !! name = Some ms →
     reg' !! name = Some (match listed specs name with Some spec => with_spec spec ms | None => ms end) ∧
     runtime (match listed specs name with Some spec => with_spec spec ms | None => ms end) = runtime ms) ∧
  (reg !! name = None →
     reg' !! name = (λ spec, NewManagedService spec cgm) <$> listed specs name) ∧
  reload cgm (Ok specs) reg' = reg'.
Proof.
  intros reg'. unfold reg', reload. split_and!.
  - intros ms Hms. rewrite reload_lookup, Hms. by destruct (listed specs name).
  - intros Hn. rewrite reload_lookup, Hn. by destruct (listed specs name).
  - apply map_eq. intros n. rewrite !reload_lookup. destruct (listed specs n) as [spec|]; [|done].
    by destruct (reg !! n).
Qed.

(** A service that was hot-loaded with another command is listed with the old one. *)
Lemma reload_keeps_processes_witness :
  let disk := set_Exec (set_Name default_spec "web") "/bin/old" in
  let loaded := set_Exec (set_Name default_spec "web") "/bin/new" in
  let running := {| Spec := loaded; State := StateRunning; Cmd := Some 42%Z; CGroupMgr := true; restartCount := 0;
                    exitCodeRecorded := false; recordedExitCode := 0 |} in
  reload true (Ok [disk]) {["web" := running]} !! "web" = Some (with_spec disk running) ∧
  runtime (with_spec disk running) = runtime running.
Proof.
  intros disk loaded running.
  destruct (reload_keeps_processes true [disk] {["web" := running]} "web") as [H _].
  apply (H running). by vm_compute.
Defined.
