(* ===== verification/CliRpc.v ===== *)
(** * The command line: calls of the guest ([cmd/karim/main.go])

    The commands of [karim] that talk to the control plane: one connection, one request,
    one reply.  A command is a program that gives its exit code; [os.Exit] runs no deferred
    call, so the connection is closed only on the way out through a return. *)

From Stdlib Require Import Ascii SpecFloat.
From S2P Require Import Prelude GoStrings GoStrconv GoFloat GoFmt GoPath GoFlag Prog Protocol Server SvcConfig Obsd System Bundle.

Definition nl : string := String "010" "".

(** [Table] is what a [tabwriter] is given before its [Flush]. *)
Inductive path_info := PathMissing | PathError | PathFound (isdir : bool).

Inductive cli_ev : Type → Type :=
| Stdout (text : string) : cli_ev unit
| Stderr (text : string) : cli_ev unit
| Table (text : string) : cli_ev unit
| Connect (t : target) : cli_ev (reader + string)
| Transmit (data : string) : cli_ev (option string)
| Hangup : cli_ev unit
| ReadLocal (path : string) : cli_ev (string + string)
| StatLocal (path : string) : cli_ev path_info.

Definition print (text : string) (k : prog cli_ev Z) : prog cli_ev Z := Vis (Stdout text) (λ _, k).
Definition println (text : string) (k : prog cli_ev Z) : prog cli_ev Z := print (text +:+ nl) k.
Fixpoint println_all (ls : list string) (k : prog cli_ev Z) : prog cli_ev Z :=
  match ls with [] => k | l :: ls => println l (println_all ls k) end.
(** [fmt.Fprintf(os.Stderr, ...); os.Exit(1)] *)
Definition fail (text : string) : prog cli_ev Z := Vis (Stderr (text +:+ nl)) (λ _, Ret 1%Z).
Definition finish : prog cli_ev Z := Ret 0%Z.

Record HistData := { hd_Name : string; hd_Slots : list Z; hd_TotalCount : Z; hd_LastUpdated : string }.
Record ObsdResponseData := {
  od_IsLoaded : bool; od_FallbackMode : bool; od_Runq : HistData; od_Bio : HistData; od_Prom : string }.

(** [encoding/json] on what arrives: the data of a response printed with [%v], encoded
    again, and decoded as one of the types a command expects (the errors of [as_services]
    and [as_metrics] are ignored by the program); [clock] and [datetime] are
    [time.Time.Format] on the decoded times. *)
Class CliCodec := {
  show_data : resp_data → string;
  data_json : resp_data → string;
  as_services : resp_data → list ServiceInfo;
  as_metrics : resp_data → SystemMetrics;
  as_obsd : resp_data → option ObsdResponseData;
  as_status : resp_data → option SystemStatus;
  decode_event : string → option ExecEvent;
  clock : Z → string;
  datetime : Z → string;
  decode_spec : string → OCISpec + string;
  encode_bundle : OCIContainerBundle → string + string
}.

(** ** Connections *)

Definition cli_write (X : Type) (e : write_ev X) : cli_ev X := match e with Write data => Transmit data end.
Definition cli_frame (payload : string) : prog cli_ev (outcome unit) := translate cli_write (WriteFrame payload).

Section rpc.
Context {UT : UnicodeTables} {J : JsonCodec} {CC : CliCodec}.

(** [vsockd.Dial] *)
Definition cli_dial (address : string) : prog cli_ev (outcome reader) :=
  t ←! Ret (Dial address);
  Vis (Connect t) (λ r, Ret (of_sum r)).

(** Write a request, read the reply. *)
Definition exchange (req : RPCRequest) (conn : reader) : prog cli_ev (outcome RPCResponse) :=
  _ ←! wrapping "failed writing request frame: " (cli_frame (encode_request req));
  '(respBytes, _) ←! Ret (wrap_err "failed reading response frame: " (ReadFrame conn));
  Ret (wrap_err "failed decoding response: " (of_sum (decode_response respBytes))).

Definition request (id command service payload : string) : RPCRequest :=
  {| ID := id; Command := command; Service := service; Protocol.Args := []; Payload := payload |}.

Definition sendRPC (targetAddr command service : string) : prog cli_ev (outcome RPCResponse) :=
  conn ←! wrapping ("failed connecting to " +:+ targetAddr +:+ ": ") (cli_dial targetAddr);
  prog_bind (λ r, Vis Hangup (λ _, Ret r)) (exchange (request "req-1" command service "") conn).

(** The steps the commands share: an error of the call, an error of the server, or the
    reply.  (A panic is the run-time's exit code.) *)
Definition call (target command service failed refused : string) (k : RPCResponse → prog cli_ev Z) : prog cli_ev Z :=
  prog_bind (λ r,
    match r with
    | Err e => fail (failed +:+ ": " +:+ e)
    | Panic => Ret 2%Z
    | Ok resp => if Success resp then k resp else fail (refused +:+ ": " +:+ Error resp)
    end) (sendRPC target command service).

Definition runPing (target : string) : prog cli_ev Z :=
  call target "ping" "" "Ping failed" "Ping error" (λ resp,
    println ("[karim-cli] Connection to " +:+ target +:+ " successful: " +:+ show_data (Data resp)) finish).

Definition tab : string := String "009" "".
Definition table_row (cells : list string) : string := str_join tab cells +:+ nl.
Definition table (rows : list (list string)) (k : prog cli_ev Z) : prog cli_ev Z :=
  Vis (Table (str_join "" (table_row <$> rows))) (λ _, k).

Definition service_row (s : ServiceInfo) : list string :=
  [si_Name s; si_State s; itoa (si_PID s); si_Exec s;
   if (0 <? si_MemoryLimit s)%Z then itoa (si_MemoryLimit s / (1024 * 1024)) +:+ "MB" else "unlimited";
   si_SeccompProfile s; si_Restart s].

Definition runPS (target : string) : prog cli_ev Z :=
  call target "list_services" "" "Error listing services" "Server error" (λ resp,
    match as_services (Data resp) with
    | [] => println "No active services reported by supervisor." finish
    | services =>
        table (["SERVICE"; "STATE"; "PID"; "EXEC"; "MEMORY"; "SECCOMP"; "RESTART"] ::
               ["-------"; "-----"; "---"; "----"; "------"; "-------"; "-------"] :: (service_row <$> services)) finish
    end).

Definition show_reply (resp : RPCResponse) : prog cli_ev Z :=
  println ("[karim-cli] " +:+ show_data (Data resp)) finish.

Definition runStart (target service : string) : prog cli_ev Z :=
  call target "start_service" service ("Error starting service " +:+ service) "Server error" show_reply.

Definition runStop (target service : string) : prog cli_ev Z :=
  call target "stop_service" service ("Error stopping service " +:+ service) "Server error" show_reply.

Definition runLogs (target service : string) : prog cli_ev Z :=
  call target "get_logs" service ("Error fetching logs for " +:+ service) "Server error" (λ resp,
    print (show_data (Data resp)) finish).

Definition megabytes (n : Z) : string := f64_fixed 2 (f64_div (f64_of_Z n) (f64_of_Z (1024 * 1024))).

Definition runMetrics (target : string) : prog cli_ev Z :=
  call target "get_metrics" "" "Error fetching metrics" "Server error" (λ resp,
    let m := as_metrics (Data resp) in
    println_all
      ["=== Karim MicroVM Guest Performance Metrics ===";
       "  Guest Uptime:        " +:+ f64_fixed 2 (Protocol.UptimeSeconds m) +:+ " seconds";
       "  Active Goroutines:   " +:+ itoa (NumGoroutine m);
       "  Memory Allocated:    " +:+ megabytes (MemoryAlloc m) +:+ " MB";
       "  Memory System:       " +:+ megabytes (MemorySys m) +:+ " MB";
       "  Managed Services:    " +:+ itoa (NumServices m)] finish).

(** ** Telemetry *)

Definition getSlotRange (idx : nat) : string :=
  if decide (idx = 0) then "0 -> 1 us"
  else
    let low := (2 ^ (Z.of_nat idx - 1))%Z in
    let high := (2 ^ Z.of_nat idx)%Z in
    if decide (19 ≤ idx) then itoa low +:+ "+ us" else itoa low +:+ " -> " +:+ itoa high +:+ " us".

Definition max_count (slots : list Z) : Z := foldl (λ m c, if (m <? c)%Z then c else m) 0%Z slots.

(** The length of a bar; the product is of unsigned 64-bit integers. *)
Definition barLen (count maxCount : Z) : Z :=
  let n := if (0 <? maxCount)%Z then (wrap_u 64 (count * 35) / maxCount)%Z else 0%Z in
  if ((n =? 0) && (0 <? count))%Z then 1%Z else n.

Definition histogram_row (maxCount : Z) (i : nat) (count : Z) : option (list string) :=
  if (count =? 0)%Z then None
  else Some [getSlotRange i; itoa count; str_repeat (Z.to_nat (barLen count maxCount)) "█"].

Definition printHistogram (title : string) (hist : HistData) (k : prog cli_ev Z) : prog cli_ev Z :=
  print (nl +:+ "--- " +:+ title +:+ " ---" +:+ nl)
    (if (hd_TotalCount hist =? 0)%Z then println "  (No events recorded in kernel histogram buffer)" k
     else
       table (["LATENCY RANGE"; "COUNT"; "DISTRIBUTION"] :: ["-------------"; "-----"; "------------"] ::
              omap id (imap (histogram_row (max_count (hd_Slots hist))) (hd_Slots hist))) k).

Definition rule : string := "======================================================================".

Definition runObsd (target : string) : prog cli_ev Z :=
  call target "obsd" "" "Error fetching obsd telemetry" "Server error" (λ resp,
    match as_obsd (Data resp) with
    | None => println_all ["=== Karim MicroVM eBPF Telemetry Raw Output ==="; data_json (Data resp)] finish
    | Some data =>
        let statusStr := if od_FallbackMode data || negb (od_IsLoaded data)
                         then "ACTIVE (Simulation Telemetry Fallback Mode)"
                         else "ACTIVE (Kernel CO-RE BTF probes loaded)" in
        println_all
          [rule; "        Karim MicroVM OS — eBPF Observability Engine Telemetry        "; rule;
           "Probe Status:     " +:+ statusStr;
           "Kernel Probes:    sched_process_exec (ringbuffer)";
           "                  sched_wakeup / sched_switch (runqlat)";
           "                  block_rq_issue / block_rq_complete (biolatency)"]
          (printHistogram "CPU Scheduler Run-Queue Latency (sched_runq_latency)" (od_Runq data)
          (printHistogram "Block I/O Completion Latency (block_io_latency)" (od_Bio data)
          (print (nl +:+ rule +:+ nl) finish)))
    end).

(** The eight rounds of [runTrace]. *)
Fixpoint trace_rounds (count : nat) (conn : reader) (k : prog cli_ev Z) : prog cli_ev Z :=
  match count with
  | O => k
  | S count =>
      match ReadFrame conn with
      | Ok (frame, conn) =>
          match decode_event frame with
          | None => trace_rounds count conn k
          | Some ev =>
              table [[clock (Obsd.Timestamp ev); itoa (PID ev); itoa (PPID ev); Comm ev; Filename ev]]
                (trace_rounds count conn k)
          end
      | _ => k
      end
  end.

Definition runTrace (target : string) : prog cli_ev Z :=
  prog_bind (λ r,
    match r with
    | Err e => fail ("Failed connecting to " +:+ target +:+ ": " +:+ e)
    | Panic => Ret 2%Z
    | Ok conn =>
        prog_bind (λ w,
          match w with
          | Ok _ =>
              match ReadFrame conn with
              | Ok (respFrame, conn) =>
                  let stream :=
                    println_all [rule; "        Karim MicroVM OS — Traced Process Execution Stream            "; rule]
                      (table [["TIME"; "PID"; "PPID"; "COMM"; "FILENAME"]; ["----"; "---"; "----"; "----"; "--------"]]
                        (trace_rounds 8 conn (println rule (Vis Hangup (λ _, finish))))) in
                  match decode_response respFrame with
                  | inl initResp => if Success initResp then stream else fail ("Server error: " +:+ Error initResp)
                  | inr _ => stream
                  end
              | Err e => fail ("Failed reading response frame: " +:+ e)
              | Panic => Ret 2%Z
              end
          | Err e => fail ("Failed sending trace request: " +:+ e)
          | Panic => Ret 2%Z
          end) (cli_frame (encode_request (request "trace-1" "trace" "" "")))
    end) (cli_dial target).

Definition runSystem (target : string) : prog cli_ev Z :=
  call target "get_system_status" "" "Error fetching system status" "Server error" (λ resp,
    match as_status (Data resp) with
    | None => println ("Raw system status data: " +:+ data_json (Data resp)) finish
    | Some sys =>
        println_all
          ([rule; "    Karim MicroVM OS — Phase 9 System, Entropy & RTC Hardening Status "; rule;
            "  Kernel Entropy Pool:  " +:+ itoa (EntropyAvail sys) +:+
              (if (EntropyAvail sys <? 1000)%Z then " bits (LOW)" else " bits (HEALTHY)");
            "  Real-Time Clock:      " +:+
              (if RTCSynced sys then "ACTIVE (/dev/rtc0 hardware clock)" else "DISABLED / ABSENT");
            "  Current Guest Time:   " +:+ datetime (CurrentTime sys);
            "  Debug Shell Mode:     " +:+
              (if DebugMode sys then "ACTIVE (karim.debug=1 cmdline flag set)" else "DISABLED (Production Mode)");
            "  Guest Uptime:         " +:+ f64_fixed 2 (f64_of_Z (System.UptimeSeconds sys)) +:+ " seconds"] ++
           (if decide (KernelCmdline sys = "") then [] else ["  Kernel Command Line:  " +:+ KernelCmdline sys]) ++
           [rule]) finish
    end).

(** ** Loading services *)

(** The last part of [runApply], [runRun] and [runApplyBundle]: send a payload, report. *)
Definition submit (target : string) (req : RPCRequest) (refused : string) (k : RPCResponse → prog cli_ev Z)
    : prog cli_ev Z :=
  prog_bind (λ r,
    match r with
    | Err e => fail ("Error: failed connecting to " +:+ target +:+ ": " +:+ e)
    | Panic => Ret 2%Z
    | Ok conn =>
        prog_bind (λ r,
          match r with
          | Err e => fail ("Error: " +:+ e)
          | Panic => Ret 2%Z
          | Ok resp =>
              if Success resp then prog_bind (λ code, Vis Hangup (λ _, Ret code)) (k resp)
              else fail (refused +:+ ": " +:+ Error resp)
          end) (exchange req conn)
    end) (cli_dial target).

Definition runApply (target tomlPath : string) : prog cli_ev Z :=
  Vis (ReadLocal tomlPath) (λ r,
    match r with
    | inr e => fail ("Error: failed to read TOML file " +:+ quote tomlPath +:+ ": " +:+ e)
    | inl toml =>
        if decide (trim_space toml = "") then fail ("Error: TOML file " +:+ quote tomlPath +:+ " is empty (0 bytes).")
        else
          submit target (request "apply-1" "load_service" "" toml) "Error from guest supervisor" (λ resp,
            println_all
              ["[karim-cli] " +:+ show_data (Data resp);
               "[karim-cli] Service from " +:+ quote (Base tomlPath) +:+ " is now running on " +:+ target] finish)
    end).

Record run_flags := { name : string; execCmd : string; memory : string; restart : string; seccomp : string }.
Definition default_run_flags : run_flags :=
  {| name := ""; execCmd := ""; memory := ""; restart := "on-failure"; seccomp := "app-default" |}.

Definition run_is_bool (flag : string) : option bool :=
  if decide (flag ∈ ["name"; "exec"; "memory"; "restart"; "seccomp"]) then Some false else None.

Definition run_set (flag v : string) (f : run_flags) : option run_flags :=
  Some (if decide (flag = "name") then
    {| name := v; execCmd := execCmd f; memory := memory f; restart := restart f; seccomp := seccomp f |}
  else if decide (flag = "exec") then
    {| name := name f; execCmd := v; memory := memory f; restart := restart f; seccomp := seccomp f |}
  else if decide (flag = "memory") then
    {| name := name f; execCmd := execCmd f; memory := v; restart := restart f; seccomp := seccomp f |}
  else if decide (flag = "restart") then
    {| name := name f; execCmd := execCmd f; memory := memory f; restart := v; seccomp := seccomp f |}
  else
    {| name := name f; execCmd := execCmd f; memory := memory f; restart := restart f; seccomp := v |}).

(** One line of the specification that [runRun] writes. *)
Definition run_line (key value : string) : string := key +:+ " = " +:+ quote value.

Definition run_toml (f : run_flags) : string :=
  document (["# Generated by karim run"; run_line "name" (name f); run_line "exec" (execCmd f);
             run_line "restart" (restart f); run_line "seccomp_profile" (seccomp f)] ++
            (if decide (memory f = "") then [] else [run_line "memory_limit" (memory f)])).

Definition runRun (target : string) (cmdArgs : list string) : prog cli_ev Z :=
  match parse_flags run_is_bool run_set cmdArgs default_run_flags with
  | None => Ret (parse_exit run_is_bool run_set cmdArgs default_run_flags)
  | Some (f, _) =>
      if decide (name f = "") then fail "Error: --name is required. Usage: karim run --name <svc> --exec <cmd>"
      else if decide (execCmd f = "") then fail "Error: --exec is required. Usage: karim run --name <svc> --exec <cmd>"
      else
        submit target (request "run-1" "run_service" (name f) (run_toml f)) "Error from guest supervisor" (λ resp,
          println_all
            ["[karim-cli] " +:+ show_data (Data resp);
             "[karim-cli] Use 'karim ps' to confirm the service is running.";
             "[karim-cli] Use 'karim logs " +:+ name f +:+ "' to view its output."] finish)
  end.

(** Where the specification is and what the bundle is called. *)
Definition bundle_place (bundlePath bundleID : string) (info : path_info) : string * string :=
  match info with
  | PathFound true =>
      (Join [bundlePath; "config.json"],
       if decide (bundleID = "oci-container") then Base (Clean bundlePath) else bundleID)
  | _ => (bundlePath, bundleID)
  end.

Definition runApplyBundle (target bundlePath : string) (args : list string) : prog cli_ev Z :=
  let bundleID := match args with id :: _ => id | [] => "oci-container" end in
  Vis (StatLocal bundlePath) (λ info,
    let '(configPath, bundleID) := bundle_place bundlePath bundleID info in
    Vis (ReadLocal configPath) (λ r,
      match r with
      | inr e => fail ("Error: failed reading OCI spec " +:+ quote configPath +:+ ": " +:+ e)
      | inl config =>
          match decode_spec config with
          | inr e => fail ("Error: invalid OCI config.json spec " +:+ quote configPath +:+ ": " +:+ e)
          | inl spec =>
              match encode_bundle {| BundleID := bundleID; BundleSpec := Some spec; LowerDirs := [];
                                     RootfsTar := ""; BundleRestart := "" |} with
              | inr e => fail ("Error: failed encoding bundle payload: " +:+ e)
              | inl payload =>
                  submit target (request "bundle-1" "apply_bundle" bundleID payload) "❌ Error applying OCI bundle"
                    (λ resp, println ("✅ " +:+ show_data (Data resp)) finish)
              end
          end
      end)).
End rpc.

(** * Properties *)

(** ** Services from flags *)

Section run.
Context {UT : UnicodeTables}.

(** A memory limit: none, or a number with one of the suffixes. *)
Definition memory_ok (memory : string) (limit : Z) : Prop :=
  (memory = "" ∧ limit = 0%Z) ∨
  ∃ n suf unit, (0 ≤ n ≤ MaxInt64)%Z ∧ (suf, unit) ∈ mem_suffixes ∧
    memory = itoa n +:+ suf ∧ limit = wrap_s 64 (n * unit).

Definition run_entries (f : run_flags) : list (string * string) :=
  [("name", name f); ("exec", execCmd f); ("restart", restart f); ("seccomp_profile", seccomp f)] ++
  (if decide (memory f = "") then [] else [("memory_limit", memory f)]).

(** Printable ASCII without quotes and backslashes, on lines the scanner takes. *)
Definition run_ok (f : run_flags) : Prop :=
  name f ≠ "" ∧ execCmd f ≠ "" ∧
  Forall (λ e, str_forall plain e.2 = true ∧
               (Z.of_nat (String.length (kv_line (e.1, quoted e.2))) < MaxScanTokenSize)%Z) (run_entries f).

Definition run_spec (f : run_flags) (limit : Z) : ServiceSpec :=
  set_MemoryLimit (set_SeccompProfile (set_Restart (set_Exec (set_Name default_spec (name f)) (execCmd f))
    (restart f)) (seccomp f)) limit.

Lemma run_toml_entries f :
  run_ok f → run_toml f = document ("# Generated by karim run" :: (kv_line <$> (prod_map id quoted <$> run_entries f))).
Proof.
  intros (_ & _ & H). unfold run_toml, run_line. cbn [app]. f_equal. f_equal. unfold run_entries in *.
  apply Forall_app in H as [H Hm]. decompose_Forall_hyps.
  rewrite !quote_plain by tauto. destruct (decide (memory f = "")); [done|].
  decompose_Forall_hyps. by rewrite quote_plain by tauto.
Qed.

Lemma run_entries_ok f :
  run_ok f → Forall (λ e, entry_ok e = true) (prod_map id quoted <$> run_entries f).
Proof.
  intros (_ & _ & H). apply Forall_fmap. apply Forall_forall. intros [k v] Hin.
  rewrite Forall_forall in H. destruct (H _ Hin) as [Hp Hl]. cbn in *.
  assert (k ∈ ["name"; "exec"; "restart"; "seccomp_profile"; "memory_limit"]) as Hk.
  { unfold run_entries in Hin. cbn [app] in Hin.
    do 4 (apply elem_of_cons in Hin as [[= -> ->]|Hin]; [by apply (bool_decide_unpack _)|]).
    destruct (decide _); [by apply not_elem_of_nil in Hin|].
    apply list_elem_of_singleton in Hin as [= -> ->]. by apply (bool_decide_unpack _). }
  assert (str_forall no_eol k = true ∧ key_ok k = true) as [Hke Hko].
  { repeat (apply elem_of_cons in Hk as [->|Hk]; [done|]). by apply not_elem_of_nil in Hk. }
  unfold entry_ok. cbn [fst snd]. rewrite Hko, value_ok_quoted by done.
  apply no_eol_line_ok; [done|by apply quoted_no_eol|]. lia.
Qed.

(** C31: what [karim run] writes is what the guest reads: for flags of printable ASCII
    without quotes and backslashes, the specification the command sends is parsed to the
    service with exactly the name, program, policy, profile and memory limit of the flags,
    and the defaults for the rest. *)
Theorem run_toml_parsed f limit :
  run_ok f → memory_ok (memory f) limit →
  ParseServiceSpecFromBytes (run_toml f) = Ok (run_spec f limit).
Proof.
  intros Hok Hmem. unfold ParseServiceSpecFromBytes. rewrite run_toml_entries by done.
  pose proof (run_entries_ok f Hok) as Hes.
  rewrite scan_document.
  2:{ apply Forall_cons. split; [by vm_compute|by apply entries_lines_ok]. }
  cbn [fold_m]. assert (parse_line parse_init "# Generated by karim run" =
    Ok {| p_spec := default_spec; p_section := ""; p_line := 1 |}) as -> by done.
  cbn [mbind outcome_bind]. rewrite parse_entries by done.
  assert (∃ n, fold_m apply_entry (default_spec, 1%Z) (prod_map id quoted <$> run_entries f) = Ok (run_spec f limit, n))
    as [n ->].
  { unfold run_entries. cbn [app fmap list_fmap prod_map fst snd id].
    do 4 (cbn [fold_m]; rewrite apply_entry_eq; autorewrite with svc_keys; rewrite unquote_plain; cbn [mbind outcome_bind]).
    destruct (decide (memory f = "")) as [Hm|Hm]; cbn [fmap list_fmap prod_map fst snd id fold_m].
    - destruct Hmem as [[_ ->]|(k & suf & u & Hk & _ & Hm' & _)]; [by eexists|].
      destruct (itoa_digits k) as [_ Hne]; [lia|]. rewrite Hm in Hm'. by destruct (itoa k).
    - destruct Hmem as [[? _]|(k & suf & u & Hk & Hin & Hm' & ->)]; [done|].
      rewrite apply_entry_eq. autorewrite with svc_keys. rewrite unquote_plain, Hm'. cbn [mbind outcome_bind].
      rewrite (parseMemoryLimit_suffix k suf u) by done. rewrite bad_value_ok. cbn [mbind outcome_bind]. by eexists. }
  cbn [mbind outcome_bind fst snd scanner_err p_spec]. destruct Hok as (Hn & He & _).
  by rewrite !decide_False.
Qed.
End run.

Lemma run_toml_parsed_witness :
  let f := {| name := "web"; execCmd := "/bin/httpd"; memory := "64MB"; restart := "always"; seccomp := "net-service" |} in
  @ParseServiceSpecFromBytes no_tables (@run_toml no_tables f) = Ok (run_spec f 67108864).
Proof.
  intros f. apply (@run_toml_parsed no_tables f).
  - split_and!; [done..|]. by repeat (apply Forall_cons; split; [split; [done|by vm_compute]|]).
  - right. exists 64%Z, "MB", 1048576%Z. split_and!; [lia|lia|by apply (bool_decide_unpack _)|done|done].
Defined.


(** ** What the commands ask for *)

Section commands.
Context {UT : UnicodeTables} {J : JsonCodec} {CC : CliCodec}.

(** A guest that can be reached and answers [r]; [file] is what every local file holds.
    The state is what was sent. *)
Definition talk (r : reader) (file : string) : env_rel cli_ev string := λ X e s x s',
  match e in cli_ev Y return Y → Prop with
  | Connect _ => λ c, c = inl r ∧ s' = s
  | Transmit d => λ w, w = None ∧ s' = s +:+ d
  | ReadLocal _ => λ c, c = inl file ∧ s' = s
  | _ => λ _, s' = s
  end x.

(** The guest reports success. *)
Definition success (r : reader) : bool :=
  match ReadFrame r with
  | Ok (b, _) => match decode_response b with inl resp => Success resp | inr _ => false end
  | _ => false
  end.

(** A command sends one request and its exit code is what became of it. *)
Definition asks (r : reader) (file : string) (p : prog cli_ev Z) (q : RPCRequest) : Prop :=
  wp (talk r file) p (λ code sent, sent = wire_frame (encode_request q) ∧ code = if success r then 0%Z else 1%Z) "".

(** Printing what a reply holds. *)
Definition shows (p : prog cli_ev Z) : Prop :=
  ∀ r file s, wp (talk r file) p (λ code s', code = 0%Z ∧ s' = s) s.

Lemma shows_finish : shows finish.
Proof. done. Qed.
Lemma shows_print text k : shows k → shows (print text k).
Proof. intros Hk r file s [] s' ->. apply Hk. Qed.
Lemma shows_println text k : shows k → shows (println text k).
Proof. apply shows_print. Qed.
Lemma shows_println_all ls k : shows k → shows (println_all ls k).
Proof. intros Hk. induction ls as [|l ls IH]; [done|]. by apply shows_println. Qed.
Lemma shows_table rows k : shows k → shows (table rows k).
Proof. intros Hk r file s [] s' ->. apply Hk. Qed.
Lemma shows_histogram title h k : shows k → shows (printHistogram title h k).
Proof.
  intros Hk. apply shows_print. destruct (hd_TotalCount h =? 0)%Z; [by apply shows_println|by apply shows_table].
Qed.

Lemma wp_fail r file text s (Q : Z → string → Prop) : Q 1%Z s → wp (talk r file) (fail text) Q s.
Proof. intros HQ [] s' ->. exact HQ. Qed.

Lemma wp_cli_frame r file payload s (Q : outcome unit → string → Prop) :
  Q (Ok tt) (s +:+ wire_frame payload) → wp (talk r file) (cli_frame payload) Q s.
Proof.
  intros HQ. unfold cli_frame, WriteFrame, wire_frame in *. cbn. intros w s1 [-> ->]. cbn.
  destruct (0 <? frame_length payload)%Z; cbn.
  - intros w s2 [-> ->]. cbn. by rewrite str_app_assoc.
  - by rewrite str_app_nil_r in HQ.
Qed.

Lemma ReadFrame_no_panic r : ReadFrame r ≠ Panic.
Proof.
  assert (∀ cs n got e, read_full n got cs e ≠ Panic) as Hfull.
  { induction cs as [|c cs IH]; intros [|n] got e; cbn [read_full]; [done..|]. case_match; [apply IH|done]. }
  assert (∀ n r, ReadFull n r ≠ Panic) as Hn.
  { intros n r'. unfold ReadFull. specialize (Hfull (chunks r') n "" (stream_ends r')).
    by destruct (read_full _ _ _ _) as [[? ?]| |]. }
  unfold ReadFrame. pose proof (Hn 4 r). destruct (ReadFull 4 r) as [[h r1]| |]; cbn; [|done..].
  destruct (MaxFrameSize <? _)%Z; [done|]. destruct (0 <? _)%Z; [|done].
  pose proof (Hn (Z.to_nat (un_be32 h)) r1). by destruct (ReadFull _ r1).
Qed.

(** The reply read, and whether it is one of success. *)
Lemma wp_exchange r file req s (Q : outcome RPCResponse → string → Prop) :
  (∀ resp, success r = Success resp → Q (Ok resp) (s +:+ wire_frame (encode_request req))) →
  (∀ e, success r = false → Q (Err e) (s +:+ wire_frame (encode_request req))) →
  wp (talk r file) (exchange req r) Q s.
Proof.
  intros Hok Herr. unfold exchange. apply wp_ebind, wp_wrapping, wp_cli_frame. cbn [wrap_err].
  unfold success in *. pose proof (ReadFrame_no_panic r).
  destruct (ReadFrame r) as [[b r']|e|]; cbn; [|by apply Herr|done].
  destruct (decode_response b) as [resp|e]; cbn; [by apply Hok|by apply Herr].
Qed.

Lemma wp_cli_dial r file target t (Q : outcome reader → string → Prop) s :
  Dial target = Ok t → Q (Ok r) s → wp (talk r file) (cli_dial target) Q s.
Proof. intros Ht HQ. unfold cli_dial. rewrite Ht. cbn. by intros c s' [-> ->]. Qed.

Lemma asks_call r file target t command service failed refused k :
  Dial target = Ok t → (∀ resp, shows (k resp)) →
  asks r file (call target command service failed refused k) (request "req-1" command service "").
Proof.
  intros Ht Hk. unfold asks, call, sendRPC. apply wp_bind, wp_ebind, wp_wrapping, wp_cli_dial with t; [done|].
  cbn [wrap_err]. apply wp_bind, wp_exchange.
  - intros resp Hs [] s' ->. cbn [wp]. rewrite Hs. destruct (Success resp).
    + eapply wp_mono; [|apply Hk]. by intros code s' [-> ->].
    + by apply wp_fail.
  - intros e Hs [] s' ->. cbn [wp]. apply wp_fail. by rewrite Hs.
Qed.

Lemma refused_call r file bad e command service failed refused k :
  Dial bad = Err e →
  wp (talk r file) (call bad command service failed refused k) (λ code sent, sent = "" ∧ code = 1%Z) "".
Proof.
  intros He. unfold call, sendRPC. apply wp_bind, wp_ebind, wp_wrapping. unfold cli_dial. rewrite He. cbn [wp].
  cbn [ebind prog_bind wp wrap_err]. by apply wp_fail.
Qed.

Lemma asks_submit r file target t req refused k :
  Dial target = Ok t → (∀ resp, shows (k resp)) → asks r file (submit target req refused k) req.
Proof.
  intros Ht Hk. unfold asks, submit. apply wp_bind, wp_cli_dial with t; [done|]. apply wp_bind, wp_exchange.
  - intros resp Hs. rewrite Hs. destruct (Success resp); [|by apply wp_fail].
    apply wp_bind. eapply wp_mono; [|apply Hk]. intros code s' [-> ->] [] s'' ->. done.
  - intros e Hs. apply wp_fail. by rewrite Hs.
Qed.

(** The commands that send a request, with it and with what it changes in the guest. *)
Definition rpc_commands (target service : string) : list (prog cli_ev Z * RPCRequest * option mutation) :=
  [(runPing target, request "req-1" "ping" "" "", None);
   (runPS target, request "req-1" "list_services" "" "", None);
   (runStart target service, request "req-1" "start_service" service "", Some (MStart service));
   (runStop target service, request "req-1" "stop_service" service "", Some (MStop service));
   (runLogs target service, request "req-1" "get_logs" service "", None);
   (runMetrics target, request "req-1" "get_metrics" "" "", None);
   (runObsd target, request "req-1" "obsd" "" "", None);
   (runSystem target, request "req-1" "get_system_status" "" "", None)].

(** What the requests of the commands ask for. *)
Lemma requested_of id command service payload c :
  command_of command = Some c →
  requested (request id command service payload) =
    match c with
    | CStart => if decide (service = "") then None else Some (MStart service)
    | CStop => if decide (service = "") then None else Some (MStop service)
    | CQuiesce => Some MQuiesce
    | CUnquiesce => Some MUnquiesce
    | CLoad | CRun => if decide (payload = "") then None else Some (MLoad payload)
    | CBundle => if decide (payload = "") then None else Some (MBundle payload)
    | _ => None
    end.
Proof. intros Hc. unfold requested. cbn [Command request]. rewrite Hc. by destruct c. Qed.

Ltac requested_tac c :=
  rewrite (requested_of _ _ _ _ c) by (by vm_compute); rewrite ?decide_False by done; done.

Ltac shows_tac :=
  repeat first [apply shows_finish | apply shows_println | apply shows_print | apply shows_println_all
               | apply shows_table | apply shows_histogram | progress case_match].

(** What [karim bundle] sends for a specification, under the name [id]. *)
Definition sent_bundle (id : string) (spec : OCISpec) : OCIContainerBundle :=
  {| BundleID := id; BundleSpec := Some spec; LowerDirs := []; RootfsTar := ""; BundleRestart := "" |}.

(** The name a bundle gets: the one given, or the default one; a directory under the
    default name gives its own. *)
Definition bundle_name (names : list string) (bundlePath : string) (isdir : bool) : string :=
  let given := match names with id :: _ => id | [] => "oci-container" end in
  if isdir && bool_decide (given = "oci-container") then Base (Clean bundlePath) else given.

(** C30: a command of the command line asks the guest for exactly what it says and reports
    exactly what became of it: against a guest that can be reached, it sends one request,
    the guest's dispatcher is asked by it for that one change and no other, and the exit
    code is 0 when the reply that is read reports success and 1 otherwise.  Where the
    address is not one, nothing is sent and the exit code is 1.  A bundle is sent under its
    name, as the encoder writes it with that name in it; one that cannot be encoded is not
    sent and the exit code is 1. *)
Theorem commands_carried_out target t bad e service r file args f rest bundlePath names spec :
  Dial target = Ok t → Dial bad = Err e → service ≠ "" → trim_space file ≠ "" →
  parse_flags run_is_bool run_set args default_run_flags = Some (f, rest) → name f ≠ "" → execCmd f ≠ "" →
  decode_spec file = inl spec →
  Forall (λ '(p, q, m), asks r file p q ∧ requested q = m) (rpc_commands target service) ∧
  Forall (λ '(p, _, _), wp (talk r file) p (λ code sent, sent = "" ∧ code = 1%Z) "") (rpc_commands bad service) ∧
  (asks r file (runApply target bundlePath) (request "apply-1" "load_service" "" file) ∧
   requested (request "apply-1" "load_service" "" file) = Some (MLoad file)) ∧
  (asks r file (runRun target args) (request "run-1" "run_service" (name f) (run_toml f)) ∧
   requested (request "run-1" "run_service" (name f) (run_toml f)) = Some (MLoad (run_toml f))) ∧
  (wp (talk r file) (runApplyBundle target bundlePath names) (λ code sent, ∃ isdir,
     let id := bundle_name names bundlePath isdir in
     match encode_bundle (sent_bundle id spec) with
     | inl payload =>
         let q := request "bundle-1" "apply_bundle" id payload in
         sent = wire_frame (encode_request q) ∧ (payload ≠ "" → requested q = Some (MBundle payload)) ∧
         code = if success r then 0%Z else 1%Z
     | inr _ => sent = "" ∧ code = 1%Z
     end) "").
Proof.
  intros Ht Hbad Hsvc Hfile Hargs Hname Hexec Hspec.
  assert (file ≠ "") as Hfile0 by (by intros ->).
  split; [|split_and!].
  - repeat (apply Forall_cons; split; [|]); [..|constructor].
    all: split; [apply asks_call with t; [done|intros resp; shows_tac]|].
    + requested_tac CPing.
    + requested_tac CList.
    + requested_tac CStart.
    + requested_tac CStop.
    + requested_tac CLogs.
    + requested_tac CMetrics.
    + requested_tac CObsd.
    + requested_tac CStatus.
  - repeat (apply Forall_cons; split; [|]); [..|constructor]; by apply refused_call with e.
  - intros c s' [-> ->]. rewrite decide_False by done.
    apply asks_submit with t; [done|intros resp; shows_tac].
  - requested_tac CLoad.
  - unfold runRun, asks. rewrite Hargs, !decide_False by done. apply asks_submit with t; [done|intros resp; shows_tac].
  - assert (run_toml f ≠ "") as Hrun by done. requested_tac CRun.
  - intros info s' ->.
    set (given := match names with id :: _ => id | [] => "oci-container" end).
    assert (∃ config isdir, bundle_place bundlePath given info = (config, bundle_name names bundlePath isdir))
      as (config & isdir & ->).
    { destruct info as [| |[]]; cbn [bundle_place]; [by eexists _, false..| |by eexists _, false].
      eexists _, true. unfold bundle_name. fold given. cbn [andb]. f_equal.
      by destruct (decide (given = "oci-container")) as [H|H]; [rewrite bool_decide_true|rewrite bool_decide_false]. }
    intros c s' [-> ->]. rewrite Hspec. fold (sent_bundle (bundle_name names bundlePath isdir) spec).
    destruct (encode_bundle (sent_bundle (bundle_name names bundlePath isdir) spec)) as [payload|err] eqn:Henc.
    + eapply wp_mono; [|apply asks_submit with t; [done|intros resp; shows_tac]].
      intros code sent [-> ->]. exists isdir. cbn zeta. rewrite Henc. split_and!; [done| |done].
      intros Hpay. requested_tac CBundle.
    + apply wp_fail. exists isdir. cbn zeta. by rewrite Henc.
Qed.
End commands.

Section commands_witness.
Local Definition cli_json : JsonCodec := {|
  encode_request req := Command req; decode_request s := inr s;
  encode_response resp := inl (Error resp); decode_response s := inl (ok_resp "req-1" (DText s)) |}.
Local Definition any_spec : OCISpec := {|
  OCIVersion := None; OCIRoot := None; OCIProcess := None; Hostname := ""; Mounts := []; OCILinuxPart := None |}.
Local Definition cli_codec : CliCodec := {|
  show_data d := match d with DText s => s | _ => "" end; data_json _ := "{}"; as_services _ := [];
  as_metrics _ := {| Protocol.UptimeSeconds := f64_of_Z 0; NumGoroutine := 0; MemoryAlloc := 0; MemorySys := 0; NumServices := 0 |};
  as_obsd _ := None; as_status _ := None; decode_event _ := None; clock := itoa; datetime := itoa;
  decode_spec _ := inl any_spec; encode_bundle b := inl ("{bundle_id:" +:+ BundleID b +:+ "}") |}.

(** [karim stop web] over a Unix socket, where the frame is sent in two writes, and
    [karim bundle] on a directory or a file. *)
Lemma commands_carried_out_witness :
  let r := {| chunks := [encode_frame "stopped"]; stream_ends := EOF |} in
  @asks cli_json r "exec = /bin/web" (@runStop no_tables cli_json cli_codec "/run/v.sock" "web")
    (request "req-1" "stop_service" "web" "") ∧
  wp (talk r "exec = /bin/web") (@runApplyBundle no_tables cli_json cli_codec "/run/v.sock" "/tmp/b" [])
    (λ code _, code = 0%Z) "".
Proof.
  intros r.
  destruct (@commands_carried_out no_tables cli_json cli_codec "/run/v.sock" (TUnix "/run/v.sock") "vsock://3"
    ("invalid vsock address format " +:+ @quote no_tables "vsock://3" +:+ " (expected vsock://CID:PORT)") "web" r
    "exec = /bin/web" ["--name"; "web"; "-exec=/bin/web"]
    {| name := "web"; execCmd := "/bin/web"; memory := ""; restart := "on-failure"; seccomp := "app-default" |} []
    "/tmp/b" [] any_spec) as (H & _ & _ & _ & Hb);
    [by vm_compute|by vm_compute|done|by vm_compute|by vm_compute|done|done|done|].
  split.
  - do 3 (apply Forall_cons in H as [_ H]). apply Forall_cons in H as [H4 _]. apply H4.
  - eapply wp_mono; [|exact Hb]. intros code sent (isdir & _ & _ & ->). reflexivity.
Defined.
End commands_witness.

(** ** Histograms on the terminal *)

Section bars.
Local Open Scope Z_scope.

Lemma max_count_spec slots m0 :
  m0 ≤ foldl (λ m c, if m <? c then c else m) m0 slots ∧
  Forall (λ c, c ≤ foldl (λ m c, if m <? c then c else m) m0 slots) slots ∧
  (foldl (λ m c, if m <? c then c else m) m0 slots = m0 ∨ foldl (λ m c, if m <? c then c else m) m0 slots ∈ slots).
Proof.
  revert m0. induction slots as [|c slots IH]; intros m0; cbn [foldl]; [split_and!; [lia|done|by left]|].
  destruct (IH (if m0 <? c then c else m0)) as (H1 & H2 & H3).
  assert (m0 ≤ (if m0 <? c then c else m0) ∧ c ≤ (if m0 <? c then c else m0)) as [Hm Hc] by (destruct (Z.ltb_spec m0 c); lia).
  split_and!; [lia|apply Forall_cons; split; [lia|done]|].
  destruct H3 as [->|H3]; [|by right; right]. destruct (m0 <? c); [right; by left|by left].
Qed.

(** The bars of a histogram are in proportion: as long as no count reaches [2^64 / 35],
    a slot has a bar exactly when it counted something, a bar has between 1 and 35 blocks, a
    larger count never has a shorter bar, the longest bar has 35 blocks, and a bar is less
    than one block longer than its share. *)
Theorem bars_in_proportion slots i j c c' :
  Forall (λ c, 0 ≤ c ∧ c * 35 < 2 ^ 64) slots →
  slots !! i = Some c → slots !! j = Some c' → 0 < c →
  let m := max_count slots in
  (histogram_row m i c = Some [getSlotRange i; itoa c; str_repeat (Z.to_nat (barLen c m)) "█"] ∧
   histogram_row m i 0 = None) ∧
  1 ≤ barLen c m ≤ 35 ∧ (c ≤ c' → barLen c m ≤ barLen c' m) ∧
  (∃ k cm, slots !! k = Some cm ∧ cm = m ∧ barLen cm m = 35) ∧
  (35 * c < barLen c m * m + m ∧ (barLen c m - 1) * m < 35 * c).
Proof.
  intros Hs Hi Hj Hc m. rewrite Forall_lookup in Hs. pose proof (Hs _ _ Hi). pose proof (Hs _ _ Hj).
  destruct (max_count_spec slots 0) as (Hpos & Hall & Hin). fold (max_count slots) in *. fold m in Hpos, Hall, Hin.
  rewrite Forall_lookup in Hall. pose proof (Hall _ _ Hi) as Hci. pose proof (Hall _ _ Hj) as Hcj. cbn in Hci, Hcj.
  assert (0 < m) as Hm by lia.
  destruct Hin as [Hin|Hin]; [lia|]. apply list_elem_of_lookup in Hin as [k Hk]. pose proof (Hs _ _ Hk) as Hkm. cbn in Hkm.
  assert (∀ x, 0 < x ≤ m → barLen x m = Z.max 1 (x * 35 / m)) as Hbar.
  { intros x Hx. unfold barLen. rewrite (proj2 (Z.ltb_lt 0 m)), wrap_u_id by lia.
    rewrite (proj2 (Z.ltb_lt 0 x)), andb_true_r by lia. pose proof (Z.div_pos (x * 35) m ltac:(lia) ltac:(lia)).
    destruct (Z.eqb_spec (x * 35 / m) 0) as [->|]; lia. }
  assert (∀ x, 0 < x ≤ m → 0 ≤ x * 35 / m ≤ 35) as Hle.
  { intros x Hx. split; [apply Z.div_pos; lia|]. apply Z.div_le_upper_bound; lia. }
  pose proof (Hle c ltac:(lia)). rewrite (Hbar c) by lia. split_and!.
  - unfold histogram_row. rewrite (proj2 (Z.eqb_neq c 0)) by lia. by rewrite Hbar by lia.
  - done.
  - lia.
  - lia.
  - intros Hcc. rewrite (Hbar c') by lia. pose proof (Z.div_le_mono (c * 35) (c' * 35) m ltac:(lia) ltac:(lia)). lia.
  - exists k, m. split_and!; [done|done|]. rewrite Hbar by lia. rewrite Z.mul_comm, Z.div_mul by lia. lia.
  - pose proof (Z.mul_succ_div_gt (c * 35) m Hm). nia.
  - pose proof (Z.mul_div_le (c * 35) m Hm). nia.
Qed.

Lemma bars_in_proportion_witness :
  let slots := [0; 3; 700; 20] in
  1 ≤ barLen 3 (max_count slots) ≤ 35 ∧ barLen 700 (max_count slots) = 35.
Proof.
  intros slots.
  destruct (bars_in_proportion slots 1 2 3 700) as (_ & H & _); [by apply (bool_decide_unpack _)|done|done|lia|].
  split; [exact H|by vm_compute].
Defined.
End bars.
