(* ===== verification/Cli.v ===== *)
(** * The command line ([cmd/karim/main.go])

    The commands that work on the host - building, importing, snapshots - and [main].  The
    commands that call the guest are in [CliRpc]. *)

From Stdlib Require Import Ascii.
From S2P Require Import Prelude GoStrings GoStrconv GoFmt GoPath GoFlag Prog Linux Protocol Server Extract Layers Manifest Builder Qmp Snapshot Obsd CliRpc.

Inductive karim_ev : Type → Type :=
| OnCli {X} (e : cli_ev X) : karim_ev X
| OnBuild {X} (e : build_ev X) : karim_ev X
| OnSnap {X} (cfg : SnapshotConfig) (e : snap_ev X) : karim_ev X
| TempDir : karim_ev string
| Docker (args : list string) : karim_ev command_result
| Getenv (name : string) : karim_ev string.

Definition on_cli {A} : prog cli_ev A → prog karim_ev A := translate (λ X e, OnCli e).
Definition on_build {A} : prog build_ev A → prog karim_ev A := translate (λ X e, OnBuild e).
Definition on_layers {A} (p : prog layer_ev A) : prog karim_ev A := on_build (on_layer p).
Definition on_snap {A} (cfg : SnapshotConfig) : prog snap_ev A → prog karim_ev A := translate (λ X e, OnSnap cfg e).

Definition out (text : string) (k : prog karim_ev Z) : prog karim_ev Z := Vis (OnCli (Stdout text)) (λ _, k).
Definition line (text : string) (k : prog karim_ev Z) : prog karim_ev Z := out (text +:+ nl) k.
Fixpoint lines (ls : list string) (k : prog karim_ev Z) : prog karim_ev Z :=
  match ls with [] => k | l :: ls => line l (lines ls k) end.
Definition die (text : string) : prog karim_ev Z := Vis (OnCli (Stderr (text +:+ nl))) (λ _, Ret 1%Z).
Definition success_exit : prog karim_ev Z := Ret 0%Z.

(** ** Building *)

Record build_flags := {
  outDir : string; initBin : string; svcdBin : string; servicesDir : string; layersFile : string; kernelPath : string;
  epoch : Z; verify : bool }.

Definition default_build_flags : build_flags := {|
  outDir := "dist"; initBin := "build/init"; svcdBin := "build/karim-svcd"; servicesDir := "config/services";
  layersFile := "config/layers.toml"; kernelPath := "dist/bzImage"; epoch := 0; verify := false |}.

Definition build_is_bool (name : string) : option bool :=
  if decide (name = "verify-reproducible") then Some true
  else if decide (name ∈ ["out-dir"; "init-bin"; "svcd-bin"; "services-dir"; "layers-file"; "kernel"; "epoch"])
  then Some false else None.

Definition build_set (name v : string) (f : build_flags) : option build_flags :=
  let '(Build_build_flags o i s d l k e r) := f in
  if decide (name = "out-dir") then Some (Build_build_flags v i s d l k e r)
  else if decide (name = "init-bin") then Some (Build_build_flags o v s d l k e r)
  else if decide (name = "svcd-bin") then Some (Build_build_flags o i v d l k e r)
  else if decide (name = "services-dir") then Some (Build_build_flags o i s v l k e r)
  else if decide (name = "layers-file") then Some (Build_build_flags o i s d v k e r)
  else if decide (name = "kernel") then Some (Build_build_flags o i s d l v e r)
  else if decide (name = "epoch") then n ← parse_int0 v; Some (Build_build_flags o i s d l k n r)
  else b ← parse_bool v; Some (Build_build_flags o i s d l k e b).

Definition build_config (f : build_flags) : BuildConfig := {|
  InitBinPath := initBin f; SvcdBinPath := svcdBin f; ServicesDir := servicesDir f; LayersFile := layersFile f;
  KernelPath := kernelPath f; OutputDir := outDir f; BuildEpoch := epoch f |}.

Definition artifact_line (m : BuildManifest) (k : string) : option string :=
  (λ a, "  - " +:+ pad_right 18 k +:+ " (" +:+ itoa (SizeBytes a) +:+ " bytes, SHA-256: " +:+ ArtifactSHA256 a +:+ ")")
    <$> OutputArtifacts m !! k.

Section cli.
Context {U : Unix} {UT : UnicodeTables} {LC : LayerCodec} {MC : ManifestCodec} {J : JsonCodec} {CC : CliCodec}.
Context (cwd : outcome string) (order : list (string * string) → list (string * string)).

(** [compare] is the order in which the outputs of the first of two builds are compared,
    [shown] that in which they are printed. *)
Definition runBuild (compare shown : list string) (cmdArgs : list string) : prog karim_ev Z :=
  match parse_flags build_is_bool build_set cmdArgs default_build_flags with
  | None => Ret (parse_exit build_is_bool build_set cmdArgs default_build_flags)
  | Some (f, _) =>
      let cfg := build_config f in
      lines [rule; "      Karim MicroVM OS — Hermetic Reproducible Image Builder          "; rule;
             "Init Binary:      " +:+ InitBinPath cfg; "Svcd Binary:      " +:+ SvcdBinPath cfg;
             "Services Dir:     " +:+ ServicesDir cfg; "Output Dir:       " +:+ OutputDir cfg;
             "Source Date Epoch: " +:+ itoa (BuildEpoch cfg) +:+ " (Hermetic Epoch 0)"]
        (if verify f then
           line (nl +:+ "==> Initiating Double-Build Hermetic Reproducibility Audit...")
             (prog_bind (λ r,
                match r with
                | Err e => die ("❌ REPRODUCIBILITY AUDIT FAILED: " +:+ e)
                | Panic => Ret 2%Z
                | Ok _ => line "✅ REPRODUCIBILITY AUDIT PASSED: 100% Byte-for-Byte Identical Output Images!" success_exit
                end) (on_build (VerifyReproducibility cwd order compare cfg)))
         else
           line (nl +:+ "==> Assembling Hermetic Images...")
             (prog_bind (λ r,
                match r with
                | Err e => die ("Build failed: " +:+ e)
                | Panic => Ret 2%Z
                | Ok m =>
                    lines ([rule; "                     Build Completed Successfully!                    "; rule;
                            "Combined Build SHA-256 Hash: " +:+ CombinedBuildHash m +:+ nl; "Generated Artifacts:"] ++
                           omap (artifact_line m) shown ++
                           [nl +:+ "Manifest saved at: " +:+ OutputDir cfg +:+ "/manifest.json"]) success_exit
                end) (on_build (BuildImagePipeline cwd order cfg))))
  end.

(** ** Importing *)

(** [strings.ReplaceAll] of one character. *)
Fixpoint replace_char (a b : ascii) (s : string) : string :=
  match s with
  | "" => ""
  | String c s => String (if Ascii.eqb c a then b else c) (replace_char a b s)
  end.

Definition clean_ref (rawInput : string) : string :=
  trim_prefix (trim_prefix (trim_prefix rawInput "docker-archive:") "oci:") "docker:".
Definition sanitized (ref : string) : string := replace_char ":" "_" (replace_char "/" "_" ref).

(** The new layer takes the place of the first one of its name, or the last place. *)
Fixpoint register_layer (spec : LayerSpec) (cfg : LayerConfig) : LayerConfig :=
  match cfg with
  | [] => [spec]
  | l :: cfg => if decide (LayerName l = LayerName spec) then spec :: cfg else l :: register_layer spec cfg
  end.

Definition layers_config : string := "config/layers.toml".

(** From the archive on.  A configuration that cannot be read is a nil pointer, whose use
    is the run-time's panic. *)
Definition import_archive (archivePath layerName : string) : prog karim_ev Z :=
  line ("Inspecting OCI archive: " +:+ archivePath +:+ "...")
    (prog_bind (λ info,
       match info with
       | Err e => die ("Error inspecting OCI archive: " +:+ e)
       | Panic => Ret 2%Z
       | Ok info =>
           lines (["Repo Tags:    [" +:+ str_join " " (InfoRepoTags info) +:+ "]";
                   "Layer Count:  " +:+ itoa (Z.of_nat (length (LayerPaths info))) +:+ " layers detected";
                   "Layer Blobs:"] ++
                  imap (λ i l, "  [" +:+ itoa (Z.of_nat i + 1) +:+ "] " +:+ l) (LayerPaths info))
             (prog_bind (λ cfg,
                match cfg with
                | Ok cfg =>
                    let newSpec := {| LayerName := layerName; LayerType := LayerTypeOCIArchive; Path := archivePath;
                                      TargetDir := "/"; SHA256 := "" |} in
                    prog_bind (λ r,
                      match r with
                      | Err e => die ("Failed registering layer in " +:+ layers_config +:+ ": " +:+ e)
                      | Panic => Ret 2%Z
                      | Ok _ =>
                          line (nl +:+ "✅ Successfully registered OCI layer " +:+ quote layerName +:+ " in " +:+
                                layers_config +:+ "!") success_exit
                      end) (on_layers (SaveLayerConfig (register_layer newSpec cfg) layers_config))
                | _ => Ret 2%Z
                end) (on_layers (LoadLayerConfig layers_config)))
       end) (on_layers (InspectOCIArchive archivePath))).

Definition runLayer (cmdArgs : list string) : prog karim_ev Z :=
  match cmdArgs with
  | [] => die "Usage: karim import <oci-archive.tar | oci:image:tag | docker:image:tag> [layer-name]"
  | rawInput :: more =>
      let layerName := match more with name :: _ => name | [] => "imported-oci" end in
      lines [rule; "       Karim MicroVM OS — OCI Image & Layer Engine (pkgd)             "; rule]
        (Vis (OnCli (StatLocal rawInput)) (λ info,
           match info with
           | PathMissing =>
               let cleanRef := clean_ref rawInput in
               if has_suffix cleanRef ".tar" || has_suffix cleanRef ".tgz" || has_suffix cleanRef ".tar.gz" then
                 Vis (OnCli (Stderr ("❌ Error: File " +:+ quote cleanRef +:+ " not found in current directory." +:+ nl))) (λ _,
                 Vis (OnCli (Stderr ("   Make sure the tarball path exists, or specify a container image reference like:" +:+ nl))) (λ _,
                 die "   ./dist/karim import oci:alpine:latest"))
               else
                 line ("Notice: Local file " +:+ quote rawInput +:+ " not found. Attempting auto-export via 'docker save " +:+
                       cleanRef +:+ "'...")
                   (Vis TempDir (λ tmp,
                    let tmpTar := Join [tmp; "karim_docker_" +:+ sanitized cleanRef +:+ ".tar"] in
                    Vis (Docker ["save"; cleanRef; "-o"; tmpTar]) (λ res,
                      match failure res with
                      | Some execErr =>
                          Vis (OnCli (Stderr ("❌ Error: Failed opening OCI tar file " +:+ quote rawInput +:+ ": file not found." +:+ nl))) (λ _,
                          Vis (OnCli (Stderr ("   Docker auto-export also failed (" +:+ execErr +:+ "):" +:+ nl +:+ "   " +:+ output res +:+ nl))) (λ _,
                          Vis (OnCli (Stderr ("Tip: To import a container image, pull it first:" +:+ nl))) (λ _,
                          Vis (OnCli (Stderr ("     docker pull " +:+ cleanRef +:+ nl))) (λ _,
                          die ("     ./dist/karim import oci:" +:+ cleanRef)))))
                      | None =>
                          line ("✅ Successfully exported Docker image " +:+ cleanRef +:+ " to " +:+ tmpTar)
                            (import_archive tmpTar (match more with [] => sanitized cleanRef | _ => layerName end))
                      end)))
           | _ => import_archive rawInput layerName
           end))
  end.

(** ** Snapshots *)

(** The flags, each with its value, and the positional arguments. *)
Fixpoint split_args (args : list string) : list string * list string :=
  match args with
  | [] => ([], [])
  | arg :: args =>
      if has_prefix arg "-" then
        if decide (arg = "--qmp-socket" ∨ arg = "-qmp-socket") then
          match args with
          | v :: args' => let '(f, p) := split_args args' in (arg :: v :: f, p)
          | [] => ([arg], [])
          end
        else let '(f, p) := split_args args in (arg :: f, p)
      else let '(f, p) := split_args args in (f, arg :: p)
  end.

Record snapshot_flags := { qmpSock : string; pauseVM : bool }.
Definition default_snapshot_flags : snapshot_flags := {| qmpSock := "/tmp/qmp.sock"; pauseVM := true |}.
Definition snapshot_is_bool (name : string) : option bool :=
  if decide (name = "pause-vm") then Some true else if decide (name = "qmp-socket") then Some false else None.
Definition snapshot_set (name v : string) (f : snapshot_flags) : option snapshot_flags :=
  if decide (name = "qmp-socket") then Some {| qmpSock := v; pauseVM := pauseVM f |}
  else b ← parse_bool v; Some {| qmpSock := qmpSock f; pauseVM := b |}.

Definition snapshot_banner : string := "    Karim MicroVM OS — QMP Snapshot & Restore Orchestration (Phase 8) ".

Definition snapshot_usage : list string :=
  [rule; snapshot_banner; rule; "Usage: karim snapshot <subcommand> [flags]"; nl +:+ "Subcommands:";
   "  save <tag>             Save microVM state to named snapshot (quiesces guest VFS)";
   "  restore <tag>          Restore microVM state from named snapshot";
   "  list                   List all recorded state snapshots";
   "  delete <tag>           Delete a state snapshot from QEMU block storage";
   "  status                 Query QEMU hypervisor CPU execution status";
   nl +:+ "Flags:";
   "  --qmp-socket <path>    Path to QMP Unix domain socket (default: /tmp/qmp.sock)";
   "  --pause-vm             Pause CPU execution during savevm (default: true)"].

Definition qmp_output (res : SnapshotResult) : list string :=
  if decide (Output res = "") then [] else ["  QMP Output:      " +:+ trim_space (Output res)].

(** A subcommand that wants a tag. *)
Definition with_tag (positional : list string) (usage : string) (k : string → prog karim_ev Z) : prog karim_ev Z :=
  match positional with
  | [] => die ("Error: missing snapshot tag name. Usage: karim snapshot " +:+ usage +:+ " <tag>")
  | tag :: _ => k tag
  end.

Definition snapshot_save (cfg : SnapshotConfig) (sock tag : string) : prog karim_ev Z :=
  line ("Initiating MicroVM snapshot save (tag: " +:+ quote tag +:+ ", QMP: " +:+ sock +:+ ")...")
    (prog_bind (λ r,
       match r with
       | Err e => die ("❌ Snapshot save failed: " +:+ e)
       | Panic => Ret 2%Z
       | Ok res =>
           lines ([nl +:+ "✅ MicroVM State Snapshot Saved Successfully!"; "  Snapshot Tag:    " +:+ ResTag res;
                   "  Guest Quiesced:  " +:+ (if Quiesced res then "YES (filesystem buffers flushed via syscall.Sync)"
                                              else "NO (VSOCK un-reachable)");
                   "  Elapsed Time:    " +:+ show_duration (Duration res)] ++ qmp_output res) success_exit
       end) (on_snap cfg (SaveSnapshot cfg tag))).

Definition snapshot_restore (cfg : SnapshotConfig) (sock tag : string) : prog karim_ev Z :=
  line ("Initiating MicroVM snapshot restore (tag: " +:+ quote tag +:+ ", QMP: " +:+ sock +:+ ")...")
    (prog_bind (λ r,
       match r with
       | Err e => die ("❌ Snapshot restore failed: " +:+ e)
       | Panic => Ret 2%Z
       | Ok res =>
           lines ([nl +:+ "✅ MicroVM State Snapshot Restored Successfully!"; "  Snapshot Tag:    " +:+ ResTag res;
                   "  Elapsed Time:    " +:+ show_duration (Duration res)] ++ qmp_output res) success_exit
       end) (on_snap cfg (RestoreSnapshot cfg tag))).

Definition snapshot_row (s : SnapshotInfo) : list string := [SnapID s; Tag s; VMSize s; Date s; VMClock s].

Definition snapshot_list (cfg : SnapshotConfig) (sock : string) : prog karim_ev Z :=
  line ("Querying QEMU snapshots via QMP (" +:+ sock +:+ ")...")
    (prog_bind (λ r,
       match r with
       | Err e => die ("❌ Failed querying snapshots: " +:+ e)
       | Panic => Ret 2%Z
       | Ok [] => line "No recorded state snapshots found in hypervisor storage." success_exit
       | Ok snaps =>
           on_cli (table (["ID"; "TAG"; "VM SIZE"; "DATE"; "VM CLOCK"] :: ["--"; "---"; "-------"; "----"; "--------"] ::
                          (snapshot_row <$> snaps)) finish)
       end) (on_snap cfg (Snapshot_ListSnapshots cfg))).

Definition snapshot_delete (cfg : SnapshotConfig) (sock tag : string) : prog karim_ev Z :=
  line ("Deleting snapshot tag " +:+ quote tag +:+ " via QMP (" +:+ sock +:+ ")...")
    (prog_bind (λ r,
       match r with
       | Err e => die ("❌ Delete snapshot failed: " +:+ e)
       | Panic => Ret 2%Z
       | Ok _ => line ("✅ Snapshot " +:+ quote tag +:+ " deleted successfully.") success_exit
       end) (on_snap cfg (DeleteSnapshot cfg tag))).

Definition show_bool (b : bool) : string := if b then "true" else "false".

Definition snapshot_status (cfg : SnapshotConfig) : prog karim_ev Z :=
  prog_bind (λ r,
    match r with
    | Err e => die ("❌ Failed querying QMP status: " +:+ e)
    | Panic => Ret 2%Z
    | Ok st =>
        line ("Hypervisor QMP Status: " +:+ Status st +:+ " (Running: " +:+ show_bool (Running st) +:+ ", Singlestep: " +:+
              show_bool (Singlestep st) +:+ ")") success_exit
    end) (on_snap cfg (Snapshot_QueryStatus cfg)).

Inductive snapshot_command := SSave | SRestore | SList | SDelete | SStatus.
Definition snapshot_names : list (string * snapshot_command) :=
  [("save", SSave); ("create", SSave); ("restore", SRestore); ("load", SRestore); ("list", SList); ("ls", SList);
   ("delete", SDelete); ("del", SDelete); ("rm", SDelete); ("status", SStatus)].
Definition snapshot_command_of (s : string) : option snapshot_command :=
  (list_to_map snapshot_names : gmap string snapshot_command) !! s.

Definition snapshot_config (vsockTarget : string) (f : snapshot_flags) : SnapshotConfig :=
  NewOrchestrator {| QMPSocketPath := qmpSock f; VSockTarget := vsockTarget; PauseVM := pauseVM f |}.

Definition run_subcommand (subCmd sock : string) (cfg : SnapshotConfig) (positional : list string) : prog karim_ev Z :=
  match snapshot_command_of subCmd with
  | Some SSave => with_tag positional "save" (snapshot_save cfg sock)
  | Some SRestore => with_tag positional "restore" (snapshot_restore cfg sock)
  | Some SList => snapshot_list cfg sock
  | Some SDelete => with_tag positional "delete" (snapshot_delete cfg sock)
  | Some SStatus => snapshot_status cfg
  | None => die ("Error: unknown snapshot subcommand " +:+ quote subCmd +:+ ". Run 'karim snapshot' for options.")
  end.

Definition runSnapshot (vsockTarget : string) (cmdArgs : list string) : prog karim_ev Z :=
  match cmdArgs with
  | [] => lines snapshot_usage success_exit
  | cmd :: subArgs =>
      let '(flagArgs, positionalArgs) := split_args subArgs in
      match parse_flags snapshot_is_bool snapshot_set (flagArgs ++ positionalArgs) default_snapshot_flags with
      | None => Ret (parse_exit snapshot_is_bool snapshot_set (flagArgs ++ positionalArgs) default_snapshot_flags)
      | Some (f, positional) =>
          Vis (Getenv "KARIM_QMP_SOCKET") (λ envSock,
            let f := if decide (envSock = "") then f else {| qmpSock := envSock; pauseVM := pauseVM f |} in
            lines [rule; snapshot_banner; rule]
              (run_subcommand (to_lower cmd) (qmpSock f) (snapshot_config vsockTarget f) positional))
      end
  end.

(** ** Main *)

Definition asciiLogo : list string :=
  [""; " _  __          _                          "; "| |/ /__ _ _ __(_)_ __ ___       ___  ___  ";
   "| ' // _  | '__| | '_  _ \     / _ \/ __| "; "| . \ (_| | |  | | | | | | |   | (_) \__ \ ";
   "|_|\_\__,_|_|  |_|_| |_| |_|    \___/|___/ "; "                                           ";
   "  tiny init. real kernel. one job."].

Definition help_lines : list string :=
  ["Usage: karim [--target <addr>] <command> [args...]"; nl +:+ "Target Format:";
   "  vsock://CID:PORT           (e.g., vsock://3:1024 for QEMU microVM guest)";
   "  unix:///path/to/socket     (e.g., unix:///run/karim/vsock.sock)";
   "  tcp://host:port            (e.g., tcp://127.0.0.1:1024)"; nl +:+ "Commands:";
   "  ping                       Check connectivity to guest karim-vsockd";
   "  ps                         List running microVM services and status";
   "  start <service>            Start a declared microVM service";
   "  stop <service>             Gracefully stop a running service";
   "  logs <service>             Display stdout/stderr log output for a service";
   "  metrics                    Fetch microVM performance and memory metrics";
   "  obsd                       Fetch eBPF kernel latency histograms & metrics";
   "  trace                      Stream live traced process executions";
   "  apply <service.toml>       Hot-load a TOML service config into the live MicroVM (no reboot)";
   "  apply-bundle <dir|spec>    Apply dynamic OCI container runtime bundle payload over VSOCK";
   "  run                        Run a dynamic containerized service on the MicroVM";
   "    --name <svc>               Service name";
   "    --exec <cmd>               Binary to execute (absolute path in guest rootfs)";
   "    --memory <N>MB             Memory limit (e.g. 64MB, 256MB)";
   "    --restart <policy>         Restart policy: always, on-failure, never (default: on-failure)";
   "    --seccomp <profile>        Seccomp profile: app-default, network, unrestricted";
   "  build                      Build hermetic initramfs and SquashFS images";
   "  import <archive.tar>       Inspect or import an OCI/Docker image tarball";
   "  snapshot <subcommand>      Orchestrate microVM QMP state save/restore/list";
   "  system                     Fetch guest hardware entropy, RTC sync & debug status";
   "  help                       Show this help menu"].

Definition printHelp (k : prog karim_ev Z) : prog karim_ev Z := lines (asciiLogo ++ help_lines) k.

Inductive karim_command :=
| KHelp | KPing | KPs | KStart | KStop | KLogs | KMetrics | KObsd | KTrace | KBuild | KImport | KSnapshot | KSystem
| KApply | KBundle | KRun.

(** The [case] labels of [main]. *)
Definition karim_names : list (string * karim_command) :=
  [("help", KHelp); ("-h", KHelp); ("--help", KHelp); ("ping", KPing); ("ps", KPs); ("list", KPs); ("start", KStart);
   ("stop", KStop); ("logs", KLogs); ("metrics", KMetrics); ("top", KMetrics); ("obsd", KObsd); ("ebpf", KObsd);
   ("trace", KTrace); ("execsnoop", KTrace); ("build", KBuild); ("image", KBuild); ("import", KImport); ("layer", KImport);
   ("snapshot", KSnapshot); ("qmp", KSnapshot); ("system", KSystem); ("status", KSystem); ("hardd", KSystem);
   ("apply", KApply); ("apply-bundle", KBundle); ("apply_bundle", KBundle); ("bundle", KBundle); ("run", KRun)].
Definition karim_command_of (s : string) : option karim_command :=
  (list_to_map karim_names : gmap string karim_command) !! s.

(** [if len(args) < 2 { ... os.Exit(1) }] *)
Definition with_arg (args : list string) (missing : string) (k : string → list string → prog karim_ev Z) : prog karim_ev Z :=
  match args with a :: more => k a more | [] => die ("Error: missing " +:+ missing) end.

Definition target_set (name v : string) (_ : string) : option string := Some v.
Definition target_is_bool (name : string) : option bool := if decide (name = "target") then Some false else None.

Definition run_command (target command : string) (compare shown args : list string) : prog karim_ev Z :=
  let named missing k := with_arg args missing (λ a _, on_cli (k a)) in
  match karim_command_of command with
  | Some KHelp => printHelp success_exit
  | Some KPing => on_cli (runPing target)
  | Some KPs => on_cli (runPS target)
  | Some KStart => named "service name. Usage: karim start <service>" (runStart target)
  | Some KStop => named "service name. Usage: karim stop <service>" (runStop target)
  | Some KLogs => named "service name. Usage: karim logs <service>" (runLogs target)
  | Some KMetrics => on_cli (runMetrics target)
  | Some KObsd => on_cli (runObsd target)
  | Some KTrace => on_cli (runTrace target)
  | Some KBuild => runBuild compare shown args
  | Some KImport => runLayer args
  | Some KSnapshot => runSnapshot target args
  | Some KSystem => on_cli (runSystem target)
  | Some KApply => named "TOML file path. Usage: karim apply <service.toml>" (runApply target)
  | Some KBundle =>
      with_arg args "bundle directory or config path. Usage: karim apply-bundle <bundle-dir|config.json> [bundle-id]"
        (λ a more, on_cli (runApplyBundle target a more))
  | Some KRun => on_cli (runRun target args)
  | None => die ("Error: unknown command " +:+ quote command +:+ ". Run 'karim help' for options.")
  end.

Definition karim_main (compare shown argv : list string) : prog karim_ev Z :=
  match parse_flags target_is_bool target_set argv "vsock://3:1024" with
  | None => Ret (parse_exit target_is_bool target_set argv "vsock://3:1024")
  | Some (target, []) => printHelp success_exit
  | Some (target, cmd :: args) => run_command target (to_lower cmd) compare shown args
  end.

(** ** The arguments of [karim snapshot] *)

(** An argument as it is meant: a flag in one of its spellings, or a word. *)
Inductive snapshot_arg :=
| SockNext (long : bool) (v : string)      (* --qmp-socket v *)
| SockEq (long : bool) (v : string)        (* --qmp-socket=v *)
| PauseOn (long : bool)                    (* --pause-vm *)
| PauseEq (long : bool) (b : bool)         (* --pause-vm=false *)
| Word (w : string).

Definition dashes (long : bool) : string := if long then "--" else "-".

Definition show_arg (a : snapshot_arg) : list string :=
  match a with
  | SockNext long v => [dashes long +:+ "qmp-socket"; v]
  | SockEq long v => [dashes long +:+ "qmp-socket=" +:+ v]
  | PauseOn long => [dashes long +:+ "pause-vm"]
  | PauseEq long b => [dashes long +:+ "pause-vm=" +:+ show_bool b]
  | Word w => [w]
  end.

(** A word is not a flag. *)
Definition arg_ok (a : snapshot_arg) : Prop := match a with Word w => has_prefix w "-" = false | _ => True end.

(** What the arguments ask for: the last flag of a kind decides. *)
Definition asked (f : snapshot_flags) (a : snapshot_arg) : snapshot_flags :=
  match a with
  | SockNext _ v | SockEq _ v => {| qmpSock := v; pauseVM := pauseVM f |}
  | PauseOn _ => {| qmpSock := qmpSock f; pauseVM := true |}
  | PauseEq _ b => {| qmpSock := qmpSock f; pauseVM := b |}
  | Word _ => f
  end.

Definition word_of (a : snapshot_arg) : option string := match a with Word w => Some w | _ => None end.
Definition flag_words (a : snapshot_arg) : list string := match a with Word _ => [] | _ => show_arg a end.

Lemma has_prefix_dashes long s : has_prefix (dashes long +:+ s) "-" = true.
Proof. destruct long; exact (has_prefix_app "-" _). Qed.

Lemma split_shown items :
  Forall arg_ok items → split_args (items ≫= show_arg) = (items ≫= flag_words, omap word_of items).
Proof.
  induction 1 as [|a items Ha _ IH]; [done|]. rewrite !bind_cons. cbn [omap list_omap].
  destruct a as [long v|long v|long|long b|w]; cbn [show_arg flag_words word_of app split_args] in *;
    rewrite ?has_prefix_dashes, ?Ha, IH; [| | | |done].
  - by rewrite decide_True by (destruct long; auto).
  - rewrite decide_False by (by destruct long; intros [|]). done.
  - rewrite decide_False by (by destruct long; intros [|]). done.
  - rewrite decide_False by (by destruct long, b; intros [|]). done.
Qed.

Lemma parse_words f ws :
  Forall (λ w, has_prefix w "-" = false) ws → parse_flags snapshot_is_bool snapshot_set ws f = Some (f, ws).
Proof.
  destruct 1 as [|w ws Hw _]; [done|]. cbn [parse_flags]. replace (classify w) with Positional; [done|].
  destruct w as [|c w]; [done|]. destruct (decide (c = "-"%char)) as [->|Hc].
  - by rewrite (has_prefix_dashes false w : has_prefix (String "-" w) "-" = true) in Hw.
  - cbn. destruct c as [[] [] [] [] [] [] [] []]; try done.
Qed.

(** One flag, whatever follows it. *)
Lemma parse_shown a args f :
  parse_flags snapshot_is_bool snapshot_set (flag_words a ++ args) f =
    parse_flags snapshot_is_bool snapshot_set args (asked f a).
Proof.
  destruct a as [long v|long v|long|long b|w]; cbn [flag_words show_arg app asked]; [| | | |done].
  - erewrite parse_separate; [|by destruct long|done]. done.
  - erewrite parse_joined; [|by destruct long|done]. done.
  - by destruct long.
  - by destruct long, b.
Qed.

(** The same arguments with the words last. *)
Definition is_word (a : snapshot_arg) : Prop := is_Some (word_of a).
#[local] Instance is_word_dec a : Decision (is_word a) := decide (is_Some (word_of a)).
Definition flags_first (items : list snapshot_arg) : list snapshot_arg :=
  filter (λ a, ¬ is_word a) items ++ filter is_word items.

Lemma flags_first_same items :
  flags_first items ≫= flag_words = items ≫= flag_words ∧ omap word_of (flags_first items) = omap word_of items.
Proof.
  unfold flags_first. rewrite bind_app, omap_app.
  enough (filter is_word items ≫= flag_words = [] ∧
          filter (λ a, ¬ is_word a) items ≫= flag_words = items ≫= flag_words ∧
          omap word_of (filter (λ a, ¬ is_word a) items) = [] ∧
          omap word_of (filter is_word items) = omap word_of items) as (-> & -> & -> & ->) by (by rewrite app_nil_r).
  induction items as [|a items (IH1 & IH2 & IH3 & IH4)]; [done|]. rewrite !filter_cons.
  destruct (decide (is_word a)) as [[w Hw]|Ha].
  - rewrite (decide_False (P := ¬ is_word a)) by (intros H; apply H; by exists w).
    destruct a; try done. rewrite !bind_cons. cbn. by rewrite IH1, IH2, IH3, IH4.
  - rewrite (decide_True (P := ¬ is_word a)) by done. rewrite !bind_cons.
    destruct a as [| | | |w]; [..|destruct Ha; by exists w]; cbn; rewrite IH2, IH3; auto.
Qed.

Lemma flags_first_ok items : Forall arg_ok items → Forall arg_ok (flags_first items).
Proof.
  rewrite !Forall_forall. intros H a Ha. apply H. apply elem_of_app in Ha as [Ha|Ha];
    by apply list_elem_of_filter in Ha as [_ Ha].
Qed.

(** The flags of [karim snapshot] may be given anywhere among the words, with one dash
    or two: the parser sees the last flag of each kind and the words in their order, so the
    command does what it does with the flags first. *)
Theorem snapshot_flags_anywhere target cmd items :
  Forall arg_ok items →
  (let '(flagArgs, positionalArgs) := split_args (items ≫= show_arg) in
   parse_flags snapshot_is_bool snapshot_set (flagArgs ++ positionalArgs) default_snapshot_flags =
     Some (foldl asked default_snapshot_flags items, omap word_of items)) ∧
  runSnapshot target (cmd :: items ≫= show_arg) =
    runSnapshot target (cmd :: flags_first items ≫= show_arg).
Proof.
  intros Hok.
  assert (Forall (λ w, has_prefix w "-" = false) (omap word_of items)) as Hw.
  { apply Forall_forall. intros w (a & Ha & Hw)%list_elem_of_omap. rewrite Forall_forall in Hok.
    specialize (Hok _ Ha). destruct a; by simplify_eq/=. }
  split.
  - rewrite split_shown by done. cbn [fst snd]. generalize default_snapshot_flags as f.
    revert Hw. generalize (omap word_of items) as ws. intros ws Hw. clear Hok.
    induction items as [|a items IH]; intros f; [by apply parse_words|].
    rewrite bind_cons, <- app_assoc, parse_shown. apply IH.
  - unfold runSnapshot. rewrite split_shown by done.
    rewrite (split_shown (flags_first items)) by (by apply flags_first_ok).
    by destruct (flags_first_same items) as [-> ->].
Qed.

(** ** Registering a layer *)

Definition named_as (name : string) (l : LayerSpec) : Prop := LayerName l = name.
#[local] Instance named_as_dec name l : Decision (named_as name l) := decide (LayerName l = name).

Lemma register_others spec cfg :
  filter (λ l, ¬ named_as (LayerName spec) l) (register_layer spec cfg) =
    filter (λ l, ¬ named_as (LayerName spec) l) cfg.
Proof.
  assert (¬ ¬ named_as (LayerName spec) spec) as Hs by (intros H; by apply H).
  induction cfg as [|l cfg IH]; cbn [register_layer].
  - by rewrite filter_cons, decide_False.
  - case_decide as Hl.
    + rewrite !filter_cons, (decide_False (P := ¬ named_as _ spec)) by done. by rewrite decide_False by (intros H; by apply H).
    + rewrite !filter_cons. by rewrite IH.
Qed.

Lemma register_first spec cfg : head (filter (named_as (LayerName spec)) (register_layer spec cfg)) = Some spec.
Proof.
  induction cfg as [|l cfg IH]; cbn [register_layer]; [by rewrite filter_cons, decide_True|].
  case_decide as Hl; rewrite filter_cons; [by rewrite decide_True|]. by rewrite decide_False.
Qed.

Lemma register_names spec cfg :
  LayerName <$> register_layer spec cfg =
    if decide (LayerName spec ∈ LayerName <$> cfg) then LayerName <$> cfg else (LayerName <$> cfg) ++ [LayerName spec].
Proof.
  induction cfg as [|l cfg IH]; cbn [register_layer].
  - by rewrite decide_False by (by apply not_elem_of_nil).
  - rewrite fmap_cons. destruct (decide (LayerName l = LayerName spec)) as [Hl|Hl].
    + rewrite decide_True by (rewrite <- Hl; by left). cbn. by rewrite <- Hl.
    + cbn [fmap list_fmap]. rewrite IH. set (names := LayerName <$> cfg).
      destruct (decide (LayerName spec ∈ names)) as [Hin|Hin].
      * by rewrite decide_True by (by right).
      * rewrite decide_False; [done|]. by intros [?|?]%elem_of_cons.
Qed.

Definition oci_layer (name archivePath : string) : LayerSpec :=
  {| LayerName := name; LayerType := LayerTypeOCIArchive; Path := archivePath; TargetDir := "/"; SHA256 := "" |}.

(** The environment of the layer requests; the other requests change no file. *)
Definition karim_env (env : env_rel layer_ev (gmap string string)) : env_rel karim_ev (gmap string string) :=
  λ X e s x s',
  match e in karim_ev Y return Y → Prop with
  | OnBuild b =>
      match b in build_ev Y return Y → Prop with
      | OnLayer l => λ x, env _ l s x s'
      | _ => λ _, s' = s
      end
  | _ => λ _, s' = s
  end x.

(** The archive holds [data], and what is read and written does not fail. *)
Definition willing (data : string) : env_rel layer_ev (gmap string string) := λ X e s x s',
  store_env X e s x s' ∧
  match e in layer_ev Y return Y → Prop with
  | OpenArchive _ => λ r, r = inl data
  | ReadPayload _ | SaveFile _ _ _ => λ r, r = None
  | OnFs f => match f in fs_ev Y return Y → Prop with MkdirAll _ _ => λ r, r = None | _ => λ _, True end
  | _ => λ _, True
  end x.

Lemma wp_on_layers env {A} (p : prog layer_ev A) Q s : wp (karim_env env) (on_layers p) Q s ↔ wp env p Q s.
Proof.
  unfold on_layers, on_build, on_layer.
  rewrite (wp_translate _ (λ X b s x s', karim_env env X (OnBuild b) s x s') (karim_env env)) by done.
  by apply (wp_translate _ env).
Qed.

Section answers.
Context (env : env_rel layer_ev (gmap string string)).

Lemma wp_lines ls k Q s : wp (karim_env env) k Q s → wp (karim_env env) (lines ls k) Q s.
Proof. intros Hk. induction ls as [|l ls IH]; [done|]. cbn [lines]. unfold line, out. apply wp_vis. by intros x s' ->. Qed.

Lemma wp_line l k Q s : wp (karim_env env) k Q s → wp (karim_env env) (line l k) Q s.
Proof. exact (wp_lines [l] k Q s). Qed.

Lemma wp_die text Q s : Q 1%Z s → wp (karim_env env) (die text) Q s.
Proof. intros HQ. apply wp_vis. by intros x s' ->. Qed.
End answers.

(** Looking at an archive changes no file. *)
Definition keeps_files X (e : layer_ev X) : Prop := ∀ s x s', store_env X e s x s' → s' = s.

Lemma find_manifest_keeps tarPath es err : issues keeps_files (find_manifest tarPath es err).
Proof.
  induction es as [|[hdr data] es IH]; cbn [find_manifest]; [done|]. case_decide; [|done].
  apply issues_ebind; [apply issues_wrapping, issues_vis; [by intros ? ? ? ->|done]|].
  intros []. destruct (decode_manifest data) as [[|m ms]| |]; done.
Qed.

Lemma InspectOCIArchive_keeps path s :
  wp store_env (InspectOCIArchive path) (λ _ s', s' = s) s.
Proof.
  apply (wp_issues store_env keeps_files (λ s', s' = s)); [|intros X e s1 x s2 H -> Hx; by apply (H _ _ _ Hx)|done].
  unfold InspectOCIArchive. apply issues_ebind; [|intros a; apply find_manifest_keeps].
  unfold open_archive. apply issues_vis; [by intros ? ? ? ->|]. issues_tac.
Qed.

(** One with a manifest is recognised. *)
Lemma find_manifest_found data tarPath es err m s :
  manifest_of es = Some m →
  wp (willing data) (find_manifest tarPath es err)
    (λ r s', r = Ok {| InfoRepoTags := RepoTags m; LayerPaths := DockerLayers m |} ∧ s' = s) s.
Proof.
  induction es as [|[hdr d] es IH]; cbn [find_manifest manifest_of]; [done|].
  case_decide; [|exact IH]. intros Hm. apply wp_ebind, wp_wrapping, wp_vis. intros x s' [-> ->]. cbn [wp wrap_err].
  destruct (decode_manifest d) as [[|m' ms]| |]; try by apply IH. by simplify_eq.
Qed.

Lemma InspectOCIArchive_found data path m s :
  gz_name path = false → manifest_of (entries (untar data)) = Some m →
  wp (willing data) (InspectOCIArchive path)
    (λ r s', r = Ok {| InfoRepoTags := RepoTags m; LayerPaths := DockerLayers m |} ∧ s' = s) s.
Proof.
  intros Hgz Hm. unfold InspectOCIArchive, open_archive. apply wp_ebind, wp_vis. intros x s' [-> ->].
  rewrite Hgz. cbn [wp]. by apply find_manifest_found.
Qed.

Lemma register_plain spec cfg : plain_layer spec → Forall plain_layer cfg → Forall plain_layer (register_layer spec cfg).
Proof.
  intros Hspec. induction 1; cbn [register_layer]; [by apply Forall_singleton|]. case_decide; by apply Forall_cons.
Qed.

(** What is known of an import once the archive was looked at and the file read. *)
Lemma wp_import env archive name cfg s (Q : Z → Prop) :
  (∀ X e s x s', env X e s x s' → store_env X e s x s') →
  s !! layers_config = Some (layers_text cfg) → config_ok cfg → Forall plain_layer cfg →
  wp env (InspectOCIArchive archive) (λ r s', s' = s ∧ (is_ok r = false → Q 1%Z ∧ Q 2%Z)) s →
  wp env (SaveLayerConfig (register_layer (oci_layer name archive) cfg) layers_config)
    (λ r _, is_ok r = false → Q 1%Z) s →
  wp (karim_env env) (import_archive archive name)
    (λ code s', code = 0%Z ∧ s' !! layers_config = Some (layers_text (register_layer (oci_layer name archive) cfg))
                ∨ Q code) s.
Proof.
  intros Henv Hs Hcfg Hplain Hinspect Hsave. unfold import_archive. apply wp_line, wp_bind, wp_on_layers.
  eapply wp_mono; [|exact Hinspect]. intros [info|e|] s' [-> HQ].
  2: { apply wp_die. right. by apply HQ. }
  2: { right. by apply HQ. }
  apply wp_lines, wp_bind, wp_on_layers.
  eapply wp_mono; [|eapply wp_narrow; [exact Henv|by apply load_saved]].
  intros r s' [-> ->]. rewrite escape_plain by done. apply wp_bind, wp_on_layers.
  eapply wp_mono; [|eapply wp_and; [exact Hsave|eapply wp_narrow; [exact Henv|by apply wp_save]]].
  intros r s' [HQ' [[-> ->]|[[e ->] ->]]].
  - apply wp_line. left. split; [done|]. apply lookup_insert_eq.
  - apply wp_die. right. by apply HQ'.
Qed.

(** C37: a successful [karim import] of an archive under a name leaves a configuration that
    is read back as the old one with the new layer in the place of the first of its name, or
    at the end when there was none: the names and their order are kept, no other layer is
    lost or changed, and the name now stands for the imported archive.  It does succeed when
    the archive has a manifest and nothing that is read or written fails.  The archive is
    registered by the path as it was given and without a digest: the CLI reference and
    the documentation of the layers say its absolute path and a [sha256] pin are recorded. *)
Theorem import_registers archive name cfg s :
  let spec := oci_layer name archive in
  s !! layers_config = Some (layers_text cfg) → config_ok cfg → Forall plain_layer cfg → plain_layer spec →
  config_ok (register_layer spec cfg) →
  wp (karim_env store_env)
    (prog_bind (λ code, prog_bind (λ r, Ret (code, r)) (on_layers (LoadLayerConfig layers_config)))
       (import_archive archive name))
    (λ '(code, r) _, code = 0%Z → ∃ cfg',
       r = Ok cfg' ∧
       LayerName <$> cfg' = (if decide (name ∈ LayerName <$> cfg) then LayerName <$> cfg else (LayerName <$> cfg) ++ [name]) ∧
       filter (λ l, ¬ named_as name l) cfg' = filter (λ l, ¬ named_as name l) cfg ∧
       head (filter (named_as name) cfg') = Some spec) s ∧
  ∀ data m, gz_name archive = false → manifest_of (entries (untar data)) = Some m →
    wp (karim_env (willing data)) (import_archive archive name) (λ code _, code = 0%Z) s.
Proof.
  intros spec Hs Hcfg Hplain Hspec Hnew. split.
  - apply wp_bind. eapply wp_mono; [|apply (wp_import _ _ _ cfg _ (λ code, code ≠ 0%Z)); try done].
    + intros code s' H. apply wp_bind, wp_on_layers. destruct H as [[-> Hs']|Hne].
      * eapply wp_mono; [|apply load_saved; [done|exact Hnew|exact Hs']]. cbn. intros r s'' [-> _] _.
        eexists. split; [done|]. rewrite escape_plain by by apply register_plain.
        split; [apply (register_names spec)|]. split; [apply (register_others spec)|apply (register_first spec)].
      * apply wp_always. intros r s''. cbn. by intros.
    + eapply wp_mono; [|apply InspectOCIArchive_keeps]. intros r s' ->. by split.
    + apply wp_always. by intros.
  - intros data m Hgz Hm. eapply wp_mono; [|apply (wp_import _ _ _ cfg _ (λ _, False)); try done].
    + by intros code s' [[-> _]|[]].
    + by intros X e s1 x s2 [? _].
    + eapply wp_mono; [|by apply InspectOCIArchive_found]. by intros r s' [-> ->].
    + unfold SaveLayerConfig. cbn [ebind]. apply wp_ebind, wp_vis. intros x s' [-> ->]. cbn [wp].
      apply wp_vis. by intros x s' [_ ->].
Qed.
End cli.

(** ** Samples *)

Section samples.
#[local] Existing Instance no_tables.
#[local] Existing Instance sample_layer_codec.

Definition sample_args : list snapshot_arg :=
  [Word "nightly"; PauseEq true false; SockNext false "/tmp/a.sock"; Word "extra"; SockEq true "/tmp/b.sock"].

Lemma snapshot_flags_anywhere_witness :
  sample_args ≫= show_arg =
    ["nightly"; "--pause-vm=false"; "-qmp-socket"; "/tmp/a.sock"; "extra"; "--qmp-socket=/tmp/b.sock"] ∧
  (let '(flagArgs, positionalArgs) := split_args (sample_args ≫= show_arg) in
   parse_flags snapshot_is_bool snapshot_set (flagArgs ++ positionalArgs) default_snapshot_flags =
     Some ({| qmpSock := "/tmp/b.sock"; pauseVM := false |}, ["nightly"; "extra"])) ∧
  runSnapshot "vsock://3:1024" ("save" :: sample_args ≫= show_arg) =
    runSnapshot "vsock://3:1024" ("save" :: flags_first sample_args ≫= show_arg).
Proof. split; [done|]. apply (snapshot_flags_anywhere "vsock://3:1024" "save" sample_args). by repeat constructor. Defined.

Definition two_layers : LayerConfig := [oci_layer "base" "/images/base.tar"; oci_layer "tools" "/images/tools.tar"].

Lemma import_registers_witness :
  register_layer (oci_layer "base" "/images/new.tar") two_layers =
    [oci_layer "base" "/images/new.tar"; oci_layer "tools" "/images/tools.tar"] ∧
  wp (karim_env (willing "image")) (import_archive "/images/new.tar" "base") (λ code _, code = 0%Z)
    {[layers_config := layers_text two_layers]}.
Proof.
  split; [done|]. eapply (import_registers "/images/new.tar" "base" two_layers).
  - done.
  - split; [by intros l [= <-]|]. apply config_short. by vm_compute.
  - by repeat constructor.
  - by repeat constructor.
  - split; [by intros l [= <-]|]. apply config_short. by vm_compute.
  - done.
  - by vm_compute.
Defined.
End samples.
